(** * OpenHamClock server: DX cluster acquisition layer

    A shallow embedding of the DX-cluster part of the Express server
    ([/api/dxcluster/spots], [/api/dxcluster/paths],
    [estimateLocationFromPrefix]) and of the module-level caches
    ([dxSpiderCache], [dxpeditionCache], [tleCache]), with the properties
    of the acquisition layer proved or refuted on it; and of the routes
    and helpers around them: the plain proxies, [/api/callsign/:call],
    [/api/myspots/:callsign], the parse of [/api/satellites/tle],
    [fetchIonosondeData] with [/api/ionosonde], and the contest
    calendar: [/api/contests] with [parseContestRSS],
    [parseContestDateTime], [calculateUpcomingContests] and the date
    helpers.

    Conventions of the embedding.
    - A JavaScript string is a [string]: the sequence of its code units,
      taken among 256 code units on which [toUpperCase] and [toLowerCase]
      stay: the code units 0..255 without 181 and 255 (the upper case of
      the micro sign and of y with diaeresis is outside of that range),
      and, under the numbers 181 and 255, two code units that have no
      case and are neither white space nor line terminators (as U+2020
      and U+2021). On these the two functions are those of the language:
      the letters a..z and the letters 224..254 but 247 have their upper
      case 32 below, and 223, the sharp s, becomes [SS].
    - A query parameter is what Express hands over: nothing, a string,
      or, for a key that is repeated or written with brackets, an array
      or an object.
    - A JavaScript number is an IEEE 754 binary64 value, [spec_float] at
      precision 53 and maximal exponent 1024; decimal literals are rounded
      to nearest-even, as V8 does.
    - [undefined] and [null] are [None]; a thrown exception or a rejected
      promise is the [Throw] outcome of the handler monad [M].
    - [console.log] and [console.error] are left out: they have no effect
      on any value the server returns or stores. *)

From Stdlib Require Import ZArith List Bool Ascii String Lia.
From Stdlib Require Import SpecFloat DecimalString QArith Sorted.
From stdpp Require Import base option list strings gmap.

Import ListNotations.
Local Open Scope string_scope.
Local Open Scope Z_scope.

(* ===================================================================== *)
(** * JavaScript strings *)
(* ===================================================================== *)

(** [WhiteSpace] and [LineTerminator] code units below 256: TAB, LF, VT,
    FF, CR, SP and NBSP. They are what [String.prototype.trim] strips,
    what [parseFloat] skips and what the regular expression class [\s]
    matches. *)
Definition is_space (c : ascii) : bool :=
  let n := nat_of_ascii c in
  (((9 <=? n) && (n <=? 13)) || (n =? 32) || (n =? 160))%nat.

Definition is_digit (c : ascii) : bool :=
  let n := nat_of_ascii c in ((48 <=? n) && (n <=? 57))%nat.

Definition is_upper (c : ascii) : bool :=
  let n := nat_of_ascii c in ((65 <=? n) && (n <=? 90))%nat.

Definition is_lower (c : ascii) : bool :=
  let n := nat_of_ascii c in ((97 <=? n) && (n <=? 122))%nat.

(** The letters above 127 that have a lower case, 192..222 but the
    multiplication sign 215, and those that have an upper case of one
    code unit, 224..254 but the division sign 247. *)
Definition is_upper_latin (c : ascii) : bool :=
  let n := nat_of_ascii c in ((192 <=? n) && (n <=? 222) && negb (n =? 215))%nat.

Definition is_lower_latin (c : ascii) : bool :=
  let n := nat_of_ascii c in ((224 <=? n) && (n <=? 254) && negb (n =? 247))%nat.

(** The lower case of a code unit, and its upper case when that is one
    code unit: the upper case of every code unit but 223, the sharp s,
    which is kept here. [upper_char] is also what a regular expression
    with the [i] flag compares code units by. *)
Definition lower_char (c : ascii) : ascii :=
  if is_upper c || is_upper_latin c then ascii_of_nat (nat_of_ascii c + 32) else c.

Definition upper_char (c : ascii) : ascii :=
  if is_lower c || is_lower_latin c then ascii_of_nat (nat_of_ascii c - 32) else c.

Fixpoint map_string (f : ascii -> ascii) (s : string) : string :=
  match s with
  | EmptyString => EmptyString
  | String c s' => String (f c) (map_string f s')
  end.

(** [s.toLowerCase()] *)
Definition toLowerCase : string -> string := map_string lower_char.

(** The upper case of one code unit: [SS] for the sharp s. *)
Definition upper_units (c : ascii) : string :=
  if Ascii.eqb c "223" then "SS" else String (upper_char c) EmptyString.

(** [s.toUpperCase()] *)
Fixpoint toUpperCase (s : string) : string :=
  match s with
  | EmptyString => EmptyString
  | String c s' => upper_units c +:+ toUpperCase s'
  end.

Fixpoint forallb_string (p : ascii -> bool) (s : string) : bool :=
  match s with
  | EmptyString => true
  | String c s' => p c && forallb_string p s'
  end.

(** [s.length > 0], the truthiness of a string. *)
Definition nonempty (s : string) : bool :=
  match s with EmptyString => false | String _ _ => true end.

(** [s === s.toUpperCase()]. *)
Definition is_upper_cased (s : string) : bool := String.eqb s (toUpperCase s).

(** [hay.startsWith(needle)]. *)
Fixpoint starts_with (needle hay : string) : bool :=
  match needle, hay with
  | EmptyString, _ => true
  | String a n', String b h' => Ascii.eqb a b && starts_with n' h'
  | String _ _, EmptyString => false
  end.

(** [hay.includes(needle)]. *)
Fixpoint includes (needle hay : string) : bool :=
  starts_with needle hay ||
  match hay with
  | EmptyString => false
  | String _ h' => includes needle h'
  end.

(** [s.split(sep)] for a one-character separator: the pieces between the
    separators, in order; the empty string gives one empty piece. *)
Fixpoint split (sep : ascii) (s : string) : list string :=
  match s with
  | EmptyString => [EmptyString]
  | String c s' =>
      if Ascii.eqb c sep then EmptyString :: split sep s'
      else match split sep s' with
           | [] => [String c EmptyString]
           | p :: ps => String c p :: ps
           end
  end.

Fixpoint trim_start (s : string) : string :=
  match s with
  | String c s' => if is_space c then trim_start s' else s
  | EmptyString => EmptyString
  end.

Fixpoint trim_end (s : string) : string :=
  match s with
  | EmptyString => EmptyString
  | String c s' =>
      match trim_end s' with
      | EmptyString => if is_space c then EmptyString else String c EmptyString
      | t => String c t
      end
  end.

(** [s.trim()]. *)
Definition trim (s : string) : string := trim_end (trim_start s).

(** [s.substring(a, b)] for [0 <= a <= b]. *)
Definition js_substring (a b : nat) (s : string) : string :=
  String.substring a (b - a) s.

(** [xs.slice(0, n)]. *)
Definition slice0 {A} (n : nat) (xs : list A) : list A := firstn n xs.

(** [a || b] on strings, where [a] may be [undefined]: the empty string
    and [undefined] are falsy. *)
Definition str_or (a : option string) (b : string) : string :=
  match a with
  | Some s => if nonempty s then s else b
  | None => b
  end.

(* ===================================================================== *)
(** * JavaScript numbers *)
(* ===================================================================== *)

Definition prec : Z := 53.
Definition emax : Z := 1024.

Abbreviation number := spec_float.

Definition NaN : number := S754_nan.

(** The Number value of the integer [z]. *)
Definition num_of_Z (z : Z) : number := binary_normalize prec emax z 0 false.

(** The Number value of [m * 10^e], rounded once. *)
Definition num_of_decimal (neg : bool) (m : Z) (e : Z) : number :=
  match m with
  | Zpos p =>
      if 0 <=? e then binary_round prec emax neg (Z.to_pos (m * 10 ^ e)) 0
      else SFdiv prec emax (S754_finite neg p 0)
                           (S754_finite false (Z.to_pos (10 ^ (- e))) 0)
  | _ => S754_zero neg
  end.

Definition isNaN (x : number) : bool :=
  match x with S754_nan => true | _ => false end.

(** Truthiness of a number: [NaN], [+0] and [-0] are falsy. *)
Definition num_truthy (x : number) : bool :=
  match x with S754_nan | S754_zero _ => false | _ => true end.

(** [x || y] on numbers. *)
Definition num_or (x y : number) : number := if num_truthy x then x else y.

(** [x > y], [x / y]. *)
Definition num_gt (x y : number) : bool := SFltb y x.
Definition num_div (x y : number) : number := SFdiv prec emax x y.

(** The exact value of a positive finite number [m * 2^e] as a fraction. *)
Definition frac_of (m : positive) (e : Z) : Z * Z :=
  if 0 <=? e then (Zpos m * 2 ^ e, 1) else (Zpos m, 2 ^ (- e)).

(** Decimal digits of a non-negative integer. *)
Definition digits_of_Z (n : Z) : string :=
  NilZero.string_of_uint (N.to_uint (Z.to_N n)).

Fixpoint repeat_char (c : ascii) (n : nat) : string :=
  match n with O => EmptyString | S n' => String c (repeat_char c n') end.

Definition digit_char (d : Z) : ascii := ascii_of_nat (48 + Z.to_nat d).

(** The [f] low decimal digits of [r], zero padded on the left. *)
Fixpoint pad_digits (f : nat) (r : Z) : string :=
  match f with
  | O => EmptyString
  | S f' => pad_digits f' (r / 10) +:+ String (digit_char (r mod 10)) EmptyString
  end.

(** ** [Number::toString]

    For a positive finite [x], the digits are those of the shortest
    decimal [s * 10^(n-k)], with [k] digits, whose Number value is [x]; of
    two such decimals the one closer to [x] is taken. *)

(** [floor (log10 (num / den))] for a positive fraction. *)
Definition floor_log10 (num den : Z) : Z :=
  let dn := Z.of_nat (String.length (digits_of_Z num)) in
  let dd := Z.of_nat (String.length (digits_of_Z den)) in
  let p := dn - dd in
  let ge10 (p : Z) :=
    if 0 <=? p then den * 10 ^ p <=? num else den <=? num * 10 ^ (- p) in
  if ge10 p then p else p - 1.

(** [floor (num / den * 10^(-q))]. *)
Definition scaled_floor (num den q : Z) : Z :=
  if 0 <=? q then num / (den * 10 ^ q) else (num * 10 ^ (- q)) / den.

(** Whether [s * 10^q] is at most as far from [num / den] as [(s+1) * 10^q]
    is: compares [2 * num / den] with [(2 * s + 1) * 10^q]. *)
Definition lower_is_closer (num den s q : Z) : bool :=
  let c :=
    if 0 <=? q then (2 * num) ?= ((2 * s + 1) * 10 ^ q * den)
    else (2 * num * 10 ^ (- q)) ?= ((2 * s + 1) * den) in
  match c with
  | Lt => true
  | Eq => Z.even s
  | Gt => false
  end.

Fixpoint shortest_digits (fuel : nat) (x : number) (num den p k : Z) : Z * Z * Z :=
  let q := p + 1 - k in
  let lo := scaled_floor num den q in
  let hi := lo + 1 in
  let ok s := SFeqb (num_of_decimal false s q) x in
  let norm s := if s =? 10 ^ k then (1, p + 2, 1) else (s, p + 1, k) in
  match fuel with
  | O => norm lo
  | S fuel' =>
      match ok lo, ok hi with
      | true, true => if lower_is_closer num den lo q then norm lo else norm hi
      | true, false => norm lo
      | false, true => norm hi
      | false, false => shortest_digits fuel' x num den p (k + 1)
      end
  end.

(** The text of a positive finite number from its digits [s], their
    count [k] and the position [n] of the decimal point. *)
Definition format_digits (s n k : Z) : string :=
  let ds := digits_of_Z s in
  if (k <=? n) && (n <=? 21) then
    ds +:+ repeat_char "0" (Z.to_nat (n - k))
  else if (0 <? n) && (n <=? 21) then
    String.substring 0 (Z.to_nat n) ds +:+ "." +:+
    String.substring (Z.to_nat n) (Z.to_nat (k - n)) ds
  else if (-6 <? n) && (n <=? 0) then
    "0." +:+ repeat_char "0" (Z.to_nat (- n)) +:+ ds
  else
    let e := n - 1 in
    let es := (if 0 <=? e then "+" else "-") +:+ digits_of_Z (Z.abs e) in
    if k =? 1 then ds +:+ "e" +:+ es
    else String.substring 0 1 ds +:+ "." +:+
         String.substring 1 (Z.to_nat (k - 1)) ds +:+ "e" +:+ es.

(** [String(x)]. *)
Definition num_to_string (x : number) : string :=
  match x with
  | S754_nan => "NaN"
  | S754_zero _ => "0"
  | S754_infinity neg => if neg then "-Infinity" else "Infinity"
  | S754_finite neg m e =>
      let '(num, den) := frac_of m e in
      let '(s, n, k) :=
        shortest_digits 17 (S754_finite false m e) num den (floor_log10 num den) 1 in
      (if neg then "-" else "") +:+ format_digits s n k
  end.

(** ** [Number.prototype.toFixed] *)

(** The integer [n] for which [n / 10^f] is closest to [num / den], the
    larger one of two. *)
Definition round_scaled (num den : Z) (f : nat) : Z :=
  (2 * num * 10 ^ Z.of_nat f + den) / (2 * den).

(** [n] written with [f] digits after the point. *)
Definition fixed_digits (n : Z) (f : nat) : string :=
  match f with
  | O => digits_of_Z n
  | _ => digits_of_Z (n / 10 ^ Z.of_nat f) +:+ "." +:+
         pad_digits f (n mod 10 ^ Z.of_nat f)
  end.

(** [x.toFixed(f)], for [0 <= f <= 100]. *)
Definition toFixed (f : nat) (x : number) : string :=
  match x with
  | S754_finite neg m e =>
      let '(num, den) := frac_of m e in
      if 10 ^ 21 * den <=? num then num_to_string x
      else (if neg then "-" else "") +:+ fixed_digits (round_scaled num den f) f
  | S754_zero _ => fixed_digits 0 f
  | _ => num_to_string x
  end.

(** ** [parseFloat] *)

(** The longest prefix of decimal digits, and what follows it. *)
Fixpoint span_digits (s : string) : string * string :=
  match s with
  | String c s' =>
      if is_digit c then let '(d, r) := span_digits s' in (String c d, r)
      else (EmptyString, s)
  | EmptyString => (EmptyString, EmptyString)
  end.

(** The value of a string of decimal digits. *)
Fixpoint digits_value (acc : Z) (s : string) : Z :=
  match s with
  | String c s' => digits_value (10 * acc + (Z.of_nat (nat_of_ascii c) - 48)) s'
  | EmptyString => acc
  end.

(** An optional sign: whether it is a minus, and what follows it. *)
Definition take_sign (s : string) : bool * string :=
  match s with
  | String "-" s' => (true, s')
  | String "+" s' => (false, s')
  | _ => (false, s)
  end.

(** The [ExponentPart] at the head of [s], if one is there: [e] or [E],
    an optional sign and at least one digit. *)
Definition exponent_part (s : string) : Z :=
  match s with
  | String c s' =>
      if Ascii.eqb c "e" || Ascii.eqb c "E" then
        let '(neg, s'') := take_sign s' in
        let '(d, _) := span_digits s'' in
        if nonempty d then (if neg then - digits_value 0 d else digits_value 0 d)
        else 0
      else 0
  | EmptyString => 0
  end.

(** [parseFloat(s)]: leading white space is skipped, then the longest
    prefix that is a [StrDecimalLiteral] is read; [NaN] if there is none. *)
Definition parseFloat (s : string) : number :=
  let '(neg, s1) := take_sign (trim_start s) in
  if starts_with "Infinity" s1 then S754_infinity neg
  else
    let '(ip, s2) := span_digits s1 in
    let '(fp, s3) :=
      match s2 with
      | String "." s2' => span_digits s2'
      | _ => (EmptyString, s2)
      end in
    if nonempty ip || nonempty fp then
      num_of_decimal neg (digits_value 0 (ip +:+ fp))
                     (exponent_part s3 - Z.of_nat (String.length fp))
    else NaN.

(* ===================================================================== *)
(** * Regular expressions *)
(* ===================================================================== *)

(** The fragment of JavaScript regular expressions that the server uses on
    cluster lines: a sequence of quantified character classes and capture
    group brackets, matched by backtracking in the order the language
    prescribes (a greedy quantifier tries the longest repetition first, a
    lazy one the shortest). *)

Inductive quant : Set :=
  | One                 (* x *)
  | Opt                 (* x? *)
  | Star                (* x* *)
  | Plus                (* x+ *)
  | PlusLazy            (* x+? *)
  | Times (n : nat).    (* x{n} *)

Inductive item : Type :=
  | Cls (p : ascii -> bool) (q : quant)
  | Open (i : nat)
  | Close (i : nat).

Definition regex := list item.

(** The state of a match attempt: where each open group started (the input
    that was left then) and the text of each closed group. *)
Record mstate := MState {
  starts : gmap nat string;
  caps : gmap nat string
}.

Definition mstate0 : mstate := MState ∅ ∅.

Definition open_group (i : nat) (s : string) (st : mstate) : mstate :=
  MState (<[i := s]> (starts st)) (caps st).

Definition close_group (i : nat) (s : string) (st : mstate) : mstate :=
  match starts st !! i with
  | Some s0 =>
      MState (starts st)
             (<[i := String.substring 0 (String.length s0 - String.length s) s0]> (caps st))
  | None => st
  end.

Section Quantifiers.
Context {R : Type}.
Variable p : ascii -> bool.
Variable k : string -> option R.

Definition one (s : string) : option R :=
  match s with
  | String c s' => if p c then k s' else None
  | EmptyString => None
  end.

Definition opt (s : string) : option R :=
  match one s with
  | Some r => Some r
  | None => k s
  end.

Fixpoint star (s : string) : option R :=
  match s with
  | String c s' =>
      if p c then match star s' with Some r => Some r | None => k s end
      else k s
  | EmptyString => k s
  end.

Definition plus (s : string) : option R :=
  match s with
  | String c s' => if p c then star s' else None
  | EmptyString => None
  end.

Fixpoint star_lazy (s : string) : option R :=
  match k s with
  | Some r => Some r
  | None =>
      match s with
      | String c s' => if p c then star_lazy s' else None
      | EmptyString => None
      end
  end.

Definition plus_lazy (s : string) : option R :=
  match s with
  | String c s' => if p c then star_lazy s' else None
  | EmptyString => None
  end.

Fixpoint times (n : nat) (s : string) : option R :=
  match n with
  | O => k s
  | S n' =>
      match s with
      | String c s' => if p c then times n' s' else None
      | EmptyString => None
      end
  end.

Definition quantified (q : quant) : string -> option R :=
  match q with
  | One => one
  | Opt => opt
  | Star => star
  | Plus => plus
  | PlusLazy => plus_lazy
  | Times n => times n
  end.
End Quantifiers.

(** One match attempt at the head of [s]. *)
Fixpoint run (re : regex) (st : mstate) (s : string) : option mstate :=
  match re with
  | [] => Some st
  | Cls p q :: re' => quantified p (run re' st) q s
  | Open i :: re' => run re' (open_group i s st) s
  | Close i :: re' => run re' (close_group i s st) s
  end.

(** [s.match(re)] for a regular expression without the [g] flag: the
    captures of the leftmost match. *)
Fixpoint re_match (re : regex) (s : string) : option (gmap nat string) :=
  match run re mstate0 s with
  | Some st => Some (caps st)
  | None =>
      match s with
      | String _ s' => re_match re s'
      | EmptyString => None
      end
  end.

(** A character under the [i] flag: code units are compared after
    [toUpperCase]. *)
Definition chr_i (c : ascii) : ascii -> bool :=
  fun a => Ascii.eqb (upper_char a) (upper_char c).

Definition chr (c : ascii) : ascii -> bool := fun a => Ascii.eqb a c.

(** A literal under the [i] flag. *)
Fixpoint lit_i (s : string) : regex :=
  match s with
  | EmptyString => []
  | String c s' => Cls (chr_i c) One :: lit_i s'
  end.

(** [[A-Z0-9\/\-]] under the [i] flag. *)
Definition call_char (a : ascii) : bool :=
  let u := upper_char a in
  is_upper u || is_digit u || Ascii.eqb u "/" || Ascii.eqb u "-".

(** [.]: any code unit but a line terminator. *)
Definition dot (a : ascii) : bool :=
  negb (Ascii.eqb a "010" || Ascii.eqb a "013").

(** The spot line pattern of [fetchDXSpider], under the [i] flag; its
    parts, in order:
    - [DX de ] and group 1, [[A-Z0-9\/\-]+], then [:] and [\s+];
    - group 2, [\d+\.?\d*], then [\s+];
    - group 3, [[A-Z0-9\/\-]+], then [\s+];
    - group 4, [.+?], then [\s+];
    - group 5, [\d{4}], then [Z]. *)
Definition spot_line_re : regex :=
  (lit_i "DX de " ++
   [Open 1; Cls call_char Plus; Close 1] ++
   lit_i ":" ++ [Cls is_space Plus] ++
   [Open 2; Cls is_digit Plus; Cls (chr ".") Opt; Cls is_digit Star; Close 2] ++
   [Cls is_space Plus] ++
   [Open 3; Cls call_char Plus; Close 3] ++
   [Cls is_space Plus] ++
   [Open 4; Cls dot PlusLazy; Close 4] ++
   [Cls is_space Plus] ++
   [Open 5; Cls is_digit (Times 4); Close 5] ++
   lit_i "Z")%list.

(* ===================================================================== *)
(** * Spots and the two line parsers *)
(* ===================================================================== *)

(** A spot as both fetchers build it,
    [{ freq, call, comment, time, spotter, source }]. *)
Record Spot := {
  freq : string;
  call : string;
  comment : string;
  time : string;
  spotter : string;
  source : string
}.

Definition newline : ascii := "010".
Definition caret : string := "^".

(** [hh + ':' + mm + 'z'] from the first four characters of [t]. *)
Definition hhmmz (t : string) : string :=
  js_substring 0 2 t +:+ ":" +:+ js_substring 2 4 t +:+ "z".

(** ** HamQTH: one CSV line to a spot (the callback of [lines.map]) *)

Definition parseFloat_opt (o : option string) : number :=
  match o with Some s => parseFloat s | None => NaN end.

Definition hamqth_freq (freqKhz : number) : string :=
  if num_gt freqKhz (num_of_Z 1000)
  then toFixed 3 (num_div freqKhz (num_of_Z 1000))
  else num_to_string freqKhz.

Definition hamqth_spot (line : string) : Spot :=
  let parts := split "^" line in
  let spotter := str_or (parts !! 0%nat) "" in
  let freqKhz := num_or (parseFloat_opt (parts !! 1%nat)) (num_of_Z 0) in
  let dxCall := str_or (parts !! 2%nat) "UNKNOWN" in
  let comment := str_or (parts !! 3%nat) "" in
  let timeDate := str_or (parts !! 4%nat) "" in
  let freqMhz := hamqth_freq freqKhz in
  let time :=
    if nonempty timeDate && (4 <=? String.length timeDate)%nat
    then hhmmz (js_substring 0 4 timeDate)
    else "" in
  {| freq := freqMhz; call := dxCall; comment := comment; time := time;
     spotter := spotter; source := "HamQTH" |}.

(** [text.trim().split('\n').filter(line => line.includes('^'))] *)
Definition hamqth_lines (text : string) : list string :=
  List.filter (includes caret) (split newline (trim text)).

(** What [fetchHamQTH] makes of a response body: the spots of the first 25
    delimited lines, or nothing ([null]) when no line is delimited. *)
Definition hamqth_parse (text : string) : option (list Spot) :=
  let lines := hamqth_lines text in
  if (0 <? List.length lines)%nat
  then Some (List.map hamqth_spot (slice0 25 lines))
  else None.

(** ** DX Spider: the scan of one line of the session buffer *)

(** [s.replace(c, '')]: the first occurrence of [c] is removed. *)
Fixpoint remove_first (c : ascii) (s : string) : string :=
  match s with
  | EmptyString => EmptyString
  | String a s' => if Ascii.eqb a c then s' else String a (remove_first c s')
  end.

(** [match[i]]. Every group of [spot_line_re] takes part in every match. *)
Definition group (m : gmap nat string) (i : nat) : string := default "" (m !! i).

(** [spots.find(s => s.call === dxCall && s.freq === freqMhz)], as a test. *)
Definition seen (spots : list Spot) (dxCall freqMhz : string) : bool :=
  existsb (fun s => String.eqb (call s) dxCall && String.eqb (freq s) freqMhz) spots.

(** The spot a line stands for, when the line matches the pattern and
    passes the checks on frequency and call. *)
Definition spider_spot (line : string) : option Spot :=
  if includes "DX de " line then
    match re_match spot_line_re line with
    | Some m =>
        let spotter := remove_first ":" (group m 1) in
        let freqKhz := parseFloat (group m 2) in
        let dxCall := group m 3 in
        let comment := trim (group m 4) in
        let timeStr := group m 5 in
        if negb (isNaN freqKhz) && num_gt freqKhz (num_of_Z 0) && nonempty dxCall then
          let freqMhz := toFixed 3 (num_div freqKhz (num_of_Z 1000)) in
          let time := hhmmz timeStr in
          Some {| freq := freqMhz; call := dxCall; comment := comment;
                  time := time; spotter := spotter; source := "DX Spider" |}
        else None
    | None => None
    end
  else None.

(** The body of [for (const line of lines)]: the spot of the line is
    pushed unless one with its call and frequency is there already. *)
Definition scan_line (spots : list Spot) (line : string) : list Spot :=
  match spider_spot line with
  | Some s => if seen spots (call s) (freq s) then spots else (spots ++ [s])%list
  | None => spots
  end.

(** ** DX Spider: the session *)

(** The variables that the socket callbacks of one [fetchDXSpider] call
    share, what has been written to the socket, and what the timers set
    with [setTimeout] are to write to it, in the order they were set.
    [bye] is followed by the destruction of the socket half a second
    later. *)
Module Session.
Record t := Make {
  spots : list Spot;
  buffer : string;
  loginSent : bool;
  commandSent : bool;
  written : list string;
  scheduled : list string
}.
Definition init : t := Make [] "" false false [] [].
End Session.

Definition crlf : string := String "013" (String "010" EmptyString).

(** [client.on('data', ...)]. The login is written at once; the command
    is not: a timer is set, which writes it one second later. *)
Definition on_data (st : Session.t) (data : string) : Session.t :=
  let buffer := Session.buffer st +:+ data in
  if negb (Session.loginSent st) &&
     (includes "login:" buffer || includes "Please enter your call" buffer ||
      includes "enter your callsign" buffer)
  then
    Session.Make (Session.spots st) buffer true (Session.commandSent st)
                 (Session.written st ++ ["GUEST" +:+ crlf])%list
                 (Session.scheduled st)
  else if Session.loginSent st && negb (Session.commandSent st) &&
          (includes "Hello" buffer || includes "de " buffer ||
           includes ">" buffer || includes "GUEST" buffer)
  then
    Session.Make (Session.spots st) buffer (Session.loginSent st) true
                 (Session.written st)
                 (Session.scheduled st ++ ["sh/dx 25" +:+ crlf])%list
  else
    let spots := fold_left scan_line (split newline buffer) (Session.spots st) in
    Session.Make spots buffer (Session.loginSent st) (Session.commandSent st)
                 (if (20 <=? List.length spots)%nat
                  then (Session.written st ++ ["bye" +:+ crlf])%list
                  else Session.written st)
                 (Session.scheduled st).

(** The callback of the timer that was set first, when the socket is
    still open: [client.write(...)]. *)
Definition on_timer (st : Session.t) : Session.t :=
  match Session.scheduled st with
  | [] => st
  | line :: rest =>
      Session.Make (Session.spots st) (Session.buffer st) (Session.loginSent st)
                   (Session.commandSent st) (Session.written st ++ [line])%list rest
  end.

(** The session after the data events of one connection, in order, when
    no timer has run; the timers change neither the spots, the buffer
    nor the two flags. *)
Definition run_session (chunks : list string) : Session.t :=
  fold_left on_data chunks Session.init.

(** A callback that runs while the socket is open: a [data] event, or a
    timer, one second after it was set. *)
Inductive session_event : Type :=
  | Data (data : string)
  | Timer.

Definition on_event (st : Session.t) (e : session_event) : Session.t :=
  match e with
  | Data data => on_data st data
  | Timer => on_timer st
  end.

(** The session after the callbacks of one connection, in the order in
    which they ran. *)
Definition run_events (events : list session_event) : Session.t :=
  fold_left on_event events Session.init.

(* ===================================================================== *)
(** * Handlers: clock, module-level state and exceptions *)
(* ===================================================================== *)

(** A thrown value: an [Error] with its [name] and [message]. *)
Record exn := Exn { name : string; message : string }.

Inductive outcome (A : Type) : Type :=
  | Ok (a : A)
  | Throw (e : exn).
Arguments Ok {A} a.
Arguments Throw {A} e.

(** What a handler did to the outside, in order. *)
Inductive event : Type :=
  | Fetch (url : string)
  | Connect (host : string) (port : Z).

(** The world a handler runs in: the clock that [Date.now()] reads (in
    milliseconds), the upstream calls made so far, and the module-level
    variables [S] of the server. *)
Record world (S : Type) := World {
  clock : Z;
  trace : list event;
  store : S
}.
Arguments World {S} clock trace store.
Arguments clock {S} w.
Arguments trace {S} w.
Arguments store {S} w.

(** An [async] function body: it reads and writes the world and either
    returns a value or throws (its promise is rejected). *)
Definition M (S A : Type) : Type := world S -> outcome A * world S.

Section Monad.
Context {S : Type}.

Definition ret {A} (a : A) : M S A := fun w => (Ok a, w).

Definition bind {A B} (m : M S A) (f : A -> M S B) : M S B :=
  fun w =>
    match m w with
    | (Ok a, w') => f a w'
    | (Throw e, w') => (Throw e, w')
    end.

Definition throw {A} (e : exn) : M S A := fun w => (Throw e, w).

(** [try { body } catch (error) { handler }] *)
Definition try_catch {A} (body : M S A) (handler : exn -> M S A) : M S A :=
  fun w =>
    match body w with
    | (Ok a, w') => (Ok a, w')
    | (Throw e, w') => handler e w'
    end.

(** [Date.now()] *)
Definition date_now : M S Z := fun w => (Ok (clock w), w).

(** Time passing while the handler awaits: [ms] milliseconds. *)
Definition elapse (ms : Z) : M S unit :=
  fun w => (Ok tt, World (clock w + ms) (trace w) (store w)).

Definition emit (e : event) : M S unit :=
  fun w => (Ok tt, World (clock w) (trace w ++ [e])%list (store w)).

Definition get_var : M S S := fun w => (Ok (store w), w).

Definition set_var (s : S) : M S unit :=
  fun w => (Ok tt, World (clock w) (trace w) s).
End Monad.

Declare Scope js_scope.
Delimit Scope js_scope with js.
Notation "x <- m ;; k" := (bind m (fun x => k))
  (at level 100, m at next level, right associativity) : js_scope.
Notation "m ;;; k" := (bind m (fun _ => k))
  (at level 100, right associativity) : js_scope.
Local Open Scope js_scope.

(** ** Upstream replies *)

(** What [await fetch(url)] and then [await response.text()] come to:
    the promise of [fetch] is rejected (a transport error, or an
    [AbortError] when the timeout aborts the request), or it resolves to a
    response with its [ok] flag, whose body is read or fails to be read. *)
Inductive fetch_result : Type :=
  | Rejected (e : exn)
  | Resolved (ok : bool) (text : outcome string).

Record http_reply := HttpReply {
  latency : Z;
  result : fetch_result
}.

Record Response := { ok : bool; text : outcome string }.

Section Fetch.
Context {S : Type}.

(** [await fetch(url, ...)] *)
Definition fetch (url : string) (r : http_reply) : M S Response :=
  emit (Fetch url) ;;;
  elapse (latency r) ;;;
  match result r with
  | Rejected e => throw e
  | Resolved ok text => ret {| ok := ok; text := text |}
  end.

(** [await response.text()] *)
Definition response_text (r : Response) : M S string :=
  match text r with
  | Ok s => ret s
  | Throw e => throw e
  end.
End Fetch.

(** How a telnet connection comes to its end. Each way destroys the
    socket, if the peer has not closed it, and the socket then emits
    [close]. The 20 second timer ends the connection when spots have been
    collected or the socket is readable; otherwise it does nothing and the
    connection ends in one of the other ways. *)
Inductive ending : Type :=
  | PeerClosed                       (* the node closes the connection *)
  | IdleTimeout                      (* [timeout]: 15 seconds without traffic *)
  | SocketError (message : string)   (* [error] *)
  | ByeTimer                         (* half a second after [bye] was written *)
  | FallbackTimer.                   (* 20 seconds after the call *)

(** What one telnet connection brings: the chunks of its [data] events, in
    order, the way it ends, and the time from the call to its end. *)
Record telnet_run := TelnetRun {
  chunks : list string;
  ends : ending;
  duration : Z
}.

(** What the upstreams do during one request. *)
Record upstream := Upstream {
  hamqth : http_reply;
  dxspider : telnet_run
}.

(** ** A response of the server *)

Record reply (B : Type) := Reply {
  status : Z;
  body : B
}.
Arguments Reply {B} status body.
Arguments status {B} r.
Arguments body {B} r.

(** [res.json(b)] and [res.status(code).json(b)]. *)
Definition res_json {B} (b : B) : reply B := Reply 200 b.
Definition res_status_json {B} (code : Z) (b : B) : reply B := Reply code b.

(* ===================================================================== *)
(** * [GET /api/dxcluster/spots] *)
(* ===================================================================== *)

Module SpiderCache.
(** [let dxSpiderCache = { spots: [], timestamp: 0 }] *)
Record t := Make {
  spots : list Spot;
  timestamp : Z
}.
Definition init : t := Make [] 0.
End SpiderCache.

Definition DXSPIDER_CACHE_TTL : Z := 60000.

Definition hamqth_url : string := "https://www.hamqth.com/dxc_csv.php?limit=25".

(** The helper [fetchHamQTH]: the spots, or [null]. The [return null]
    after the [try] statement is reached from the [catch] clause, from a
    response that is not [ok] and from a body without a delimited line. *)
Definition fetchHamQTH {S} (up : upstream) : M S (option (list Spot)) :=
  try_catch
    (response <- fetch hamqth_url (hamqth up) ;;
     if ok response then
       text <- response_text response ;;
       ret (hamqth_parse text)
     else ret None)
    (fun error => ret None).

(** [client.on('close', ...)]: what the promise is resolved with. *)
Definition on_close (spots : list Spot) : M SpiderCache.t (option (list Spot)) :=
  if (0 <? List.length spots)%nat then
    now <- date_now ;;
    set_var (SpiderCache.Make spots now) ;;;
    ret (Some spots)
  else ret None.

(** [client.destroy()]: the socket emits [close]. *)
Definition destroy (spots : list Spot) : M SpiderCache.t (option (list Spot)) :=
  on_close spots.

(** [client.on('timeout', ...)] and [client.on('error', ...)]. *)
Definition on_timeout (spots : list Spot) : M SpiderCache.t (option (list Spot)) :=
  destroy spots.

Definition on_error (message : string) (spots : list Spot)
  : M SpiderCache.t (option (list Spot)) :=
  destroy spots.

(** The 20 second timer. With no spot and the socket readable it destroys
    the socket and resolves the promise with [null] itself; the [close]
    handler that follows finds no spot either. *)
Definition on_fallback (spots : list Spot) : M SpiderCache.t (option (list Spot)) :=
  if (0 <? List.length spots)%nat then destroy spots
  else ret None.

(** The helper [fetchDXSpider]: the cached spots while they are fresh,
    else the spots of a new session, or [null] when it collected none. *)
Definition fetchDXSpider (up : upstream) : M SpiderCache.t (option (list Spot)) :=
  now <- date_now ;;
  dxSpiderCache <- get_var ;;
  if (now - SpiderCache.timestamp dxSpiderCache <? DXSPIDER_CACHE_TTL) &&
     (0 <? List.length (SpiderCache.spots dxSpiderCache))%nat
  then ret (Some (SpiderCache.spots dxSpiderCache))
  else
    emit (Connect "dxspider.co.uk" 7300) ;;;
    elapse (duration (dxspider up)) ;;;
    let spots := Session.spots (run_session (chunks (dxspider up))) in
    match ends (dxspider up) with
    | PeerClosed => on_close spots
    | IdleTimeout => on_timeout spots
    | SocketError message => on_error message spots
    | ByeTimer => destroy spots
    | FallbackTimer => on_fallback spots
    end.

(** What Express hands over as [req.query.source] when the query has
    the key: a string, or, for a key that is repeated or written with
    brackets, an array or an object of such values. *)
#[local] Unset Elimination Schemes.
Inductive query_value : Type :=
  | QString (s : string)
  | QArray (items : list query_value)
  | QObject (fields : list (string * query_value)).
#[local] Set Elimination Schemes.

(** [req.query.source || 'auto']: the empty string is falsy, an array
    and an object are truthy. *)
Definition source_or_auto (q : option query_value) : query_value :=
  match q with
  | None => QString "auto"
  | Some (QString s) => QString (if nonempty s then s else "auto")
  | Some value => value
  end.

(** The error of a call of what is not a function, as V8 words it. *)
Definition not_a_function : exn :=
  Exn "TypeError"
      ("(req.query.source || " +:+ String "034" "auto" +:+ String "034" ""
       +:+ ").toLowerCase is not a function").

(** The source named by the query,
    [(req.query.source || 'auto').toLowerCase()]: an array and an object
    have no method [toLowerCase], and the call throws. *)
Definition query_source (q : option query_value) : outcome string :=
  match source_or_auto q with
  | QString s => Ok (toLowerCase s)
  | QArray _ | QObject _ => Throw not_a_function
  end.

(** The route handler. Its first statement is outside of every [try].
    [!spots] holds of [null] only: an array is truthy. *)
Definition dxcluster_spots (q : option query_value) (up : upstream)
  : M SpiderCache.t (reply (list Spot)) :=
  source <- (match query_source q with
             | Ok source => ret source
             | Throw e => throw e
             end) ;;
  spots <-
    (if String.eqb source "hamqth" then fetchHamQTH up
     else if String.eqb source "dxspider" then
       spots <- fetchDXSpider up ;;
       match spots with
       | None => fetchHamQTH up
       | Some _ => ret spots
       end
     else
       spots <- fetchHamQTH up ;;
       match spots with
       | None => fetchDXSpider up
       | Some _ => ret spots
       end) ;;
  ret (res_json (default [] spots)).

(* ===================================================================== *)
(** * [GET /api/dxpeditions] *)
(* ===================================================================== *)

Module DxpeditionCache.
(** [let dxpeditionCache = { data: null, timestamp: 0, maxAge: 30 * 60 * 1000 }] *)
Record t (P : Type) := Make {
  data : option P;
  timestamp : Z;
  maxAge : Z
}.
Arguments Make {P} data timestamp maxAge.
Arguments data {P} _.
Arguments timestamp {P} _.
Arguments maxAge {P} _.
Definition init {P} : t P := Make None 0 (30 * 60 * 1000).
End DxpeditionCache.

(** What the route answers with: the result, the cached result spread into
    an object with [stale: true], or an error object. *)
Inductive dxpeditions_body (P : Type) : Type :=
  | Fresh (result : P)
  | Stale (cached : P)
  | Failed (error : string).
Arguments Fresh {P} result.
Arguments Stale {P} cached.
Arguments Failed {P} error.

Section Dxpeditions.
(** The result object of the route, and how the text of the NG3K page
    is turned into one at a given time (the parse reads the clock for the
    [isActive] and [isUpcoming] flags, and can throw: [toISOString] does
    on an invalid date). The cache handling looks into neither. *)
Variable payload : Type.
Variable parse_adxo : Z -> string -> outcome payload.

Definition ng3k_url : string := "https://www.ng3k.com/Misc/adxoplain.html".

Definition parse_page (text : string) : M (DxpeditionCache.t payload) payload :=
  t <- date_now ;;
  match parse_adxo t text with
  | Ok result => ret result
  | Throw e => throw e
  end.

(** [dxpeditionCache.data && (now - dxpeditionCache.timestamp) < dxpeditionCache.maxAge] *)
Definition dxpedition_fresh (c : DxpeditionCache.t payload) (now : Z) : option payload :=
  match DxpeditionCache.data c with
  | Some data =>
      if now - DxpeditionCache.timestamp c <? DxpeditionCache.maxAge c
      then Some data else None
  | None => None
  end.

Definition dxpeditions (r : http_reply)
  : M (DxpeditionCache.t payload) (reply (dxpeditions_body payload)) :=
  try_catch
    (now <- date_now ;;
     dxpeditionCache <- get_var ;;
     match dxpedition_fresh dxpeditionCache now with
     | Some data => ret (res_json (Fresh data))
     | None =>
         response <- fetch ng3k_url r ;;
         (if ok response then ret tt
          else throw (Exn "Error" "Failed to fetch NG3K")) ;;;
         text <- response_text response ;;
         result <- parse_page text ;;
         dxpeditionCache <- get_var ;;
         set_var (DxpeditionCache.Make (Some result) now
                  (DxpeditionCache.maxAge dxpeditionCache)) ;;;
         ret (res_json (Fresh result))
     end)
    (fun error =>
       dxpeditionCache <- get_var ;;
       match DxpeditionCache.data dxpeditionCache with
       | Some data => ret (res_json (Stale data))
       | None => ret (res_status_json 500 (Failed "Failed to fetch DXpedition data"))
       end).

(** What a refresh comes to when its parse runs at time [t]: the new
    result, or nothing when the request is rejected, the response is not
    [ok], the body cannot be read or the parse throws. *)
Definition dxpedition_refresh (r : http_reply) (t : Z) : option payload :=
  match result r with
  | Resolved true (Ok text) =>
      match parse_adxo t text with
      | Ok result => Some result
      | Throw _ => None
      end
  | _ => None
  end.
End Dxpeditions.

(* ===================================================================== *)
(** * [GET /api/satellites/tle] *)
(* ===================================================================== *)

Module TleCache.
(** [let tleCache = { data: null, timestamp: 0 }] *)
Record t (D : Type) := Make {
  data : option D;
  timestamp : Z
}.
Arguments Make {D} data timestamp.
Arguments data {D} _.
Arguments timestamp {D} _.
Definition init {D} : t D := Make None 0.
End TleCache.

Definition TLE_CACHE_DURATION : Z := 6 * 60 * 60 * 1000.

Section Satellites.
(** The [tleData] object and what the route does to it: [{}], the
    entries read from the text of the amateur group, the test
    [tleData['ISS']], and the entry read from the text for the ISS. None
    of them throws. The cache handling looks into none of them. *)
Variable tle : Type.
Variable tle_empty : tle.
Variable parse_group : string -> tle -> tle.
Variable has_iss : tle -> bool.
Variable parse_iss : string -> tle -> tle.

Definition amateur_url : string :=
  "https://celestrak.org/NORAD/elements/gp.php?GROUP=amateur&FORMAT=tle".
Definition iss_url : string :=
  "https://celestrak.org/NORAD/elements/gp.php?CATNR=25544&FORMAT=tle".

Definition tle_fresh (c : TleCache.t tle) (now : Z) : option tle :=
  match TleCache.data c with
  | Some data => if now - TleCache.timestamp c <? TLE_CACHE_DURATION then Some data else None
  | None => None
  end.

Definition satellites_tle (amateur iss : http_reply)
  : M (TleCache.t tle) (reply tle) :=
  try_catch
    (now <- date_now ;;
     tleCache <- get_var ;;
     match tle_fresh tleCache now with
     | Some data => ret (res_json data)
     | None =>
         response <- fetch amateur_url amateur ;;
         tleData <-
           (if ok response then
              text <- response_text response ;;
              ret (parse_group text tle_empty)
            else ret tle_empty) ;;
         tleData <-
           (if negb (has_iss tleData) then
              try_catch
                (issResponse <- fetch iss_url iss ;;
                 if ok issResponse then
                   issText <- response_text issResponse ;;
                   ret (parse_iss issText tleData)
                 else ret tleData)
                (fun e => ret tleData)
            else ret tleData) ;;
         set_var (TleCache.Make (Some tleData) now) ;;;
         ret (res_json tleData)
     end)
    (fun error =>
       tleCache <- get_var ;;
       ret (res_json (default tle_empty (TleCache.data tleCache)))).

(** The second request is made when the first left no ISS entry. *)
Definition tle_group (amateur : http_reply) : option tle :=
  match result amateur with
  | Resolved true (Ok text) => Some (parse_group text tle_empty)
  | Resolved false _ => Some tle_empty
  | _ => None
  end.

Definition tle_with_iss (iss : http_reply) (tleData : tle) : tle :=
  if has_iss tleData then tleData
  else match result iss with
       | Resolved true (Ok issText) => parse_iss issText tleData
       | _ => tleData
       end.

(** The time the refresh takes. *)
Definition tle_time (amateur iss : http_reply) (tleData : tle) : Z :=
  if has_iss tleData then latency amateur else latency amateur + latency iss.
End Satellites.

(* ===================================================================== *)
(** * [estimateLocationFromPrefix] *)
(* ===================================================================== *)

(** A numeric literal of the source. *)
Definition lit (s : string) : number := parseFloat s.

(** An entry of the prefix table, [{ lat, lon, country }]. *)
Record Place := {
  lat : number;
  lon : number;
  country : string
}.

Definition place (lat lon country : string) : Place :=
  {| lat := lit lat; lon := lit lon; country := country |}.

(** The object literal [prefixLocations]. Its keys have one or two
    characters, and so do the keys it is read at: none of them names a
    property that the object inherits. *)
Definition prefixLocations : gmap string Place :=
  list_to_map [
    ("K", place "39.8" "-98.5" "USA");
    ("W", place "39.8" "-98.5" "USA");
    ("N", place "39.8" "-98.5" "USA");
    ("AA", place "39.8" "-98.5" "USA");
    ("AB", place "39.8" "-98.5" "USA");
    ("VE", place "56.1" "-106.3" "Canada");
    ("VA", place "56.1" "-106.3" "Canada");
    ("G", place "52.4" "-1.5" "England");
    ("M", place "52.4" "-1.5" "England");
    ("F", place "46.2" "2.2" "France");
    ("DL", place "51.2" "10.4" "Germany");
    ("DJ", place "51.2" "10.4" "Germany");
    ("DK", place "51.2" "10.4" "Germany");
    ("I", place "41.9" "12.6" "Italy");
    ("JA", place "36.2" "138.3" "Japan");
    ("JH", place "36.2" "138.3" "Japan");
    ("JR", place "36.2" "138.3" "Japan");
    ("VK", place "-25.3" "133.8" "Australia");
    ("ZL", place "-40.9" "174.9" "New Zealand");
    ("ZS", place "-30.6" "22.9" "South Africa");
    ("LU", place "-38.4" "-63.6" "Argentina");
    ("PY", place "-14.2" "-51.9" "Brazil");
    ("EA", place "40.5" "-3.7" "Spain");
    ("CT", place "39.4" "-8.2" "Portugal");
    ("PA", place "52.1" "5.3" "Netherlands");
    ("ON", place "50.5" "4.5" "Belgium");
    ("OZ", place "56.3" "9.5" "Denmark");
    ("SM", place "60.1" "18.6" "Sweden");
    ("LA", place "60.5" "8.5" "Norway");
    ("OH", place "61.9" "25.7" "Finland");
    ("UA", place "61.5" "105.3" "Russia");
    ("RU", place "61.5" "105.3" "Russia");
    ("RA", place "61.5" "105.3" "Russia");
    ("BY", place "35.9" "104.2" "China");
    ("BV", place "23.7" "121.0" "Taiwan");
    ("HL", place "35.9" "127.8" "South Korea");
    ("VU", place "20.6" "79.0" "India");
    ("HS", place "15.9" "100.9" "Thailand");
    ("DU", place "12.9" "121.8" "Philippines");
    ("YB", place "-0.8" "113.9" "Indonesia");
    ("9V", place "1.4" "103.8" "Singapore");
    ("9M", place "4.2" "101.9" "Malaysia")
  ].

(** The result object, [{ callsign, ...entry, estimated: true }]: [entry]
    stands for the three properties spread from the table entry. *)
Record Estimate := {
  callsign : string;
  entry : Place;
  estimated : bool
}.

Definition estimateLocationFromPrefix (callsign : string) : option Estimate :=
  let prefix2 := js_substring 0 2 callsign in
  let prefix1 := js_substring 0 1 callsign in
  match prefixLocations !! prefix2 with
  | Some entry => Some {| callsign := callsign; entry := entry; estimated := true |}
  | None =>
      match prefixLocations !! prefix1 with
      | Some entry => Some {| callsign := callsign; entry := entry; estimated := true |}
      | None => None
      end
  end.

(* ===================================================================== *)
(** * [GET /api/dxcluster/paths] *)
(* ===================================================================== *)

Module PathSpot.
(** A spot of this route, [{ spotter, dxCall, freq, comment, time }]. *)
Record t := Make {
  spotter : string;
  dxCall : string;
  freq : string;
  comment : string;
  time : string
}.
End PathSpot.

(** A path, a spot with the places of its two ends. *)
Record Path := {
  path_spotter : string;
  spotterLat : number;
  spotterLon : number;
  spotterCountry : string;
  path_dxCall : string;
  dxLat : number;
  dxLon : number;
  dxCountry : string;
  path_freq : string;
  path_comment : string;
  path_time : string
}.

Module PathsCache.
(** [let dxSpotPathsCache = { paths: [], timestamp: 0 }] *)
Record t := Make {
  paths : list Path;
  timestamp : Z
}.
Definition init : t := Make [] 0.
End PathsCache.

Definition DXPATHS_CACHE_TTL : Z := 30000.

(** [allCalls.add(c)] on a [Set], which keeps the order of insertion. *)
Definition set_add (calls : list string) (c : string) : list string :=
  if existsb (String.eqb c) calls then calls else (calls ++ [c])%list.

(** The callback of [spots.forEach]: the spotter, then the DX call. *)
Definition calls_step (calls : list string) (s : PathSpot.t) : list string :=
  set_add (set_add calls (PathSpot.spotter s)) (PathSpot.dxCall s).

(** The calls of all spots, each once, in the order they come. *)
Definition all_calls (spots : list PathSpot.t) : list string :=
  fold_left calls_step spots [].

(** The body of the lookup loop: a call with an estimate gets its place. *)
Definition lookup_step (locations : gmap string Place) (call : string)
  : gmap string Place :=
  match estimateLocationFromPrefix call with
  | Some loc => <[call := entry loc]> locations
  | None => locations
  end.

(** The object [locations] after the lookup loop. Every key has been
    through [toUpperCase]: none names a property that the object inherits. *)
Definition lookup_locations (callsToLookup : list string) : gmap string Place :=
  fold_left lookup_step callsToLookup ∅.

(** The object literal that the callback of [spots.map] returns. *)
Definition make_path (spot : PathSpot.t) (spotterLoc dxLoc : Place) : Path :=
  {| path_spotter := PathSpot.spotter spot;
     spotterLat := lat spotterLoc;
     spotterLon := lon spotterLoc;
     spotterCountry := country spotterLoc;
     path_dxCall := PathSpot.dxCall spot;
     dxLat := lat dxLoc;
     dxLon := lon dxLoc;
     dxCountry := country dxLoc;
     path_freq := PathSpot.freq spot;
     path_comment := PathSpot.comment spot;
     path_time := PathSpot.time spot |}.

(** The callback of [spots.map]: the path of a spot, or [null]. *)
Definition path_of (locations : gmap string Place) (spot : PathSpot.t) : option Path :=
  match locations !! PathSpot.spotter spot, locations !! PathSpot.dxCall spot with
  | Some spotterLoc, Some dxLoc => Some (make_path spot spotterLoc dxLoc)
  | _, _ => None
  end.

(** [.filter(p => p !== null)] after the map. *)
Fixpoint drop_nulls {A} (xs : list (option A)) : list A :=
  match xs with
  | [] => []
  | Some x :: xs' => x :: drop_nulls xs'
  | None :: xs' => drop_nulls xs'
  end.

(** From the spots to the paths: at most 40 calls are looked up, at most
    25 paths are kept. *)
Definition build_paths (spots : list PathSpot.t) : list Path :=
  let callsToLookup := slice0 40 (all_calls spots) in
  let locations := lookup_locations callsToLookup in
  slice0 25 (drop_nulls (List.map (path_of locations) spots)).

Section Paths.
(** Whether a spot is kept for its time: [!spotTime || spotTime >=
    fiveMinutesAgo], from the clock and the time and date field. *)
Variable is_recent : Z -> string -> bool.

(** The body of the loop over the lines: the spot of a line, if it has
    five fields, a spotter, a DX call and a positive frequency, and is
    recent. *)
Definition path_spot (now : Z) (line : string) : option PathSpot.t :=
  let parts := split "^" line in
  if (List.length parts <? 5)%nat then None
  else
    let spotter := toUpperCase (trim (default "" (parts !! 0%nat))) in
    let freqKhz := num_or (parseFloat_opt (parts !! 1%nat)) (num_of_Z 0) in
    let dxCall := toUpperCase (trim (default "" (parts !! 2%nat))) in
    let comment := str_or (trim <$> parts !! 3%nat) "" in
    let timeDate := str_or (trim <$> parts !! 4%nat) "" in
    if negb (nonempty spotter) || negb (nonempty dxCall) ||
       SFleb freqKhz (num_of_Z 0)
    then None
    else if is_recent now timeDate then
      Some (PathSpot.Make spotter dxCall
              (toFixed 3 (num_div freqKhz (num_of_Z 1000)))
              comment
              (if (4 <=? String.length timeDate)%nat
               then js_substring 0 2 timeDate +:+ ":" +:+
                    js_substring 2 4 timeDate +:+ "z"
               else ""))
    else None.

Definition paths_url : string := "https://www.hamqth.com/dxc_csv.php?limit=50".

Definition dxcluster_paths (r : http_reply) : M PathsCache.t (reply (list Path)) :=
  now <- date_now ;;
  dxSpotPathsCache <- get_var ;;
  if (now - PathsCache.timestamp dxSpotPathsCache <? DXPATHS_CACHE_TTL) &&
     (0 <? List.length (PathsCache.paths dxSpotPathsCache))%nat
  then ret (res_json (PathsCache.paths dxSpotPathsCache))
  else
    try_catch
      (response <- fetch paths_url r ;;
       if negb (ok response) then ret (res_json [])
       else
         text <- response_text response ;;
         let lines := hamqth_lines text in
         now <- date_now ;;
         let spots := drop_nulls (List.map (path_spot now) lines) in
         let paths := build_paths spots in
         stamp <- date_now ;;
         set_var (PathsCache.Make paths stamp) ;;;
         ret (res_json paths))
      (fun error => ret (res_json [])).
End Paths.

(* ===================================================================== *)
(** * The plain proxies *)
(* ===================================================================== *)

(** What a plain proxy answers with: the data of the upstream, or an
    error object. *)
Inductive proxy_body (J : Type) : Type :=
  | Relayed (data : J)
  | ProxyError (error : string).
Arguments Relayed {J} data.
Arguments ProxyError {J} error.

Section Proxies.
(** The values of JSON, and [JSON.parse], which throws a [SyntaxError]
    on a text that is not JSON. *)
Variable json : Type.
Variable json_parse : string -> outcome json.

(** [await response.json()] *)
Definition response_json {S} (r : Response) : M S json :=
  text <- response_text r ;;
  match json_parse text with
  | Ok data => ret data
  | Throw e => throw e
  end.

(** The handler shared by [/api/noaa/flux], [/api/noaa/kindex],
    [/api/noaa/sunspots], [/api/noaa/xray], [/api/pota/spots] and
    [/api/sota/spots], for the address of the upstream and the message
    of the error object. *)
Definition proxy_json {S} (url failure : string) (r : http_reply)
  : M S (reply (proxy_body json)) :=
  try_catch
    (response <- fetch url r ;;
     data <- response_json response ;;
     ret (res_json (Relayed data)))
    (fun error => ret (res_status_json 500 (ProxyError failure))).

(** What the body of a reply parses to, whatever the status of the
    response. *)
Definition reply_json (r : http_reply) : option json :=
  match result r with
  | Resolved _ (Ok text) =>
      match json_parse text with
      | Ok data => Some data
      | Throw _ => None
      end
  | _ => None
  end.
End Proxies.

(** The six routes. *)
Definition noaa_flux {S} json json_parse : http_reply -> M S (reply (proxy_body json)) :=
  proxy_json json json_parse
    "https://services.swpc.noaa.gov/json/f107_cm_flux.json"
    "Failed to fetch solar flux data".
Definition noaa_kindex {S} json json_parse : http_reply -> M S (reply (proxy_body json)) :=
  proxy_json json json_parse
    "https://services.swpc.noaa.gov/products/noaa-planetary-k-index.json"
    "Failed to fetch K-index data".
Definition noaa_sunspots {S} json json_parse : http_reply -> M S (reply (proxy_body json)) :=
  proxy_json json json_parse
    "https://services.swpc.noaa.gov/json/solar-cycle/observed-solar-cycle-indices.json"
    "Failed to fetch sunspot data".
Definition noaa_xray {S} json json_parse : http_reply -> M S (reply (proxy_body json)) :=
  proxy_json json json_parse
    "https://services.swpc.noaa.gov/json/goes/primary/xrays-7-day.json"
    "Failed to fetch X-ray data".
Definition pota_spots {S} json json_parse : http_reply -> M S (reply (proxy_body json)) :=
  proxy_json json json_parse
    "https://api.pota.app/spot/activator"
    "Failed to fetch POTA spots".
Definition sota_spots {S} json json_parse : http_reply -> M S (reply (proxy_body json)) :=
  proxy_json json json_parse
    "https://api2.sota.org.uk/api/spots/50/all"
    "Failed to fetch SOTA spots".

(** [/api/hamqsl/conditions]: the text of the upstream is sent as it is,
    as [application/xml]. *)
Definition hamqsl_conditions {S} (r : http_reply) : M S (reply (proxy_body string)) :=
  try_catch
    (response <- fetch "https://www.hamqsl.com/solarxml.php" r ;;
     text <- response_text response ;;
     ret (res_json (Relayed text)))
    (fun error => ret (res_status_json 500 (ProxyError "Failed to fetch band conditions"))).

(* ===================================================================== *)
(** * [GET /api/callsign/:call] *)
(* ===================================================================== *)

(** A literal, without the [i] flag. *)
Fixpoint lit_s (s : string) : regex :=
  match s with
  | EmptyString => []
  | String c s' => Cls (chr c) One :: lit_s s'
  end.

(** [[^<]]: any code unit but [<], line terminators included. *)
Definition not_lt (a : ascii) : bool := negb (Ascii.eqb a "<").

(** The five patterns of the route: the opening tag, group 1 with
    [[^<]+], the closing tag. *)
Definition tag_re (tag : string) : regex :=
  (lit_s ("<" +:+ tag +:+ ">") ++
   [Open 1; Cls not_lt Plus; Close 1] ++
   lit_s ("</" +:+ tag +:+ ">"))%list.

(** [text.match(pattern)] and then [match[1]], when there is a match. *)
Definition tag_text (tag text : string) : option string :=
  match re_match (tag_re tag) text with
  | Some m => Some (group m 1)
  | None => None
  end.

(** The result object built from the response of HamQTH. *)
Record Lookup := {
  lookup_callsign : string;
  lookup_lat : number;
  lookup_lon : number;
  lookup_country : string;
  cqZone : string;
  ituZone : string
}.

(** What the route answers with: the result read from the response, the
    estimate from the prefix, or an error object. *)
Inductive callsign_body : Type :=
  | Found (result : Lookup)
  | Estimated (estimated : Estimate)
  | LookupError (error : string).

Definition dxcc_url (callsign : string) : string :=
  "https://www.hamqth.com/dxcc.php?callsign=" +:+ callsign.

(** The result that the text of a response gives, if it has a latitude
    and a longitude. *)
Definition lookup_result (callsign text : string) : option Lookup :=
  let latMatch := tag_text "lat" text in
  let lonMatch := tag_text "lng" text in
  let countryMatch := tag_text "name" text in
  let cqMatch := tag_text "cq" text in
  let ituMatch := tag_text "itu" text in
  match latMatch, lonMatch with
  | Some lat, Some lon =>
      Some {| lookup_callsign := callsign;
              lookup_lat := parseFloat lat;
              lookup_lon := parseFloat lon;
              lookup_country := default "Unknown" countryMatch;
              cqZone := default "" cqMatch;
              ituZone := default "" ituMatch |}
  | _, _ => None
  end.

(** The route handler, for the parameter [call] of the request. *)
Definition callsign_lookup {S} (call : string) (r : http_reply)
  : M S (reply callsign_body) :=
  let callsign := toUpperCase call in
  try_catch
    (response <- fetch (dxcc_url callsign) r ;;
     found <-
       (if ok response then
          text <- response_text response ;;
          ret (lookup_result callsign text)
        else ret None) ;;
     match found with
     | Some result => ret (res_json (Found result))
     | None =>
         match estimateLocationFromPrefix callsign with
         | Some estimated => ret (res_json (Estimated estimated))
         | None => ret (res_status_json 404 (LookupError "Callsign not found"))
         end
     end)
    (fun error => ret (res_status_json 500 (LookupError "Lookup failed"))).

(** What a reply comes to for the route: a thrown error, or the result
    read from it, if any. *)
Definition reply_lookup (callsign : string) (r : http_reply) : outcome (option Lookup) :=
  match result r with
  | Rejected e => Throw e
  | Resolved true (Ok text) => Ok (lookup_result callsign text)
  | Resolved true (Throw e) => Throw e
  | Resolved false _ => Ok None
  end.

(* ===================================================================== *)
(** * [GET /api/myspots/:callsign] *)
(* ===================================================================== *)

Module MySpot.
(** An element of [mySpots],
    [{ spotter, dxCall, freq, comment, time, isMySpot, isSpottedMe }]. *)
Record t := Make {
  spotter : string;
  dxCall : string;
  freq : string;
  comment : string;
  time : string;
  isMySpot : bool;
  isSpottedMe : bool
}.
End MySpot.

(** An element of the array after the [map]: the spot, spread, with
    [targetCall] and the three properties read from [loc], each
    [undefined] when [loc] is. *)
Record TargetSpot := {
  my_spot_of : MySpot.t;
  targetCall : string;
  target_lat : option number;
  target_lon : option number;
  target_country : option string
}.

Definition myspots_url : string := "https://www.hamqth.com/dxc_csv.php?limit=100".

(** The body of the loop over the lines: the spot of a line that has
    three fields or more and involves the call. The fields at 0, 1 and 2
    are there when the line has three fields. *)
Definition my_spot (callsign line : string) : option MySpot.t :=
  if negb (nonempty (trim line)) then None
  else
    let parts := split "^" line in
    if (List.length parts <? 3)%nat then None
    else
      let spotter := toUpperCase (trim (default "" (parts !! 0%nat))) in
      let dxCall := toUpperCase (trim (default "" (parts !! 2%nat))) in
      let freq := trim (default "" (parts !! 1%nat)) in
      let comment := str_or (trim <$> parts !! 3%nat) "" in
      let timeStr := str_or (trim <$> parts !! 4%nat) "" in
      if String.eqb spotter callsign || String.eqb dxCall callsign ||
         includes callsign spotter || includes callsign dxCall
      then
        Some (MySpot.Make spotter dxCall
                (if nonempty freq
                 then toFixed 3 (num_div (parseFloat freq) (num_of_Z 1000))
                 else "0.000")
                comment
                (if nonempty timeStr then js_substring 0 5 timeStr +:+ "z" else "")
                (includes callsign spotter)
                (includes callsign dxCall))
      else None.

(** [mySpots] after the loop over [text.trim().split('\n')]. *)
Definition my_spots (callsign text : string) : list MySpot.t :=
  drop_nulls (List.map (my_spot callsign) (split newline (trim text))).

(** [s.isMySpot ? s.dxCall : s.spotter] *)
Definition target (s : MySpot.t) : string :=
  if MySpot.isMySpot s then MySpot.dxCall s else MySpot.spotter s.

(** [[...new Set(mySpots.map(...))]] *)
Definition unique_calls (mySpots : list MySpot.t) : list string :=
  fold_left set_add (List.map target mySpots) [].

(** The callback of the last [map]. *)
Definition with_location (locations : gmap string Place) (spot : MySpot.t) : TargetSpot :=
  let targetCall := target spot in
  let loc := locations !! targetCall in
  {| my_spot_of := spot;
     targetCall := targetCall;
     target_lat := lat <$> loc;
     target_lon := lon <$> loc;
     target_country := country <$> loc |}.

(** [s.lat && s.lon], as a test: [undefined], [NaN] and zero are falsy. *)
Definition has_position (s : TargetSpot) : bool :=
  match target_lat s, target_lon s with
  | Some a, Some b => num_truthy a && num_truthy b
  | _, _ => false
  end.

(** From [mySpots] to the answer: at most 10 calls are looked up. *)
Definition spots_with_locations (mySpots : list MySpot.t) : list TargetSpot :=
  let uniqueCalls := unique_calls mySpots in
  let locations := lookup_locations (slice0 10 uniqueCalls) in
  List.filter has_position (List.map (with_location locations) mySpots).

(** The route handler, for the parameter [callsign] of the request. *)
Definition myspots {S} (call : string) (r : http_reply) : M S (reply (list TargetSpot)) :=
  let callsign := toUpperCase call in
  try_catch
    (response <- fetch myspots_url r ;;
     mySpots <-
       (if ok response then
          text <- response_text response ;;
          ret (my_spots callsign text)
        else ret []) ;;
     ret (res_json (spots_with_locations mySpots)))
    (fun error => ret (res_json [])).

(** The spots that a reply gives for a call. *)
Definition reply_spots (callsign : string) (r : http_reply) : list MySpot.t :=
  match result r with
  | Resolved true (Ok text) => my_spots callsign text
  | _ => []
  end.

(* ===================================================================== *)
(** * [fetchIonosondeData] and [GET /api/ionosonde] *)
(* ===================================================================== *)

Module IonosondeCache.
(** [let ionosondeCache = { data: null, timestamp: 0, maxAge: 10 * 60 * 1000 }].
    The object that a refresh assigns to the variable is
    [{ data: validStations, timestamp: now }]: it has no [maxAge]. *)
Record t (D : Type) := Make {
  data : option D;
  timestamp : Z;
  maxAge : option Z
}.
Arguments Make {D} data timestamp maxAge.
Arguments data {D} _.
Arguments timestamp {D} _.
Arguments maxAge {D} _.
Definition init {D} : t D := Make None 0 (Some (10 * 60 * 1000)).
End IonosondeCache.

(** [a < b] where [b] may be [undefined]: its Number value is then [NaN]
    and the comparison is false. *)
Definition lt_maybe (a : Z) (b : option Z) : bool :=
  match b with
  | Some m => a <? m
  | None => false
  end.

(** What [/api/ionosonde] answers with: the object with [count],
    [timestamp] (the time of the answer) and [stations], or an error
    object. *)
Inductive ionosonde_body (A : Type) : Type :=
  | Stations (count : nat) (timestamp : Z) (stations : list A)
  | IonosondeError (error : string).
Arguments Stations {A} count timestamp stations.
Arguments IonosondeError {A} error.

Section Ionosonde.
(** A station of the result, and what [await response.json()] followed by
    the [filter] and the [map] make of the body of the response at a given
    time (the filter reads the clock for [twoHoursAgo]); either can throw.
    The cache handling looks into neither. *)
Variable station : Type.
Variable valid_stations : Z -> string -> outcome (list station).

Definition kc2g_url : string := "https://prop.kc2g.com/api/stations.json".

(** [ionosondeCache.data && (now - ionosondeCache.timestamp) < ionosondeCache.maxAge]:
    an array is truthy even when it is empty. *)
Definition ionosonde_fresh (c : IonosondeCache.t (list station)) (now : Z)
  : option (list station) :=
  match IonosondeCache.data c with
  | Some data =>
      if lt_maybe (now - IonosondeCache.timestamp c) (IonosondeCache.maxAge c)
      then Some data else None
  | None => None
  end.

(** The message of the error thrown for a response that is not [ok]
    names the status code; it is only logged. *)
Definition fetchIonosondeData (r : http_reply)
  : M (IonosondeCache.t (list station)) (list station) :=
  now <- date_now ;;
  ionosondeCache <- get_var ;;
  match ionosonde_fresh ionosondeCache now with
  | Some data => ret data
  | None =>
      try_catch
        (response <- fetch kc2g_url r ;;
         (if negb (ok response) then throw (Exn "Error" "HTTP") else ret tt) ;;;
         text <- response_text response ;;
         t <- date_now ;;
         validStations <-
           match valid_stations t text with
           | Ok stations => ret stations
           | Throw e => throw e
           end ;;
         set_var (IonosondeCache.Make (Some validStations) now None) ;;;
         ret validStations)
        (fun error =>
           ionosondeCache <- get_var ;;
           ret (default [] (IonosondeCache.data ionosondeCache)))
  end.

(** The route handler. *)
Definition ionosonde (r : http_reply)
  : M (IonosondeCache.t (list station)) (reply (ionosonde_body station)) :=
  try_catch
    (stations <- fetchIonosondeData r ;;
     t <- date_now ;;
     ret (res_json (Stations (List.length stations) t stations)))
    (fun error =>
       ret (res_status_json 500 (IonosondeError "Failed to fetch ionosonde data"))).

(** What a request comes to when its body is parsed at time [t]. *)
Definition ionosonde_refresh (r : http_reply) (t : Z) : option (list station) :=
  match result r with
  | Resolved true (Ok text) =>
      match valid_stations t text with
      | Ok stations => Some stations
      | Throw _ => None
      end
  | _ => None
  end.
End Ionosonde.

(** The states of a server whose only user of [ionosondeCache] is
    [fetchIonosondeData]: it starts with the cache as declared, time
    passes, the function is called. *)
Inductive ionosonde_reachable (station : Type)
    (valid_stations : Z -> string -> outcome (list station))
  : world (IonosondeCache.t (list station)) -> Prop :=
  | ionosonde_start (t : Z) :
      ionosonde_reachable station valid_stations (World t [] IonosondeCache.init)
  | ionosonde_wait (w : world (IonosondeCache.t (list station))) (ms : Z) :
      ionosonde_reachable station valid_stations w ->
      ionosonde_reachable station valid_stations
        (World (clock w + ms) (trace w) (store w))
  | ionosonde_call (w : world (IonosondeCache.t (list station))) (r : http_reply) :
      ionosonde_reachable station valid_stations w ->
      ionosonde_reachable station valid_stations
        (snd (fetchIonosondeData station valid_stations r w)).

(* ===================================================================== *)
(** * Dates: [getNthWeekendOfMonth], [getLastWeekendOfMonth] and the
      weekly contests of [calculateUpcomingContests] *)
(* ===================================================================== *)

(** ** Time values

    A time value is a number of milliseconds since the start of 1970,
    UTC. The operations below are the abstract operations of the
    language standard on time values ([Day], [TimeWithinDay],
    [DaysInYear], [DayFromYear], [YearFromTime], [InLeapYear],
    [MonthFromTime], [DateFromTime], [WeekDay], [MakeTime], [MakeDay],
    [MakeDate], [TimeClip]), for integral arguments. The standard
    defines [YearFromTime] as the largest year that starts at or before
    the time, and [MakeDay] by the day that has the year, the month and
    the date 1; both are computed here, and shown further down to be
    what the standard asks for. *)

Definition msPerDay : Z := 86400000.
Definition msPerHour : Z := 3600000.
Definition msPerMinute : Z := 60000.
Definition msPerSecond : Z := 1000.

Definition Day (t : Z) : Z := t / msPerDay.
Definition TimeWithinDay (t : Z) : Z := t mod msPerDay.

Definition DaysInYear (y : Z) : Z :=
  if negb (y mod 4 =? 0) then 365
  else if negb (y mod 100 =? 0) then 366
  else if negb (y mod 400 =? 0) then 365
  else 366.

Definition DayFromYear (y : Z) : Z :=
  365 * (y - 1970) + (y - 1969) / 4 - (y - 1901) / 100 + (y - 1601) / 400.

(** The year of a day number: the largest [y] with [DayFromYear y <= d]. *)
Definition year_of_day (d : Z) : Z :=
  let y := 1970 + (d * 10000) / 3652425 in
  if d <? DayFromYear y then y - 1
  else if DayFromYear (y + 1) <=? d then y + 1
  else y.

Definition YearFromTime (t : Z) : Z := year_of_day (Day t).

Definition InLeapYear (t : Z) : Z :=
  if DaysInYear (YearFromTime t) =? 366 then 1 else 0.

Definition DayWithinYear (t : Z) : Z := Day t - DayFromYear (YearFromTime t).

(** The day within the year on which month [m] starts. *)
Definition month_start (m leap : Z) : Z :=
  match m with
  | 0 => 0
  | 1 => 31
  | 2 => 59 + leap
  | 3 => 90 + leap
  | 4 => 120 + leap
  | 5 => 151 + leap
  | 6 => 181 + leap
  | 7 => 212 + leap
  | 8 => 243 + leap
  | 9 => 273 + leap
  | 10 => 304 + leap
  | _ => 334 + leap
  end.

Definition MonthFromTime (t : Z) : Z :=
  let d := DayWithinYear t in
  let leap := InLeapYear t in
  if d <? 31 then 0
  else if d <? 59 + leap then 1
  else if d <? 90 + leap then 2
  else if d <? 120 + leap then 3
  else if d <? 151 + leap then 4
  else if d <? 181 + leap then 5
  else if d <? 212 + leap then 6
  else if d <? 243 + leap then 7
  else if d <? 273 + leap then 8
  else if d <? 304 + leap then 9
  else if d <? 334 + leap then 10
  else 11.

Definition DateFromTime (t : Z) : Z :=
  DayWithinYear t - month_start (MonthFromTime t) (InLeapYear t) + 1.

Definition WeekDay (t : Z) : Z := (Day t + 4) mod 7.

Definition MakeTime (hour min sec ms : Z) : Z :=
  hour * msPerHour + min * msPerMinute + sec * msPerSecond + ms.

Definition MakeDay (year month date : Z) : Z :=
  let ym := year + month / 12 in
  let mn := month mod 12 in
  let leap := if DaysInYear ym =? 366 then 1 else 0 in
  DayFromYear ym + month_start mn leap + date - 1.

Definition MakeDate (day time : Z) : Z := day * msPerDay + time.

(** The number of days of month [m] of year [y]. *)
Definition DaysInMonth (y m : Z) : Z :=
  let leap := if DaysInYear y =? 366 then 1 else 0 in
  match m with
  | 1 => 28 + leap
  | 3 | 5 | 8 | 10 => 30
  | _ => 31
  end.

(** ** Date objects *)

(** The time value of a Date object: [None] is [NaN], an invalid date. *)
Definition Date : Type := option Z.

Definition TimeClip (t : Z) : Date :=
  if Z.abs t <=? 8640000000000000 then Some t else None.

Definition MakeFullYear (y : Z) : Z :=
  if (0 <=? y) && (y <=? 99) then 1900 + y else y.

(** [new Date(Date.UTC(year, month, date, hours, minutes, seconds))] *)
Definition Date_UTC (year month date hours minutes seconds : Z) : Date :=
  TimeClip (MakeDate (MakeDay (MakeFullYear year) month date)
                     (MakeTime hours minutes seconds 0)).

Definition getUTCMonth (d : Date) : option Z := MonthFromTime <$> d.
Definition getUTCDay (d : Date) : option Z := WeekDay <$> d.
Definition getUTCDate (d : Date) : option Z := DateFromTime <$> d.

(** [d.setUTCDate(dt)] *)
Definition setUTCDate (d : Date) (dt : option Z) : Date :=
  match d, dt with
  | Some t, Some dt =>
      TimeClip (MakeDate (MakeDay (YearFromTime t) (MonthFromTime t) dt) (TimeWithinDay t))
  | _, _ => None
  end.

(** [d.setUTCHours(hour, min, sec, ms)] *)
Definition setUTCHours (d : Date) (hour min sec ms : Z) : Date :=
  match d with
  | Some t => TimeClip (MakeDate (Day t) (MakeTime hour min sec ms))
  | None => None
  end.

(** [x === n] for a number [x] that may be [NaN]. *)
Definition is_num (x : option Z) (n : Z) : bool :=
  match x with Some v => v =? n | None => false end.

(** [x + k] *)
Definition plus_num (x : option Z) (k : Z) : option Z := (fun v => v + k) <$> x.

(** The loop of [getNthWeekendOfMonth]: the date it returns, or nothing
    when the fuel runs out. *)
Fixpoint nth_weekend_loop (fuel : nat) (month n : Z) (date : Date) (weekendCount : Z)
  : option Date :=
  match fuel with
  | O => None
  | S fuel' =>
      if is_num (getUTCMonth date) month then
        if is_num (getUTCDay date) 6 then
          let weekendCount := weekendCount + 1 in
          if weekendCount =? n then Some date
          else nth_weekend_loop fuel' month n
                 (setUTCDate date (plus_num (getUTCDate date) 1)) weekendCount
        else nth_weekend_loop fuel' month n
               (setUTCDate date (plus_num (getUTCDate date) 1)) weekendCount
      else Some date
  end.

Definition getNthWeekendOfMonth (year month n : Z) : option Date :=
  nth_weekend_loop 32 month n (Date_UTC year month 1 0 0 0) 0.

Fixpoint last_weekend_loop (fuel : nat) (date : Date) : option Date :=
  match fuel with
  | O => None
  | S fuel' =>
      if negb (is_num (getUTCDay date) 6)
      then last_weekend_loop fuel' (setUTCDate date (plus_num (getUTCDate date) (-1)))
      else Some date
  end.

Definition getLastWeekendOfMonth (year month : Z) : option Date :=
  last_weekend_loop 7 (Date_UTC year (month + 1) 0 0 0 0).

(** The years for which every day is a time value. *)
Definition year_ok (y : Z) : Prop := 100 <= y <= 275000.

(** Midnight at the start of the day [1 + j] of a month, as a Date. *)
Definition month_day (year month j : Z) : Date :=
  Some ((MakeDay year month 1 + j) * msPerDay).

(** The offset of the first Saturday of a month from its first day. *)
Definition first_saturday (year month : Z) : Z :=
  (6 - WeekDay (MakeDay year month 1 * msPerDay)) mod 7.

(** The number of days that the last Saturday of a month is before its
    last day. *)
Definition back_to_saturday (year month : Z) : Z :=
  (WeekDay ((MakeDay year month 1 + DaysInMonth year month - 1) * msPerDay) + 1) mod 7.

(** ** The weekly contests

    The hours of a contest and the milliseconds made of them are
    rational numbers here; the arithmetic of the program is exact on
    them, every duration of the table being a whole number of half
    hours. *)

Module Weekly.
(** An entry of [weeklyContests],
    [{ name, dayOfWeek, hour, minute, duration, mode }]; [minute] is
    there for one entry only, and [duration] is in hours. *)
Record t := Make {
  name : string;
  dayOfWeek : Z;
  hour : Z;
  minute : option Z;
  duration : Q;
  mode : string
}.
End Weekly.

Module Contest.
(** An element of [contests], [{ name, start, end, mode, status }]. The
    two ISO strings are kept as the time values that they write. *)
Record t := Make {
  name : string;
  start : Z;
  end_ : Z;
  mode : string;
  status : string
}.
End Contest.

Definition weeklyContests : list Weekly.t :=
  [ Weekly.Make "CWT 1300z" 3 13 None 1 "CW";
    Weekly.Make "CWT 1900z" 3 19 None 1 "CW";
    Weekly.Make "CWT 0300z" 4 3 None 1 "CW";
    Weekly.Make "CWT 0700z" 4 7 None 1 "CW";
    Weekly.Make "NCCC Sprint" 5 3 (Some 30) (1 # 2) "CW";
    Weekly.Make "K1USN SST" 0 0 None 1 "CW";
    Weekly.Make "K1USN SST" 1 20 None 1 "CW";
    Weekly.Make "ICWC MST" 1 13 None 1 "CW";
    Weekly.Make "ICWC MST" 1 19 None 1 "CW";
    Weekly.Make "ICWC MST" 2 3 None 1 "CW";
    Weekly.Make "SKCC Sprint" 3 0 None 2 "CW";
    Weekly.Make "QRP Fox Hunt" 3 2 None (3 # 2) "CW";
    Weekly.Make "RTTY Weekday Sprint" 2 23 None 1 "RTTY" ].

(** [x || 0] for a number that may be [undefined]. *)
Definition num_or_zero (x : option Z) : Z := default 0 x.

(** [new Date(value)] for a number: the integral part, clipped. *)
Definition Date_of_number (value : Q) : Date :=
  TimeClip (Z.quot (Qnum value) (Z.pos (Qden value))).

(** [a > b], [a >= b] and [a <= b] on dates: false when one is invalid. *)
Definition Date_gt (a b : Date) : bool :=
  match a, b with Some x, Some y => y <? x | _, _ => false end.
Definition Date_ge (a b : Date) : bool :=
  match a, b with Some x, Some y => y <=? x | _, _ => false end.
Definition Date_le (a b : Date) : bool :=
  match a, b with Some x, Some y => x <=? y | _, _ => false end.

(** [d.toISOString()]: a [RangeError] for an invalid date. *)
Definition toISOString (d : Date) : outcome Z :=
  match d with
  | Some t => Ok t
  | None => Throw (Exn "RangeError" "Invalid time value")
  end.

(** [next.getTime() + hours * 3600000] *)
Definition plus_hours (d : Date) (hours : Q) : option Q :=
  (fun t => (inject_Z t + hours * 3600000)%Q) <$> d.

(** The callback of [weeklyContests.forEach], at the time [now]: the
    element it pushes, unless [toISOString] throws. *)
Definition weekly_occurrence (now : Z) (contest : Weekly.t) : outcome Contest.t :=
  let next : Date := Some now in
  let currentDay := WeekDay now in
  let daysUntil := Weekly.dayOfWeek contest - currentDay in
  let daysUntil := if daysUntil <? 0 then daysUntil + 7 else daysUntil in
  let daysUntil :=
    if daysUntil =? 0 then
      let todayStart :=
        setUTCHours (Some now) (Weekly.hour contest)
                    (num_or_zero (Weekly.minute contest)) 0 0 in
      if Date_gt (Some now) todayStart then 7 else daysUntil
    else daysUntil in
  let next := setUTCDate next (Some (DateFromTime now + daysUntil)) in
  let next :=
    setUTCHours next (Weekly.hour contest) (num_or_zero (Weekly.minute contest)) 0 0 in
  let endTime : Date :=
    match plus_hours next (Weekly.duration contest) with
    | Some value => Date_of_number value
    | None => None
    end in
  match toISOString next with
  | Throw e => Throw e
  | Ok start =>
      match toISOString endTime with
      | Throw e => Throw e
      | Ok end_ =>
          Ok (Contest.Make (Weekly.name contest) start end_ (Weekly.mode contest)
                (if Date_ge (Some now) next && Date_le (Some now) endTime
                 then "active" else "upcoming"))
      end
  end.

(** The times for which the dates of the coming weeks are time values. *)
Definition now_ok (now : Z) : Prop := Z.abs now <= 8640000000000000 - 12 * msPerDay.

(** The fields of an entry are in range, and its duration is a whole
    number of half hours. *)
Definition weekly_ok (c : Weekly.t) : Prop :=
  0 <= Weekly.dayOfWeek c <= 6 /\ 0 <= Weekly.hour c <= 23 /\
  0 <= num_or_zero (Weekly.minute c) <= 59 /\
  0 <= Qnum (Weekly.duration c) <= 96 /\
  (Qden (Weekly.duration c) = 1%positive \/ Qden (Weekly.duration c) = 2%positive).

(* ===================================================================== *)
(** * [GET /api/satellites/tle]: the satellites and their lines *)
(* ===================================================================== *)

(** ** [parseInt] *)

Definition is_hex_letter (c : ascii) : bool :=
  let n := nat_of_ascii c in
  (((65 <=? n) && (n <=? 70)) || ((97 <=? n) && (n <=? 102)))%nat.

(** Whether [c] is a digit in the radix, 10 or 16. *)
Definition is_radix_digit (radix : Z) (c : ascii) : bool :=
  is_digit c || ((radix =? 16) && is_hex_letter c).

Definition radix_digit_value (c : ascii) : Z :=
  let n := Z.of_nat (nat_of_ascii c) in
  if is_digit c then n - 48
  else if n <? 97 then n - 55
  else n - 87.

(** The longest prefix of digits in the radix. *)
Fixpoint span_radix (radix : Z) (s : string) : string :=
  match s with
  | String c s' => if is_radix_digit radix c then String c (span_radix radix s') else EmptyString
  | EmptyString => EmptyString
  end.

Fixpoint radix_value (radix acc : Z) (s : string) : Z :=
  match s with
  | String c s' => radix_value radix (radix * acc + radix_digit_value c) s'
  | EmptyString => acc
  end.

(** [parseInt(s)], without a radix: white space is skipped, then a sign,
    then [0x] or [0X], which selects the radix 16; the digits that follow
    give the value, [NaN] ([None]) if there is none. The value is exact
    here. The program applies [parseInt] to five characters of a line of
    elements, and to the digits of a date, where a number that is not
    exact as a double is far beyond the days that make a valid date. *)
Definition parseInt (s : string) : option Z :=
  let '(neg, s1) := take_sign (trim_start s) in
  let '(radix, s2) :=
    match s1 with
    | String "0" (String x s') =>
        if Ascii.eqb x "x" || Ascii.eqb x "X" then (16, s') else (10, s1)
    | _ => (10, s1)
    end in
  let digits := span_radix radix s2 in
  if nonempty digits
  then Some ((if neg then -1 else 1) * radix_value radix 0 digits)
  else None.

(** ** The table and the parse *)

(** An entry of [HAM_SATELLITES], [{ norad, name, color, priority }]. *)
Record Satellite := {
  norad : Z;
  satellite_name : string;
  color : string;
  priority : Z
}.

(** The object literal [HAM_SATELLITES], in the order of its keys. *)
Definition HAM_SATELLITES : list (string * Satellite) :=
  [ ("ISS", {| norad := 25544; satellite_name := "ISS (ZARYA)";
               color := "#00ffff"; priority := 1 |});
    ("AO-91", {| norad := 43017; satellite_name := "AO-91 (Fox-1B)";
                 color := "#ff6600"; priority := 2 |});
    ("AO-92", {| norad := 43137; satellite_name := "AO-92 (Fox-1D)";
                 color := "#ff9900"; priority := 2 |});
    ("SO-50", {| norad := 27607; satellite_name := "SO-50 (SaudiSat)";
                 color := "#00ff00"; priority := 2 |});
    ("RS-44", {| norad := 44909; satellite_name := "RS-44 (DOSAAF)";
                 color := "#ff0066"; priority := 2 |});
    ("IO-117", {| norad := 53106; satellite_name := "IO-117 (GreenCube)";
                  color := "#00ff99"; priority := 3 |});
    ("CAS-4A", {| norad := 42761; satellite_name := "CAS-4A (ZHUHAI-1 01)";
                  color := "#9966ff"; priority := 3 |});
    ("CAS-4B", {| norad := 42759; satellite_name := "CAS-4B (ZHUHAI-1 02)";
                  color := "#9933ff"; priority := 3 |});
    ("PO-101", {| norad := 43678; satellite_name := "PO-101 (Diwata-2)";
                  color := "#ff3399"; priority := 3 |});
    ("TEVEL", {| norad := 50988; satellite_name := "TEVEL-1";
                 color := "#66ccff"; priority := 4 |}) ].

(** [HAM_SATELLITES['ISS']] *)
Definition iss_satellite : Satellite :=
  {| norad := 25544; satellite_name := "ISS (ZARYA)"; color := "#00ffff"; priority := 1 |}.

(** A value of [tleData], [{ ...sat, tle1, tle2 }]. *)
Record TleEntry := {
  satellite : Satellite;
  tle1 : string;
  tle2 : string
}.

(** The loop over [Object.entries(HAM_SATELLITES)] for one pair of
    lines: every satellite with the NORAD number gets the lines. *)
Definition store_lines (noradId : option Z) (line1 line2 : string)
    (tleData : gmap string TleEntry) : gmap string TleEntry :=
  fold_left
    (fun data (entry : string * Satellite) =>
       if is_num noradId (norad (snd entry))
       then <[fst entry := {| satellite := snd entry; tle1 := line1; tle2 := line2 |}]> data
       else data)
    HAM_SATELLITES tleData.

(** The loop [for (let i = 0; i < lines.length - 2; i += 3)]: the lines
    are read three at a time, as long as three are left. *)
Fixpoint parse_triples (lines : list string) (tleData : gmap string TleEntry)
  : gmap string TleEntry :=
  match lines with
  | name :: l1 :: l2 :: rest =>
      let line1 := trim l1 in
      let line2 := trim l2 in
      let tleData :=
        if nonempty line1 && nonempty line2 &&
           starts_with "1 " line1 && starts_with "2 " line2
        then store_lines (parseInt (js_substring 2 7 line1)) line1 line2 tleData
        else tleData in
      parse_triples rest tleData
  | _ => tleData
  end.

(** What the route makes of the text of the amateur group. *)
Definition parse_amateur (text : string) (tleData : gmap string TleEntry)
  : gmap string TleEntry :=
  parse_triples (split newline (trim text)) tleData.

(** [tleData['ISS']], as a test. *)
Definition has_iss_entry (tleData : gmap string TleEntry) : bool :=
  match tleData !! "ISS" with Some _ => true | None => false end.

(** What the route makes of the text of the second request. *)
Definition parse_iss_text (issText : string) (tleData : gmap string TleEntry)
  : gmap string TleEntry :=
  let issLines := split newline (trim issText) in
  if (3 <=? List.length issLines)%nat
  then <["ISS" := {| satellite := iss_satellite;
                     tle1 := trim (default "" (issLines !! 1%nat));
                     tle2 := trim (default "" (issLines !! 2%nat)) |}]> tleData
  else tleData.

(** The route, with its parsers. *)
Definition satellites_tle_route (amateur iss : http_reply)
  : M (TleCache.t (gmap string TleEntry)) (reply (gmap string TleEntry)) :=
  satellites_tle (gmap string TleEntry) ∅ parse_amateur has_iss_entry parse_iss_text
                 amateur iss.

(** The key and the satellite of the entry are a pair of the table. *)
Definition known_satellite (key : string) (e : TleEntry) : Prop :=
  In (key, satellite e) HAM_SATELLITES.

(** The two lines of the entry have passed the checks of the loop: they
    start with [1 ] and [2 ], and the five characters after [1 ] read as
    the NORAD number of the satellite. *)
Definition checked_lines (e : TleEntry) : Prop :=
  starts_with "1 " (tle1 e) = true /\ starts_with "2 " (tle2 e) = true /\
  parseInt (js_substring 2 7 (tle1 e)) = Some (norad (satellite e)).

(** What holds of the data that the route builds. *)
Definition tle_data_ok (tleData : gmap string TleEntry) : Prop :=
  forall key e, tleData !! key = Some e ->
    known_satellite key e /\ (checked_lines e \/ key = "ISS").

(* ===================================================================== *)
(** * The calendar of contests: [calculateUpcomingContests],
    [parseContestRSS] and [GET /api/contests] *)
(* ===================================================================== *)

(** ** The major contests *)

Module Major.
(** An entry of [majorContests],
    [{ name, month, weekend, duration, mode }]; [weekend] is [-1] for the
    last weekend of the month, and [duration] is in hours. *)
Record t := Make {
  name : string;
  month : Z;
  weekend : Z;
  duration : Q;
  mode : string
}.
End Major.

Definition majorContests : list Major.t :=
  [ Major.Make "CQ WW DX CW" 10 (-1) 48 "CW";
    Major.Make "CQ WW DX SSB" 9 (-1) 48 "SSB";
    Major.Make "ARRL DX CW" 1 3 48 "CW";
    Major.Make "ARRL DX SSB" 2 1 48 "SSB";
    Major.Make "CQ WPX SSB" 2 (-1) 48 "SSB";
    Major.Make "CQ WPX CW" 4 (-1) 48 "CW";
    Major.Make "IARU HF Championship" 6 2 24 "Mixed";
    Major.Make "ARRL Field Day" 5 4 27 "Mixed";
    Major.Make "ARRL Sweepstakes CW" 10 1 24 "CW";
    Major.Make "ARRL Sweepstakes SSB" 10 3 24 "SSB";
    Major.Make "ARRL 10m Contest" 11 2 48 "Mixed";
    Major.Make "ARRL RTTY Roundup" 0 1 24 "RTTY";
    Major.Make "NA QSO Party CW" 0 2 12 "CW";
    Major.Make "NA QSO Party SSB" 0 3 12 "SSB";
    Major.Make "CQ 160m CW" 0 (-1) 42 "CW";
    Major.Make "CQ 160m SSB" 1 (-1) 42 "SSB";
    Major.Make "CQ WW RTTY" 8 (-1) 48 "RTTY";
    Major.Make "JIDX CW" 3 2 48 "CW";
    Major.Make "JIDX SSB" 10 2 48 "SSB";
    Major.Make "ARRL VHF Contest" 0 3 33 "Mixed";
    Major.Make "ARRL June VHF" 5 2 33 "Mixed";
    Major.Make "ARRL Sept VHF" 8 2 33 "Mixed";
    Major.Make "Winter Field Day" 0 (-1) 24 "Mixed";
    Major.Make "CQWW WPX RTTY" 1 2 48 "RTTY";
    Major.Make "Stew Perry Topband" 11 4 14 "CW";
    Major.Make "RAC Canada Day" 6 1 24 "Mixed";
    Major.Make "RAC Winter Contest" 11 (-1) 24 "Mixed";
    Major.Make "NAQP RTTY" 1 4 12 "RTTY";
    Major.Make "NAQP RTTY" 6 3 12 "RTTY" ].

(** One round of the loop over the years [y]: nothing when a helper
    does not return; else the element that is pushed, if the occurrence
    of the year ends after [now], unless [toISOString] throws. *)
Definition major_occurrence (now : Z) (contest : Major.t) (y : Z)
  : option (outcome (option Contest.t)) :=
  match (if Major.weekend contest =? -1
         then getLastWeekendOfMonth y (Major.month contest)
         else getNthWeekendOfMonth y (Major.month contest) (Major.weekend contest)) with
  | None => None
  | Some startDate =>
      let startDate := setUTCHours startDate 0 0 0 0 in
      let endDate : Date :=
        match plus_hours startDate (Major.duration contest) with
        | Some value => Date_of_number value
        | None => None
        end in
      if Date_gt endDate (Some now) then
        let status :=
          if Date_ge (Some now) startDate && Date_le (Some now) endDate
          then "active" else "upcoming" in
        match toISOString startDate with
        | Throw e => Some (Throw e)
        | Ok start =>
            match toISOString endDate with
            | Throw e => Some (Throw e)
            | Ok end_ =>
                Some (Ok (Some (Contest.Make (Major.name contest) start end_
                                             (Major.mode contest) status)))
            end
        end
      else Some (Ok None)
  end.

(** The callback of [majorContests.forEach]: the loop
    [for (let y = year; y <= year + 1; y++)], left at the first element
    pushed. *)
Definition major_next (now year : Z) (contest : Major.t)
  : option (outcome (option Contest.t)) :=
  match major_occurrence now contest year with
  | Some (Ok None) => major_occurrence now contest (year + 1)
  | r => r
  end.

(** [weeklyContests.forEach(...)]: the elements pushed, in order. *)
Fixpoint weekly_all (now : Z) (l : list Weekly.t) : outcome (list Contest.t) :=
  match l with
  | [] => Ok []
  | contest :: l' =>
      match weekly_occurrence now contest with
      | Throw e => Throw e
      | Ok c =>
          match weekly_all now l' with
          | Throw e => Throw e
          | Ok cs => Ok (c :: cs)
          end
      end
  end.

(** [majorContests.forEach(...)]: the elements pushed, in order. *)
Fixpoint major_all (now year : Z) (l : list Major.t) : option (outcome (list Contest.t)) :=
  match l with
  | [] => Some (Ok [])
  | contest :: l' =>
      match major_next now year contest with
      | None => None
      | Some (Throw e) => Some (Throw e)
      | Some (Ok c) =>
          match major_all now year l' with
          | None => None
          | Some (Throw e) => Some (Throw e)
          | Some (Ok cs) => Some (Ok (option_list c ++ cs)%list)
          end
      end
  end.

(** [contests.sort((a, b) => new Date(a.start) - new Date(b.start))]: the
    elements in the order of their starts, those of equal start in the
    order they had (the sort is stable). The starts are read back from
    the ISO strings, which write them exactly. *)
Section Sort.
Context {A : Type}.
Variable start : A -> Z.

Fixpoint insert_by_start (c : A) (l : list A) : list A :=
  match l with
  | [] => [c]
  | x :: l' => if start c <=? start x then c :: l else x :: insert_by_start c l'
  end.

Definition sort_by_start (l : list A) : list A := foldr insert_by_start [] l.
End Sort.

(** [now.getFullYear()]: the year of the local time, which is [offset]
    milliseconds ahead of UTC at [now]. *)
Definition getFullYear (offset now : Z) : Z := YearFromTime (now + offset).

(** [calculateUpcomingContests()], called at the time [now] in a zone
    that is [offset] milliseconds ahead of UTC: nothing when a helper does
    not return. *)
Definition calculateUpcomingContests (offset now : Z) : option (outcome (list Contest.t)) :=
  match weekly_all now weeklyContests with
  | Throw e => Some (Throw e)
  | Ok weekly =>
      let year := getFullYear offset now in
      match major_all now year majorContests with
      | None => None
      | Some (Throw e) => Some (Throw e)
      | Some (Ok major) =>
          Some (Ok (slice0 15 (sort_by_start Contest.start (weekly ++ major)%list)))
      end
  end.

(** ** The feed: [parseContestDateTime] *)

(** [\w] *)
Definition is_word (c : ascii) : bool :=
  is_upper c || is_lower c || is_digit c || Ascii.eqb c "_".

(** The first pattern, under the [i] flag; its parts, in order:
    - group 1, [\d{4}], then [Z,] and [\s*];
    - group 2, [\w+], then [\s+]; group 3, [\d+], then [\s+];
    - [to] and [\s+];
    - group 4, [\d{4}], then [Z,] and [\s*];
    - group 5, [\w+], then [\s+]; group 6, [\d+]. *)
Definition range_re : regex :=
  ([Open 1; Cls is_digit (Times 4); Close 1] ++ lit_i "Z," ++ [Cls is_space Star] ++
   [Open 2; Cls is_word Plus; Close 2] ++ [Cls is_space Plus] ++
   [Open 3; Cls is_digit Plus; Close 3] ++ [Cls is_space Plus] ++
   lit_i "to" ++ [Cls is_space Plus] ++
   [Open 4; Cls is_digit (Times 4); Close 4] ++ lit_i "Z," ++ [Cls is_space Star] ++
   [Open 5; Cls is_word Plus; Close 5] ++ [Cls is_space Plus] ++
   [Open 6; Cls is_digit Plus; Close 6])%list.

(** The second pattern, which is the third as well, under the [i] flag:
    - group 1, [\d{4}], then [Z-]; group 2, [\d{4}], then [Z,] and [\s*];
    - group 3, [\w+], then [\s+]; group 4, [\d+]. *)
Definition same_day_re : regex :=
  ([Open 1; Cls is_digit (Times 4); Close 1] ++ lit_i "Z-" ++
   [Open 2; Cls is_digit (Times 4); Close 2] ++ lit_i "Z," ++ [Cls is_space Star] ++
   [Open 3; Cls is_word Plus; Close 3] ++ [Cls is_space Plus] ++
   [Open 4; Cls is_digit Plus; Close 4])%list.

(** [months[name]]: the number of the month, [undefined] for another
    name. (For the names [constructor] and [__proto__] the lookup finds
    an inherited value, which is not a number: like [undefined], it
    compares false and makes an invalid date.) *)
Definition months (name : string) : option Z :=
  if String.eqb name "jan" then Some 0
  else if String.eqb name "feb" then Some 1
  else if String.eqb name "mar" then Some 2
  else if String.eqb name "apr" then Some 3
  else if String.eqb name "may" then Some 4
  else if String.eqb name "jun" then Some 5
  else if String.eqb name "jul" then Some 6
  else if String.eqb name "aug" then Some 7
  else if String.eqb name "sep" then Some 8
  else if String.eqb name "oct" then Some 9
  else if String.eqb name "nov" then Some 10
  else if String.eqb name "dec" then Some 11
  else None.

(** [x > n] and [x < n] for a number that may be [undefined]. *)
Definition gt_num (x : option Z) (n : Z) : bool :=
  match x with Some v => n <? v | None => false end.
Definition lt_num (x : option Z) (n : Z) : bool :=
  match x with Some v => v <? n | None => false end.

(** [new Date(Date.UTC(year, month, date, hours, minutes))] for numbers
    that may be [NaN]. *)
Definition Date_UTC_of (year : Z) (month date hours minutes : option Z) : Date :=
  match month, date, hours, minutes with
  | Some month, Some date, Some hours, Some minutes =>
      Date_UTC year month date hours minutes 0
  | _, _, _, _ => None
  end.

(** [{ start, end }] *)
Record Parsed := { parsed_start : Date; parsed_end : Date }.

(** The branch of the first pattern. *)
Definition parse_range (m : gmap nat string) (year : Z) : Parsed :=
  let startTime := group m 1 in
  let startMon := group m 2 in
  let startDay := group m 3 in
  let endTime := group m 4 in
  let endMon := group m 5 in
  let endDay := group m 6 in
  let startMonth := months (toLowerCase startMon) in
  let endMonth := months (toLowerCase endMon) in
  let startYear := year in
  let endYear := if gt_num startMonth 10 && lt_num endMonth 2 then year + 1 else year in
  let start :=
    Date_UTC_of startYear startMonth (parseInt startDay)
      (parseInt (js_substring 0 2 startTime)) (parseInt (js_substring 2 4 startTime)) in
  let end_ :=
    Date_UTC_of endYear endMonth (parseInt endDay)
      (parseInt (js_substring 0 2 endTime)) (parseInt (js_substring 2 4 endTime)) in
  {| parsed_start := start; parsed_end := end_ |}.

(** The branch of the second pattern, and of the third. *)
Definition parse_same_day (m : gmap nat string) (year : Z) : Parsed :=
  let startTime := group m 1 in
  let endTime := group m 2 in
  let mon := group m 3 in
  let day := group m 4 in
  let month := months (toLowerCase mon) in
  let start :=
    Date_UTC_of year month (parseInt day)
      (parseInt (js_substring 0 2 startTime)) (parseInt (js_substring 2 4 startTime)) in
  let end_ :=
    Date_UTC_of year month (parseInt day)
      (parseInt (js_substring 0 2 endTime)) (parseInt (js_substring 2 4 endTime)) in
  let end_ :=
    if Date_le end_ start then setUTCDate end_ (plus_num (getUTCDate end_) 1) else end_ in
  {| parsed_start := start; parsed_end := end_ |}.

(** [parseContestDateTime(desc, year)]; nothing in its [try] block
    throws. *)
Definition parseContestDateTime (desc : string) (year : Z) : option Parsed :=
  match re_match range_re desc with
  | Some rangeMatch => Some (parse_range rangeMatch year)
  | None =>
      match re_match same_day_re desc with
      | Some sameDayMatch => Some (parse_same_day sameDayMatch year)
      | None =>
          match re_match same_day_re desc with
          | Some multiMatch => Some (parse_same_day multiMatch year)
          | None => None
          end
      end
  end.

(** ** The feed: [parseContestRSS] *)

Section Literal.
Context {R : Type}.

(** A literal and then [k]. *)
Fixpoint lit_then (l : string) (k : string -> option R) (s : string) : option R :=
  match l with
  | EmptyString => k s
  | String c l' => one (chr c) (lit_then l' k) s
  end.
End Literal.

(** [[\s\S]]: any code unit. *)
Definition any_char (a : ascii) : bool := true.

(** One attempt of [itemRegex] at the head of [s]: the opening tag,
    group 1 with [[\s\S]*?], the closing tag. It gives group 1 and the
    input that is left after the match. *)
Definition item_at (s : string) : option (string * string) :=
  lit_then "<item>"
    (fun body =>
       star_lazy any_char
         (fun close =>
            lit_then "</item>"
              (fun rest =>
                 Some (String.substring 0 (String.length body - String.length close) body,
                       rest))
              close)
         body) s.

(** [itemRegex.exec(xml)] with [s] the input from [lastIndex] on: the
    leftmost match, if there is one. *)
Fixpoint item_exec (s : string) : option (string * string) :=
  match item_at s with
  | Some found => Some found
  | None =>
      match s with
      | String _ s' => item_exec s'
      | EmptyString => None
      end
  end.

(** The [while] loop over the matches: group 1 of each, in order, or
    nothing when the fuel runs out. *)
Fixpoint items_loop (fuel : nat) (s : string) : option (list string) :=
  match fuel with
  | O => None
  | S fuel' =>
      match item_exec s with
      | Some (item, rest) => (fun items => item :: items) <$> items_loop fuel' rest
      | None => Some []
      end
  end.

Definition items (xml : string) : option (list string) :=
  items_loop (S (String.length xml)) xml.

Module FeedContest.
(** An element of [contests] in [parseContestRSS],
    [{ name, start, end, mode, status, url }]. The two ISO strings are
    kept as the time values that they write. *)
Record t := Make {
  name : string;
  start : Z;
  end_ : Z;
  mode : string;
  status : string;
  url : option string
}.
End FeedContest.

(** The mode that the name of a contest suggests. *)
Definition contest_mode (name : string) : string :=
  let nameLower := toLowerCase name in
  if includes "cw" nameLower || includes "morse" nameLower then "CW"
  else if includes "ssb" nameLower || includes "phone" nameLower
          || includes "sideband" nameLower then "SSB"
  else if includes "rtty" nameLower then "RTTY"
  else if includes "ft4" nameLower || includes "ft8" nameLower
          || includes "digi" nameLower then "Digital"
  else if includes "vhf" nameLower || includes "uhf" nameLower then "VHF"
  else "Mixed".

(** The body of the loop, for group 1 of a match: the element pushed, if
    any, unless [toISOString] throws. *)
Definition feed_contest (now currentYear : Z) (item : string)
  : outcome (option FeedContest.t) :=
  let titleMatch := tag_text "title" item in
  let linkMatch := tag_text "link" item in
  let descMatch := tag_text "description" item in
  match titleMatch, descMatch with
  | Some title, Some description =>
      let name := trim title in
      let desc := trim description in
      let url := trim <$> linkMatch in
      match parseContestDateTime desc currentYear with
      | Some parsed =>
          let status :=
            if Date_ge (Some now) (parsed_start parsed) && Date_le (Some now) (parsed_end parsed)
            then "active" else "upcoming" in
          let mode := contest_mode name in
          match toISOString (parsed_start parsed) with
          | Throw e => Throw e
          | Ok start =>
              match toISOString (parsed_end parsed) with
              | Throw e => Throw e
              | Ok end_ => Ok (Some (FeedContest.Make name start end_ mode status url))
              end
          end
      | None => Ok None
      end
  | _, _ => Ok None
  end.

(** The elements pushed for a list of items, in order. *)
Fixpoint feed_contests (now currentYear : Z) (l : list string)
  : outcome (list FeedContest.t) :=
  match l with
  | [] => Ok []
  | item :: l' =>
      match feed_contest now currentYear item with
      | Throw e => Throw e
      | Ok c =>
          match feed_contests now currentYear l' with
          | Throw e => Throw e
          | Ok cs => Ok (option_list c ++ cs)%list
          end
      end
  end.

(** [parseContestRSS(xml)], called at the time [now] in a zone that is
    [offset] milliseconds ahead of UTC: nothing when the loop does not
    end. *)
Definition parseContestRSS (offset now : Z) (xml : string)
  : option (outcome (list FeedContest.t)) :=
  let currentYear := getFullYear offset now in
  match items xml with
  | None => None
  | Some l =>
      match feed_contests now currentYear l with
      | Throw e => Some (Throw e)
      | Ok contests => Some (Ok (slice0 20 (sort_by_start FeedContest.start contests)))
      end
  end.

(** ** [GET /api/contests] *)

(** An element of the array that the route answers with. *)
Inductive contest_json : Type :=
  | FromFeed (c : FeedContest.t)
  | Calculated (c : Contest.t).

Definition contests_url : string := "https://www.contestcalendar.com/calendar.rss".

Section Contests.
Context {S : Type}.

(** The offset of the local time zone from UTC at a time, in
    milliseconds. *)
Variable offset : Z -> Z.

(** The first [try] block: the contests of the feed, when the block
    returns them; nothing when a loop does not end. *)
Definition contests_of_feed (r : http_reply)
  : M S (option (option (list FeedContest.t))) :=
  try_catch
    (response <- fetch contests_url r ;;
     if ok response then
       text <- response_text response ;;
       now <- date_now ;;
       match parseContestRSS (offset now) now text with
       | None => ret None
       | Some (Throw e) => throw e
       | Some (Ok contests) =>
           ret (Some (if (0 <? length contests)%nat then Some contests else None))
       end
     else ret (Some None))
    (fun error => ret (Some None)).

(** The second [try] block. *)
Definition contests_calculated : M S (option (option (list Contest.t))) :=
  try_catch
    (now <- date_now ;;
     match calculateUpcomingContests (offset now) now with
     | None => ret None
     | Some (Throw e) => throw e
     | Some (Ok contests) => ret (Some (Some contests))
     end)
    (fun error => ret (Some None)).

(** The route handler: nothing when a loop does not end. *)
Definition contests_route (r : http_reply) : M S (option (reply (list contest_json))) :=
  feed <- contests_of_feed r ;;
  match feed with
  | None => ret None
  | Some (Some contests) => ret (Some (res_json (List.map FromFeed contests)))
  | Some None =>
      calculated <- contests_calculated ;;
      match calculated with
      | None => ret None
      | Some (Some contests) => ret (Some (res_json (List.map Calculated contests)))
      | Some None => ret (Some (res_json []))
      end
  end.
End Contests.


(* ===================================================================== *)
(** * Notions used in the statements *)
(* ===================================================================== *)

(** What a reply of HamQTH comes to for [fetchHamQTH]. *)
Definition hamqth_yield (r : http_reply) : option (list Spot) :=
  match result r with
  | Resolved true (Ok text) => hamqth_parse text
  | _ => None
  end.

(** The cache test of [fetchDXSpider]. *)
Definition spider_fresh (c : SpiderCache.t) (now : Z) : bool :=
  (now - SpiderCache.timestamp c <? DXSPIDER_CACHE_TTL) &&
  (0 <? List.length (SpiderCache.spots c))%nat.

(** The spots that a telnet connection collects. *)
Definition telnet_spots (t : telnet_run) : list Spot :=
  Session.spots (run_session (chunks t)).

(** The query selects neither [hamqth] nor [dxspider]: the route is in its
    auto mode. *)
Definition auto_mode (q : option query_value) : bool :=
  match query_source q with
  | Ok source => negb (String.eqb source "hamqth") && negb (String.eqb source "dxspider")
  | Throw _ => false
  end.

(** The states of the server that serves [/api/dxcluster/spots]: it starts
    with the cache as declared, time passes, requests are served. *)
Inductive reachable : world SpiderCache.t -> Prop :=
  | reach_start (t : Z) :
      reachable (World t [] SpiderCache.init)
  | reach_wait (w : world SpiderCache.t) (ms : Z) :
      reachable w ->
      reachable (World (clock w + ms) (trace w) (store w))
  | reach_request (w : world SpiderCache.t) (q : option query_value) (up : upstream) :
      reachable w ->
      reachable (snd (dxcluster_spots q up w)).

(** A property that every spot made from a telnet line has. *)
Definition line_property (P : Spot -> Prop) : Prop :=
  forall line s, spider_spot line = Some s -> P s.

(** ** Sample values *)

(** A spot cached by an earlier session. *)
Definition old_spot : Spot :=
  {| freq := "14.074"; call := "TX5U"; comment := "FT8"; time := "21:49z";
     spotter := "KF0NYM"; source := "DX Spider" |}.

(** What [fetch] is rejected with when the timeout aborts the request. *)
Definition aborted : exn := Exn "AbortError" "The operation was aborted".

(** ** What a match says about the text *)

(** How many characters a quantifier may take. *)
Definition quant_ok (q : quant) (n : nat) : Prop :=
  match q with
  | One => n = 1%nat
  | Opt => (n <= 1)%nat
  | Star => True
  | Plus | PlusLazy => (1 <= n)%nat
  | Times m => n = m
  end.

(** The continuation [k] gives [r] after a run [s1] of characters of the
    class [p], of a length that [ok] allows, has been taken off [s]. *)
Definition took {R} (p : ascii -> bool) (k : string -> option R)
    (ok : nat -> Prop) (s : string) (r : R) : Prop :=
  exists s1 s2, s = s1 +:+ s2 /\ forallb_string p s1 = true /\
                ok (String.length s1) /\ k s2 = Some r.

(** The text that a successful attempt has read, item by item, and the
    state it ends in. *)
Fixpoint reads (re : regex) (st : mstate) (s : string) (st' : mstate) : Prop :=
  match re with
  | [] => st' = st
  | Cls p q :: re' =>
      exists s1 s2, s = s1 +:+ s2 /\ forallb_string p s1 = true /\
                    quant_ok q (String.length s1) /\ reads re' st s2 st'
  | Open i :: re' => reads re' (open_group i s st) s st'
  | Close i :: re' => reads re' (close_group i s st) s st'
  end.

(** The five groups of a match of [spot_line_re]: two calls, each a
    non-empty run of call characters; a frequency, digits with at most one
    point after the first run; a comment; four digits of time. *)
Inductive spot_groups (m : gmap nat string) : Prop :=
  SpotGroups (g_spotter g_freq g_call g_comment g_time d1 o d2 : string)
    (groups_are :
       m = <[5%nat := g_time]> (<[4%nat := g_comment]> (<[3%nat := g_call]>
             (<[2%nat := g_freq]> (<[1%nat := g_spotter]> ∅)))))
    (spotter_chars : forallb_string call_char g_spotter = true)
    (spotter_some : nonempty g_spotter = true)
    (call_chars : forallb_string call_char g_call = true)
    (call_some : nonempty g_call = true)
    (freq_parts : g_freq = d1 +:+ o +:+ d2)
    (freq_int : forallb_string is_digit d1 = true)
    (freq_int_some : nonempty d1 = true)
    (freq_point : forallb_string (chr ".") o = true)
    (freq_point_one : (String.length o <= 1)%nat)
    (freq_frac : forallb_string is_digit d2 = true)
    (time_digits : forallb_string is_digit g_time = true)
    (time_four : String.length g_time = 4%nat).

(** ** The shape of a frequency and of a spot *)

(** Digits, a point and three digits. *)
Definition three_decimals (s : string) : bool :=
  match split "." s with
  | [a; b] =>
      nonempty a && forallb_string is_digit a &&
      (String.length b =? 3)%nat && forallb_string is_digit b
  | _ => false
  end.

(** Zero, or a positive number below [10^21]: the numbers that [toFixed]
    writes with plain digits and no sign. *)
Definition plain (x : number) : bool :=
  match x with
  | S754_zero _ => true
  | S754_finite false m e =>
      let '(num, den) := frac_of m e in negb (10 ^ 21 * den <=? num)
  | _ => false
  end.

(** The invariant that the data model claims for a spot. *)
Definition claimed_invariant (s : Spot) : bool :=
  three_decimals (freq s) && num_gt (parseFloat (freq s)) (num_of_Z 0) &&
  nonempty (call s) && nonempty (spotter s) &&
  is_upper_cased (call s) && is_upper_cased (spotter s).

(** What a spot of the telnet source carries. *)
Definition spider_wf (s : Spot) : Prop :=
  source s = "DX Spider" /\
  nonempty (call s) = true /\ forallb_string call_char (call s) = true /\
  nonempty (spotter s) = true /\ forallb_string call_char (spotter s) = true /\
  exists freqKhz,
    num_gt freqKhz (num_of_Z 0) = true /\
    freq s = toFixed 3 (num_div freqKhz (num_of_Z 1000)).

(** What a spot of HamQTH carries. *)
Definition hamqth_wf (s : Spot) : Prop :=
  source s = "HamQTH" /\
  nonempty (call s) = true /\
  exists freqKhz,
    isNaN freqKhz = false /\
    freq s = if num_gt freqKhz (num_of_Z 1000)
             then toFixed 3 (num_div freqKhz (num_of_Z 1000))
             else num_to_string freqKhz.

(** The pair that [spots.find] compares. *)
Definition spot_key (s : Spot) : string * string := (call s, freq s).

(** ** Bodies and paths *)

(** A body made of lines: each but the last is followed by a line feed. *)
Fixpoint unlines (lines : list string) : string :=
  match lines with
  | [] => ""
  | [l] => l
  | l :: ls => l +:+ String newline (unlines ls)
  end.

(** The estimate finds a place for the call. *)
Definition located (c : string) : bool :=
  match estimateLocationFromPrefix c with Some _ => true | None => false end.

(** The estimate finds a place for both calls of the spot. *)
Definition both_located (s : PathSpot.t) : bool :=
  located (PathSpot.spotter s) && located (PathSpot.dxCall s).

(** Both ends of the path are calls that the estimate locates. *)
Definition path_located (p : Path) : bool :=
  located (path_spotter p) && located (path_dxCall p).

(** What the route and its cache hold: at most 25 paths, each with both
    ends located. *)
Definition paths_ok (paths : list Path) : Prop :=
  (List.length paths <= 25)%nat /\ Forall (fun p => path_located p = true) paths.

(** The states of the server that serves [/api/dxcluster/paths]. *)
Inductive paths_reachable (is_recent : Z -> string -> bool)
  : world PathsCache.t -> Prop :=
  | paths_start (t : Z) :
      paths_reachable is_recent (World t [] PathsCache.init)
  | paths_wait (w : world PathsCache.t) (ms : Z) :
      paths_reachable is_recent w ->
      paths_reachable is_recent (World (clock w + ms) (trace w) (store w))
  | paths_request (w : world PathsCache.t) (r : http_reply) :
      paths_reachable is_recent w ->
      paths_reachable is_recent (snd (dxcluster_paths is_recent r w)).

(** The path of a spot from the estimates of its two calls. *)
Definition estimated_path (s : PathSpot.t) : option Path :=
  match estimateLocationFromPrefix (PathSpot.spotter s),
        estimateLocationFromPrefix (PathSpot.dxCall s) with
  | Some a, Some b => Some (make_path s (entry a) (entry b))
  | _, _ => None
  end.

(** ** The telnet dialogue *)

(** The three lines that a session writes to the socket. *)
Definition login_line : string := "GUEST" +:+ crlf.
Definition command_line : string := "sh/dx 25" +:+ crlf.
Definition bye_line : string := "bye" +:+ crlf.

(** What a session has written apart from [bye], in order. *)
Definition handshake (st : Session.t) : list string :=
  List.filter (fun l => negb (String.eqb l bye_line)) (Session.written st).

(** What has been written apart from [bye], followed by what the timers
    hold, is the login and the command that the two flags record. *)
Definition dialogue_ok (st : Session.t) : Prop :=
  (Session.commandSent st = true -> Session.loginSent st = true) /\
  (handshake st ++ Session.scheduled st)%list =
    ((if Session.loginSent st then [login_line] else []) ++
     (if Session.commandSent st then [command_line] else []))%list.

(** The [data] events among the callbacks, in order. *)
Fixpoint data_of (events : list session_event) : list string :=
  match events with
  | [] => []
  | Data data :: es => data :: data_of es
  | Timer :: es => data_of es
  end.

(** Two sessions with the same spots, buffer and flags. *)
Definition same_variables (a b : Session.t) : Prop :=
  Session.spots a = Session.spots b /\ Session.buffer a = Session.buffer b /\
  Session.loginSent a = Session.loginSent b /\
  Session.commandSent a = Session.commandSent b.

(** All the text received, [data] event after [data] event. *)
Definition received (chunks : list string) : string :=
  fold_left String.append chunks "".

(** The text holds one of the three login prompts. *)
Definition has_prompt (buffer : string) : bool :=
  includes "login:" buffer || includes "Please enter your call" buffer ||
  includes "enter your callsign" buffer.

(** Twenty lines of a [sh/dx] listing, from 14001.0 to 14020.0 kHz. *)
Definition listing : list string :=
  List.map
    (fun khz => "DX de W3LPL:     " +:+ khz +:+ ".0  TI5/AA8HH    FT8 -09 dB           1234Z")
    ["14001"; "14002"; "14003"; "14004"; "14005"; "14006"; "14007"; "14008";
     "14009"; "14010"; "14011"; "14012"; "14013"; "14014"; "14015"; "14016";
     "14017"; "14018"; "14019"; "14020"].

(** Two texts with the same letters, their case apart: what a literal
    matches under the [i] flag. *)
Definition same_letters (a b : string) : bool :=
  String.eqb (map_string upper_char a) (map_string upper_char b).

(** A non-empty run of white space. *)
Definition blank (ws : string) : bool := nonempty ws && forallb_string is_space ws.

(** The line holds the listing of a spot: [DX de], in any case of the
    letters, the spotter [g1] and a colon, the frequency [g2], the call
    [g3], the text [g4], the four digits [g5] and [Z] or [z], with white
    space between them. *)
Definition holds_spot (line g1 g2 g3 g4 g5 : string) : Prop :=
  exists before dxde ws1 ws2 ws3 ws4 z after,
    line = before +:+ dxde +:+ g1 +:+ ":" +:+ ws1 +:+ g2 +:+ ws2 +:+ g3 +:+ ws3 +:+
           g4 +:+ ws4 +:+ g5 +:+ z +:+ after /\
    same_letters dxde "DX de " = true /\ same_letters z "Z" = true /\
    blank ws1 = true /\ blank ws2 = true /\ blank ws3 = true /\ blank ws4 = true.

(** Two digits, a colon, two digits and [z]. *)
Definition clock_text (s : string) : bool :=
  match s with
  | String h1 (String h2 (String c (String m1 (String m2 (String z ""))))) =>
      is_digit h1 && is_digit h2 && Ascii.eqb c ":" &&
      is_digit m1 && is_digit m2 && Ascii.eqb z "z"
  | _ => false
  end.

(** ** The fields of a line of the CSV feed *)

(** [fields.join(sep)] for a one-character separator. *)
Fixpoint join (sep : ascii) (fields : list string) : string :=
  match fields with
  | [] => ""
  | [f] => f
  | f :: fs => f +:+ String sep (join sep fs)
  end.

(** The field holds no separator. *)
Definition no_caret (f : string) : bool :=
  forallb_string (fun c => negb (Ascii.eqb c "^")) f.

(** ** The cache of the paths *)

(** The cache test of [/api/dxcluster/paths]. *)
Definition paths_fresh (c : PathsCache.t) (now : Z) : bool :=
  (now - PathsCache.timestamp c <? DXPATHS_CACHE_TTL) &&
  (0 <? List.length (PathsCache.paths c))%nat.

(** The reply is a response that is [ok] and whose body can be read. *)
Definition readable (r : http_reply) : bool :=
  match result r with
  | Resolved true (Ok _) => true
  | _ => false
  end.

(** The paths that a readable reply gives when its body is parsed at time
    [done]. *)
Definition reply_paths (is_recent : Z -> string -> bool) (r : http_reply) (done : Z)
  : list Path :=
  match result r with
  | Resolved true (Ok text) =>
      build_paths (drop_nulls (List.map (path_spot is_recent done) (hamqth_lines text)))
  | _ => []
  end.

(** The two calls of a spot of the paths route, or of a path, are
    non-empty and in upper case. *)
Definition upper_call (c : string) : bool := nonempty c && is_upper_cased c.

Definition path_spot_calls_ok (s : PathSpot.t) : bool :=
  upper_call (PathSpot.spotter s) && upper_call (PathSpot.dxCall s).

Definition path_calls_ok (p : Path) : bool :=
  upper_call (path_spotter p) && upper_call (path_dxCall p).

(** ** The prefix table *)

(** A key of the table starts with a capital letter or with [9]; its
    entry has a latitude and a longitude in degrees, neither of them zero,
    and names a country. *)
Definition first_char_ok (k : string) : bool :=
  match k with
  | String c _ => is_upper c || Ascii.eqb c "9"
  | EmptyString => false
  end.

Definition degrees (bound : Z) (x : number) : bool :=
  SFleb (num_of_Z (- bound)) x && SFleb x (num_of_Z bound) && num_truthy x.

Definition place_ok (p : Place) : bool :=
  degrees 90 (lat p) && degrees 180 (lon p) && nonempty (country p).

(** ** The tags of a response *)

(** The text holds the element [tag] with the content [g]. *)
Definition holds_tag (tag g text : string) : Prop :=
  exists before after,
    text = before +:+ ("<" +:+ tag +:+ ">") +:+ g +:+ ("</" +:+ tag +:+ ">") +:+ after.

(** ** The spots of one call *)

(** The call is part of the spotter or of the DX call of the spot. *)
Definition involves (callsign : string) (s : MySpot.t) : bool :=
  includes callsign (MySpot.spotter s) || includes callsign (MySpot.dxCall s).

(** The spot with the place that the estimate gives to its target. *)
Definition estimated_target (s : MySpot.t) : TargetSpot :=
  let loc := entry <$> estimateLocationFromPrefix (target s) in
  {| my_spot_of := s;
     targetCall := target s;
     target_lat := lat <$> loc;
     target_lon := lon <$> loc;
     target_country := country <$> loc |}.

(** ** The calendar of contests *)


(** The fields of an entry are in range: a month, the last weekend or one
    of the first four, and a whole number of hours, four days at most. *)
Definition major_ok (c : Major.t) : Prop :=
  0 <= Major.month c <= 11 /\
  (Major.weekend c = -1 \/ 1 <= Major.weekend c <= 4) /\
  Qden (Major.duration c) = 1%positive /\
  0 <= Qnum (Major.duration c) <= 96.

(** [t] is the midnight, UTC, that starts the Saturday which the entry
    names, in the year [y]. *)
Definition weekend_start (c : Major.t) (y t : Z) : Prop :=
  WeekDay t = 6 /\ TimeWithinDay t = 0 /\
  YearFromTime t = y /\ MonthFromTime t = Major.month c /\
  if Major.weekend c =? -1
  then DaysInMonth y (Major.month c) - 7 < DateFromTime t <= DaysInMonth y (Major.month c)
  else 7 * (Major.weekend c - 1) < DateFromTime t <= 7 * Major.weekend c.

(** The element pushed for an occurrence that starts at [t]. *)
Definition major_entry (now : Z) (c : Major.t) (t : Z) : Contest.t :=
  Contest.Make (Major.name c) t (t + Qnum (Major.duration c) * msPerHour) (Major.mode c)
               (if t <=? now then "active" else "upcoming").

(** An element of the calendar at the time [now]: it has not ended, and
    it is active when it has started. *)
Definition listed (now : Z) (c : Contest.t) : Prop :=
  now <= Contest.end_ c /\
  Contest.status c = (if Contest.start c <=? now then "active" else "upcoming").

(** An element that starts a week from [now], or later. *)
Definition week_ahead (now : Z) (c : Contest.t) : Prop :=
  now + 7 * msPerDay <= Contest.start c.

(** The day of the month, from 0, on which the weekend of an entry
    starts. *)
Definition weekend_day (c : Major.t) (y : Z) : Z :=
  if Major.weekend c =? -1
  then DaysInMonth y (Major.month c) - 1 - back_to_saturday y (Major.month c)
  else first_saturday y (Major.month c) + 7 * (Major.weekend c - 1).



(** The contests that the reply of the feed gives when it is read at the
    time [now]: none when the request fails, the status is not
    successful, the body cannot be read, the parse does not return or
    throws, or it finds no contest. *)
Definition feed_of (offset : Z -> Z) (now : Z) (r : http_reply)
  : option (list FeedContest.t) :=
  match result r with
  | Resolved true (Ok text) =>
      match parseContestRSS (offset now) now text with
      | Some (Ok (c :: cs)) => Some (c :: cs)
      | _ => None
      end
  | _ => None
  end.

(** The four digits [time] are a time of the day, [h] hours and [mi]
    minutes. *)
Definition clock_time (time : string) (h mi : Z) : Prop :=
  parseInt (js_substring 0 2 time) = Some h /\
  parseInt (js_substring 2 4 time) = Some mi /\
  0 <= h < 24 /\ 0 <= mi < 60.

(** The words [mon] and [day] name the day [d] of the month [mo] of the
    year. *)
Definition day_of (mon day : string) (year mo d : Z) : Prop :=
  months (toLowerCase mon) = Some mo /\
  parseInt day = Some d /\
  1 <= d <= DaysInMonth year mo.

(** The time value [t] is the minute [h]:[mi] of a day, UTC. *)
Definition at_utc (t year mo d h mi : Z) : Prop :=
  YearFromTime t = year /\ MonthFromTime t = mo /\ DateFromTime t = d /\
  TimeWithinDay t = h * msPerHour + mi * msPerMinute.

(** The year of the end of a range in the year [year], from the month
    [mo1] to the month [mo2]: the next year for a range from December to
    January or February. *)
Definition end_year (year mo1 mo2 : Z) : Z :=
  if (mo1 =? 11) && (mo2 <? 2) then year + 1 else year.


(** ** Proof tools *)

(** The table and the numbers are computed, never unfolded by [simpl]. *)
Arguments estimateLocationFromPrefix : simpl never.
Arguments prefixLocations : simpl never.
Arguments lookup_result : simpl never.
Arguments my_spots : simpl never.
Arguments spots_with_locations : simpl never.
Arguments dxcc_url : simpl never.
Arguments parseContestRSS : simpl never.
Arguments calculateUpcomingContests : simpl never.

(** Runs the steps of a handler. *)
Ltac run_js :=
  unfold bind, ret, throw, try_catch, date_now, elapse, emit, get_var, set_var,
         fetch, response_text; simpl.

(** Takes the next item off a hypothesis [reads (item :: re) st s st']. *)
Tactic Notation "read" hyp(H) "as" ident(t) ident(Hp) ident(Hn) :=
  cbn [reads] in H;
  let rest := fresh "rest" in
  destruct H as (t & rest & -> & Hp & Hn & H).

Tactic Notation "skip" hyp(H) :=
  let t := fresh "t" in
  let Hp := fresh "Hp" in
  let Hn := fresh "Hn" in
  read H as t Hp Hn.

(* ===================================================================== *)
(** * The fetchers, step by step *)
(* ===================================================================== *)

Lemma bind_ret {S A B} (a : A) (f : A -> M S B) : bind (ret a) f = f a.
Proof. reflexivity. Qed.

Lemma bind_throw {S A B} (e : exn) (f : A -> M S B) : bind (throw e) f = throw e.
Proof. reflexivity. Qed.

(** [fetchHamQTH] always returns: the yield of the reply, after the time
    the reply took, with one request on the trace and the store as it was. *)
Lemma fetchHamQTH_run {S} (up : upstream) (w : world S) :
  fetchHamQTH up w =
    (Ok (hamqth_yield (hamqth up)),
     World (clock w + latency (hamqth up))
           (trace w ++ [Fetch hamqth_url]) (store w)).
Proof.
  unfold fetchHamQTH, hamqth_yield. run_js.
  destruct (result (hamqth up)) as [e | [|] [text | e]]; simpl; reflexivity.
Qed.

(** [fetchDXSpider] always returns: the cached spots if they are fresh,
    else what a new connection collects, stored with the time of its
    [close] event when there is something to store. *)
Lemma fetchDXSpider_run (up : upstream) (w : world SpiderCache.t) :
  fetchDXSpider up w =
    if spider_fresh (store w) (clock w) then
      (Ok (Some (SpiderCache.spots (store w))), w)
    else
      let closed := clock w + duration (dxspider up) in
      let tr := (trace w ++ [Connect "dxspider.co.uk" 7300])%list in
      match telnet_spots (dxspider up) with
      | [] => (Ok None, World closed tr (store w))
      | spots => (Ok (Some spots), World closed tr (SpiderCache.Make spots closed))
      end.
Proof.
  unfold fetchDXSpider, spider_fresh, telnet_spots.
  unfold on_fallback, on_timeout, on_error, destroy, on_close. run_js.
  destruct (_ && _); [reflexivity|].
  destruct (ends (dxspider up)); destruct (Session.spots _); reflexivity.
Qed.

(** The route in its three modes. *)
Lemma dxcluster_spots_hamqth (q : option query_value) up w :
  query_source q = Ok "hamqth" ->
  dxcluster_spots q up w =
    (Ok (res_json (default [] (hamqth_yield (hamqth up)))),
     snd (fetchHamQTH (S := SpiderCache.t) up w)).
Proof.
  intros Hq. unfold dxcluster_spots. rewrite Hq, bind_ret. simpl.
  unfold bind at 1. rewrite fetchHamQTH_run. reflexivity.
Qed.

Lemma dxcluster_spots_dxspider (q : option query_value) up w :
  query_source q = Ok "dxspider" ->
  dxcluster_spots q up w =
    match fetchDXSpider up w with
    | (Ok (Some spots), w1) => (Ok (res_json spots), w1)
    | (Ok None, w1) =>
        (Ok (res_json (default [] (hamqth_yield (hamqth up)))),
         snd (fetchHamQTH up w1))
    | (Throw e, w1) => (Throw e, w1)
    end.
Proof.
  intros Hq. unfold dxcluster_spots. rewrite Hq, bind_ret. simpl.
  unfold bind. destruct (fetchDXSpider up w) as [[[spots|]|e] w1]; try reflexivity.
  rewrite fetchHamQTH_run. reflexivity.
Qed.

Lemma dxcluster_spots_auto (q : option query_value) up w :
  auto_mode q = true ->
  dxcluster_spots q up w =
    let w1 := snd (fetchHamQTH up w) in
    match hamqth_yield (hamqth up) with
    | Some spots => (Ok (res_json spots), w1)
    | None =>
        match fetchDXSpider up w1 with
        | (Ok spots, w2) => (Ok (res_json (default [] spots)), w2)
        | (Throw e, w2) => (Throw e, w2)
        end
    end.
Proof.
  unfold auto_mode. destruct (query_source q) as [source|e] eqn:Eq; [|discriminate].
  intros Hq. apply andb_prop in Hq as [H1 H2].
  apply negb_true_iff in H1, H2.
  unfold dxcluster_spots. rewrite Eq, bind_ret, H1, H2.
  unfold bind. rewrite fetchHamQTH_run. simpl.
  destruct (hamqth_yield (hamqth up)) as [spots|]; [reflexivity|].
  destruct (fetchDXSpider up _) as [[spots|e] w2]; reflexivity.
Qed.

(* ===================================================================== *)
(** * What every collected spot inherits from its line *)
(* ===================================================================== *)

Lemma scan_line_all P spots line :
  line_property P -> Forall P spots -> Forall P (scan_line spots line).
Proof.
  intros HP H. unfold scan_line.
  destruct (spider_spot line) as [s|] eqn:E; [|exact H].
  destruct (seen spots (call s) (freq s)); [exact H|].
  apply Forall_app. split; [exact H|].
  constructor; [eapply HP; eassumption | constructor].
Qed.

Lemma scan_lines_all P lines :
  line_property P ->
  forall spots, Forall P spots -> Forall P (fold_left scan_line lines spots).
Proof.
  intros HP. induction lines as [|l ls IH]; intros spots H; simpl; [exact H|].
  apply IH, scan_line_all; assumption.
Qed.

Lemma on_data_all P st data :
  line_property P ->
  Forall P (Session.spots st) -> Forall P (Session.spots (on_data st data)).
Proof.
  intros HP H. unfold on_data.
  destruct (negb _ && _); [exact H|].
  destruct (_ && _ && _); [exact H|].
  cbn [Session.spots]. apply scan_lines_all; assumption.
Qed.

Lemma session_all P chunks :
  line_property P ->
  forall st,
    Forall P (Session.spots st) ->
    Forall P (Session.spots (fold_left on_data chunks st)).
Proof.
  intros HP. induction chunks as [|c cs IH]; intros st H; simpl; [exact H|].
  apply IH, on_data_all; assumption.
Qed.

Lemma telnet_spots_all P t : line_property P -> Forall P (telnet_spots t).
Proof. intros HP. apply session_all; [exact HP | constructor]. Qed.

(** The cache only ever holds what a connection collected. *)
Lemma fetchDXSpider_keeps P up w :
  line_property P ->
  Forall P (SpiderCache.spots (store w)) ->
  Forall P (SpiderCache.spots (store (snd (fetchDXSpider up w)))) /\
  forall spots, fst (fetchDXSpider up w) = Ok (Some spots) -> Forall P spots.
Proof.
  intros HP H. rewrite fetchDXSpider_run.
  destruct (spider_fresh _ _); [split; [exact H | intros ? [= <-]; exact H]|].
  pose proof (telnet_spots_all P (dxspider up) HP) as Ht.
  cbv zeta. destruct (telnet_spots (dxspider up)) as [|s l]; simpl.
  - split; [exact H | discriminate].
  - split; [exact Ht | intros ? [= <-]; exact Ht].
Qed.

Lemma dxcluster_spots_keeps P q up w :
  line_property P ->
  Forall P (SpiderCache.spots (store w)) ->
  Forall P (SpiderCache.spots (store (snd (dxcluster_spots q up w)))).
Proof.
  intros HP H. unfold dxcluster_spots.
  destruct (query_source q) as [source|e]; [rewrite bind_ret | exact H].
  destruct (String.eqb source "hamqth").
  - unfold bind at 1. rewrite (fetchHamQTH_run up). exact H.
  - destruct (String.eqb source "dxspider"); unfold bind.
    + pose proof (fetchDXSpider_keeps P up w HP H) as [Hk _].
      destruct (fetchDXSpider up w) as [[[spots|]|e] w1]; simpl in *; try exact Hk.
      rewrite (fetchHamQTH_run up). exact Hk.
    + rewrite (fetchHamQTH_run up).
      destruct (hamqth_yield (hamqth up)); [exact H|].
      match goal with |- context [fetchDXSpider up ?w1] =>
        pose proof (fetchDXSpider_keeps P up w1 HP H) as [Hk _];
        destruct (fetchDXSpider up w1) as [[spots|e] w2] end; exact Hk.
Qed.

Lemma reachable_cache P w :
  line_property P -> reachable w -> Forall P (SpiderCache.spots (store w)).
Proof.
  intros HP. induction 1 as [t | w ms _ IH | w q up _ IH]; simpl.
  - constructor.
  - exact IH.
  - apply dxcluster_spots_keeps; assumption.
Qed.

Lemma spider_spot_source line s :
  spider_spot line = Some s -> source s = "DX Spider".
Proof.
  unfold spider_spot. intros H.
  destruct (includes "DX de " line); [|discriminate].
  destruct (re_match spot_line_re line); [|discriminate].
  destruct (_ && _ && _); [|discriminate].
  injection H as <-. reflexivity.
Qed.

(** [fetchHamQTH] never hands over an empty array: it yields [null] or at
    least one spot. *)
Lemma hamqth_parse_nonempty text spots :
  hamqth_parse text = Some spots -> spots <> [].
Proof.
  unfold hamqth_parse, slice0.
  destruct (hamqth_lines text) as [|l ls]; simpl; [discriminate|].
  intros [= <-]. discriminate.
Qed.

Lemma hamqth_yield_nonempty r spots :
  hamqth_yield r = Some spots -> spots <> [].
Proof.
  unfold hamqth_yield.
  destruct (result r) as [e | [|] [text | e]]; try discriminate.
  apply hamqth_parse_nonempty.
Qed.

(** [fetchDXSpider] returns, with the world only grown. *)
Lemma fetchDXSpider_returns (up : upstream) (w : world SpiderCache.t) :
  exists found w' rest,
    fetchDXSpider up w = (Ok found, w') /\
    trace w' = (trace w ++ rest)%list.
Proof.
  rewrite fetchDXSpider_run.
  destruct (spider_fresh _ _).
  - exists (Some (SpiderCache.spots (store w))), w, [].
    split; [reflexivity | symmetry; apply app_nil_r].
  - cbv zeta. destruct (telnet_spots _); eexists _, _, _; simpl; eauto.
Qed.

(* ===================================================================== *)
(** * C1: the spots route and its query *)
(* ===================================================================== *)

(** For a query without the key [source], or with a string for it,
    whatever the upstreams do, the handler of [/api/dxcluster/spots]
    answers with status 200 and an array of spots, and neither fetcher
    throws: [fetchHamQTH] returns [null] when the request is rejected
    (transport error or abort at the timeout), when the response is not
    [ok], and when reading the body fails; [fetchDXSpider] returns the
    fresh cache, the spots collected, or [null] when none were. *)
Lemma spots_route_answers_a_string (q : option query_value) (source : string)
    (up : upstream) (w : world SpiderCache.t) :
  query_source q = Ok source ->
  (exists spots w', dxcluster_spots q up w = (Ok (Reply 200 spots), w')) /\
  (exists v w', fetchHamQTH up w = (Ok v, w')) /\
  (exists v w', fetchDXSpider up w = (Ok v, w')) /\
  (forall ms e t,
     fst (fetchHamQTH (Upstream (HttpReply ms (Rejected e)) t) w) = Ok None) /\
  (forall ms b t,
     fst (fetchHamQTH (Upstream (HttpReply ms (Resolved false b)) t) w) = Ok None) /\
  (forall ms e t,
     fst (fetchHamQTH (Upstream (HttpReply ms (Resolved true (Throw e))) t) w) = Ok None) /\
  fst (fetchDXSpider up w) =
    Ok (if spider_fresh (store w) (clock w) then Some (SpiderCache.spots (store w))
        else match telnet_spots (dxspider up) with
             | [] => None
             | spots => Some spots
             end).
Proof.
  intros Hq.
  assert (Hs : forall w0 : world SpiderCache.t,
             exists v w', fetchDXSpider up w0 = (Ok v, w')).
  { intros w0. destruct (fetchDXSpider_returns up w0) as (v & w' & _ & H & _).
    eauto. }
  repeat apply conj.
  - unfold dxcluster_spots, res_json. rewrite Hq, bind_ret.
    destruct (String.eqb source "hamqth").
    + unfold bind at 1. rewrite (fetchHamQTH_run up). unfold ret. eauto.
    + destruct (String.eqb source "dxspider"); unfold bind.
      * destruct (Hs w) as (v & w1 & ->).
        destruct v; [unfold ret; eauto|].
        rewrite (fetchHamQTH_run up). unfold ret. eauto.
      * rewrite (fetchHamQTH_run up).
        destruct (hamqth_yield (hamqth up)); [unfold ret; eauto|].
        match goal with |- context [fetchDXSpider up ?w1] =>
          destruct (Hs w1) as (v & w2 & ->) end.
        unfold ret. eauto.
  - rewrite (fetchHamQTH_run up). eauto.
  - apply Hs.
  - intros. rewrite (fetchHamQTH_run _ w). reflexivity.
  - intros. rewrite (fetchHamQTH_run _ w). reflexivity.
  - intros. rewrite (fetchHamQTH_run _ w). reflexivity.
  - rewrite fetchDXSpider_run.
    destruct (spider_fresh _ _); [reflexivity|].
    cbv zeta. destruct (telnet_spots _); reflexivity.
Qed.

(** C1. The claim fails on a request that Express can hand over. For a
    query that repeats the key, as [?source=hamqth&source=auto], or
    writes it with brackets, as [?source[a]=b], [req.query.source] is an
    array or an object: the first statement of the handler calls its
    [toLowerCase], which is no function, and throws a [TypeError]
    outside of every [try]. The handler ends there, whatever the
    upstreams would have done: no fetcher is called, nothing is stored,
    and no answer is sent. *)
Theorem spots_route_throws_on_repeated_source
    (items : list query_value) (fields : list (string * query_value))
    (up : upstream) (w : world SpiderCache.t) :
  dxcluster_spots (Some (QArray items)) up w = (Throw not_a_function, w) /\
  dxcluster_spots (Some (QObject fields)) up w = (Throw not_a_function, w) /\
  dxcluster_spots (Some (QArray [QString "hamqth"; QString "auto"])) up w
    = (Throw (Exn "TypeError"
                  ("(req.query.source || " +:+ String "034" "auto" +:+ String "034" ""
                   +:+ ").toLowerCase is not a function")), w).
Proof. repeat split. Qed.

(* ===================================================================== *)
(** * C2: the auto mode *)
(* ===================================================================== *)

(** C2. In the auto mode [fetchHamQTH] runs first. If it yields spots (it
    never yields an empty array) they are the answer and the world is left
    as [fetchHamQTH] left it: no telnet connection, the cache untouched. If
    it yields none, [fetchDXSpider] runs next and the answer is what it
    returns, each spot of it tagged [DX Spider]. *)
Theorem auto_tries_hamqth_then_dxspider (q : option query_value) (up : upstream)
    (w : world SpiderCache.t) :
  auto_mode q = true ->
  reachable w ->
  let w1 := snd (fetchHamQTH up w) in
  trace w1 = (trace w ++ [Fetch hamqth_url])%list /\
  store w1 = store w /\
  (exists rest, trace (snd (dxcluster_spots q up w))
                = (trace w ++ Fetch hamqth_url :: rest)%list) /\
  (forall spots,
     hamqth_yield (hamqth up) = Some spots ->
     spots <> [] /\
     dxcluster_spots q up w = (Ok (res_json spots), w1)) /\
  (hamqth_yield (hamqth up) = None ->
     exists found w2,
       fetchDXSpider up w1 = (Ok found, w2) /\
       dxcluster_spots q up w = (Ok (res_json (default [] found)), w2) /\
       Forall (fun s => source s = "DX Spider") (default [] found)).
Proof.
  intros Hq Hw w1.
  pose proof (dxcluster_spots_auto q up w Hq) as Hrun. cbv zeta in Hrun.
  fold w1 in Hrun.
  assert (Hw1 : w1 = World (clock w + latency (hamqth up))
                           (trace w ++ [Fetch hamqth_url]) (store w)).
  { unfold w1. rewrite (fetchHamQTH_run up). reflexivity. }
  assert (Hcache : Forall (fun s => source s = "DX Spider")
                          (SpiderCache.spots (store w1))).
  { rewrite Hw1. simpl.
    apply (reachable_cache _ w spider_spot_source Hw). }
  pose proof (fetchDXSpider_keeps _ up w1 spider_spot_source Hcache) as [_ Hf].
  destruct (fetchDXSpider_returns up w1) as (found & w2 & rest & Hs & Ht).
  repeat apply conj.
  - rewrite Hw1. reflexivity.
  - rewrite Hw1. reflexivity.
  - rewrite Hrun. destruct (hamqth_yield (hamqth up)) as [spots|].
    + exists []. rewrite Hw1. reflexivity.
    + rewrite Hs. simpl. rewrite Ht, Hw1. simpl.
      exists rest. rewrite <- app_assoc. reflexivity.
  - intros spots Hy. split.
    + eapply hamqth_yield_nonempty; eassumption.
    + rewrite Hrun, Hy. reflexivity.
  - intros Hnone. exists found, w2. split; [exact Hs|]. split.
    + rewrite Hrun, Hnone, Hs. reflexivity.
    + rewrite Hs in Hf. simpl in Hf.
      destruct found as [spots|]; simpl; [apply Hf; reflexivity | constructor].
Qed.

(* ===================================================================== *)
(** * The cached routes, step by step *)
(* ===================================================================== *)

Lemma dxpeditions_run (payload : Type) (parse_adxo : Z -> string -> outcome payload)
    (r : http_reply) (w : world (DxpeditionCache.t payload)) :
  dxpeditions payload parse_adxo r w =
    match dxpedition_fresh payload (store w) (clock w) with
    | Some data => (Ok (res_json (Fresh data)), w)
    | None =>
        let done := clock w + latency r in
        let tr := (trace w ++ [Fetch ng3k_url])%list in
        match dxpedition_refresh payload parse_adxo r done with
        | Some result =>
            (Ok (res_json (Fresh result)),
             World done tr
               (DxpeditionCache.Make (Some result) (clock w)
                  (DxpeditionCache.maxAge (store w))))
        | None =>
            match DxpeditionCache.data (store w) with
            | Some data => (Ok (res_json (Stale data)), World done tr (store w))
            | None =>
                (Ok (res_status_json 500 (Failed "Failed to fetch DXpedition data")),
                 World done tr (store w))
            end
        end
    end.
Proof.
  unfold dxpeditions, dxpedition_refresh, parse_page. run_js.
  destruct (dxpedition_fresh payload (store w) (clock w)); [reflexivity|].
  destruct (result r) as [e | [|] [page | e]]; simpl;
    try (destruct (DxpeditionCache.data (store w)); reflexivity).
  destruct (parse_adxo _ page); simpl; [reflexivity|].
  destruct (DxpeditionCache.data (store w)); reflexivity.
Qed.
Lemma satellites_tle_run (tle : Type) (tle_empty : tle)
    (parse_group : string -> tle -> tle) (has_iss : tle -> bool)
    (parse_iss : string -> tle -> tle)
    (amateur iss : http_reply) (w : world (TleCache.t tle)) :
  satellites_tle tle tle_empty parse_group has_iss parse_iss amateur iss w =
    match tle_fresh tle (store w) (clock w) with
    | Some data => (Ok (res_json data), w)
    | None =>
        match tle_group tle tle_empty parse_group amateur with
        | Some tleData =>
            let tleData' := tle_with_iss tle has_iss parse_iss iss tleData in
            (Ok (res_json tleData'),
             World (clock w + tle_time tle has_iss amateur iss tleData)
                   (trace w ++ Fetch amateur_url ::
                      if has_iss tleData then [] else [Fetch iss_url])
                   (TleCache.Make (Some tleData') (clock w)))
        | None =>
            (Ok (res_json (default tle_empty (TleCache.data (store w)))),
             World (clock w + latency amateur)
                   (trace w ++ [Fetch amateur_url]) (store w))
        end
    end.
Proof.
  unfold satellites_tle, tle_group, tle_with_iss, tle_time. run_js.
  destruct (tle_fresh tle (store w) (clock w)); [reflexivity|].
  destruct (result amateur) as [e | [|] [page | e]]; simpl; try reflexivity.
  - destruct (has_iss (parse_group page tle_empty)); simpl; [reflexivity|].
    run_js. rewrite <- app_assoc, Z.add_assoc.
    destruct (result iss) as [e | [|] [t | e]]; reflexivity.
  - destruct (has_iss tle_empty); simpl; [reflexivity|].
    run_js. rewrite <- app_assoc, Z.add_assoc.
    destruct (result iss) as [e' | [|] [t | e']]; reflexivity.
  - destruct (has_iss tle_empty); simpl; [reflexivity|].
    run_js. rewrite <- app_assoc, Z.add_assoc.
    destruct (result iss) as [e' | [|] [t | e']]; reflexivity.
Qed.

(* ===================================================================== *)
(** * C3: a refresh that fails *)
(* ===================================================================== *)

(** C3, as stated, fails on the cache of the telnet source. The cache holds
    one spot fetched at time 0; at time 61000 a request with
    [source=dxspider] finds it stale, the connection closes after 15
    seconds without a spot and HamQTH is aborted after 10 more: the cache
    is as it was, but the caller gets the empty array, not the cached
    spot; and a later call of the fetcher that fails again gets [null]. *)
Lemma stale_spider_cache_not_served :
  let cache := SpiderCache.Make [old_spot] 0 in
  let up := Upstream (HttpReply 10000 (Rejected aborted)) (TelnetRun [] IdleTimeout 15000) in
  let w := World 61000 [] cache in
  let w' := snd (dxcluster_spots (Some (QString "dxspider")) up w) in
  fst (dxcluster_spots (Some (QString "dxspider")) up w) = Ok (Reply 200 []) /\
  store w' = cache /\
  fst (fetchDXSpider up w') = Ok None /\
  Reply 200 ([] : list Spot) <> Reply 200 (SpiderCache.spots cache).
Proof.
  cbv zeta. repeat apply conj; try reflexivity. discriminate.
Qed.

(** C3, amended. A refresh that fails leaves [dxSpiderCache] and
    [dxpeditionCache] as they were, payload and timestamp.
    [/api/dxpeditions] then answers with the payload it had, marked stale.
    [fetchDXSpider] returns [null] for that call; it returns the cached
    spots only to a call that finds them fresh. *)
Theorem failed_refresh_keeps_cache :
  (forall up (w : world SpiderCache.t),
     spider_fresh (store w) (clock w) = false ->
     telnet_spots (dxspider up) = [] ->
     fetchDXSpider up w =
       (Ok None,
        World (clock w + duration (dxspider up))
              (trace w ++ [Connect "dxspider.co.uk" 7300]) (store w))) /\
  (forall up (w : world SpiderCache.t),
     spider_fresh (store w) (clock w) = true ->
     fetchDXSpider up w = (Ok (Some (SpiderCache.spots (store w))), w)) /\
  (forall (payload : Type) parse_adxo r (w : world (DxpeditionCache.t payload)) data,
     DxpeditionCache.data (store w) = Some data ->
     dxpedition_fresh payload (store w) (clock w) = None ->
     dxpedition_refresh payload parse_adxo r (clock w + latency r) = None ->
     dxpeditions payload parse_adxo r w =
       (Ok (Reply 200 (Stale data)),
        World (clock w + latency r) (trace w ++ [Fetch ng3k_url]) (store w))).
Proof.
  repeat apply conj.
  - intros up w Hf Ht. rewrite fetchDXSpider_run, Hf. cbv zeta.
    rewrite Ht. reflexivity.
  - intros up w Hf. rewrite fetchDXSpider_run, Hf. reflexivity.
  - intros payload parse_adxo r w data Hd Hf Hr.
    rewrite dxpeditions_run, Hf. cbv zeta. rewrite Hr, Hd. reflexivity.
Qed.

(** The three parts of the amended C3 at work: a stale telnet cache and a
    connection without spots, the same cache found fresh, and a stale
    DXpedition result with an NG3K request that is answered 503. *)
Lemma failed_refresh_keeps_cache_witness :
  let cache := SpiderCache.Make [old_spot] 0 in
  let up := Upstream (HttpReply 10000 (Rejected aborted)) (TelnetRun [] IdleTimeout 15000) in
  let dx := DxpeditionCache.Make (Some "TG") 0 (30 * 60 * 1000) in
  let r := HttpReply 300 (Resolved false (Ok "Service Unavailable")) in
  fetchDXSpider up (World 61000 [] cache) =
    (Ok None, World 76000 [Connect "dxspider.co.uk" 7300] cache) /\
  fetchDXSpider up (World 59000 [] cache) =
    (Ok (Some [old_spot]), World 59000 [] cache) /\
  dxpeditions string (fun _ page => Ok page) r (World 1800000 [] dx) =
    (Ok (Reply 200 (Stale "TG")), World 1800300 [Fetch ng3k_url] dx).
Proof.
  cbv zeta.
  destruct failed_refresh_keeps_cache as (H1 & H2 & H3).
  split; [|split].
  - apply (H1 (Upstream (HttpReply 10000 (Rejected aborted)) (TelnetRun [] IdleTimeout 15000))
              (World 61000 [] (SpiderCache.Make [old_spot] 0)));
      reflexivity.
  - apply (H2 (Upstream (HttpReply 10000 (Rejected aborted)) (TelnetRun [] IdleTimeout 15000))
              (World 59000 [] (SpiderCache.Make [old_spot] 0))).
    reflexivity.
  - apply (H3 string (fun _ page => Ok page)
              (HttpReply 300 (Resolved false (Ok "Service Unavailable")))
              (World 1800000 [] (DxpeditionCache.Make (Some "TG") 0 (30 * 60 * 1000)))
              "TG"); reflexivity.
Defined.

(** [tleCache] is outside the amended C3. A response that is not [ok]
    does not throw there: the empty object built so far is stored, with
    the time of the request, in place of the data the cache held. Here the
    cache holds data fetched at time 0, is found stale six hours later, and
    both requests are answered 503. *)
Lemma tle_cache_replaced_when_not_ok :
  let cache := TleCache.Make (Some "ISS AO-91 SO-50") 0 in
  let r := HttpReply 300 (Resolved false (Ok "Service Unavailable")) in
  let w := World TLE_CACHE_DURATION [] cache in
  satellites_tle string "" (fun page _ => page) nonempty (fun page _ => page) r r w =
    (Ok (Reply 200 ""),
     World (TLE_CACHE_DURATION + 600) [Fetch amateur_url; Fetch iss_url]
           (TleCache.Make (Some "") TLE_CACHE_DURATION)).
Proof. reflexivity. Qed.

(* ===================================================================== *)
(** * C4: the time a cache entry is stamped with *)
(* ===================================================================== *)

(** C4, as stated, fails on [dxpeditionCache] and on [tleCache]. A request
    arrives at time 1000 with the cache empty and the upstream answers
    after 5 seconds: the entry is stamped 1000, the time the request
    started, while the fetch completed at 6000. *)
Lemma dxpedition_stamped_with_request_start :
  let r := HttpReply 5000 (Resolved true (Ok "page")) in
  let w := World 1000 [] DxpeditionCache.init in
  let w' := snd (dxpeditions string (fun _ page => Ok page) r w) in
  let v := World 1000 [] TleCache.init in
  let v' := snd (satellites_tle string "" (fun page _ => page) (fun _ => true)
                   (fun _ d => d) r r v) in
  clock w' = 6000 /\
  DxpeditionCache.data (store w') = Some "page" /\
  DxpeditionCache.timestamp (store w') = 1000 /\
  clock v' = 6000 /\
  TleCache.data (store v') = Some "page" /\
  TleCache.timestamp (store v') = 1000 /\
  1000 <> 6000.
Proof.
  cbv zeta. repeat apply conj; try reflexivity. discriminate.
Qed.

(** C4, amended. [dxSpiderCache] is stamped with the clock read in the
    [close] handler, after the connection has ended. [dxpeditionCache] and
    [tleCache] are stamped with the clock read when the request started,
    however long the fetch took. *)
Theorem cache_stamps :
  (forall up (w : world SpiderCache.t),
     spider_fresh (store w) (clock w) = false ->
     telnet_spots (dxspider up) <> [] ->
     let w' := snd (fetchDXSpider up w) in
     clock w' = clock w + duration (dxspider up) /\
     store w' = SpiderCache.Make (telnet_spots (dxspider up)) (clock w')) /\
  (forall (payload : Type) parse_adxo r (w : world (DxpeditionCache.t payload)) result,
     dxpedition_fresh payload (store w) (clock w) = None ->
     dxpedition_refresh payload parse_adxo r (clock w + latency r) = Some result ->
     let w' := snd (dxpeditions payload parse_adxo r w) in
     clock w' = clock w + latency r /\
     store w' = DxpeditionCache.Make (Some result) (clock w)
                  (DxpeditionCache.maxAge (store w))) /\
  (forall (tle : Type) tle_empty parse_group has_iss parse_iss amateur iss
          (w : world (TleCache.t tle)) tleData,
     tle_fresh tle (store w) (clock w) = None ->
     tle_group tle tle_empty parse_group amateur = Some tleData ->
     let w' := snd (satellites_tle tle tle_empty parse_group has_iss parse_iss
                      amateur iss w) in
     clock w' = clock w + tle_time tle has_iss amateur iss tleData /\
     store w' = TleCache.Make (Some (tle_with_iss tle has_iss parse_iss iss tleData))
                  (clock w)).
Proof.
  repeat apply conj.
  - intros up w Hf Ht. rewrite fetchDXSpider_run, Hf. cbv zeta.
    destruct (telnet_spots (dxspider up)); [contradiction|]. split; reflexivity.
  - intros payload parse_adxo r w result Hf Hr.
    rewrite dxpeditions_run, Hf. cbv zeta. rewrite Hr. split; reflexivity.
  - intros tle tle_empty parse_group has_iss parse_iss amateur iss w tleData Hf Hg.
    rewrite satellites_tle_run, Hf, Hg. split; reflexivity.
Qed.

(* ===================================================================== *)
(** * What a match says about the text *)
(* ===================================================================== *)

Lemma took_more {R} p (k : string -> option R) (ok : nat -> Prop) c s r :
  p c = true -> took p k ok s r -> took p k (fun n => ok (pred n)) (String c s) r.
Proof.
  intros Hc (s1 & s2 & -> & Hp & Hok & Hk).
  exists (String c s1), s2. simpl. rewrite Hc, Hp. auto.
Qed.

Lemma took_none {R} p (k : string -> option R) (ok : nat -> Prop) s r :
  ok 0%nat -> k s = Some r -> took p k ok s r.
Proof. intros Hok Hk. exists "", s. auto. Qed.

Lemma took_weaken {R} p (k : string -> option R) (ok ok' : nat -> Prop) s r :
  (forall n, ok n -> ok' n) -> took p k ok s r -> took p k ok' s r.
Proof. intros H (s1 & s2 & ? & ? & ? & ?). exists s1, s2. auto. Qed.

Lemma one_reads {R} p (k : string -> option R) s r :
  one p k s = Some r -> took p k (quant_ok One) s r.
Proof.
  destruct s as [|c s]; simpl; [discriminate|].
  destruct (p c) eqn:Hc; [|discriminate]. intros Hk.
  exists (String c ""), s. simpl. rewrite Hc. auto.
Qed.

Lemma opt_reads {R} p (k : string -> option R) s r :
  opt p k s = Some r -> took p k (quant_ok Opt) s r.
Proof.
  unfold opt. destruct (one p k s) as [r'|] eqn:E.
  - intros [= <-]. eapply took_weaken; [|apply one_reads, E].
    simpl. intros n ->. lia.
  - apply took_none. simpl. lia.
Qed.

Lemma star_reads {R} p (k : string -> option R) s r :
  star p k s = Some r -> took p k (quant_ok Star) s r.
Proof.
  revert r. induction s as [|c s IH]; simpl; intros r.
  - apply took_none. exact I.
  - destruct (p c) eqn:Hc; [|apply took_none; exact I].
    destruct (star p k s) as [r'|] eqn:E; [|apply took_none; exact I].
    intros [= <-]. eapply took_weaken; [|apply took_more, IH; eauto].
    simpl. auto.
Qed.

Lemma plus_reads {R} p (k : string -> option R) s r :
  plus p k s = Some r -> took p k (quant_ok Plus) s r.
Proof.
  destruct s as [|c s]; simpl; [discriminate|].
  destruct (p c) eqn:Hc; [|discriminate]. intros Hs.
  apply star_reads in Hs. destruct Hs as (s1 & s2 & -> & Hp & _ & Hk).
  exists (String c s1), s2. simpl. rewrite Hc, Hp. repeat split; auto. lia.
Qed.

Lemma star_lazy_reads {R} p (k : string -> option R) s r :
  star_lazy p k s = Some r -> took p k (quant_ok Star) s r.
Proof.
  revert r. induction s as [|c s IH]; simpl; intros r.
  - destruct (k "") eqn:E; [|discriminate]. intros [= <-].
    apply took_none; [exact I | exact E].
  - destruct (k (String c s)) eqn:E.
    + intros [= <-]. apply took_none; [exact I | exact E].
    + destruct (p c) eqn:Hc; [|discriminate]. intros Hs.
      eapply took_weaken; [|apply took_more, IH; eauto]. simpl. auto.
Qed.

Lemma plus_lazy_reads {R} p (k : string -> option R) s r :
  plus_lazy p k s = Some r -> took p k (quant_ok PlusLazy) s r.
Proof.
  destruct s as [|c s]; simpl; [discriminate|].
  destruct (p c) eqn:Hc; [|discriminate]. intros Hs.
  apply star_lazy_reads in Hs. destruct Hs as (s1 & s2 & -> & Hp & _ & Hk).
  exists (String c s1), s2. simpl. rewrite Hc, Hp. repeat split; auto. lia.
Qed.

Lemma times_reads {R} p (k : string -> option R) n : forall s r,
  times p k n s = Some r -> took p k (quant_ok (Times n)) s r.
Proof.
  induction n as [|n IH]; simpl; intros s r.
  - apply took_none. reflexivity.
  - destruct s as [|c s]; [discriminate|].
    destruct (p c) eqn:Hc; [|discriminate]. intros Hs.
    apply IH in Hs. destruct Hs as (s1 & s2 & -> & Hp & Hn & Hk).
    exists (String c s1), s2. simpl in *. rewrite Hc, Hp. auto.
Qed.

Lemma quantified_reads {R} p (k : string -> option R) q s r :
  quantified p k q s = Some r -> took p k (quant_ok q) s r.
Proof.
  destruct q; simpl.
  - apply one_reads.
  - apply opt_reads.
  - apply star_reads.
  - apply plus_reads.
  - apply plus_lazy_reads.
  - apply times_reads.
Qed.

Lemma run_reads re : forall st s st',
  run re st s = Some st' -> reads re st s st'.
Proof.
  induction re as [|[p q | i | i] re IH]; simpl; intros st s st' H.
  - congruence.
  - apply quantified_reads in H. destruct H as (s1 & s2 & ? & ? & ? & Hk).
    exists s1, s2. auto.
  - apply IH, H.
  - apply IH, H.
Qed.

Lemma re_match_reads re s m :
  re_match re s = Some m ->
  exists s' st, reads re mstate0 s' st /\ m = caps st.
Proof.
  induction s as [|c s IH]; simpl.
  - destruct (run re mstate0 "") eqn:E; [|discriminate].
    intros [= <-]. eauto using run_reads.
  - destruct (run re mstate0 (String c s)) eqn:E; [|exact IH].
    intros [= <-]. eauto using run_reads.
Qed.

(** ** Strings *)

Lemma string_app_cons x (a b : string) : String x a +:+ b = String x (a +:+ b).
Proof. reflexivity. Qed.

Lemma string_app_nil (b : string) : "" +:+ b = b.
Proof. reflexivity. Qed.

Lemma string_app_assoc (a b c : string) : (a +:+ b) +:+ c = a +:+ (b +:+ c).
Proof.
  induction a as [|x a IH]; [reflexivity|].
  rewrite !string_app_cons. now rewrite IH.
Qed.

Lemma string_app_length (a b : string) :
  String.length (a +:+ b) = (String.length a + String.length b)%nat.
Proof.
  induction a as [|x a IH]; [reflexivity|].
  rewrite string_app_cons. simpl. now rewrite IH.
Qed.

Lemma forallb_string_app p (a b : string) :
  forallb_string p (a +:+ b) = forallb_string p a && forallb_string p b.
Proof.
  induction a as [|x a IH]; [reflexivity|].
  rewrite string_app_cons. simpl. rewrite IH. apply andb_assoc.
Qed.

Lemma substring_read (a b : string) :
  String.substring 0 (String.length (a +:+ b) - String.length b) (a +:+ b) = a.
Proof.
  rewrite string_app_length, Nat.add_sub.
  induction a as [|x a IH].
  - rewrite string_app_nil. destruct b; reflexivity.
  - rewrite string_app_cons. simpl. now rewrite IH.
Qed.

Lemma nonempty_length (s : string) :
  (1 <= String.length s)%nat -> nonempty s = true.
Proof. destruct s; simpl; [lia | reflexivity]. Qed.

(** ** The groups of a spot line *)

Lemma caps_close_open i (g rest : string) st :
  caps (close_group i rest (open_group i (g +:+ rest) st)) = <[i := g]> (caps st).
Proof.
  unfold close_group, open_group. simpl.
  rewrite lookup_insert_eq. simpl. now rewrite substring_read.
Qed.

Lemma spot_line_groups line m :
  re_match spot_line_re line = Some m -> spot_groups m.
Proof.
  intros H. apply re_match_reads in H. destruct H as (s & st & H & ->).
  unfold spot_line_re in H. cbn [app lit_i] in H.
  do 6 skip H.
  read H as g1 Hg1 Ng1.
  do 2 skip H.
  read H as d1 Hd1 Nd1. read H as o Ho No. read H as d2 Hd2 Nd2.
  skip H.
  read H as g3 Hg3 Ng3.
  skip H.
  read H as g4 Hg4 Ng4.
  skip H.
  read H as g5 Hg5 Ng5.
  skip H.
  cbn [reads] in H. subst st.
  rewrite <- (string_app_assoc o d2), <- (string_app_assoc d1 (o +:+ d2)).
  rewrite !caps_close_open. cbn [caps mstate0].
  apply (SpotGroups _ g1 (d1 +:+ o +:+ d2) g3 g4 g5 d1 o d2);
    try reflexivity; try assumption; try (apply nonempty_length; assumption).
Qed.

(* ===================================================================== *)
(** * The shape of a frequency *)
(* ===================================================================== *)

Lemma uint_digits (d : Decimal.uint) :
  forallb_string is_digit (NilEmpty.string_of_uint d) = true.
Proof. induction d; simpl; auto. Qed.

Lemma digits_of_Z_digits (n : Z) :
  forallb_string is_digit (digits_of_Z n) = true /\ nonempty (digits_of_Z n) = true.
Proof.
  unfold digits_of_Z, NilZero.string_of_uint.
  destruct (N.to_uint (Z.to_N n)) eqn:E; try (split; reflexivity);
    rewrite <- E; split; try apply uint_digits;
    rewrite E; reflexivity.
Qed.

Lemma digit_char_digit (r : Z) : is_digit (digit_char (r mod 10)) = true.
Proof.
  unfold digit_char.
  assert (H : (Z.to_nat (r mod 10) < 10)%nat)
    by (pose proof (Z.mod_pos_bound r 10); lia).
  revert H. generalize (Z.to_nat (r mod 10)). intros k H.
  do 10 (destruct k as [|k]; [reflexivity|]). lia.
Qed.

Lemma pad_digits_digits (f : nat) : forall r,
  forallb_string is_digit (pad_digits f r) = true /\
  String.length (pad_digits f r) = f.
Proof.
  induction f as [|f IH]; intros r; cbn [pad_digits]; [split; reflexivity|].
  destruct (IH (r / 10)) as [Hd Hl].
  rewrite forallb_string_app, string_app_length, Hd, Hl.
  cbn [forallb_string String.length].
  rewrite digit_char_digit. split; [reflexivity | lia].
Qed.

Lemma split_no_sep sep (s : string) :
  forallb_string (fun c => negb (Ascii.eqb c sep)) s = true -> split sep s = [s].
Proof.
  induction s as [|c s IH]; simpl; [reflexivity|].
  intros H. apply andb_prop in H as [Hc Hs].
  apply negb_true_iff in Hc. rewrite Hc, (IH Hs). reflexivity.
Qed.

Lemma split_at_sep sep (a b : string) :
  forallb_string (fun c => negb (Ascii.eqb c sep)) a = true ->
  split sep (a +:+ String sep b) = a :: split sep b.
Proof.
  induction a as [|c a IH]; intros H.
  - rewrite string_app_nil. simpl. rewrite Ascii.eqb_refl. reflexivity.
  - rewrite string_app_cons. simpl in *. apply andb_prop in H as [Hc Ha].
    apply negb_true_iff in Hc. rewrite Hc, (IH Ha). reflexivity.
Qed.

Lemma forallb_string_impl (p q : ascii -> bool) (s : string) :
  (forall c, p c = true -> q c = true) ->
  forallb_string p s = true -> forallb_string q s = true.
Proof.
  intros Hpq. induction s as [|c s IH]; simpl; [reflexivity|].
  intros H. apply andb_prop in H as [Hc Hs]. rewrite (Hpq c Hc), (IH Hs). reflexivity.
Qed.

Lemma digit_not_point (c : ascii) : is_digit c = true -> negb (Ascii.eqb c ".") = true.
Proof.
  intros H. destruct (Ascii.eqb_spec c "."); [subst; discriminate | reflexivity].
Qed.

Lemma fixed_digits_shape (n : Z) : three_decimals (fixed_digits n 3) = true.
Proof.
  unfold three_decimals, fixed_digits.
  destruct (digits_of_Z_digits (n / 10 ^ Z.of_nat 3)) as [Ha Na].
  destruct (pad_digits_digits 3 (n mod 10 ^ Z.of_nat 3)) as [Hb Lb].
  change ("." +:+ ?b) with (String "." b).
  rewrite split_at_sep
    by (eapply forallb_string_impl; [apply digit_not_point | exact Ha]).
  rewrite split_no_sep
    by (eapply forallb_string_impl; [apply digit_not_point | exact Hb]).
  rewrite Na, Ha, Hb, Lb. reflexivity.
Qed.

Lemma toFixed_plain (x : number) :
  plain x = true -> three_decimals (toFixed 3 x) = true.
Proof.
  destruct x as [s | s | | [|] m e]; cbn [plain toFixed]; try discriminate.
  - intros _. apply fixed_digits_shape.
  - destruct (frac_of m e) as [num den]. intros H.
    apply negb_true_iff in H. rewrite H.
    rewrite string_app_nil. apply fixed_digits_shape.
Qed.

(* ===================================================================== *)
(** * C5: what a spot is sure to carry *)
(* ===================================================================== *)

Lemma remove_first_absent (p : ascii -> bool) c (s : string) :
  p c = false -> forallb_string p s = true -> remove_first c s = s.
Proof.
  intros Hc. induction s as [|a s IH]; simpl; [reflexivity|].
  intros H. apply andb_prop in H as [Ha Hs].
  destruct (Ascii.eqb_spec a c); [congruence|]. now rewrite (IH Hs).
Qed.

Lemma groups_read (a1 a2 a3 a4 a5 : string) :
  let m : gmap nat string :=
    <[5%nat := a5]> (<[4%nat := a4]> (<[3%nat := a3]>
      (<[2%nat := a2]> (<[1%nat := a1]> ∅)))) in
  group m 1 = a1 /\ group m 2 = a2 /\ group m 3 = a3 /\
  group m 4 = a4 /\ group m 5 = a5.
Proof.
  cbv zeta. unfold group.
  repeat apply conj;
    rewrite ?lookup_insert_eq;
    repeat (rewrite lookup_insert_ne by discriminate; rewrite ?lookup_insert_eq);
    reflexivity.
Qed.

Lemma spider_spot_wf line s : spider_spot line = Some s -> spider_wf s.
Proof.
  unfold spider_spot. intros H.
  destruct (includes "DX de " line); [|discriminate].
  destruct (re_match spot_line_re line) as [m|] eqn:Em; [|discriminate].
  apply spot_line_groups in Em.
  destruct Em as [g1 g2 g3 g4 g5 d1 o d2 -> H1 N1 H3 N3 _ _ _ _ _ _ _ _].
  destruct (groups_read g1 g2 g3 g4 g5) as (E1 & E2 & E3 & E4 & E5).
  cbv zeta in E1, E2, E3, E4, E5. rewrite E1, E2, E3, E4, E5 in H.
  destruct (negb (isNaN (parseFloat g2)) && _ && _) eqn:Hc; [|discriminate].
  apply andb_prop in Hc as [Hc _]. apply andb_prop in Hc as [_ Hpos].
  injection H as <-. unfold spider_wf. cbn [source call spotter freq].
  rewrite (remove_first_absent call_char ":" g1) by (reflexivity || assumption).
  repeat apply conj; try reflexivity; try assumption.
  exists (parseFloat g2). split; [exact Hpos | reflexivity].
Qed.

Lemma str_or_nonempty o (d : string) : nonempty d = true -> nonempty (str_or o d) = true.
Proof.
  intros Hd. unfold str_or. destruct o as [s|]; [|exact Hd].
  destruct (nonempty s) eqn:E; [exact E | exact Hd].
Qed.

Lemma num_or_not_NaN x y : isNaN y = false -> isNaN (num_or x y) = false.
Proof. intros Hy. unfold num_or. destruct x; simpl; auto. Qed.

Lemma hamqth_spot_wf line : hamqth_wf (hamqth_spot line).
Proof.
  unfold hamqth_wf, hamqth_spot. cbn [source call freq].
  repeat apply conj; [reflexivity | apply str_or_nonempty; reflexivity |].
  eexists. split; [|reflexivity].
  apply num_or_not_NaN. reflexivity.
Qed.

Lemma hamqth_yield_wf r spots : hamqth_yield r = Some spots -> Forall hamqth_wf spots.
Proof.
  unfold hamqth_yield.
  destruct (result r) as [e | [|] [page | e]]; try discriminate.
  unfold hamqth_parse. destruct (0 <? _)%nat; [|discriminate].
  intros [= <-]. apply List.Forall_map, List.Forall_forall.
  intros line _. apply hamqth_spot_wf.
Qed.

(** C5, as stated, fails on both parsers. HamQTH reports a spot on the
    630 m band, [474.2] kHz: the frequency is not above 1000 and is passed
    on as it is, with one decimal. A HamQTH line with lower-case calls and
    one with its first two fields empty keep them. A telnet line with
    lower-case calls matches the pattern, which is case-insensitive, and
    its calls are kept as they are; one at 0.2 kHz is rendered [0.000].
    None of the five spots returned has the invariant. *)
Lemma spots_outside_claimed_invariant :
  let nl := String newline "" in
  let page :=
    "W1AW^474.2^K1ABC^CW^2149 2025-05-27^^^NA^630M^USA^291" +:+ nl +:+
    "w1aw^14074.0^k1abc^ft8^2150 2025-05-27^^^NA^20M^USA^291" +:+ nl +:+
    "^^^^2151 2025-05-27" in
  let chunks :=
    ["login: "; "Hello GUEST>";
     "DX de w3lpl:     14195.0  ti5/aa8hh    FT8 -09 dB           1234Z" +:+ nl +:+
     "DX de W3LPL:     0.2  TI5/AA8HH    test                    1235Z" +:+ nl] in
  let up := Upstream (HttpReply 120 (Resolved true (Ok page))) (TelnetRun chunks PeerClosed 900) in
  let w := World 0 [] SpiderCache.init in
  fst (dxcluster_spots (Some (QString "hamqth")) up w) =
    Ok (Reply 200
      [ {| freq := "474.2"; call := "K1ABC"; comment := "CW"; time := "21:49z";
           spotter := "W1AW"; source := "HamQTH" |};
        {| freq := "14.074"; call := "k1abc"; comment := "ft8"; time := "21:50z";
           spotter := "w1aw"; source := "HamQTH" |};
        {| freq := "0"; call := "UNKNOWN"; comment := ""; time := "21:51z";
           spotter := ""; source := "HamQTH" |} ]) /\
  fst (dxcluster_spots (Some (QString "dxspider")) up w) =
    Ok (Reply 200
      [ {| freq := "14.195"; call := "ti5/aa8hh"; comment := "FT8 -09 dB";
           time := "12:34z"; spotter := "w3lpl"; source := "DX Spider" |};
        {| freq := "0.000"; call := "TI5/AA8HH"; comment := "test";
           time := "12:35z"; spotter := "W3LPL"; source := "DX Spider" |} ]) /\
  forall spots,
    (fst (dxcluster_spots (Some (QString "hamqth")) up w) = Ok (Reply 200 spots) \/
     fst (dxcluster_spots (Some (QString "dxspider")) up w) = Ok (Reply 200 spots)) ->
    existsb claimed_invariant spots = false.
Proof.
  cbv zeta.
  split; [vm_compute; reflexivity|].
  split; [vm_compute; reflexivity|].
  intros spots [H | H]; vm_compute in H; injection H as <-; vm_compute; reflexivity.
Qed.

Lemma yield_or_empty_wf r :
  Forall (fun s => hamqth_wf s \/ spider_wf s) (default [] (hamqth_yield r)).
Proof.
  destruct (hamqth_yield r) as [spots|] eqn:E; simpl; [|constructor].
  eapply List.Forall_impl; [|apply (hamqth_yield_wf r _ E)]. auto.
Qed.

(** C5, amended. Every spot that [/api/dxcluster/spots] returns is tagged
    with its source. A [DX Spider] spot has a spotter and a DX call that
    are non-empty runs of letters of either case, digits, [/] and [-], and
    its frequency is [toFixed(3)] of a positive number of kHz divided by
    1000. A [HamQTH] spot has a non-empty DX call; its frequency is
    [toFixed(3)] of the kHz divided by 1000 when they exceed 1000 and the
    number as it is otherwise. [toFixed(3)] writes digits, a point and
    three digits for zero and for every positive number below [10^21]. *)
Theorem returned_spots_carry :
  (forall q up (w : world SpiderCache.t) spots w',
     reachable w ->
     dxcluster_spots q up w = (Ok (Reply 200 spots), w') ->
     Forall (fun s => hamqth_wf s \/ spider_wf s) spots) /\
  (forall x, plain x = true -> three_decimals (toFixed 3 x) = true).
Proof.
  split; [|exact toFixed_plain].
  intros q up w spots w' Hw Hrun.
  pose proof (reachable_cache _ w spider_spot_wf Hw) as Hcache.
  assert (Hsp : forall w1 found w2,
            store w1 = store w ->
            fetchDXSpider up w1 = (Ok found, w2) ->
            Forall (fun s => hamqth_wf s \/ spider_wf s) (default [] found)).
  { intros w1 found w2 Hst Hf.
    destruct (fetchDXSpider_keeps spider_wf up w1 spider_spot_wf) as [_ Hk].
    - rewrite Hst. exact Hcache.
    - rewrite Hf in Hk. destruct found as [l|]; simpl; [|constructor].
      eapply List.Forall_impl; [|apply Hk; reflexivity]. auto. }
  destruct (query_source q) as [source|e] eqn:Eq;
    [|unfold dxcluster_spots in Hrun; rewrite Eq, bind_throw in Hrun; discriminate].
  destruct (String.eqb_spec source "hamqth") as [Eh|Nh].
  - rewrite Eh in Eq. rewrite (dxcluster_spots_hamqth q up w Eq) in Hrun.
    injection Hrun as <- _. apply yield_or_empty_wf.
  - destruct (String.eqb_spec source "dxspider") as [Ed|Nd].
    + rewrite Ed in Eq. rewrite (dxcluster_spots_dxspider q up w Eq) in Hrun.
      destruct (fetchDXSpider up w) as [[found|e] w1] eqn:Ef; [|destruct e; discriminate].
      pose proof (Hsp w found w1 eq_refl Ef) as Hfound.
      destruct found as [l|].
      * injection Hrun as <- _. exact Hfound.
      * injection Hrun as <- _. apply yield_or_empty_wf.
    + assert (Hauto : auto_mode q = true).
      { unfold auto_mode. rewrite Eq. apply String.eqb_neq in Nh, Nd. now rewrite Nh, Nd. }
      rewrite (dxcluster_spots_auto q up w Hauto) in Hrun. cbv zeta in Hrun.
      destruct (hamqth_yield (hamqth up)) as [l|] eqn:Ey.
      * injection Hrun as <- _.
        eapply List.Forall_impl; [|apply (hamqth_yield_wf _ _ Ey)]. auto.
      * rewrite (fetchHamQTH_run up w) in Hrun. cbn [snd] in Hrun.
        match type of Hrun with context [fetchDXSpider up ?w1] =>
          destruct (fetchDXSpider up w1) as [[found|e] w2] eqn:Ef;
          [pose proof (Hsp w1 found w2 eq_refl Ef) as Hfound | discriminate] end.
        injection Hrun as <- _. exact Hfound.
Qed.

(* ===================================================================== *)
(** * C6: the frequency of a HamQTH spot *)
(* ===================================================================== *)

(** C6. In the HamQTH parse a frequency field of [14074.0] kHz becomes
    ["14.074"]: above 1000 the number is divided by 1000 and written with
    three decimals. A field of [145.500] is not above 1000 and is passed on
    unscaled, as the number [145.5]. The threshold itself is not scaled. *)
Theorem hamqth_frequency_conversion :
  hamqth_freq (parseFloat "14074.0") = "14.074" /\
  freq (hamqth_spot "KF0NYM^14074.0^TX5U^FT8^2149 2025-05-27^^^EU^20M^France^227")
    = "14.074" /\
  hamqth_freq (parseFloat "145.500") = num_to_string (parseFloat "145.500") /\
  freq (hamqth_spot "W1AW^145.500^K1ABC^FM^2149 2025-05-27^^^NA^2M^USA^291")
    = "145.5" /\
  hamqth_freq (parseFloat "1000") = "1000" /\
  (forall freqKhz,
     hamqth_freq freqKhz =
       if num_gt freqKhz (num_of_Z 1000)
       then toFixed 3 (num_div freqKhz (num_of_Z 1000))
       else num_to_string freqKhz).
Proof.
  split; [vm_compute; reflexivity|].
  split; [vm_compute; reflexivity|].
  split; [vm_compute; reflexivity|].
  split; [vm_compute; reflexivity|].
  split; [vm_compute; reflexivity|].
  intros freqKhz. reflexivity.
Qed.

(* ===================================================================== *)
(** * C7: duplicates within a session *)
(* ===================================================================== *)

Lemma seen_iff spots c f :
  seen spots c f = true <-> In (c, f) (List.map spot_key spots).
Proof.
  unfold seen. rewrite existsb_exists, in_map_iff. split.
  - intros (s & Hs & Hcf). apply andb_prop in Hcf as [Hc Hf].
    apply String.eqb_eq in Hc, Hf. exists s. unfold spot_key. now subst.
  - intros (s & [= <- <-] & Hs). exists s. now rewrite !String.eqb_refl.
Qed.

Lemma NoDup_keys_snoc spots s :
  List.NoDup (List.map spot_key spots) ->
  seen spots (call s) (freq s) = false ->
  List.NoDup (List.map spot_key (spots ++ [s])).
Proof.
  intros Hn Hs. induction spots as [|x xs IH]; simpl.
  - constructor; [intros [] | constructor].
  - inversion Hn as [|? ? Hx Hxs]; subst. simpl in Hs.
    apply orb_false_iff in Hs as [Hxs' Hs]. constructor; [|apply IH; assumption].
    rewrite List.map_app, in_app_iff. intros [Hin | [Heq | []]]; [contradiction|].
    unfold spot_key in Heq. injection Heq as Hc Hf.
    rewrite Hc, Hf, !String.eqb_refl in Hxs'. discriminate.
Qed.

Lemma scan_line_keys spots line :
  List.NoDup (List.map spot_key spots) ->
  List.NoDup (List.map spot_key (scan_line spots line)).
Proof.
  intros Hn. unfold scan_line.
  destruct (spider_spot line) as [s|]; [|exact Hn].
  destruct (seen spots (call s) (freq s)) eqn:Hs; [exact Hn|].
  apply NoDup_keys_snoc; assumption.
Qed.

Lemma scan_lines_keys lines : forall spots,
  List.NoDup (List.map spot_key spots) ->
  List.NoDup (List.map spot_key (fold_left scan_line lines spots)).
Proof.
  induction lines as [|l ls IH]; intros spots H; simpl; [exact H|].
  apply IH, scan_line_keys, H.
Qed.

Lemma on_data_keys st data :
  List.NoDup (List.map spot_key (Session.spots st)) ->
  List.NoDup (List.map spot_key (Session.spots (on_data st data))).
Proof.
  intros H. unfold on_data.
  destruct (negb _ && _); [exact H|].
  destruct (_ && _ && _); [exact H|].
  cbn [Session.spots]. apply scan_lines_keys, H.
Qed.

Lemma session_keys chunks : forall st,
  List.NoDup (List.map spot_key (Session.spots st)) ->
  List.NoDup (List.map spot_key (Session.spots (fold_left on_data chunks st))).
Proof.
  induction chunks as [|c cs IH]; intros st H; simpl; [exact H|].
  apply IH, on_data_keys, H.
Qed.

(** Scanning a line keeps the spots collected so far, in place. *)
Lemma scan_line_extends spots line :
  exists more, scan_line spots line = (spots ++ more)%list.
Proof.
  unfold scan_line. destruct (spider_spot line) as [s|].
  - destruct (seen spots (call s) (freq s)); [exists [] | exists [s]];
      [symmetry; apply app_nil_r | reflexivity].
  - exists []. symmetry. apply app_nil_r.
Qed.

(** C7. Within one session, two spot lines with the same DX call and the
    same rendered frequency leave one spot, the first one scanned, whatever
    their comments; the spots of a session never hold two spots with the
    same call and frequency, and a scan never removes a spot. *)
Theorem session_keeps_first_of_duplicates :
  (forall line1 line2 s1 s2,
     spider_spot line1 = Some s1 ->
     spider_spot line2 = Some s2 ->
     call s1 = call s2 ->
     freq s1 = freq s2 ->
     fold_left scan_line [line1; line2] [] = [s1]) /\
  (forall chunks,
     List.NoDup (List.map spot_key (Session.spots (run_session chunks)))) /\
  (forall spots line, exists more, scan_line spots line = (spots ++ more)%list).
Proof.
  repeat apply conj.
  - intros line1 line2 s1 s2 H1 H2 Hc Hf. simpl.
    unfold scan_line at 2. rewrite H1. simpl.
    unfold scan_line. rewrite H2. unfold seen. simpl.
    rewrite Hc, Hf, !String.eqb_refl. reflexivity.
  - intros chunks. apply session_keys. constructor.
  - apply scan_line_extends.
Qed.

(** C7 at work: after the login and the greeting, a chunk brings two lines
    for [TI5/AA8HH] on 14195.0 kHz with different spotters, comments and
    times; the session holds the first. *)
Lemma session_keeps_first_of_duplicates_witness :
  let nl := String newline "" in
  let line1 := "DX de W3LPL:     14195.0  TI5/AA8HH    FT8 -09 dB           1234Z" in
  let line2 := "DX de K1ABC:     14195.0  TI5/AA8HH    CQ CQ                1235Z" in
  let first := {| freq := "14.195"; call := "TI5/AA8HH"; comment := "FT8 -09 dB";
                  time := "12:34z"; spotter := "W3LPL"; source := "DX Spider" |} in
  fold_left scan_line [line1; line2] [] = [first] /\
  Session.spots (run_session ["login: "; "Hello GUEST>"; line1 +:+ nl +:+ line2 +:+ nl])
    = [first].
Proof.
  cbv zeta. split.
  - destruct session_keeps_first_of_duplicates as (H & _).
    apply (H _ _ _ {| freq := "14.195"; call := "TI5/AA8HH"; comment := "CQ CQ";
                      time := "12:35z"; spotter := "K1ABC"; source := "DX Spider" |});
      vm_compute; reflexivity.
  - vm_compute. reflexivity.
Defined.

(* ===================================================================== *)
(** * C8: the lines of a HamQTH body that are skipped *)
(* ===================================================================== *)





(* ===================================================================== *)
(** * C10: the prefix table *)
(* ===================================================================== *)

(** C10. [estimateLocationFromPrefix] is a function of the call alone. If
    the first two characters of the call are a key of the table, the
    result is that entry, whatever the first character alone would give;
    else if the first character is a key, the result is that entry; else
    the result is [null]. Every result carries the call it was asked for
    and [estimated: true]. *)
Theorem estimate_follows_prefix_table (call : string) :
  let prefix2 := js_substring 0 2 call in
  let prefix1 := js_substring 0 1 call in
  (forall e, prefixLocations !! prefix2 = Some e ->
     estimateLocationFromPrefix call =
       Some {| callsign := call; entry := e; estimated := true |}) /\
  (forall e, prefixLocations !! prefix2 = None ->
     prefixLocations !! prefix1 = Some e ->
     estimateLocationFromPrefix call =
       Some {| callsign := call; entry := e; estimated := true |}) /\
  (prefixLocations !! prefix2 = None ->
   prefixLocations !! prefix1 = None ->
   estimateLocationFromPrefix call = None) /\
  (forall r, estimateLocationFromPrefix call = Some r ->
     callsign r = call /\ estimated r = true /\
     (prefixLocations !! prefix2 = Some (entry r) \/
      prefixLocations !! prefix2 = None /\ prefixLocations !! prefix1 = Some (entry r))).
Proof.
  cbv zeta. unfold estimateLocationFromPrefix.
  destruct (prefixLocations !! js_substring 0 2 call) as [e2|];
    [|destruct (prefixLocations !! js_substring 0 1 call) as [e1|]];
    repeat apply conj; try congruence; try discriminate.
  - intros r [= <-]. simpl. auto.
  - intros r [= <-]. simpl. auto.
Qed.

(** C10 at work: [DL1ABC] is found under [DL], [W1AW] under [W] after [W1]
    is not a key, [XE1AA] under neither. *)
Lemma estimate_follows_prefix_table_witness :
  estimateLocationFromPrefix "DL1ABC" =
    Some {| callsign := "DL1ABC"; entry := place "51.2" "10.4" "Germany";
            estimated := true |} /\
  estimateLocationFromPrefix "W1AW" =
    Some {| callsign := "W1AW"; entry := place "39.8" "-98.5" "USA";
            estimated := true |} /\
  estimateLocationFromPrefix "XE1AA" = None.
Proof.
  destruct (estimate_follows_prefix_table "DL1ABC") as (H2 & _).
  destruct (estimate_follows_prefix_table "W1AW") as (_ & H1 & _).
  destruct (estimate_follows_prefix_table "XE1AA") as (_ & _ & H0 & _).
  cbv zeta in *.
  split; [apply H2; vm_compute; reflexivity|].
  split; [apply H1; vm_compute; reflexivity|].
  apply H0; vm_compute; reflexivity.
Defined.

(* ===================================================================== *)
(** * C9: paths *)
(* ===================================================================== *)

Lemma lookup_locations_from calls : forall (m : gmap string Place) c,
  fold_left lookup_step calls m !! c =
    match (if existsb (String.eqb c) calls
           then entry <$> estimateLocationFromPrefix c else None) with
    | Some a => Some a
    | None => m !! c
    end.
Proof.
  induction calls as [|x xs IH]; intros m c; cbn [fold_left existsb]; [reflexivity|].
  rewrite IH. unfold lookup_step at 1.
  destruct (String.eqb_spec c x) as [->|Hne]; cbn [orb].
  - destruct (existsb (String.eqb x) xs).
    + destruct (estimateLocationFromPrefix x); reflexivity.
    + destruct (estimateLocationFromPrefix x); cbn [fmap option_fmap option_map];
        [apply lookup_insert_eq | reflexivity].
  - destruct (existsb (String.eqb c) xs).
    + destruct (estimateLocationFromPrefix c); cbn [fmap option_fmap option_map];
        [reflexivity|].
      destruct (estimateLocationFromPrefix x); [|reflexivity].
      apply lookup_insert_ne. congruence.
    + destruct (estimateLocationFromPrefix x); [|reflexivity].
      apply lookup_insert_ne. congruence.
Qed.

Lemma lookup_locations_at calls c :
  lookup_locations calls !! c =
    if existsb (String.eqb c) calls
    then entry <$> estimateLocationFromPrefix c else None.
Proof.
  unfold lookup_locations.
  rewrite lookup_locations_from, lookup_empty.
  destruct (if existsb _ _ then _ else _); reflexivity.
Qed.

(** A place in [locations] is the place that the estimate gives. *)
Lemma lookup_locations_some calls c a :
  lookup_locations calls !! c = Some a ->
  exists r, estimateLocationFromPrefix c = Some r /\ entry r = a.
Proof.
  rewrite lookup_locations_at. destruct (existsb _ _); [|discriminate].
  destruct (estimateLocationFromPrefix c) as [r|]; [|discriminate].
  intros [= <-]. eauto.
Qed.

Lemma existsb_set_add calls x c :
  existsb (String.eqb c) (set_add calls x) =
  existsb (String.eqb c) calls || String.eqb c x.
Proof.
  unfold set_add. destruct (existsb (String.eqb x) calls) eqn:E.
  - destruct (String.eqb_spec c x) as [->|]; [|now rewrite orb_false_r].
    now rewrite E.
  - rewrite existsb_app. simpl. now rewrite orb_false_r.
Qed.

Lemma length_set_add calls x :
  (List.length (set_add calls x) <= S (List.length calls))%nat.
Proof.
  unfold set_add. destruct (existsb _ _); [lia|].
  rewrite length_app. simpl. lia.
Qed.

Lemma all_calls_from spots : forall acc c,
  existsb (String.eqb c) (fold_left calls_step spots acc) =
  existsb (String.eqb c) acc ||
  existsb (fun s => String.eqb c (PathSpot.spotter s) || String.eqb c (PathSpot.dxCall s))
          spots.
Proof.
  induction spots as [|s ss IH]; intros acc c; simpl; [now rewrite orb_false_r|].
  rewrite IH. unfold calls_step. rewrite !existsb_set_add.
  now rewrite <- !orb_assoc.
Qed.

Lemma all_calls_length spots : forall acc,
  (List.length (fold_left calls_step spots acc)
   <= List.length acc + 2 * List.length spots)%nat.
Proof.
  induction spots as [|s ss IH]; intros acc; simpl; [lia|].
  etransitivity; [apply IH|]. unfold calls_step.
  pose proof (length_set_add (set_add acc (PathSpot.spotter s)) (PathSpot.dxCall s)).
  pose proof (length_set_add acc (PathSpot.spotter s)). lia.
Qed.

Lemma in_slice0 {A} (n : nat) (xs : list A) x : In x (slice0 n xs) -> In x xs.
Proof.
  unfold slice0. revert n. induction xs as [|y ys IH]; intros [|n]; simpl; try tauto.
  intros [H|H]; [now left | right; eapply IH, H].
Qed.

Lemma length_drop_nulls {A} (xs : list (option A)) :
  (List.length (drop_nulls xs) <= List.length xs)%nat.
Proof. induction xs as [|[x|] xs IH]; simpl; lia. Qed.

Lemma in_drop_nulls {A} (xs : list (option A)) x :
  In x (drop_nulls xs) <-> In (Some x) xs.
Proof.
  induction xs as [|[y|] xs IH]; simpl; [tauto| |].
  - rewrite IH. split; intros [H|H]; auto; left; congruence.
  - rewrite IH. split; [auto | intros [H|H]; [discriminate | exact H]].
Qed.

(** With at most twenty spots the cap of forty lookups is not reached and
    every call of every spot has been looked up. *)
Lemma path_of_few spots s :
  (List.length spots <= 20)%nat ->
  In s spots ->
  path_of (lookup_locations (slice0 40 (all_calls spots))) s = estimated_path s.
Proof.
  intros Hlen Hin. unfold slice0, all_calls.
  rewrite firstn_all2
    by (pose proof (all_calls_length spots []) as Hc; cbn [List.length] in Hc; lia).
  unfold path_of, estimated_path. rewrite !lookup_locations_at, !all_calls_from.
  assert (Hs : existsb (fun s0 => String.eqb (PathSpot.spotter s) (PathSpot.spotter s0)
                                  || String.eqb (PathSpot.spotter s) (PathSpot.dxCall s0))
                       spots = true).
  { apply existsb_exists. exists s. now rewrite String.eqb_refl. }
  assert (Hd : existsb (fun s0 => String.eqb (PathSpot.dxCall s) (PathSpot.spotter s0)
                                  || String.eqb (PathSpot.dxCall s) (PathSpot.dxCall s0))
                       spots = true).
  { apply existsb_exists. exists s. now rewrite String.eqb_refl, orb_true_r. }
  rewrite Hs, Hd. cbn [existsb orb].
  destruct (estimateLocationFromPrefix (PathSpot.spotter s)); [|reflexivity].
  destruct (estimateLocationFromPrefix (PathSpot.dxCall s)); reflexivity.
Qed.

Lemma estimated_path_located s :
  (exists p, estimated_path s = Some p) <-> both_located s = true.
Proof.
  unfold estimated_path, both_located, located.
  destruct (estimateLocationFromPrefix (PathSpot.spotter s));
    destruct (estimateLocationFromPrefix (PathSpot.dxCall s)); cbn [andb];
    split; eauto; try discriminate; intros [p Hp]; discriminate.
Qed.

Lemma drop_nulls_count (l : list PathSpot.t) (f : PathSpot.t -> option Path) :
  (forall s, In s l -> f s = estimated_path s) ->
  drop_nulls (List.map f l) = drop_nulls (List.map estimated_path l) /\
  List.length (drop_nulls (List.map estimated_path l))
    = List.length (List.filter both_located l).
Proof.
  induction l as [|s l IH]; intros Hf;
    cbn [List.map drop_nulls List.filter List.length]; [split; reflexivity|].
  destruct IH as [IH1 IH2]; [intros; apply Hf; now right|].
  rewrite (Hf s) by now left.
  pose proof (estimated_path_located s) as Hl.
  destruct (estimated_path s) as [p|]; destruct (both_located s);
    cbn [List.map drop_nulls List.filter List.length].
  - rewrite IH1, IH2. split; reflexivity.
  - destruct Hl as [Hl _]. discriminate Hl. eauto.
  - destruct Hl as [_ Hl]. destruct (Hl eq_refl). discriminate.
  - split; assumption.
Qed.

Lemma build_paths_ok (spots : list PathSpot.t) :
  (List.length (build_paths spots) <= 25)%nat /\
  (forall p, In p (build_paths spots) ->
     exists s a b,
       In s spots /\
       estimateLocationFromPrefix (PathSpot.spotter s) = Some a /\
       estimateLocationFromPrefix (PathSpot.dxCall s) = Some b /\
       p = make_path s (entry a) (entry b)).
Proof.
  split.
  - unfold build_paths, slice0. apply firstn_le_length.
  - intros p Hp. unfold build_paths in Hp.
    apply in_slice0 in Hp. apply in_drop_nulls in Hp.
    apply in_map_iff in Hp. destruct Hp as (s & Hs & Hin).
    unfold path_of in Hs.
    destruct (_ !! PathSpot.spotter s) as [a|] eqn:Ea; [|discriminate].
    destruct (_ !! PathSpot.dxCall s) as [b|] eqn:Eb; [|discriminate].
    apply lookup_locations_some in Ea, Eb.
    destruct Ea as (ra & Ha & <-). destruct Eb as (rb & Hb & <-).
    injection Hs as <-. exists s, ra, rb. auto.
Qed.

Lemma build_paths_paths_ok (spots : list PathSpot.t) : paths_ok (build_paths spots).
Proof.
  destruct (build_paths_ok spots) as [Hlen Hin]. split; [exact Hlen|].
  apply List.Forall_forall. intros p Hp.
  destruct (Hin p Hp) as (s & a & b & _ & Ha & Hb & ->).
  unfold path_located, located, make_path. cbn [path_spotter path_dxCall].
  now rewrite Ha, Hb.
Qed.

Lemma dxcluster_paths_run is_recent (r : http_reply) (w : world PathsCache.t) :
  dxcluster_paths is_recent r w =
    if (clock w - PathsCache.timestamp (store w) <? DXPATHS_CACHE_TTL) &&
       (0 <? List.length (PathsCache.paths (store w)))%nat
    then (Ok (res_json (PathsCache.paths (store w))), w)
    else
      let done := clock w + latency r in
      let tr := (trace w ++ [Fetch paths_url])%list in
      match result r with
      | Resolved true (Ok text) =>
          let spots := drop_nulls (List.map (path_spot is_recent done)
                                            (hamqth_lines text)) in
          (Ok (res_json (build_paths spots)),
           World done tr (PathsCache.Make (build_paths spots) done))
      | _ => (Ok (res_json []), World done tr (store w))
      end.
Proof.
  unfold dxcluster_paths. run_js.
  destruct (_ && _); [reflexivity|].
  destruct (result r) as [e | [|] [page | e]]; reflexivity.
Qed.

Lemma dxcluster_paths_keeps is_recent r w :
  paths_ok (PathsCache.paths (store w)) ->
  exists paths w',
    dxcluster_paths is_recent r w = (Ok (Reply 200 paths), w') /\
    paths_ok paths /\ paths_ok (PathsCache.paths (store w')).
Proof.
  intros Hok. rewrite dxcluster_paths_run.
  assert (Hnil : paths_ok []) by (split; [simpl; lia | constructor]).
  destruct (_ && _); [eauto|]. cbv zeta.
  destruct (result r) as [e | [|] [page | e]]; eauto.
  eexists _, _. split; [reflexivity|].
  split; apply build_paths_paths_ok.
Qed.

Lemma paths_reachable_ok is_recent w :
  paths_reachable is_recent w -> paths_ok (PathsCache.paths (store w)).
Proof.
  induction 1 as [t | w ms _ IH | w r _ IH]; simpl.
  - split; [simpl; lia | constructor].
  - exact IH.
  - destruct (dxcluster_paths_keeps is_recent r w IH) as (paths & w' & -> & _ & Hw').
    exact Hw'.
Qed.

(** C9. The paths are made from the spots in order, one for each spot both
    of whose calls have a place, and none for a spot with a call left
    without one; there are never more than 25. A place is what the prefix
    estimate gives; with no more than twenty spots every call is looked up
    and the paths are exactly those of the spots whose two calls the
    estimate finds. The route answers, from the cache or from a fetch,
    with at most 25 paths, each with both ends located. *)
Theorem paths_need_both_ends :
  (forall spots : list PathSpot.t,
     (List.length (build_paths spots) <= 25)%nat /\
     (forall p, In p (build_paths spots) ->
        exists s a b,
          In s spots /\
          estimateLocationFromPrefix (PathSpot.spotter s) = Some a /\
          estimateLocationFromPrefix (PathSpot.dxCall s) = Some b /\
          p = make_path s (entry a) (entry b)) /\
     ((List.length spots <= 20)%nat ->
        build_paths spots = drop_nulls (List.map estimated_path spots) /\
        List.length (build_paths spots)
          = List.length (List.filter both_located spots))) /\
  (forall is_recent r (w : world PathsCache.t),
     paths_reachable is_recent w ->
     exists paths w',
       dxcluster_paths is_recent r w = (Ok (Reply 200 paths), w') /\
       (List.length paths <= 25)%nat /\
       Forall (fun p => path_located p = true) paths).
Proof.
  split.
  - intros spots. destruct (build_paths_ok spots) as [Hlen Hin].
    split; [exact Hlen|]. split; [exact Hin|].
    intros Hfew. unfold build_paths.
    destruct (drop_nulls_count spots
                (path_of (lookup_locations (slice0 40 (all_calls spots)))))
      as [H1 H2]; [intros s Hs; apply path_of_few; assumption|].
    rewrite H1. unfold slice0.
    rewrite firstn_all2.
    + split; [reflexivity | exact H2].
    + etransitivity; [apply length_drop_nulls|]. rewrite length_map. lia.
  - intros is_recent r w Hw.
    destruct (dxcluster_paths_keeps is_recent r w (paths_reachable_ok _ _ Hw))
      as (paths & w' & Hrun & [Hlen Hall] & _).
    exists paths, w'. auto.
Qed.

(** C9 at work, scenario D: three spots, the second with a DX call that
    the table does not cover, give exactly two paths; so does the route,
    right after the start of the server, for a body with the three lines. *)
Lemma paths_need_both_ends_witness :
  let spots :=
    [ PathSpot.Make "W1AW" "DL1ABC" "14.074" "FT8" "21:49z";
      PathSpot.Make "W1AW" "XE1AA" "14.074" "FT8" "21:50z";
      PathSpot.Make "G4ABC" "JA1XYZ" "7.010" "CW" "21:51z" ] in
  let text :=
    unlines [ "w1aw^14074.0^dl1abc^FT8^2149 2025-05-27^^^EU^20M^Germany^230";
              "W1AW^14074.0^XE1AA^FT8^2150 2025-05-27^^^NA^20M^Mexico^50";
              "G4ABC^7010.0^JA1XYZ^CW^2151 2025-05-27^^^AS^40M^Japan^339" ] in
  let always := fun (_ : Z) (_ : string) => true in
  let w := World 0 [] PathsCache.init in
  (List.length spots <= 20)%nat /\
  List.map both_located spots = [true; false; true] /\
  List.length (build_paths spots) = 2%nat /\
  List.map (fun p => (path_spotter p, path_dxCall p)) (build_paths spots)
    = [("W1AW", "DL1ABC"); ("G4ABC", "JA1XYZ")] /\
  paths_reachable always w /\
  fst (dxcluster_paths always (HttpReply 250 (Resolved true (Ok text))) w)
    = Ok (Reply 200 (build_paths spots)).
Proof.
  cbv zeta. split; [simpl; lia|]. split; [vm_compute; reflexivity|].
  destruct paths_need_both_ends as [Hb Hr].
  destruct (Hb
    [ PathSpot.Make "W1AW" "DL1ABC" "14.074" "FT8" "21:49z";
      PathSpot.Make "W1AW" "XE1AA" "14.074" "FT8" "21:50z";
      PathSpot.Make "G4ABC" "JA1XYZ" "7.010" "CW" "21:51z" ]) as (_ & _ & H).
  destruct H as [H1 H2]; [simpl; lia|].
  split; [rewrite H2; vm_compute; reflexivity|].
  split; [rewrite H1; vm_compute; reflexivity|].
  split; [constructor|].
  match goal with |- fst (dxcluster_paths ?f ?r ?w) = _ =>
    destruct (Hr f r w (paths_start f 0)) as (paths & w' & Hrun & _) end.
  rewrite Hrun. vm_compute in Hrun. injection Hrun as <- _.
  rewrite H1. vm_compute. reflexivity.
Defined.

(* ===================================================================== *)
(** * The statements at work *)
(* ===================================================================== *)

(** C2 at work: the server has just started, HamQTH is aborted at its
    timeout after 10 seconds and the telnet session, which ends at its
    idle timeout 16.5 seconds later, has collected one spot: the answer is
    that spot, tagged [DX Spider], after one request and one connection,
    and it is cached with the time of the close. *)
Lemma auto_tries_hamqth_then_dxspider_witness :
  let nl := String newline "" in
  let chunks :=
    ["login: "; "Hello GUEST>";
     "DX de W3LPL:     14195.0  TI5/AA8HH    FT8 -09 dB           1234Z" +:+ nl] in
  let up := Upstream (HttpReply 10000 (Rejected aborted)) (TelnetRun chunks IdleTimeout 16500) in
  let w := World 0 [] SpiderCache.init in
  let spot := {| freq := "14.195"; call := "TI5/AA8HH"; comment := "FT8 -09 dB";
                 time := "12:34z"; spotter := "W3LPL"; source := "DX Spider" |} in
  auto_mode None = true /\
  reachable w /\
  dxcluster_spots None up w =
    (Ok (Reply 200 [spot]),
     World 26500 [Fetch hamqth_url; Connect "dxspider.co.uk" 7300]
           (SpiderCache.Make [spot] 26500)).
Proof.
  cbv zeta. split; [reflexivity|]. split; [constructor|].
  match goal with |- dxcluster_spots ?q ?up ?w = _ =>
    destruct (auto_tries_hamqth_then_dxspider q up w eq_refl (reach_start 0))
      as (_ & _ & _ & _ & H) end.
  destruct (H eq_refl) as (found & w2 & Hf & Hrun & _).
  rewrite Hrun. vm_compute in Hf. injection Hf as <- <-. reflexivity.
Defined.

(** The amended C4 at work: a telnet session that closes 16.5 seconds
    after a request made at time 1000 is cached with 17500; a DXpedition
    page and a TLE file that arrive 5 seconds after a request made at time
    1000 are cached with 1000. *)
Lemma cache_stamps_witness :
  let nl := String newline "" in
  let chunks :=
    ["login: "; "Hello GUEST>";
     "DX de W3LPL:     14195.0  TI5/AA8HH    FT8 -09 dB           1234Z" +:+ nl] in
  let up := Upstream (HttpReply 10000 (Rejected aborted)) (TelnetRun chunks IdleTimeout 16500) in
  let r := HttpReply 5000 (Resolved true (Ok "page")) in
  let w1 := snd (fetchDXSpider up (World 1000 [] SpiderCache.init)) in
  let w2 := snd (dxpeditions string (fun _ page => Ok page) r
                   (World 1000 [] DxpeditionCache.init)) in
  let w3 := snd (satellites_tle string "" (fun page _ => page) (fun _ => true)
                   (fun _ d => d) r r (World 1000 [] TleCache.init)) in
  (clock w1 = 17500 /\ SpiderCache.timestamp (store w1) = 17500) /\
  (clock w2 = 6000 /\ DxpeditionCache.timestamp (store w2) = 1000) /\
  (clock w3 = 6000 /\ TleCache.timestamp (store w3) = 1000).
Proof.
  cbv zeta. destruct cache_stamps as (H1 & H2 & H3).
  repeat apply conj.
  - match goal with |- clock (snd (fetchDXSpider ?up ?w)) = _ =>
      destruct (H1 up w) as [Hc _]; [reflexivity | vm_compute; discriminate |] end.
    rewrite Hc. reflexivity.
  - match goal with |- _ (store (snd (fetchDXSpider ?up ?w))) = _ =>
      destruct (H1 up w) as [Hc Hs]; [reflexivity | vm_compute; discriminate |] end.
    rewrite Hs, Hc. reflexivity.
  - match goal with |- clock (snd (dxpeditions _ ?p ?r ?w)) = _ =>
      destruct (H2 string p r w "page") as [Hc _]; [reflexivity | reflexivity |] end.
    rewrite Hc. reflexivity.
  - match goal with |- _ (store (snd (dxpeditions _ ?p ?r ?w))) = _ =>
      destruct (H2 string p r w "page") as [_ Hs]; [reflexivity | reflexivity |] end.
    rewrite Hs. reflexivity.
  - match goal with |- clock (snd (satellites_tle _ ?e ?g ?h ?i ?a ?b ?w)) = _ =>
      destruct (H3 string e g h i a b w "page") as [Hc _];
        [reflexivity | reflexivity |] end.
    rewrite Hc. reflexivity.
  - match goal with |- _ (store (snd (satellites_tle _ ?e ?g ?h ?i ?a ?b ?w))) = _ =>
      destruct (H3 string e g h i a b w "page") as [_ Hs];
        [reflexivity | reflexivity |] end.
    rewrite Hs. reflexivity.
Defined.

(** The amended C5 at work: the spots that the server returns for the two
    lower-case telnet lines, right after its start, and the rendering of a
    frequency of 14.195 MHz. *)
Lemma returned_spots_carry_witness :
  let nl := String newline "" in
  let chunks :=
    ["login: "; "Hello GUEST>";
     "DX de w3lpl:     14195.0  ti5/aa8hh    FT8 -09 dB           1234Z" +:+ nl +:+
     "DX de W3LPL:     0.2  TI5/AA8HH    test                    1235Z" +:+ nl] in
  let up := Upstream (HttpReply 120 (Rejected aborted)) (TelnetRun chunks PeerClosed 900) in
  let w := World 0 [] SpiderCache.init in
  let spots :=
    [ {| freq := "14.195"; call := "ti5/aa8hh"; comment := "FT8 -09 dB";
         time := "12:34z"; spotter := "w3lpl"; source := "DX Spider" |};
      {| freq := "0.000"; call := "TI5/AA8HH"; comment := "test";
         time := "12:35z"; spotter := "W3LPL"; source := "DX Spider" |} ] in
  reachable w /\
  fst (dxcluster_spots (Some (QString "dxspider")) up w) = Ok (Reply 200 spots) /\
  Forall (fun s => hamqth_wf s \/ spider_wf s) spots /\
  plain (num_div (parseFloat "14195.0") (num_of_Z 1000)) = true /\
  three_decimals (toFixed 3 (num_div (parseFloat "14195.0") (num_of_Z 1000))) = true.
Proof.
  cbv zeta. destruct returned_spots_carry as [H1 H2].
  split; [constructor|]. split; [vm_compute; reflexivity|].
  split.
  - match goal with |- Forall _ ?spots =>
      apply (H1 (Some (QString "dxspider"))
                (Upstream (HttpReply 120 (Rejected aborted))
                   (TelnetRun
                      ["login: "; "Hello GUEST>";
                       "DX de w3lpl:     14195.0  ti5/aa8hh    FT8 -09 dB           1234Z"
                         +:+ String newline "" +:+
                       "DX de W3LPL:     0.2  TI5/AA8HH    test                    1235Z"
                         +:+ String newline ""] PeerClosed 900))
                (World 0 [] SpiderCache.init) spots
                (World 900 [Connect "dxspider.co.uk" 7300] (SpiderCache.Make spots 900)))
    end; [constructor | vm_compute; reflexivity].
  - split; [vm_compute; reflexivity|]. apply H2. vm_compute. reflexivity.
Defined.

(* ===================================================================== *)
(** * The telnet dialogue *)
(* ===================================================================== *)

Lemma handshake_snoc st (l : string) spots buffer a b t :
  handshake (Session.Make spots buffer a b (Session.written st ++ [l]) t) =
    (handshake st ++ if String.eqb l bye_line then [] else [l])%list.
Proof.
  unfold handshake. cbn [Session.written]. rewrite List.filter_app. simpl.
  destruct (String.eqb l bye_line); reflexivity.
Qed.

Lemma on_data_written st data :
  Session.written (on_data st data) = Session.written st \/
  Session.written (on_data st data) = (Session.written st ++ [login_line])%list \/
  Session.written (on_data st data) = (Session.written st ++ [bye_line])%list.
Proof.
  unfold on_data.
  destruct (negb _ && _); [right; left; reflexivity|].
  destruct (_ && _ && _); [left; reflexivity|].
  cbn [Session.written]. destruct (20 <=? _)%nat; [right; right | left]; reflexivity.
Qed.

Lemma on_data_dialogue st data : dialogue_ok st -> dialogue_ok (on_data st data).
Proof.
  intros [Hc Hh]. unfold dialogue_ok, on_data.
  destruct (Session.loginSent st) eqn:El, (Session.commandSent st) eqn:Ec;
    try (specialize (Hc eq_refl); discriminate); cbn [negb andb].
  - cbn [Session.loginSent Session.commandSent Session.scheduled]. split; [reflexivity|].
    match goal with |- context [if ?c then (_ ++ _)%list else _] => destruct c end.
    + rewrite handshake_snoc. cbn. rewrite app_nil_r. exact Hh.
    + unfold handshake in *. cbn [Session.written]. exact Hh.
  - match goal with |- context [if ?c then Session.Make _ _ _ true _ _ else _] =>
      destruct c end.
    + cbn [Session.loginSent Session.commandSent Session.scheduled]. split; [reflexivity|].
      unfold handshake in *. cbn [Session.written]. rewrite app_assoc, Hh. reflexivity.
    + cbn [Session.loginSent Session.commandSent Session.scheduled]. split; [discriminate|].
      match goal with |- context [if ?c then (_ ++ _)%list else _] => destruct c end.
      * rewrite handshake_snoc. cbn. rewrite app_nil_r. exact Hh.
      * unfold handshake in *. cbn [Session.written]. exact Hh.
  - match goal with |- context [if ?c then Session.Make _ _ true _ _ _ else _] =>
      destruct c end.
    + cbn [Session.loginSent Session.commandSent Session.scheduled]. split; [discriminate|].
      rewrite handshake_snoc. cbn.
      destruct (handshake st); [|discriminate].
      destruct (Session.scheduled st); [reflexivity | discriminate].
    + cbn [Session.loginSent Session.commandSent Session.scheduled]. split; [discriminate|].
      match goal with |- context [if ?c then (_ ++ _)%list else _] => destruct c end.
      * rewrite handshake_snoc. cbn. rewrite app_nil_r. exact Hh.
      * unfold handshake in *. cbn [Session.written]. exact Hh.
Qed.

Lemma on_timer_dialogue st : dialogue_ok st -> dialogue_ok (on_timer st).
Proof.
  intros [Hc Hh]. unfold on_timer.
  destruct (Session.scheduled st) as [|line rest] eqn:Es; [split; [exact Hc | now rewrite Es]|].
  split; [exact Hc|].
  cbn [Session.loginSent Session.commandSent Session.scheduled].
  rewrite handshake_snoc, <- Hh.
  assert (Hl : String.eqb line bye_line = false).
  { assert (Hin : In line ((if Session.loginSent st then [login_line] else []) ++
                           (if Session.commandSent st then [command_line] else []))%list)
      by (rewrite <- Hh; apply in_or_app; right; left; reflexivity).
    destruct (Session.loginSent st), (Session.commandSent st); cbn in Hin;
      repeat destruct Hin as [<- | Hin]; try reflexivity; destruct Hin. }
  rewrite Hl, <- app_assoc. reflexivity.
Qed.

Lemma on_event_dialogue st e : dialogue_ok st -> dialogue_ok (on_event st e).
Proof. destruct e; [apply on_data_dialogue | apply on_timer_dialogue]. Qed.

Lemma events_dialogue events : forall st,
  dialogue_ok st -> dialogue_ok (fold_left on_event events st).
Proof.
  induction events as [|e es IH]; intros st H; [exact H|].
  simpl. apply IH, on_event_dialogue, H.
Qed.

Lemma session_dialogue chunks : forall st,
  dialogue_ok st -> dialogue_ok (fold_left on_data chunks st).
Proof.
  induction chunks as [|c cs IH]; intros st H; [exact H|].
  simpl. apply IH, on_data_dialogue, H.
Qed.

Lemma dialogue_init : dialogue_ok Session.init.
Proof. split; [discriminate | reflexivity]. Qed.

Lemma on_data_scheduled st data (l : string) :
  (In l (Session.scheduled st) -> l = command_line) ->
  In l (Session.scheduled (on_data st data)) -> l = command_line.
Proof.
  intros H. unfold on_data.
  destruct (negb _ && _); [exact H|].
  destruct (_ && _ && _); [|exact H].
  cbn [Session.scheduled]. intros [Hin | [<- | []]]%in_app_or; [auto | reflexivity].
Qed.

Lemma session_schedules_command chunks (l : string) :
  In l (Session.scheduled (run_session chunks)) -> l = command_line.
Proof.
  unfold run_session.
  assert (H : forall st, (In l (Session.scheduled st) -> l = command_line) ->
                         In l (Session.scheduled (fold_left on_data chunks st)) ->
                         l = command_line).
  { induction chunks as [|c cs IH]; intros st Hst; [exact Hst|].
    simpl. apply IH, on_data_scheduled, Hst. }
  apply H. intros [].
Qed.

Lemma handshake_count (st : Session.t) (l : string) :
  String.eqb l bye_line = false ->
  count_occ string_dec (Session.written st) l = count_occ string_dec (handshake st) l.
Proof.
  intros Hl. unfold handshake.
  induction (Session.written st) as [|x xs IH]; [reflexivity|].
  simpl. destruct (String.eqb x bye_line) eqn:Ex; simpl.
  - apply String.eqb_eq in Ex. subst x.
    destruct (string_dec bye_line l) as [<-|_]; [|exact IH].
    rewrite String.eqb_refl in Hl. discriminate.
  - destruct (string_dec x l); rewrite IH; reflexivity.
Qed.

Lemma on_data_same a b data :
  same_variables a b -> same_variables (on_data a data) (on_data b data).
Proof.
  intros (Hs & Hb & Hl & Hc). unfold on_data. rewrite Hs, Hb, Hl, Hc.
  destruct (negb _ && _); [repeat split|].
  destruct (_ && _ && _); repeat split.
Qed.

Lemma on_timer_same a : same_variables (on_timer a) a.
Proof. unfold on_timer. destruct (Session.scheduled a); repeat split. Qed.

Lemma events_same events : forall a b,
  same_variables a b ->
  same_variables (fold_left on_event events a) (fold_left on_data (data_of events) b).
Proof.
  induction events as [|[data|] es IH]; intros a b H; [exact H| |].
  - simpl. apply IH, on_data_same, H.
  - simpl. apply IH. destruct (on_timer_same a) as (H1 & H2 & H3 & H4).
    destruct H as (K1 & K2 & K3 & K4). repeat split; congruence.
Qed.

(** X1. Whatever the node sends, however it is cut into [data] events
    and whenever the timer runs among them, a session writes [GUEST] at
    most once and [sh/dx 25] at most once. A [data] event writes the
    login, [bye] or nothing, never the command: that is left to the
    timer, so that it can come after a [bye]. What has been written,
    [bye] lines apart, and then what the timer still holds, is the login
    and the command that the two flags [loginSent] and [commandSent]
    record: the command is written after the login only, and
    [commandSent] says that it is scheduled, not that it was sent. The
    timers change nothing that decides the spots: the spots, the buffer
    and the flags are those of the data events alone. *)
Theorem login_and_command_written_once (events : list session_event) :
  let st := run_events events in
  (Session.commandSent st = true -> Session.loginSent st = true) /\
  (handshake st ++ Session.scheduled st)%list =
    ((if Session.loginSent st then [login_line] else []) ++
     (if Session.commandSent st then [command_line] else []))%list /\
  (count_occ string_dec (Session.written st) login_line <= 1)%nat /\
  (count_occ string_dec (Session.written st) command_line <= 1)%nat /\
  (forall st0 data,
     Session.written (on_data st0 data) = Session.written st0 \/
     Session.written (on_data st0 data) = (Session.written st0 ++ [login_line])%list \/
     Session.written (on_data st0 data) = (Session.written st0 ++ [bye_line])%list) /\
  Session.spots st = Session.spots (run_session (data_of events)) /\
  Session.buffer st = Session.buffer (run_session (data_of events)) /\
  Session.loginSent st = Session.loginSent (run_session (data_of events)) /\
  Session.commandSent st = Session.commandSent (run_session (data_of events)).
Proof.
  cbv zeta.
  destruct (events_dialogue events Session.init dialogue_init) as [Hc Hh].
  fold (run_events events) in Hc, Hh.
  split; [exact Hc|]. split; [exact Hh|].
  assert (Hcount : forall l : string,
            String.eqb l bye_line = false ->
            (count_occ string_dec (Session.written (run_events events)) l
             <= count_occ string_dec
                  ((if Session.loginSent (run_events events) then [login_line] else []) ++
                   (if Session.commandSent (run_events events) then [command_line] else []))
                  l)%nat).
  { intros l Hl. rewrite (handshake_count _ l Hl), <- Hh, count_occ_app. lia. }
  split; [|split; [|split; [exact on_data_written|]]].
  - etransitivity; [apply Hcount; reflexivity|].
    destruct (Session.loginSent _), (Session.commandSent _); vm_compute; lia.
  - etransitivity; [apply Hcount; reflexivity|].
    destruct (Session.loginSent _), (Session.commandSent _); vm_compute; lia.
  - apply (events_same events Session.init Session.init). repeat split.
Qed.

Lemma login_and_command_written_once_witness :
  let events := [Data "login: "; Data "Hello GUEST>"; Data (unlines listing); Timer] in
  let st := run_events events in
  Session.loginSent st = true /\
  Session.written (run_events [Data "login: "; Data "Hello GUEST>"]) = [login_line] /\
  Session.written st = [login_line; bye_line; command_line].
Proof.
  cbv zeta.
  destruct (login_and_command_written_once
              [Data "login: "; Data "Hello GUEST>"; Data (unlines listing); Timer])
    as (Hc & _).
  split; [apply Hc; vm_compute; reflexivity|].
  split; vm_compute; reflexivity.
Defined.

Lemma seen_app spots more c f :
  seen (spots ++ more) c f = seen spots c f || seen more c f.
Proof. unfold seen. apply existsb_app. Qed.

Lemma scan_line_seen spots line s :
  spider_spot line = Some s -> seen (scan_line spots line) (call s) (freq s) = true.
Proof.
  intros Hs. unfold scan_line. rewrite Hs.
  destruct (seen spots (call s) (freq s)) eqn:E; [exact E|].
  rewrite seen_app, E. simpl. unfold seen. simpl.
  rewrite !String.eqb_refl. reflexivity.
Qed.

Lemma scan_lines_extend lines : forall spots,
  exists more, fold_left scan_line lines spots = (spots ++ more)%list.
Proof.
  induction lines as [|l ls IH]; intros spots; simpl.
  - exists []. symmetry. apply app_nil_r.
  - destruct (scan_line_extends spots l) as [m1 ->].
    destruct (IH (spots ++ m1)%list) as [m2 ->].
    exists (m1 ++ m2)%list. rewrite app_assoc. reflexivity.
Qed.

Lemma scan_lines_seen lines : forall spots line s,
  In line lines ->
  spider_spot line = Some s ->
  seen (fold_left scan_line lines spots) (call s) (freq s) = true.
Proof.
  induction lines as [|l ls IH]; intros spots line s Hin Hs; [destruct Hin|].
  simpl. destruct Hin as [-> | Hin].
  - destruct (scan_lines_extend ls (scan_line spots line)) as [more ->].
    rewrite seen_app, (scan_line_seen spots line s Hs). reflexivity.
  - eapply IH; eassumption.
Qed.

Lemma received_from chunks : forall (acc : string),
  fold_left String.append chunks acc = acc +:+ received chunks.
Proof.
  unfold received.
  induction chunks as [|c cs IH]; intros acc; simpl.
  - induction acc as [|a acc IHa]; [reflexivity|].
    rewrite string_app_cons, <- IHa. reflexivity.
  - rewrite string_app_nil, IH, (IH c), string_app_assoc. reflexivity.
Qed.

Lemma on_data_buffer st data :
  Session.buffer (on_data st data) = Session.buffer st +:+ data.
Proof.
  unfold on_data.
  destruct (negb _ && _); [reflexivity|].
  destruct (_ && _ && _); reflexivity.
Qed.

Lemma session_buffer chunks : forall st,
  Session.buffer (fold_left on_data chunks st) = Session.buffer st +:+ received chunks.
Proof.
  induction chunks as [|c cs IH]; intros st; simpl.
  - exact (received_from [] (Session.buffer st)).
  - rewrite IH, on_data_buffer, string_app_assoc.
    unfold received. simpl. rewrite string_app_nil, (received_from cs c). reflexivity.
Qed.

(** X2. The buffer of a session is never cut: it is all the text received
    so far. Once the login has been sent and the command scheduled (the
    two flags are set), every [data] event scans the whole buffer again, and after it no line of the buffer
    that stands for a spot is missing from the spots collected: a spot
    with its call and frequency is there. *)
Theorem logged_in_session_misses_no_line (st : Session.t) (data line : string)
    (s : Spot) :
  Session.loginSent st = true ->
  Session.commandSent st = true ->
  In line (split newline (Session.buffer st +:+ data)) ->
  spider_spot line = Some s ->
  seen (Session.spots (on_data st data)) (call s) (freq s) = true /\
  Session.buffer (on_data st data) = Session.buffer st +:+ data /\
  forall chunks, Session.buffer (run_session chunks) = received chunks.
Proof.
  intros Hl Hc Hin Hs. split; [|split].
  - unfold on_data. rewrite Hl, Hc. cbn [negb andb Session.spots].
    eapply scan_lines_seen; eassumption.
  - apply on_data_buffer.
  - intros chunks. unfold run_session. rewrite session_buffer. reflexivity.
Qed.

Lemma logged_in_session_misses_no_line_witness :
  let st := Session.Make [] "login: Hello GUEST>" true true [login_line; command_line] [] in
  let line := "DX de W3LPL:     14195.0  TI5/AA8HH    FT8 -09 dB           1234Z" in
  let s := {| freq := "14.195"; call := "TI5/AA8HH"; comment := "FT8 -09 dB";
              time := "12:34z"; spotter := "W3LPL"; source := "DX Spider" |} in
  seen (Session.spots (on_data st (String newline line))) "TI5/AA8HH" "14.195" = true.
Proof.
  cbv zeta.
  refine (proj1 (logged_in_session_misses_no_line
           (Session.Make [] "login: Hello GUEST>" true true [login_line; command_line] [])
           (String newline "DX de W3LPL:     14195.0  TI5/AA8HH    FT8 -09 dB           1234Z")
           "DX de W3LPL:     14195.0  TI5/AA8HH    FT8 -09 dB           1234Z"
           {| freq := "14.195"; call := "TI5/AA8HH"; comment := "FT8 -09 dB";
              time := "12:34z"; spotter := "W3LPL"; source := "DX Spider" |} _ _ _ _)).
  - reflexivity.
  - reflexivity.
  - vm_compute. right. left. reflexivity.
  - vm_compute. reflexivity.
Defined.

Lemma on_data_extends st data :
  exists more, Session.spots (on_data st data) = (Session.spots st ++ more)%list.
Proof.
  unfold on_data.
  destruct (negb _ && _); [exists []; symmetry; apply app_nil_r|].
  destruct (_ && _ && _); [exists []; symmetry; apply app_nil_r|].
  cbn [Session.spots]. apply scan_lines_extend.
Qed.

Lemma on_data_bye st data :
  (In bye_line (Session.written st) -> (20 <= List.length (Session.spots st))%nat) ->
  In bye_line (Session.written (on_data st data)) ->
  (20 <= List.length (Session.spots (on_data st data)))%nat.
Proof.
  intros Hinv. unfold on_data.
  destruct (negb _ && _).
  { cbn [Session.written Session.spots].
    intros [H | [H | []]]%in_app_or; [auto | discriminate]. }
  destruct (_ && _ && _).
  { cbn [Session.written Session.spots]. exact Hinv. }
  cbn [Session.written Session.spots].
  destruct (20 <=? _)%nat eqn:E.
  - intros _. apply Nat.leb_le in E. exact E.
  - intros H. specialize (Hinv H).
    destruct (scan_lines_extend (split newline (Session.buffer st +:+ data))
                (Session.spots st)) as [more ->].
    rewrite length_app. lia.
Qed.

Lemma session_bye chunks : forall st,
  (In bye_line (Session.written st) -> (20 <= List.length (Session.spots st))%nat) ->
  In bye_line (Session.written (fold_left on_data chunks st)) ->
  (20 <= List.length (Session.spots (fold_left on_data chunks st)))%nat.
Proof.
  induction chunks as [|c cs IH]; intros st Hinv; simpl; [exact Hinv|].
  apply IH. apply on_data_bye. exact Hinv.
Qed.

(** X3. A session asks the node to end the dialogue only when it has
    enough: whenever [bye] has been written, at least 20 spots have been
    collected; and once the login has been sent and the command scheduled
    (the two flags are set), a [data] event that leaves 20 spots or more
    writes [bye] as its last line. *)
Theorem bye_needs_twenty_spots :
  (forall chunks,
     In bye_line (Session.written (run_session chunks)) ->
     (20 <= List.length (Session.spots (run_session chunks)))%nat) /\
  (forall st data,
     Session.loginSent st = true ->
     Session.commandSent st = true ->
     (20 <= List.length (Session.spots (on_data st data)))%nat ->
     Session.written (on_data st data) = (Session.written st ++ [bye_line])%list).
Proof.
  split.
  - intros chunks. apply session_bye. intros [].
  - intros st data Hl Hc. unfold on_data. rewrite Hl, Hc.
    cbn [negb andb Session.spots Session.written].
    intros H. apply Nat.leb_le in H. rewrite H. reflexivity.
Qed.

Lemma bye_needs_twenty_spots_witness :
  let chunks := ["login: "; "Hello GUEST>"; unlines listing] in
  Session.written (run_session chunks) = [login_line; bye_line] /\
  List.length (Session.spots (run_session chunks)) = 20%nat.
Proof.
  cbv zeta. destruct bye_needs_twenty_spots as [H1 H2].
  assert (Hw : Session.written (run_session ["login: "; "Hello GUEST>"; unlines listing])
               = [login_line; bye_line]).
  { apply (H2 (run_session ["login: "; "Hello GUEST>"]) (unlines listing));
      vm_compute; reflexivity. }
  split; [exact Hw|].
  assert (Hn := H1 ["login: "; "Hello GUEST>"; unlines listing]).
  rewrite Hw in Hn.
  assert (Hle : (List.length (Session.spots
                   (run_session ["login: "; "Hello GUEST>"; unlines listing])) <= 20)%nat).
  { vm_compute. lia. }
  specialize (Hn (or_intror (or_introl eq_refl))). lia.
Defined.

(* ===================================================================== *)
(** * The telnet cache and the two explicit modes *)
(* ===================================================================== *)

(** X4. The telnet cache limits the connections to one a minute. After a
    session that collected spots, every call of [fetchDXSpider] made less
    than 60 seconds after the [close] event of that session returns those
    spots and does nothing else: no connection, the world as it was. A call
    made 60 seconds after the [close] event or later connects again. *)
Theorem spider_cache_serves_for_a_minute (up up' : upstream)
    (w : world SpiderCache.t) (ms : Z) :
  spider_fresh (store w) (clock w) = false ->
  telnet_spots (dxspider up) <> [] ->
  let w1 := snd (fetchDXSpider up w) in
  let w2 := World (clock w1 + ms) (trace w1) (store w1) in
  (ms < DXSPIDER_CACHE_TTL ->
   fetchDXSpider up' w2 = (Ok (Some (telnet_spots (dxspider up))), w2)) /\
  (DXSPIDER_CACHE_TTL <= ms ->
   trace (snd (fetchDXSpider up' w2))
     = (trace w2 ++ [Connect "dxspider.co.uk" 7300])%list).
Proof.
  intros Hf Ht. cbv zeta.
  rewrite (fetchDXSpider_run up w), Hf. cbv zeta.
  destruct (telnet_spots (dxspider up)) as [|s l] eqn:E; [contradiction|].
  cbn [snd clock trace store]. split; intros Hms.
  - rewrite fetchDXSpider_run. unfold spider_fresh.
    cbn [clock store SpiderCache.timestamp SpiderCache.spots].
    replace (_ <? _) with true by (symmetry; apply Z.ltb_lt; lia).
    reflexivity.
  - rewrite fetchDXSpider_run. unfold spider_fresh.
    cbn [clock store SpiderCache.timestamp SpiderCache.spots].
    replace (_ <? _) with false by (symmetry; apply Z.ltb_ge; lia).
    cbn [andb]. cbv zeta. destruct (telnet_spots (dxspider up')); reflexivity.
Qed.

Lemma spider_cache_serves_for_a_minute_witness :
  let nl := String newline "" in
  let chunks :=
    ["login: "; "Hello GUEST>";
     "DX de W3LPL:     14195.0  TI5/AA8HH    FT8 -09 dB           1234Z" +:+ nl] in
  let up := Upstream (HttpReply 10000 (Rejected aborted)) (TelnetRun chunks IdleTimeout 16500) in
  let down := Upstream (HttpReply 10000 (Rejected aborted)) (TelnetRun [] IdleTimeout 15000) in
  let spot := {| freq := "14.195"; call := "TI5/AA8HH"; comment := "FT8 -09 dB";
                 time := "12:34z"; spotter := "W3LPL"; source := "DX Spider" |} in
  let w2 := World 77499 [Connect "dxspider.co.uk" 7300] (SpiderCache.Make [spot] 17500) in
  fetchDXSpider down w2 = (Ok (Some [spot]), w2).
Proof.
  cbv zeta.
  refine (proj1 (spider_cache_serves_for_a_minute
    (Upstream (HttpReply 10000 (Rejected aborted))
       (TelnetRun
          ["login: "; "Hello GUEST>";
           "DX de W3LPL:     14195.0  TI5/AA8HH    FT8 -09 dB           1234Z"
             +:+ String newline ""] IdleTimeout 16500))
    (Upstream (HttpReply 10000 (Rejected aborted)) (TelnetRun [] IdleTimeout 15000))
    (World 1000 [] SpiderCache.init) 59999 _ _) _).
  - reflexivity.
  - vm_compute. discriminate.
  - reflexivity.
Defined.

(** X5. What the two explicit modes contact. With [source=hamqth], in any
    letter case, the handler makes the one HamQTH request and nothing
    else: no telnet connection, the telnet cache as it was. With
    [source=dxspider] it answers from a fresh cache without contacting
    anything; else it connects, and answers with the spots collected
    without any HamQTH request; only when the connection brought no spot
    does it ask HamQTH, after the connection, and the cache stays as it
    was. *)
Theorem explicit_modes_contact (q : option query_value) (up : upstream)
    (w : world SpiderCache.t) :
  (forall s, toLowerCase s = "hamqth" -> query_source (Some (QString s)) = Ok "hamqth") /\
  (query_source q = Ok "hamqth" ->
   dxcluster_spots q up w =
     (Ok (res_json (default [] (hamqth_yield (hamqth up)))),
      World (clock w + latency (hamqth up))
            (trace w ++ [Fetch hamqth_url]) (store w))) /\
  (query_source q = Ok "dxspider" ->
   dxcluster_spots q up w =
     if spider_fresh (store w) (clock w) then
       (Ok (res_json (SpiderCache.spots (store w))), w)
     else
       let closed := clock w + duration (dxspider up) in
       match telnet_spots (dxspider up) with
       | [] =>
           (Ok (res_json (default [] (hamqth_yield (hamqth up)))),
            World (closed + latency (hamqth up))
                  (trace w ++ [Connect "dxspider.co.uk" 7300; Fetch hamqth_url])
                  (store w))
       | spots =>
           (Ok (res_json spots),
            World closed (trace w ++ [Connect "dxspider.co.uk" 7300])
                  (SpiderCache.Make spots closed))
       end).
Proof.
  split; [|split].
  - intros s Hs. unfold query_source, source_or_auto.
    destruct s as [|c s]; [discriminate|]. cbn [nonempty]. rewrite Hs. reflexivity.
  - intros Hq. rewrite (dxcluster_spots_hamqth q up w Hq).
    rewrite (fetchHamQTH_run up). reflexivity.
  - intros Hq. rewrite (dxcluster_spots_dxspider q up w Hq).
    rewrite fetchDXSpider_run.
    destruct (spider_fresh _ _); [reflexivity|]. cbv zeta.
    destruct (telnet_spots (dxspider up)) as [|s l]; [|reflexivity].
    rewrite (fetchHamQTH_run up). cbn [snd clock trace store].
    rewrite <- app_assoc. reflexivity.
Qed.

Lemma explicit_modes_contact_witness :
  let up := Upstream (HttpReply 10000 (Rejected aborted)) (TelnetRun [] IdleTimeout 15000) in
  let w := World 0 [] SpiderCache.init in
  query_source (Some (QString "HamQTH")) = Ok "hamqth" /\
  dxcluster_spots (Some (QString "HamQTH")) up w =
    (Ok (Reply 200 []), World 10000 [Fetch hamqth_url] SpiderCache.init) /\
  dxcluster_spots (Some (QString "DXSpider")) up w =
    (Ok (Reply 200 []),
     World 25000 [Connect "dxspider.co.uk" 7300; Fetch hamqth_url] SpiderCache.init).
Proof.
  cbv zeta. split; [|split].
  - apply (proj1 (explicit_modes_contact None
             (Upstream (HttpReply 0 (Rejected aborted)) (TelnetRun [] PeerClosed 0))
             (World 0 [] SpiderCache.init))). reflexivity.
  - match goal with |- dxcluster_spots ?q ?up ?w = _ =>
      rewrite (proj1 (proj2 (explicit_modes_contact q up w)) eq_refl) end.
    reflexivity.
  - match goal with |- dxcluster_spots ?q ?up ?w = _ =>
      rewrite (proj2 (proj2 (explicit_modes_contact q up w)) eq_refl) end.
    reflexivity.
Defined.

(* ===================================================================== *)
(** * What the two line parsers read *)
(* ===================================================================== *)

Lemma trim_end_idem (s : string) : trim_end (trim_end s) = trim_end s.
Proof.
  induction s as [|c s IH]; [reflexivity|].
  cbn [trim_end]. destruct (trim_end s) as [|d t] eqn:E.
  - destruct (is_space c) eqn:Ec; [reflexivity|].
    cbn [trim_end]. rewrite Ec. reflexivity.
  - cbn [trim_end]. cbn [trim_end] in IH. rewrite IH. reflexivity.
Qed.

Lemma trim_start_head (s : string) :
  match trim_start s with
  | EmptyString => True
  | String c _ => is_space c = false
  end.
Proof.
  induction s as [|c s IH]; [exact I|].
  cbn [trim_start]. destruct (is_space c) eqn:Ec; [exact IH | exact Ec].
Qed.

Lemma trim_end_head (c : ascii) (s : string) :
  is_space c = false -> exists t, trim_end (String c s) = String c t.
Proof.
  intros Hc. cbn [trim_end]. destruct (trim_end s) as [|d t].
  - rewrite Hc. eexists. reflexivity.
  - eexists. reflexivity.
Qed.

Lemma trim_idem (s : string) : trim (trim s) = trim s.
Proof.
  unfold trim. pose proof (trim_start_head s) as Hh.
  destruct (trim_start s) as [|c t]; [reflexivity|].
  destruct (trim_end_head c t Hh) as [t' Ht]. rewrite Ht.
  cbn [trim_start]. rewrite Hh, <- Ht. apply trim_end_idem.
Qed.

Lemma re_match_suffix re s m :
  re_match re s = Some m ->
  exists before s' st, s = before +:+ s' /\ run re mstate0 s' = Some st /\ m = caps st.
Proof.
  induction s as [|c s IH]; simpl.
  - destruct (run re mstate0 "") as [st|] eqn:E; [|discriminate].
    intros [= <-]. exists "", "", st. auto.
  - destruct (run re mstate0 (String c s)) as [st|] eqn:E.
    + intros [= <-]. exists "", (String c s), st. auto.
    + intros H. destruct (IH H) as (before & s' & st & -> & Hr & ->).
      exists (String c before), s', st. auto.
Qed.

Lemma chr_i_one (c : ascii) (t : string) :
  forallb_string (chr_i c) t = true -> String.length t = 1%nat ->
  same_letters t (String c "") = true.
Proof.
  destruct t as [|a [|b t]]; try discriminate.
  cbn [forallb_string]. unfold chr_i. rewrite andb_true_r.
  intros H _. apply Ascii.eqb_eq in H. unfold same_letters. cbn [map_string].
  rewrite H. apply String.eqb_refl.
Qed.

Lemma map_string_app f (a b : string) :
  map_string f (a +:+ b) = map_string f a +:+ map_string f b.
Proof.
  induction a as [|c a IH]; [reflexivity|].
  rewrite string_app_cons. cbn [map_string]. rewrite IH. reflexivity.
Qed.

Lemma same_letters_app (a b c d : string) :
  same_letters a c = true -> same_letters b d = true ->
  same_letters (a +:+ b) (c +:+ d) = true.
Proof.
  unfold same_letters. intros H1 H2.
  apply String.eqb_eq in H1, H2. rewrite !map_string_app, H1, H2.
  apply String.eqb_refl.
Qed.

Lemma lit_i_reads (l : string) : forall re st s st',
  reads (lit_i l ++ re)%list st s st' ->
  exists t s2, s = t +:+ s2 /\ same_letters t l = true /\ reads re st s2 st'.
Proof.
  induction l as [|c l IH]; intros re st s st' H.
  - exists "", s. split; [reflexivity|]. split; [reflexivity | exact H].
  - cbn [lit_i app reads] in H. destruct H as (s1 & s2 & -> & Hp & Hn & H).
    cbn [quant_ok] in Hn.
    destruct (IH re st s2 st' H) as (t & s3 & -> & Ht & H3).
    exists (s1 +:+ t), s3. split; [symmetry; apply string_app_assoc|].
    split; [|exact H3].
    change (String c l) with (String c "" +:+ l).
    apply same_letters_app; [apply chr_i_one; assumption | exact Ht].
Qed.

Lemma same_letters_colon (t : string) : same_letters t ":" = true -> t = ":".
Proof.
  unfold same_letters. intros H. apply String.eqb_eq in H.
  destruct t as [|a [|b t]]; try discriminate.
  cbn [map_string] in H. injection H as H. f_equal.
  revert H. destruct a as [[] [] [] [] [] [] [] []]; vm_compute; congruence.
Qed.

Lemma blank_run (ws : string) :
  forallb_string is_space ws = true -> (1 <= String.length ws)%nat -> blank ws = true.
Proof. intros H N. unfold blank. rewrite H, (nonempty_length ws N). reflexivity. Qed.

Lemma spot_line_text line m :
  re_match spot_line_re line = Some m ->
  exists g1 g2 g3 g4 g5,
    m = <[5%nat := g5]> (<[4%nat := g4]> (<[3%nat := g3]>
          (<[2%nat := g2]> (<[1%nat := g1]> ∅)))) /\
    holds_spot line g1 g2 g3 g4 g5.
Proof.
  intros H. apply re_match_suffix in H.
  destruct H as (before & s' & st & -> & Hrun & ->).
  apply run_reads in Hrun. unfold spot_line_re in Hrun.
  apply lit_i_reads in Hrun. destruct Hrun as (dxde & s1 & -> & Hdx & H).
  cbn [app lit_i] in H.
  read H as g1 Hg1 Ng1.
  read H as colon Hc Nc.
  read H as ws1 Hw1 Nw1.
  read H as d1 Hd1 Nd1. read H as o Ho No. read H as d2 Hd2 Nd2.
  read H as ws2 Hw2 Nw2.
  read H as g3 Hg3 Ng3.
  read H as ws3 Hw3 Nw3.
  read H as g4 Hg4 Ng4.
  read H as ws4 Hw4 Nw4.
  read H as g5 Hg5 Ng5.
  read H as z Hz Nz.
  cbn [reads] in H. subst st.
  cbn [quant_ok] in *.
  pose proof (same_letters_colon colon (chr_i_one ":" colon Hc Nc)) as ->.
  exists g1, (d1 +:+ o +:+ d2), g3, g4, g5. split.
  - rewrite <- (string_app_assoc o d2), <- (string_app_assoc d1 (o +:+ d2)).
    rewrite !caps_close_open. reflexivity.
  - exists before, dxde, ws1, ws2, ws3, ws4, z. eexists.
    split; [rewrite !string_app_assoc; reflexivity|].
    split; [exact Hdx|]. split; [apply chr_i_one; assumption|].
    repeat split; apply blank_run; assumption.
Qed.

(** X6. What a spot of the telnet source carries is read off its line.
    The line holds, after any text, [DX de] in any case of the letters,
    the spotter and a colon, the frequency, the call, a text and four
    digits before [Z] or [z], with white space between them. The time of
    the spot is these four digits, written as two digits, a colon, two
    digits and [z]; its comment is that text without the white space at
    its two ends; its call and its spotter are the two runs as the line
    writes them. *)
Theorem spider_spot_time_and_comment (line : string) (s : Spot) :
  spider_spot line = Some s ->
  exists g1 g2 g3 g4 g5,
    holds_spot line g1 g2 g3 g4 g5 /\
    String.length g5 = 4%nat /\ forallb_string is_digit g5 = true /\
    time s = js_substring 0 2 g5 +:+ ":" +:+ js_substring 2 4 g5 +:+ "z" /\
    comment s = trim g4 /\
    call s = g3 /\ spotter s = g1 /\
    clock_text (time s) = true /\ trim (comment s) = comment s.
Proof.
  unfold spider_spot. intros H.
  destruct (includes "DX de " line); [|discriminate].
  destruct (re_match spot_line_re line) as [m|] eqn:Em; [|discriminate].
  pose proof (spot_line_groups _ _ Em) as Hg.
  apply spot_line_text in Em. destruct Em as (g1 & g2 & g3 & g4 & g5 & -> & Htext).
  destruct Hg as [h1 h2 h3 h4 h5 d1 o d2 Hm H1 _ _ _ _ _ _ _ _ _ Hd H4].
  destruct (groups_read g1 g2 g3 g4 g5) as (E1 & E2 & E3 & E4 & E5).
  cbv zeta in E1, E2, E3, E4, E5.
  destruct (groups_read h1 h2 h3 h4 h5) as (F1 & _ & _ & _ & F5).
  cbv zeta in F1, F5. rewrite <- Hm, E1 in F1. rewrite <- Hm, E5 in F5. subst h1 h5.
  rewrite E1, E2, E3, E4, E5 in H.
  destruct (negb (isNaN (parseFloat g2)) && _ && _); [|discriminate].
  injection H as <-. cbn [time comment call spotter].
  exists g1, g2, g3, g4, g5.
  split; [exact Htext|]. split; [exact H4|]. split; [exact Hd|].
  split; [reflexivity|]. split; [reflexivity|]. split; [reflexivity|].
  split; [apply (remove_first_absent call_char ":" g1); [reflexivity | exact H1]|].
  split; [|apply trim_idem].
  destruct g5 as [|a [|b [|c [|d [|e g5]]]]]; try discriminate.
  cbn [forallb_string] in Hd.
  apply andb_prop in Hd as [Ha Hd]. apply andb_prop in Hd as [Hb Hd].
  apply andb_prop in Hd as [Hc Hd]. apply andb_prop in Hd as [Hd _].
  change (hhmmz (String a (String b (String c (String d "")))))
    with (String a (String b (String ":" (String c (String d "z"))))).
  cbn [clock_text]. rewrite Ha, Hb, Hc, Hd. reflexivity.
Qed.

Lemma spider_spot_time_and_comment_witness :
  let line := "DX de W3LPL:     14195.0  TI5/AA8HH    FT8 -09 dB           1234Z" in
  exists g1 g2 g3 g4,
    holds_spot line g1 g2 g3 g4 "1234" /\ trim g4 = "FT8 -09 dB".
Proof.
  cbv zeta.
  destruct (spider_spot_time_and_comment
              "DX de W3LPL:     14195.0  TI5/AA8HH    FT8 -09 dB           1234Z"
              {| freq := "14.195"; call := "TI5/AA8HH"; comment := "FT8 -09 dB";
                 time := "12:34z"; spotter := "W3LPL"; source := "DX Spider" |})
    as (g1 & g2 & g3 & g4 & g5 & Htext & H4 & Hd & Ht & Hc & _);
    [vm_compute; reflexivity|].
  cbn [time comment] in Ht, Hc.
  assert (g5 = "1234") as ->.
  { destruct g5 as [|a [|b [|c [|d [|e g5]]]]]; try discriminate.
    vm_compute in Ht. congruence. }
  exists g1, g2, g3, g4. split; [exact Htext | symmetry; exact Hc].
Defined.

Lemma split_join sep (f : string) (fs : list string) :
  Forall (fun x => forallb_string (fun c => negb (Ascii.eqb c sep)) x = true) (f :: fs) ->
  split sep (join sep (f :: fs)) = f :: fs.
Proof.
  revert f. induction fs as [|g fs IH]; intros f Hall.
  - apply split_no_sep. inversion Hall; assumption.
  - inversion Hall as [|? ? Hf Hrest]; subst.
    change (join sep (f :: g :: fs)) with (f +:+ String sep (join sep (g :: fs))).
    rewrite (split_at_sep sep f _ Hf), (IH g Hrest). reflexivity.
Qed.

(** X7. [fetchHamQTH] reads a line of the feed field by field. For a line
    made of at least five fields joined by [^], its spot has the first
    field as spotter, the frequency made of the second, the third as call
    ([UNKNOWN] when it is empty), the fourth as comment, and as time the
    first four characters of the fifth, with a colon in the middle and [z]
    at the end, when the fifth has four characters or more, and the empty
    string otherwise. The fields after the fifth are not looked at. *)
Theorem hamqth_spot_reads_fields (spotter khz dx comment timeDate : string)
    (others : list string) :
  Forall (fun f => no_caret f = true)
         (spotter :: khz :: dx :: comment :: timeDate :: others) ->
  hamqth_spot (join "^" (spotter :: khz :: dx :: comment :: timeDate :: others)) =
    {| freq := hamqth_freq (num_or (parseFloat khz) (num_of_Z 0));
       call := if nonempty dx then dx else "UNKNOWN";
       comment := comment;
       time := if (4 <=? String.length timeDate)%nat
               then hhmmz (js_substring 0 4 timeDate) else "";
       spotter := spotter;
       source := "HamQTH" |}.
Proof.
  intros Hall. unfold hamqth_spot.
  rewrite (split_join "^" spotter _ Hall). cbn [lookup list_lookup].
  unfold str_or, parseFloat_opt.
  destruct spotter, dx, comment, timeDate as [|t1 [|t2 [|t3 [|t4 td]]]]; reflexivity.
Qed.

Lemma hamqth_spot_reads_fields_witness :
  hamqth_spot
    "KF0NYM^18070.0^TX5U^Correction, Good Sig MO, 73^2149 2025-05-27^^^EU^17M^France^227" =
    {| freq := "18.070"; call := "TX5U"; comment := "Correction, Good Sig MO, 73";
       time := "21:49z"; spotter := "KF0NYM"; source := "HamQTH" |}.
Proof.
  assert (H := hamqth_spot_reads_fields "KF0NYM" "18070.0" "TX5U"
                 "Correction, Good Sig MO, 73" "2149 2025-05-27"
                 [""; ""; "EU"; "17M"; "France"; "227"]).
  change (hamqth_spot _)
    with (hamqth_spot (join "^" ["KF0NYM"; "18070.0"; "TX5U";
                                 "Correction, Good Sig MO, 73"; "2149 2025-05-27";
                                 ""; ""; "EU"; "17M"; "France"; "227"])).
  rewrite H; [vm_compute; reflexivity|].
  repeat constructor.
Defined.

(* ===================================================================== *)
(** * The paths route and its cache *)
(* ===================================================================== *)

(** X8. [/api/dxcluster/paths] serves nothing stale. When the cache is
    not fresh and the request to HamQTH fails (it is rejected or aborted,
    the response is not [ok], or its body cannot be read) the answer is
    the empty array with status 200, whatever the cache holds, and the
    cache keeps its paths and its timestamp. A cache without paths is
    never fresh: the request is made however recent its timestamp is. *)
Theorem paths_route_serves_nothing_stale (is_recent : Z -> string -> bool)
    (r : http_reply) (w : world PathsCache.t) :
  (paths_fresh (store w) (clock w) = false ->
   readable r = false ->
   dxcluster_paths is_recent r w =
     (Ok (Reply 200 []),
      World (clock w + latency r) (trace w ++ [Fetch paths_url]) (store w))) /\
  (PathsCache.paths (store w) = [] ->
   trace (snd (dxcluster_paths is_recent r w)) = (trace w ++ [Fetch paths_url])%list).
Proof.
  split.
  - intros Hf Hr. rewrite dxcluster_paths_run. unfold paths_fresh in Hf.
    rewrite Hf. cbv zeta. unfold readable in Hr.
    destruct (result r) as [e | [|] [page | e]]; try reflexivity. discriminate.
  - intros He. rewrite dxcluster_paths_run, He. cbn [List.length Nat.ltb Nat.leb].
    rewrite andb_false_r. cbv zeta.
    destruct (result r) as [e | [|] [page | e]]; reflexivity.
Qed.

Lemma paths_route_serves_nothing_stale_witness :
  let path := make_path (PathSpot.Make "W1AW" "DL1ABC" "14.074" "FT8" "21:49z")
                        (place "39.8" "-98.5" "USA") (place "51.2" "10.4" "Germany") in
  let cache := PathsCache.Make [path] 0 in
  let always := fun (_ : Z) (_ : string) => true in
  dxcluster_paths always (HttpReply 10000 (Rejected aborted)) (World 31000 [] cache) =
    (Ok (Reply 200 []), World 41000 [Fetch paths_url] cache) /\
  trace (snd (dxcluster_paths always (HttpReply 200 (Resolved true (Ok "")))
                (World 1 [] PathsCache.init))) = [Fetch paths_url].
Proof.
  cbv zeta. split.
  - match goal with |- dxcluster_paths ?f ?r ?w = _ =>
      apply (proj1 (paths_route_serves_nothing_stale f r w)) end; reflexivity.
  - match goal with |- trace (snd (dxcluster_paths ?f ?r ?w)) = _ =>
      apply (proj2 (paths_route_serves_nothing_stale f r w)) end; reflexivity.
Defined.

(** X9. The cache of the paths limits the requests to HamQTH to one in 30
    seconds, as long as there is a path to show. After a request that was
    answered from a readable reply with at least one path, every request
    made less than 30 seconds after that answer gets the same paths and
    contacts nothing; the timestamp of the cache is the time of the
    answer, not of the request. *)
Theorem paths_cache_serves_for_thirty_seconds (is_recent : Z -> string -> bool)
    (r r' : http_reply) (w : world PathsCache.t) (ms : Z) :
  paths_fresh (store w) (clock w) = false ->
  readable r = true ->
  reply_paths is_recent r (clock w + latency r) <> [] ->
  ms < DXPATHS_CACHE_TTL ->
  let paths := reply_paths is_recent r (clock w + latency r) in
  let w1 := snd (dxcluster_paths is_recent r w) in
  let w2 := World (clock w1 + ms) (trace w1) (store w1) in
  fst (dxcluster_paths is_recent r w) = Ok (Reply 200 paths) /\
  PathsCache.timestamp (store w1) = clock w + latency r /\
  dxcluster_paths is_recent r' w2 = (Ok (Reply 200 paths), w2).
Proof.
  intros Hf Hr Hp Hms. cbv zeta.
  rewrite (dxcluster_paths_run is_recent r w). unfold paths_fresh in Hf.
  rewrite Hf. cbv zeta. unfold readable in Hr. unfold reply_paths in *.
  destruct (result r) as [e | [|] [page | e]]; try discriminate.
  cbn [fst snd clock trace store PathsCache.timestamp].
  split; [reflexivity|]. split; [reflexivity|].
  rewrite dxcluster_paths_run.
  cbn [clock store PathsCache.timestamp PathsCache.paths].
  replace (_ <? DXPATHS_CACHE_TTL) with true by (symmetry; apply Z.ltb_lt; lia).
  destruct (build_paths _) as [|p ps]; [contradiction|]. reflexivity.
Qed.

Lemma paths_cache_serves_for_thirty_seconds_witness :
  let text := "W1AW^14074.0^DL1ABC^FT8^2149 2025-05-27^^^EU^20M^Germany^230" in
  let path := make_path (PathSpot.Make "W1AW" "DL1ABC" "14.074" "FT8" "21:49z")
                        (place "39.8" "-98.5" "USA") (place "51.2" "10.4" "Germany") in
  let always := fun (_ : Z) (_ : string) => true in
  let w2 := World 30249 [Fetch paths_url] (PathsCache.Make [path] 250) in
  dxcluster_paths always (HttpReply 10000 (Rejected aborted)) w2 =
    (Ok (Reply 200 [path]), w2).
Proof.
  cbv zeta.
  refine (proj2 (proj2 (paths_cache_serves_for_thirty_seconds
    (fun _ _ => true)
    (HttpReply 250 (Resolved true
       (Ok "W1AW^14074.0^DL1ABC^FT8^2149 2025-05-27^^^EU^20M^Germany^230")))
    (HttpReply 10000 (Rejected aborted))
    (World 0 [] PathsCache.init) 29999 _ _ _ _))).
  - reflexivity.
  - reflexivity.
  - vm_compute. discriminate.
  - reflexivity.
Defined.

Lemma upper_char_idem (c : ascii) : upper_char (upper_char c) = upper_char c.
Proof. destruct c as [[] [] [] [] [] [] [] []]; reflexivity. Qed.

Lemma toUpperCase_app (a b : string) :
  toUpperCase (a +:+ b) = toUpperCase a +:+ toUpperCase b.
Proof.
  induction a as [|c a IH]; [reflexivity|].
  rewrite string_app_cons. cbn [toUpperCase]. rewrite IH, string_app_assoc. reflexivity.
Qed.

Lemma upper_units_idem (c : ascii) : toUpperCase (upper_units c) = upper_units c.
Proof. destruct c as [[] [] [] [] [] [] [] []]; reflexivity. Qed.

Lemma toUpperCase_idem (s : string) : toUpperCase (toUpperCase s) = toUpperCase s.
Proof.
  induction s as [|c s IH]; [reflexivity|].
  cbn [toUpperCase]. rewrite toUpperCase_app, upper_units_idem, IH. reflexivity.
Qed.

Lemma toUpperCase_upper_cased (s : string) : is_upper_cased (toUpperCase s) = true.
Proof.
  unfold is_upper_cased. apply String.eqb_eq. symmetry. apply toUpperCase_idem.
Qed.

Lemma path_spot_calls is_recent now line s :
  path_spot is_recent now line = Some s -> path_spot_calls_ok s = true.
Proof.
  unfold path_spot. cbv zeta.
  destruct (_ <? 5)%nat; [discriminate|].
  destruct (negb (nonempty _) || _ || _) eqn:E; [discriminate|].
  destruct (is_recent _ _); [|discriminate].
  intros [= <-].
  apply orb_false_elim in E as [E _]. apply orb_false_elim in E as [E1 E2].
  apply negb_false_iff in E1, E2.
  unfold path_spot_calls_ok, upper_call. cbn [PathSpot.spotter PathSpot.dxCall].
  rewrite E1, E2, !toUpperCase_upper_cased. reflexivity.
Qed.

Lemma build_paths_calls (spots : list PathSpot.t) :
  Forall (fun s => path_spot_calls_ok s = true) spots ->
  Forall (fun p => path_calls_ok p = true) (build_paths spots).
Proof.
  intros Hs. apply List.Forall_forall. intros p Hp.
  destruct (build_paths_ok spots) as [_ Hin].
  destruct (Hin p Hp) as (s & a & b & Hsin & _ & _ & ->).
  rewrite List.Forall_forall in Hs. exact (Hs s Hsin).
Qed.

Lemma reply_paths_calls is_recent r done :
  Forall (fun p => path_calls_ok p = true) (reply_paths is_recent r done).
Proof.
  unfold reply_paths.
  destruct (result r) as [e | [|] [page | e]]; try constructor.
  apply build_paths_calls. apply List.Forall_forall. intros s Hs.
  apply in_drop_nulls, in_map_iff in Hs. destruct Hs as (line & Hl & _).
  eapply path_spot_calls. exact Hl.
Qed.

Lemma dxcluster_paths_calls is_recent r w :
  Forall (fun p => path_calls_ok p = true) (PathsCache.paths (store w)) ->
  Forall (fun p => path_calls_ok p = true)
         (PathsCache.paths (store (snd (dxcluster_paths is_recent r w)))) /\
  forall paths, fst (dxcluster_paths is_recent r w) = Ok (Reply 200 paths) ->
                Forall (fun p => path_calls_ok p = true) paths.
Proof.
  intros Hc. rewrite dxcluster_paths_run.
  destruct (_ && _); [split; [exact Hc | intros ? [= <-]; exact Hc]|].
  cbv zeta. pose proof (reply_paths_calls is_recent r (clock w + latency r)) as Hr.
  unfold reply_paths in Hr.
  destruct (result r) as [e | [|] [page | e]]; cbn [fst snd store PathsCache.paths];
    (split; [assumption | intros ? [= <-]; assumption]).
Qed.

Lemma paths_reachable_calls is_recent w :
  paths_reachable is_recent w ->
  Forall (fun p => path_calls_ok p = true) (PathsCache.paths (store w)).
Proof.
  induction 1 as [t | w ms _ IH | w r _ IH]; simpl.
  - constructor.
  - exact IH.
  - apply dxcluster_paths_calls. exact IH.
Qed.

(** X10. Unlike the spots route, the paths route normalises the calls it
    reads: a spot is made from a line only when both calls are non-empty
    once trimmed, both are put in upper case, and its frequency is
    [toFixed(3)] of a positive kHz value divided by 1000. So every path
    that the route answers with, built from a reply or taken from the
    cache, has two non-empty calls in upper case. *)
Theorem paths_carry_upper_case_calls (is_recent : Z -> string -> bool) :
  (forall now line s,
     path_spot is_recent now line = Some s ->
     path_spot_calls_ok s = true /\
     exists freqKhz,
       num_gt freqKhz (num_of_Z 0) = true /\
       PathSpot.freq s = toFixed 3 (num_div freqKhz (num_of_Z 1000))) /\
  (forall r (w : world PathsCache.t) paths,
     paths_reachable is_recent w ->
     fst (dxcluster_paths is_recent r w) = Ok (Reply 200 paths) ->
     Forall (fun p => path_calls_ok p = true) paths).
Proof.
  split.
  - intros now line s Hs. split; [eapply path_spot_calls; exact Hs|].
    unfold path_spot in Hs. cbv zeta in Hs.
    destruct (_ <? 5)%nat; [discriminate|].
    destruct (negb (nonempty _) || _ || _) eqn:E; [discriminate|].
    destruct (is_recent _ _); [|discriminate].
    injection Hs as <-. cbn [PathSpot.freq].
    apply orb_false_elim in E as [_ E].
    set (k := num_or _ _) in *.
    assert (Hn : isNaN k = false) by (apply num_or_not_NaN; reflexivity).
    exists k. split; [|reflexivity].
    unfold num_gt. clearbody k.
    destruct k as [[]|[]| |[] m e]; try discriminate; reflexivity.
  - intros r w paths Hw Hp.
    apply (dxcluster_paths_calls is_recent r w (paths_reachable_calls is_recent w Hw)).
    exact Hp.
Qed.

Lemma paths_carry_upper_case_calls_witness :
  let always := fun (_ : Z) (_ : string) => true in
  let line := " w1aw ^14074.0^dl1abc^FT8^2149 2025-05-27^^^EU^20M^Germany^230" in
  let path := make_path (PathSpot.Make "W1AW" "DL1ABC" "14.074" "FT8" "21:49z")
                        (place "39.8" "-98.5" "USA") (place "51.2" "10.4" "Germany") in
  path_spot always 0 line = Some (PathSpot.Make "W1AW" "DL1ABC" "14.074" "FT8" "21:49z") /\
  path_spot_calls_ok (PathSpot.Make "W1AW" "DL1ABC" "14.074" "FT8" "21:49z") = true /\
  Forall (fun p => path_calls_ok p = true) [path] /\
  path_spot always 0 (String "233" (String "223" "1^14074.0^dl1abc^FT8^2149 2025-05-27"))
    = Some (PathSpot.Make (String "201" "SS1") "DL1ABC" "14.074" "FT8" "21:49z").
Proof.
  cbv zeta. destruct (paths_carry_upper_case_calls (fun _ _ => true)) as [H1 H2].
  split; [vm_compute; reflexivity|]. split; [|split; [|vm_compute; reflexivity]].
  - apply (H1 0 " w1aw ^14074.0^dl1abc^FT8^2149 2025-05-27^^^EU^20M^Germany^230").
    vm_compute. reflexivity.
  - apply (H2 (HttpReply 250 (Resolved true
                 (Ok " w1aw ^14074.0^dl1abc^FT8^2149 2025-05-27^^^EU^20M^Germany^230")))
              (World 0 [] PathsCache.init)).
    + constructor.
    + vm_compute. reflexivity.
Defined.

(* ===================================================================== *)
(** * The cached routes: what they answer with *)
(* ===================================================================== *)

(** X11. [/api/dxpeditions] never throws, and answers with status 500
    only as long as it has never had a result: the status is 500 exactly
    when the cache holds no data and the refresh fails, and 200 in every
    other case. An answer of 500 leaves the cache as it was, an answer of
    200 leaves data in it, and a cache that holds data holds data after
    every request: from the first successful refresh on the route always
    answers with status 200. *)
Theorem dxpeditions_fails_only_before_first_result (payload : Type)
    (parse_adxo : Z -> string -> outcome payload) (r : http_reply)
    (w : world (DxpeditionCache.t payload)) :
  exists answer w',
    dxpeditions payload parse_adxo r w = (Ok answer, w') /\
    (status answer = 500 <->
       DxpeditionCache.data (store w) = None /\
       dxpedition_refresh payload parse_adxo r (clock w + latency r) = None) /\
    (status answer = 200 <->
       ~ (DxpeditionCache.data (store w) = None /\
          dxpedition_refresh payload parse_adxo r (clock w + latency r) = None)) /\
    (status answer = 500 -> store w' = store w) /\
    (status answer = 200 -> DxpeditionCache.data (store w') <> None) /\
    (DxpeditionCache.data (store w) <> None -> DxpeditionCache.data (store w') <> None).
Proof.
  rewrite dxpeditions_run. unfold dxpedition_fresh.
  destruct (DxpeditionCache.data (store w)) as [data|] eqn:Ed.
  - destruct (_ <? _).
    + eexists _, _. split; [reflexivity|]. cbn [status res_json].
      repeat split; try discriminate; try (rewrite Ed; discriminate);
        try (intros [H _]; discriminate H); try (intros _ [H _]; discriminate H).
    + cbv zeta. destruct (dxpedition_refresh _ _ _ _) as [result|].
      * eexists _, _. split; [reflexivity|]. cbn [status res_json store DxpeditionCache.data].
        repeat split; try discriminate;
          try (intros [H _]; discriminate H); try (intros _ [H _]; discriminate H).
      * eexists _, _. split; [reflexivity|]. cbn [status res_json store].
        repeat split; try discriminate; try (rewrite Ed; discriminate);
          try (intros [H _]; discriminate H); try (intros _ [H _]; discriminate H).
  - cbv zeta. destruct (dxpedition_refresh _ _ _ _) as [result|].
    + eexists _, _. split; [reflexivity|]. cbn [status res_json store DxpeditionCache.data].
      repeat split; try discriminate;
        try (intros [_ H]; discriminate H); try (intros _ [_ H]; discriminate H).
    + eexists _, _. split; [reflexivity|]. cbn [status res_status_json store].
      repeat split; try discriminate; try reflexivity; try contradiction.
      intros H. exfalso. apply H. split; reflexivity.
Qed.

(** X12. [/api/satellites/tle] answers with status 200 whatever happens;
    it has no error answer. When CelesTrak answers the request for the
    amateur group with a response that is not [ok], and the cache is not
    fresh, the route does not fall back on the cache: it stores, with the
    time of the request, the object it has built from nothing (at most the
    ISS entry of the second request), in place of what the cache held.
    When that request is rejected or its body cannot be read, the cache
    stays as it was and the answer is the cached data, or the empty
    object. *)
Theorem satellites_tle_never_fails (tle : Type) (tle_empty : tle)
    (parse_group : string -> tle -> tle) (has_iss : tle -> bool)
    (parse_iss : string -> tle -> tle)
    (amateur iss : http_reply) (w : world (TleCache.t tle)) :
  let run := satellites_tle tle tle_empty parse_group has_iss parse_iss amateur iss w in
  (exists data w', run = (Ok (Reply 200 data), w')) /\
  (tle_fresh tle (store w) (clock w) = None ->
   (forall b, result amateur = Resolved false b ->
      fst run = Ok (Reply 200 (tle_with_iss tle has_iss parse_iss iss tle_empty)) /\
      store (snd run) =
        TleCache.Make (Some (tle_with_iss tle has_iss parse_iss iss tle_empty)) (clock w)) /\
   (tle_group tle tle_empty parse_group amateur = None ->
      fst run = Ok (Reply 200 (default tle_empty (TleCache.data (store w)))) /\
      store (snd run) = store w)).
Proof.
  cbv zeta. rewrite satellites_tle_run. split.
  - destruct (tle_fresh _ _ _); [eexists _, _; reflexivity|].
    destruct (tle_group _ _ _ _); eexists _, _; reflexivity.
  - intros ->. split.
    + intros b Hb. unfold tle_group. rewrite Hb. split; reflexivity.
    + intros ->. split; reflexivity.
Qed.

Lemma satellites_tle_never_fails_witness :
  let cache := TleCache.Make (Some "ISS AO-91 SO-50") 0 in
  let r := HttpReply 300 (Resolved false (Ok "Service Unavailable")) in
  let w := World TLE_CACHE_DURATION [] cache in
  let run := satellites_tle string "" (fun page _ => page) nonempty
               (fun page _ => page) r r w in
  fst run = Ok (Reply 200 "") /\
  store (snd run) = TleCache.Make (Some "") TLE_CACHE_DURATION.
Proof.
  cbv zeta.
  match goal with |- fst (satellites_tle _ ?e ?g ?h ?i ?a ?b ?w) = _ /\ _ =>
    destruct (satellites_tle_never_fails string e g h i a b w) as [_ H] end.
  destruct (H eq_refl) as [H1 _].
  exact (H1 (Ok "Service Unavailable") eq_refl).
Defined.

(* ===================================================================== *)
(** * The prefix table *)
(* ===================================================================== *)

Lemma prefix_table_entries (k : string) (e : Place) :
  prefixLocations !! k = Some e -> first_char_ok k = true /\ place_ok e = true.
Proof.
  unfold prefixLocations. intros H. apply elem_of_list_to_map_2 in H.
  apply list_elem_of_In in H.
  match type of H with In _ ?l =>
    assert (Hall : forallb (fun ke => first_char_ok (fst ke) && place_ok (snd ke)) l = true)
      by (vm_compute; reflexivity) end.
  rewrite forallb_forall in Hall. specialize (Hall _ H).
  apply andb_prop in Hall. exact Hall.
Qed.

Lemma substring_one_of_two (s : string) :
  js_substring 0 1 (js_substring 0 2 s) = js_substring 0 1 s.
Proof. destruct s as [|a [|b s]]; reflexivity. Qed.

Lemma substring_two_of_two (s : string) :
  js_substring 0 2 (js_substring 0 2 s) = js_substring 0 2 s.
Proof. destruct s as [|a [|b [|c s]]]; reflexivity. Qed.

Lemma first_char_substring (n : nat) (s : string) :
  first_char_ok (js_substring 0 (S n) s) = first_char_ok s.
Proof. destruct s as [|a s]; reflexivity. Qed.

Lemma estimate_entry_ok (c : string) (r : Estimate) :
  estimateLocationFromPrefix c = Some r ->
  first_char_ok c = true /\ place_ok (entry r) = true.
Proof.
  intros H. unfold estimateLocationFromPrefix in H. cbv zeta in H.
  destruct (prefixLocations !! js_substring 0 2 c) as [e|] eqn:E2.
  - injection H as <-. apply prefix_table_entries in E2.
    rewrite first_char_substring in E2. exact E2.
  - destruct (prefixLocations !! js_substring 0 1 c) as [e|] eqn:E1; [|discriminate].
    injection H as <-. apply prefix_table_entries in E1.
    rewrite first_char_substring in E1. exact E1.
Qed.

(** X13. The estimate reads the first two characters of the call and
    nothing else: two calls that agree on them are put at the same place.
    Only a call that starts with a capital letter or with [9] is located,
    so a call in lower case never is; and a place that the estimate gives
    has a latitude within 90 and a longitude within 180 degrees, neither
    of them zero, and a country name. *)
Theorem estimate_reads_two_characters :
  (forall c1 c2,
     js_substring 0 2 c1 = js_substring 0 2 c2 ->
     entry <$> estimateLocationFromPrefix c1 = entry <$> estimateLocationFromPrefix c2) /\
  (forall c r,
     estimateLocationFromPrefix c = Some r ->
     first_char_ok c = true /\ place_ok (entry r) = true).
Proof.
  split.
  - intros c1 c2 H. unfold estimateLocationFromPrefix. cbv zeta.
    rewrite <- (substring_one_of_two c1), <- (substring_one_of_two c2), H.
    destruct (prefixLocations !! js_substring 0 2 c2); [reflexivity|].
    destruct (prefixLocations !! _); reflexivity.
  - apply estimate_entry_ok.
Qed.

Lemma estimate_reads_two_characters_witness :
  entry <$> estimateLocationFromPrefix "W1AW" = entry <$> estimateLocationFromPrefix "W1XYZ" /\
  first_char_ok "DL1ABC" = true /\
  place_ok (place "51.2" "10.4" "Germany") = true.
Proof.
  destruct estimate_reads_two_characters as [H1 H2]. split.
  - apply H1. reflexivity.
  - apply (H2 "DL1ABC" {| callsign := "DL1ABC"; entry := place "51.2" "10.4" "Germany";
                          estimated := true |}).
    vm_compute. reflexivity.
Defined.

(* ===================================================================== *)
(** * The ionosonde cache *)
(* ===================================================================== *)

Lemma fetchIonosondeData_run (station : Type)
    (valid_stations : Z -> string -> outcome (list station))
    (r : http_reply) (w : world (IonosondeCache.t (list station))) :
  fetchIonosondeData station valid_stations r w =
    match ionosonde_fresh station (store w) (clock w) with
    | Some data => (Ok data, w)
    | None =>
        let done := clock w + latency r in
        let tr := (trace w ++ [Fetch kc2g_url])%list in
        match ionosonde_refresh station valid_stations r done with
        | Some stations =>
            (Ok stations,
             World done tr (IonosondeCache.Make (Some stations) (clock w) None))
        | None =>
            (Ok (default [] (IonosondeCache.data (store w))), World done tr (store w))
        end
    end.
Proof.
  unfold fetchIonosondeData, ionosonde_refresh. run_js.
  destruct (ionosonde_fresh station (store w) (clock w)); [reflexivity|].
  destruct (result r) as [e | [|] [page | e]]; simpl; try reflexivity.
  destruct (valid_stations _ page); reflexivity.
Qed.

Lemma ionosonde_reachable_stale (station : Type)
    (valid_stations : Z -> string -> outcome (list station))
    (w : world (IonosondeCache.t (list station))) :
  ionosonde_reachable station valid_stations w ->
  IonosondeCache.data (store w) = None \/ IonosondeCache.maxAge (store w) = None.
Proof.
  induction 1 as [t | w ms _ IH | w r _ IH]; simpl.
  - left. reflexivity.
  - exact IH.
  - rewrite fetchIonosondeData_run.
    destruct (ionosonde_fresh _ _ _); [exact IH|]. cbv zeta.
    destruct (ionosonde_refresh _ _ _ _); [right; reflexivity | exact IH].
Qed.

(** X14. The cache of [fetchIonosondeData] is never found fresh. The
    object that a refresh stores has no [maxAge], so the test of its age
    compares with [undefined] and fails: in every state that the server
    can reach, whatever the clock shows, a call makes the request to KC2G.
    What the cache holds is used only when that request fails. *)
Theorem ionosonde_cache_never_fresh (station : Type)
    (valid_stations : Z -> string -> outcome (list station))
    (r : http_reply) (w : world (IonosondeCache.t (list station))) :
  ionosonde_reachable station valid_stations w ->
  ionosonde_fresh station (store w) (clock w) = None /\
  trace (snd (fetchIonosondeData station valid_stations r w))
    = (trace w ++ [Fetch kc2g_url])%list /\
  forall stations,
    ionosonde_refresh station valid_stations r (clock w + latency r) = Some stations ->
    store (snd (fetchIonosondeData station valid_stations r w))
      = IonosondeCache.Make (Some stations) (clock w) None.
Proof.
  intros Hw. apply ionosonde_reachable_stale in Hw.
  assert (Hf : ionosonde_fresh station (store w) (clock w) = None).
  { unfold ionosonde_fresh. destruct Hw as [-> | Hm]; [reflexivity|].
    rewrite Hm. destruct (IonosondeCache.data (store w)); reflexivity. }
  split; [exact Hf|]. rewrite fetchIonosondeData_run, Hf. cbv zeta. split.
  - destruct (ionosonde_refresh _ _ _ _); reflexivity.
  - intros stations ->. reflexivity.
Qed.

Lemma ionosonde_cache_never_fresh_witness :
  let parse := fun (_ : Z) (page : string) => Ok [page] in
  let r := HttpReply 200 (Resolved true (Ok "stations")) in
  let w1 := snd (fetchIonosondeData string parse r (World 0 [] IonosondeCache.init)) in
  store w1 = IonosondeCache.Make (Some ["stations"]) 0 None /\
  trace (snd (fetchIonosondeData string parse r (World (clock w1 + 1) (trace w1) (store w1))))
    = [Fetch kc2g_url; Fetch kc2g_url].
Proof.
  cbv zeta. split; [reflexivity|].
  match goal with |- trace (snd (fetchIonosondeData _ ?p ?r ?w)) = _ =>
    destruct (ionosonde_cache_never_fresh string p r w) as (_ & H & _) end.
  - apply ionosonde_wait. apply ionosonde_call. apply ionosonde_start.
  - rewrite H. reflexivity.
Defined.

(** X15. [fetchIonosondeData] never throws and [/api/ionosonde] never
    answers with an error: the status is 200 and [count] is the number of
    stations in the answer. When the request fails (it is rejected, the
    response is not [ok], or its body cannot be read or parsed) the
    stations are those of the cache, however old, or none, and the cache
    keeps its data and its timestamp; when it succeeds the cache takes the
    time read when the call started. *)
Theorem ionosonde_route_never_fails (station : Type)
    (valid_stations : Z -> string -> outcome (list station))
    (r : http_reply) (w : world (IonosondeCache.t (list station))) :
  (exists stations w' t,
     fetchIonosondeData station valid_stations r w = (Ok stations, w') /\
     ionosonde station valid_stations r w =
       (Ok (Reply 200 (Stations (List.length stations) t stations)), w')) /\
  (ionosonde_fresh station (store w) (clock w) = None ->
   ionosonde_refresh station valid_stations r (clock w + latency r) = None ->
   fetchIonosondeData station valid_stations r w =
     (Ok (default [] (IonosondeCache.data (store w))),
      World (clock w + latency r) (trace w ++ [Fetch kc2g_url]) (store w))).
Proof.
  split.
  - unfold ionosonde. unfold try_catch, bind at 1.
    rewrite fetchIonosondeData_run.
    destruct (ionosonde_fresh _ _ _); [eexists _, _, _; split; reflexivity|].
    cbv zeta. destruct (ionosonde_refresh _ _ _ _); eexists _, _, _; split; reflexivity.
  - intros Hf Hr. rewrite fetchIonosondeData_run, Hf. cbv zeta. rewrite Hr. reflexivity.
Qed.

Lemma ionosonde_route_never_fails_witness :
  let parse := fun (_ : Z) (page : string) => Ok [page] in
  let cache := IonosondeCache.Make (Some ["old"]) 0 None in
  fetchIonosondeData string parse (HttpReply 15000 (Rejected aborted))
                     (World 86400000 [] cache) =
    (Ok ["old"], World 86415000 [Fetch kc2g_url] cache).
Proof.
  cbv zeta.
  match goal with |- fetchIonosondeData _ ?p ?r ?w = _ =>
    apply (proj2 (ionosonde_route_never_fails string p r w)) end; reflexivity.
Defined.

(* ===================================================================== *)
(** * The callsign lookup *)
(* ===================================================================== *)

Lemma callsign_lookup_run {S} (call : string) (r : http_reply) (w : world S) :
  callsign_lookup call r w =
    let callsign := toUpperCase call in
    let w' := World (clock w + latency r) (trace w ++ [Fetch (dxcc_url callsign)]) (store w) in
    match reply_lookup callsign r with
    | Throw _ => (Ok (Reply 500 (LookupError "Lookup failed")), w')
    | Ok (Some result) => (Ok (Reply 200 (Found result)), w')
    | Ok None =>
        match estimateLocationFromPrefix callsign with
        | Some estimated => (Ok (Reply 200 (Estimated estimated)), w')
        | None => (Ok (Reply 404 (LookupError "Callsign not found")), w')
        end
    end.
Proof.
  unfold callsign_lookup, reply_lookup. cbv zeta.
  generalize (estimateLocationFromPrefix (toUpperCase call)) as est.
  generalize (lookup_result (toUpperCase call)) as look.
  generalize (dxcc_url (toUpperCase call)) as url.
  intros url look est. run_js.
  destruct (result r) as [e | [|] [page | e]]; simpl.
  - reflexivity.
  - destruct (look page); [reflexivity|]. destruct est; reflexivity.
  - reflexivity.
  - destruct est; reflexivity.
  - destruct est; reflexivity.
Qed.

Lemma chr_one (c : ascii) (s1 : string) :
  forallb_string (chr c) s1 = true -> String.length s1 = 1%nat -> s1 = String c "".
Proof.
  destruct s1 as [|a [|b s1]]; try discriminate.
  cbn [forallb_string]. unfold chr. rewrite andb_true_r.
  intros H _. apply Ascii.eqb_eq in H. now subst.
Qed.

Lemma lit_s_reads (l : string) : forall re st s st',
  reads (lit_s l ++ re)%list st s st' -> exists s2, s = l +:+ s2 /\ reads re st s2 st'.
Proof.
  induction l as [|c l IH]; intros re st s st' H.
  - exists s. split; [reflexivity | exact H].
  - cbn [lit_s app reads] in H. destruct H as (s1 & s2 & -> & Hp & Hn & H).
    cbn [quant_ok] in Hn. rewrite (chr_one c s1 Hp Hn).
    destruct (IH re st s2 st' H) as (s3 & -> & H3).
    exists s3. split; [reflexivity | exact H3].
Qed.

Lemma tag_text_sound (tag text g : string) :
  tag_text tag text = Some g ->
  nonempty g = true /\ forallb_string not_lt g = true /\ holds_tag tag g text.
Proof.
  unfold tag_text. destruct (re_match (tag_re tag) text) as [m|] eqn:Em; [|discriminate].
  intros [= <-]. apply re_match_suffix in Em.
  destruct Em as (before & s' & st & -> & Hrun & ->).
  apply run_reads in Hrun. unfold tag_re in Hrun.
  apply lit_s_reads in Hrun. destruct Hrun as (s2 & -> & H).
  cbn [app] in H. cbn [reads] in H.
  destruct H as (g & rest & -> & Hp & Hn & H). cbn [quant_ok] in Hn.
  rewrite <- (app_nil_r (lit_s _)) in H.
  apply lit_s_reads in H. destruct H as (after & -> & H).
  cbn [reads] in H. subst st.
  rewrite caps_close_open. unfold group. rewrite lookup_insert_eq. cbn [default].
  split; [apply nonempty_length; exact Hn|]. split; [exact Hp|].
  exists before, after. reflexivity.
Qed.

(** X16. [/api/callsign/:call] never throws. It makes one request, for
    the call in upper case, and leaves the caches alone. It answers 500
    exactly when the request is rejected or the body of an [ok] response
    cannot be read; a response that is not [ok] is no error. A result
    read from the response is preferred to the estimate from the prefix;
    without one the answer is the estimate, and 404 exactly when there is
    no estimate either, as for every call that starts with neither a
    capital letter (after the change to upper case) nor [9]. *)
Theorem callsign_lookup_answers {S} (call : string) (r : http_reply) (w : world S) :
  let callsign := toUpperCase call in
  exists answer,
    callsign_lookup call r w =
      (Ok answer,
       World (clock w + latency r) (trace w ++ [Fetch (dxcc_url callsign)]) (store w)) /\
    (status answer = 500 <-> exists e, reply_lookup callsign r = Throw e) /\
    (status answer = 404 <->
       reply_lookup callsign r = Ok None /\ estimateLocationFromPrefix callsign = None) /\
    (forall result, reply_lookup callsign r = Ok (Some result) ->
       answer = Reply 200 (Found result)) /\
    (forall estimated,
       reply_lookup callsign r = Ok None ->
       estimateLocationFromPrefix callsign = Some estimated ->
       answer = Reply 200 (Estimated estimated)) /\
    (reply_lookup callsign r = Ok None -> first_char_ok callsign = false ->
       status answer = 404).
Proof.
  cbv zeta. rewrite callsign_lookup_run. cbv zeta.
  assert (Hno : first_char_ok (toUpperCase call) = false ->
                estimateLocationFromPrefix (toUpperCase call) = None).
  { intros Hc. destruct (estimateLocationFromPrefix _) as [e|] eqn:E; [|reflexivity].
    apply estimate_entry_ok in E. destruct E as [E _]. congruence. }
  destruct (reply_lookup _ r) as [[result|]|e].
  - eexists. split; [reflexivity|]. cbn [status].
    split; [split; [discriminate | intros [? H]; discriminate]|].
    split; [split; [discriminate | intros [H _]; discriminate]|].
    split; [intros ? [= <-]; reflexivity|].
    split; discriminate.
  - destruct (estimateLocationFromPrefix _) as [est|] eqn:E.
    + eexists. split; [reflexivity|]. cbn [status].
      split; [split; [discriminate | intros [? H]; discriminate]|].
      split; [split; [discriminate | intros [_ H]; discriminate]|].
      split; [discriminate|].
      split; [intros ? _ [= <-]; reflexivity|].
      intros _ Hc. specialize (Hno Hc). discriminate.
    + eexists. split; [reflexivity|]. cbn [status].
      split; [split; [discriminate | intros [? H]; discriminate]|].
      split; [split; auto|].
      split; [discriminate|].
      split; [discriminate | reflexivity].
  - eexists. split; [reflexivity|]. cbn [status].
    split; [split; eauto|].
    split; [split; [discriminate | intros [H _]; discriminate]|].
    split; [discriminate|].
    split; discriminate.
Qed.

Lemma callsign_lookup_answers_witness :
  let r := HttpReply 300 (Resolved false (Ok "Service Unavailable")) in
  callsign_lookup "dl1abc" r (World 0 [] tt) =
    (Ok (Reply 200 (Estimated {| callsign := "DL1ABC";
                                 entry := place "51.2" "10.4" "Germany";
                                 estimated := true |})),
     World 300 [Fetch "https://www.hamqth.com/dxcc.php?callsign=DL1ABC"] tt) /\
  fst (callsign_lookup "xe1aa" r (World 0 [] tt)) =
    Ok (Reply 404 (LookupError "Callsign not found")) /\
  callsign_lookup ("z" +:+ String "223" "") r (World 0 [] tt) =
    (Ok (Reply 200 (Estimated {| callsign := "ZSS";
                                 entry := place "-30.6" "22.9" "South Africa";
                                 estimated := true |})),
     World 300 [Fetch "https://www.hamqth.com/dxcc.php?callsign=ZSS"] tt).
Proof.
  cbv zeta. split; [|split].
  - destruct (callsign_lookup_answers "dl1abc"
                (HttpReply 300 (Resolved false (Ok "Service Unavailable")))
                (World 0 [] tt)) as (answer & Hrun & _ & _ & _ & He & _).
    rewrite Hrun.
    rewrite (He {| callsign := "DL1ABC"; entry := place "51.2" "10.4" "Germany";
                   estimated := true |} eq_refl ltac:(vm_compute; reflexivity)).
    reflexivity.
  - destruct (callsign_lookup_answers "xe1aa"
                (HttpReply 300 (Resolved false (Ok "Service Unavailable")))
                (World 0 [] tt)) as (answer & Hrun & _ & H404 & _).
    rewrite Hrun. cbn [fst].
    assert (Hs : status answer = 404).
    { apply H404. split; [reflexivity | vm_compute; reflexivity]. }
    rewrite callsign_lookup_run in Hrun. vm_compute in Hrun.
    injection Hrun as <-. reflexivity.
  - destruct (callsign_lookup_answers ("z" +:+ String "223" "")
                (HttpReply 300 (Resolved false (Ok "Service Unavailable")))
                (World 0 [] tt)) as (answer & Hrun & _ & _ & _ & He & _).
    rewrite Hrun.
    rewrite (He {| callsign := "ZSS"; entry := place "-30.6" "22.9" "South Africa";
                   estimated := true |} eq_refl ltac:(vm_compute; reflexivity)).
    reflexivity.
Defined.

(** X17. The result that the route reads from a response comes from its
    tags: the latitude and the longitude are [parseFloat] of the text
    between [<lat>] and [</lat>] and between [<lng>] and [</lng>], each a
    non-empty text without [<]; the call is the one asked for; the country
    is the content of a [name] element of the response, again non-empty
    and without [<], or [Unknown]; the two zones are read in the same
    way, or empty. The route does not check that the two numbers are
    numbers. *)
Theorem lookup_result_reads_tags (callsign text : string) (result : Lookup) :
  lookup_result callsign text = Some result ->
  lookup_callsign result = callsign /\
  (exists lat lon,
     holds_tag "lat" lat text /\ holds_tag "lng" lon text /\
     nonempty lat = true /\ nonempty lon = true /\
     forallb_string not_lt lat = true /\ forallb_string not_lt lon = true /\
     lookup_lat result = parseFloat lat /\ lookup_lon result = parseFloat lon) /\
  (lookup_country result = "Unknown" \/
   holds_tag "name" (lookup_country result) text /\
   nonempty (lookup_country result) = true /\
   forallb_string not_lt (lookup_country result) = true) /\
  (cqZone result = "" \/
   holds_tag "cq" (cqZone result) text /\
   forallb_string not_lt (cqZone result) = true) /\
  (ituZone result = "" \/
   holds_tag "itu" (ituZone result) text /\
   forallb_string not_lt (ituZone result) = true).
Proof.
  unfold lookup_result. cbv zeta.
  destruct (tag_text "lat" text) as [lat|] eqn:Elat; [|discriminate].
  destruct (tag_text "lng" text) as [lon|] eqn:Elon; [|discriminate].
  intros [= <-].
  cbn [lookup_callsign lookup_lat lookup_lon lookup_country cqZone ituZone].
  apply tag_text_sound in Elat, Elon.
  destruct Elat as (Nlat & Clat & Hlat). destruct Elon as (Nlon & Clon & Hlon).
  split; [reflexivity|]. split; [|split; [|split]].
  - exists lat, lon. auto 10.
  - destruct (tag_text "name" text) as [c|] eqn:Ec; [|left; reflexivity].
    right. apply tag_text_sound in Ec. cbn [default].
    destruct Ec as (N & C & H). auto.
  - destruct (tag_text "cq" text) as [c|] eqn:Ec; [|left; reflexivity].
    right. apply tag_text_sound in Ec. cbn [default].
    destruct Ec as (N & C & H). auto.
  - destruct (tag_text "itu" text) as [c|] eqn:Ec; [|left; reflexivity].
    right. apply tag_text_sound in Ec. cbn [default].
    destruct Ec as (N & C & H). auto.
Qed.

Lemma lookup_result_reads_tags_witness :
  let text := "<dxcc><name>Germany</name><lat>51.2</lat><lng>n/a</lng></dxcc>" in
  lookup_result "DL1ABC" text =
    Some {| lookup_callsign := "DL1ABC"; lookup_lat := parseFloat "51.2";
            lookup_lon := NaN; lookup_country := "Germany";
            cqZone := ""; ituZone := "" |} /\
  exists lat lon,
    holds_tag "lat" lat text /\ holds_tag "lng" lon text /\
    forallb_string not_lt lat = true /\ forallb_string not_lt lon = true.
Proof.
  cbv zeta. split; [vm_compute; reflexivity|].
  destruct (lookup_result_reads_tags "DL1ABC"
              "<dxcc><name>Germany</name><lat>51.2</lat><lng>n/a</lng></dxcc>"
              {| lookup_callsign := "DL1ABC"; lookup_lat := parseFloat "51.2";
                 lookup_lon := NaN; lookup_country := "Germany";
                 cqZone := ""; ituZone := "" |})
    as (_ & (lat & lon & H1 & H2 & _ & _ & H3 & H4 & _) & _); [vm_compute; reflexivity|].
  exists lat, lon. auto.
Defined.

(* ===================================================================== *)
(** * The spots of one call *)
(* ===================================================================== *)

Lemma myspots_run {S} (call : string) (r : http_reply) (w : world S) :
  myspots call r w =
    (Ok (Reply 200 (spots_with_locations (reply_spots (toUpperCase call) r))),
     World (clock w + latency r) (trace w ++ [Fetch myspots_url]) (store w)).
Proof.
  unfold myspots, reply_spots. cbv zeta.
  generalize (my_spots (toUpperCase call)) as parse. intros parse.
  assert (Hnil : spots_with_locations [] = []) by reflexivity.
  run_js.
  destruct (result r) as [e | [|] [page | e]]; simpl; rewrite ?Hnil; reflexivity.
Qed.

Lemma starts_with_refl (s : string) : starts_with s s = true.
Proof.
  induction s as [|c s IH]; [reflexivity|].
  cbn [starts_with]. rewrite Ascii.eqb_refl. exact IH.
Qed.

Lemma includes_refl (s : string) : includes s s = true.
Proof. destruct s; cbn [includes]; rewrite starts_with_refl; reflexivity. Qed.

Lemma my_spot_involves callsign line s :
  my_spot callsign line = Some s ->
  involves callsign s = true /\
  MySpot.isMySpot s = includes callsign (MySpot.spotter s) /\
  MySpot.isSpottedMe s = includes callsign (MySpot.dxCall s) /\
  is_upper_cased (MySpot.spotter s) = true /\
  is_upper_cased (MySpot.dxCall s) = true.
Proof.
  unfold my_spot. cbv zeta.
  destruct (negb _); [discriminate|].
  destruct (_ <? 3)%nat; [discriminate|].
  destruct (_ || _ || _ || _) eqn:E; [|discriminate].
  intros [= <-]. unfold involves.
  cbn [MySpot.spotter MySpot.dxCall MySpot.isMySpot MySpot.isSpottedMe].
  rewrite !toUpperCase_upper_cased.
  split; [|auto].
  apply orb_prop in E as [E | E]; [|rewrite E; apply orb_true_r].
  apply orb_prop in E as [E | E]; [|rewrite E; reflexivity].
  apply orb_prop in E as [E | E]; apply String.eqb_eq in E; rewrite E, includes_refl;
    [reflexivity | apply orb_true_r].
Qed.

Lemma my_spots_involve callsign text s :
  In s (my_spots callsign text) ->
  involves callsign s = true /\
  MySpot.isMySpot s = includes callsign (MySpot.spotter s) /\
  MySpot.isSpottedMe s = includes callsign (MySpot.dxCall s) /\
  is_upper_cased (MySpot.spotter s) = true /\
  is_upper_cased (MySpot.dxCall s) = true.
Proof.
  unfold my_spots. intros H. apply in_drop_nulls, in_map_iff in H.
  destruct H as (line & Hl & _). eapply my_spot_involves. exact Hl.
Qed.

Lemma place_ok_position (e : Place) :
  place_ok e = true -> num_truthy (lat e) && num_truthy (lon e) = true.
Proof.
  unfold place_ok, degrees. intros H.
  apply andb_prop in H as [H _]. apply andb_prop in H as [H1 H2].
  apply andb_prop in H1 as [_ H1]. apply andb_prop in H2 as [_ H2].
  rewrite H1, H2. reflexivity.
Qed.

Lemma has_position_estimated (s : MySpot.t) :
  has_position (estimated_target s) = located (target s).
Proof.
  unfold has_position, estimated_target, located. cbn [target_lat target_lon].
  destruct (estimateLocationFromPrefix (target s)) as [e|] eqn:E; [|reflexivity].
  cbn [fmap option_fmap option_map]. apply place_ok_position.
  apply estimate_entry_ok in E. apply E.
Qed.

Lemma with_location_looked_up calls (s : MySpot.t) :
  with_location (lookup_locations calls) s =
    if existsb (String.eqb (target s)) calls then estimated_target s
    else {| my_spot_of := s; targetCall := target s; target_lat := None;
            target_lon := None; target_country := None |}.
Proof.
  unfold with_location, estimated_target. cbv zeta.
  rewrite lookup_locations_at. destruct (existsb _ calls); reflexivity.
Qed.

Lemma spots_with_locations_in (mySpots : list MySpot.t) (t : TargetSpot) :
  In t (spots_with_locations mySpots) ->
  exists s e,
    In s mySpots /\ t = estimated_target s /\
    estimateLocationFromPrefix (target s) = Some e /\
    existsb (String.eqb (target s)) (slice0 10 (unique_calls mySpots)) = true.
Proof.
  unfold spots_with_locations. cbv zeta. intros H.
  apply filter_In in H as [H Hp]. apply in_map_iff in H as (s & <- & Hs).
  rewrite with_location_looked_up in Hp |- *.
  destruct (existsb _ _) eqn:Ex; [|discriminate].
  rewrite has_position_estimated in Hp. unfold located in Hp.
  destruct (estimateLocationFromPrefix (target s)) as [e|] eqn:E; [|discriminate].
  exists s, e. auto.
Qed.

Lemma existsb_fold_set_add (xs : list string) : forall acc c,
  existsb (String.eqb c) (fold_left set_add xs acc) =
  existsb (String.eqb c) acc || existsb (String.eqb c) xs.
Proof.
  induction xs as [|x xs IH]; intros acc c; simpl.
  - rewrite orb_false_r. reflexivity.
  - rewrite IH, existsb_set_add, orb_assoc. reflexivity.
Qed.

Lemma length_fold_set_add (xs : list string) : forall acc,
  (List.length (fold_left set_add xs acc) <= List.length acc + List.length xs)%nat.
Proof.
  induction xs as [|x xs IH]; intros acc; simpl; [lia|].
  specialize (IH (set_add acc x)). pose proof (length_set_add acc x). lia.
Qed.

Lemma filter_map_pointwise {A B} (f : B -> bool) (g g' : A -> B) (h : A -> bool)
    (l : list A) :
  (forall a, In a l -> g a = g' a /\ f (g' a) = h a) ->
  List.filter f (List.map g l) = List.map g' (List.filter h l).
Proof.
  induction l as [|a l IH]; intros H; [reflexivity|].
  cbn [List.map List.filter].
  destruct (H a (or_introl eq_refl)) as [-> ->].
  rewrite IH by (intros b Hb; apply H; right; exact Hb).
  destruct (h a); reflexivity.
Qed.

Lemma spots_with_locations_few (mySpots : list MySpot.t) :
  (List.length mySpots <= 10)%nat ->
  spots_with_locations mySpots =
    List.map estimated_target (List.filter (fun s => located (target s)) mySpots).
Proof.
  intros Hlen. unfold spots_with_locations. cbv zeta.
  apply filter_map_pointwise. intros s Hs.
  split; [|apply has_position_estimated].
  rewrite with_location_looked_up.
  replace (existsb _ _) with true; [reflexivity|]. symmetry.
  unfold slice0. rewrite firstn_all2.
  - unfold unique_calls. rewrite existsb_fold_set_add. cbn [existsb orb].
    apply existsb_exists. exists (target s).
    split; [apply in_map; exact Hs | apply String.eqb_refl].
  - unfold unique_calls.
    pose proof (length_fold_set_add (List.map target mySpots) []) as H.
    rewrite length_map in H. simpl in H. lia.
Qed.

(** X18. [/api/myspots/:callsign] answers with status 200 whatever
    happens, after one request, and with the empty array when the request
    fails or the response is not [ok]. Every spot of the answer involves
    the call asked for, in upper case, as part of its spotter or of its DX
    call; its target is the DX call when the call is part of the spotter,
    and the spotter otherwise; and its place is the one that the prefix
    estimate gives to the target. With 10 spots or fewer for the call the
    answer is exactly the spots whose target the estimate locates, in the
    order of the feed: the test [s.lat && s.lon] drops none of them, no
    place of the table having a zero coordinate. *)
Theorem myspots_answers {S} (call : string) (r : http_reply) (w : world S) :
  let callsign := toUpperCase call in
  exists spots,
    myspots call r w =
      (Ok (Reply 200 spots),
       World (clock w + latency r) (trace w ++ [Fetch myspots_url]) (store w)) /\
    (readable r = false -> spots = []) /\
    Forall (fun t =>
              involves callsign (my_spot_of t) = true /\
              targetCall t = target (my_spot_of t) /\
              MySpot.isMySpot (my_spot_of t)
                = includes callsign (MySpot.spotter (my_spot_of t)) /\
              exists e,
                estimateLocationFromPrefix (targetCall t) = Some e /\
                target_lat t = Some (lat (entry e)) /\
                target_lon t = Some (lon (entry e)) /\
                target_country t = Some (country (entry e))) spots /\
    ((List.length (reply_spots callsign r) <= 10)%nat ->
     spots = List.map estimated_target
               (List.filter (fun s => located (target s)) (reply_spots callsign r))).
Proof.
  cbv zeta. rewrite myspots_run. eexists. split; [reflexivity|].
  split; [|split].
  - unfold readable, reply_spots.
    destruct (result r) as [e | [|] [page | e]]; try discriminate; reflexivity.
  - apply List.Forall_forall. intros t Ht.
    apply spots_with_locations_in in Ht.
    destruct Ht as (s & e & Hs & -> & He & _).
    assert (Hinv : involves (toUpperCase call) s = true /\
                   MySpot.isMySpot s = includes (toUpperCase call) (MySpot.spotter s)).
    { unfold reply_spots in Hs.
      destruct (result r) as [e' | [|] [page | e']]; try destruct Hs.
      apply my_spots_involve in Hs. split; apply Hs. }
    unfold estimated_target.
    cbn [my_spot_of targetCall target_lat target_lon target_country].
    rewrite He. destruct Hinv as [H1 H2].
    split; [exact H1|]. split; [reflexivity|]. split; [exact H2|].
    exists e. auto.
  - apply spots_with_locations_few.
Qed.

Lemma myspots_answers_witness :
  let text :=
    unlines [ "w1aw^14074.0^dl1abc^FT8^2149 2025-05-27^^^EU^20M^Germany^230";
              "DL1ABC^7010.0^XE1AA^CW^2150 2025-05-27^^^NA^40M^Mexico^50";
              "G4ABC^7010.0^JA1XYZ^CW^2151 2025-05-27^^^AS^40M^Japan^339" ] in
  let r := HttpReply 250 (Resolved true (Ok text)) in
  let spot := MySpot.Make "W1AW" "DL1ABC" "14.074" "FT8" "2149 z" false true in
  let sharp := String "223" "1^14074.0^DL1ABC^FT8^2149 2025-05-27" in
  let mine := MySpot.Make "SS1" "DL1ABC" "14.074" "FT8" "2149 z" true false in
  fst (myspots "dl1abc" r (World 0 [] tt)) =
    Ok (Reply 200 [ {| my_spot_of := spot; targetCall := "W1AW";
                       target_lat := Some (lit "39.8"); target_lon := Some (lit "-98.5");
                       target_country := Some "USA" |} ]) /\
  fst (myspots "ss1" (HttpReply 250 (Resolved true (Ok sharp))) (World 0 [] tt)) =
    Ok (Reply 200 [ {| my_spot_of := mine; targetCall := "DL1ABC";
                       target_lat := Some (lit "51.2"); target_lon := Some (lit "10.4");
                       target_country := Some "Germany" |} ]).
Proof.
  cbv zeta. split.
  - match goal with |- fst (myspots ?c ?r ?w) = _ =>
      destruct (myspots_answers c r w) as (spots & Hrun & _ & _ & Hfew) end.
    rewrite Hrun. cbn [fst]. rewrite Hfew; [vm_compute; reflexivity|].
    vm_compute. lia.
  - match goal with |- fst (myspots ?c ?r ?w) = _ =>
      destruct (myspots_answers c r w) as (spots & Hrun & _ & _ & Hfew) end.
    rewrite Hrun. cbn [fst]. rewrite Hfew; [vm_compute; reflexivity|].
    vm_compute. lia.
Defined.

(* ===================================================================== *)
(** * The calendar *)
(* ===================================================================== *)

(** [year_of_day] is the year of the standard: the year starts at or
    before the day, and no later year does. *)
Lemma DayFromYear_next y : DayFromYear (y + 1) = DayFromYear y + DaysInYear y.
Proof.
  unfold DayFromYear, DaysInYear.
  destruct (y mod 4 =? 0) eqn:E4; destruct (y mod 100 =? 0) eqn:E100;
  destruct (y mod 400 =? 0) eqn:E400; cbn [negb];
  rewrite ?Z.eqb_eq, ?Z.eqb_neq in *; Z.div_mod_to_equations; lia.
Qed.

Lemma DaysInYear_bounds y : 365 <= DaysInYear y <= 366.
Proof. unfold DaysInYear. repeat destruct (negb _); lia. Qed.

Lemma year_of_day_spec d :
  DayFromYear (year_of_day d) <= d < DayFromYear (year_of_day d + 1).
Proof.
  unfold year_of_day. cbv zeta.
  set (y := 1970 + d * 10000 / 3652425).
  assert (Hy : 3652425 * (y - 1970) <= d * 10000 < 3652425 * (y - 1970 + 1)).
  { unfold y. Z.div_mod_to_equations. lia. }
  clearbody y.
  destruct (d <? DayFromYear y) eqn:E1; [|destruct (DayFromYear (y + 1) <=? d) eqn:E2];
  rewrite ?Z.ltb_lt, ?Z.ltb_ge, ?Z.leb_le, ?Z.leb_gt in *;
  unfold DayFromYear in *; Z.div_mod_to_equations; lia.
Qed.

Lemma DayFromYear_mono y1 y2 : y1 < y2 -> DayFromYear y1 < DayFromYear y2.
Proof. unfold DayFromYear. intros H. Z.div_mod_to_equations. lia. Qed.

Lemma year_of_day_largest d y : DayFromYear y <= d -> y <= year_of_day d.
Proof.
  intros H. pose proof (year_of_day_spec d) as Hs.
  destruct (Z.le_gt_cases y (year_of_day d)) as [Hle | Hgt]; [exact Hle|].
  destruct (Z.eq_dec y (year_of_day d + 1)) as [-> | Hne]; [lia|].
  pose proof (DayFromYear_mono (year_of_day d + 1) y ltac:(lia)). lia.
Qed.

Lemma year_of_day_unique d y :
  DayFromYear y <= d < DayFromYear (y + 1) -> year_of_day d = y.
Proof.
  intros H. pose proof (year_of_day_spec d) as Hs.
  destruct (Z.lt_trichotomy (year_of_day d) y) as [Hlt | [Heq | Hgt]]; [|exact Heq|].
  - assert (year_of_day d + 1 <= y) by lia.
    destruct (Z.eq_dec (year_of_day d + 1) y) as [<-|Hne]; [lia|].
    pose proof (DayFromYear_mono (year_of_day d + 1) y ltac:(lia)). lia.
  - assert (y + 1 <= year_of_day d) by lia.
    destruct (Z.eq_dec (y + 1) (year_of_day d)) as [Heq|Hne];
      [rewrite <- Heq in Hs; lia|].
    pose proof (DayFromYear_mono (y + 1) (year_of_day d) ltac:(lia)). lia.
Qed.

Lemma MonthFromTime_range t : 0 <= MonthFromTime t <= 11.
Proof.
  unfold MonthFromTime. cbv zeta.
  repeat match goal with |- context [if ?c then _ else _] => destruct c end; lia.
Qed.

Lemma MakeDay_back t k :
  MakeDay (YearFromTime t) (MonthFromTime t) (DateFromTime t + k) = Day t + k.
Proof.
  pose proof (MonthFromTime_range t) as Hm.
  unfold MakeDay. cbv zeta.
  replace (MonthFromTime t / 12) with 0 by (Z.div_mod_to_equations; lia).
  replace (MonthFromTime t mod 12) with (MonthFromTime t) by (Z.div_mod_to_equations; lia).
  rewrite Z.add_0_r. unfold DateFromTime, DayWithinYear, InLeapYear. lia.
Qed.

Lemma day_in_month y m k :
  0 <= m <= 11 -> 0 <= k < DaysInMonth y m ->
  let t := (MakeDay y m 1 + k) * msPerDay in
  forall ms, 0 <= ms < msPerDay ->
  YearFromTime (t + ms) = y /\ MonthFromTime (t + ms) = m /\ DateFromTime (t + ms) = 1 + k /\
  Day (t + ms) = MakeDay y m 1 + k.
Proof.
  intros Hm Hk t ms Hms.
  assert (Hday : Day (t + ms) = MakeDay y m 1 + k).
  { unfold Day, t, msPerDay in *. Z.div_mod_to_equations. lia. }
  assert (Hmk : MakeDay y m 1 = DayFromYear y + month_start m (if DaysInYear y =? 366 then 1 else 0)).
  { unfold MakeDay. cbv zeta.
    replace (m / 12) with 0 by (Z.div_mod_to_equations; lia).
    replace (m mod 12) with m by (Z.div_mod_to_equations; lia).
    rewrite Z.add_0_r. lia. }
  assert (Hy : YearFromTime (t + ms) = y).
  { unfold YearFromTime. rewrite Hday, Hmk. apply year_of_day_unique.
    rewrite DayFromYear_next. unfold DaysInMonth in Hk. unfold DaysInYear in *.
    assert (m = 0 \/ m = 1 \/ m = 2 \/ m = 3 \/ m = 4 \/ m = 5 \/ m = 6 \/ m = 7 \/
            m = 8 \/ m = 9 \/ m = 10 \/ m = 11) as Hc by lia.
    repeat destruct Hc as [-> | Hc]; try subst m; cbn [month_start] in *;
      repeat destruct (negb _); cbn [Z.eqb Pos.eqb] in *; lia. }
  assert (Hdw : DayWithinYear (t + ms) = month_start m (if DaysInYear y =? 366 then 1 else 0) + k).
  { unfold DayWithinYear. rewrite Hy, Hday, Hmk. lia. }
  assert (Hmo : MonthFromTime (t + ms) = m).
  { unfold MonthFromTime. cbv zeta. unfold InLeapYear. rewrite Hy, Hdw.
    unfold DaysInMonth in Hk.
    assert (m = 0 \/ m = 1 \/ m = 2 \/ m = 3 \/ m = 4 \/ m = 5 \/ m = 6 \/ m = 7 \/
            m = 8 \/ m = 9 \/ m = 10 \/ m = 11) as Hc by lia.
    destruct (DaysInYear y =? 366);
    repeat destruct Hc as [-> | Hc]; try subst m; cbn [month_start] in *;
      repeat match goal with |- context [if ?a <? ?b then _ else _] =>
        destruct (Z.ltb_spec a b); try lia end. }
  split; [exact Hy|]. split; [exact Hmo|]. split; [|exact Hday].
  unfold DateFromTime. rewrite Hmo, Hdw. unfold InLeapYear. rewrite Hy. lia.
Qed.

Lemma DayFromYear_bound y : year_ok y -> -700000 <= DayFromYear y /\ DayFromYear (y + 1) <= 99800000.
Proof. unfold year_ok, DayFromYear. intros H. Z.div_mod_to_equations. lia. Qed.

Lemma month_start_bounds m l : 0 <= m <= 11 -> 0 <= l <= 1 -> 0 <= month_start m l <= 335.
Proof.
  intros Hm Hl.
  assert (m = 0 \/ m = 1 \/ m = 2 \/ m = 3 \/ m = 4 \/ m = 5 \/ m = 6 \/ m = 7 \/
          m = 8 \/ m = 9 \/ m = 10 \/ m = 11) as Hc by lia.
  repeat destruct Hc as [-> | Hc]; try subst m; cbn [month_start]; lia.
Qed.

Lemma DaysInMonth_bounds y m : 28 <= DaysInMonth y m <= 31.
Proof.
  unfold DaysInMonth. cbv zeta. destruct (DaysInYear y =? 366);
  destruct m as [|p|p]; try lia;
  do 4 (try destruct p as [p|p|]; try lia).
Qed.

Lemma MakeDay_first y m :
  0 <= m <= 11 ->
  MakeDay y m 1 = DayFromYear y + month_start m (if DaysInYear y =? 366 then 1 else 0).
Proof.
  intros Hm. unfold MakeDay. cbv zeta.
  replace (m / 12) with 0 by (Z.div_mod_to_equations; lia).
  replace (m mod 12) with m by (Z.div_mod_to_equations; lia).
  rewrite Z.add_0_r. lia.
Qed.

Lemma MakeDay_range y m j :
  year_ok y -> 0 <= m <= 11 -> -40 <= j <= 40 ->
  Z.abs ((MakeDay y m 1 + j) * msPerDay) <= 8640000000000000.
Proof.
  intros Hy Hm Hj. rewrite MakeDay_first by exact Hm.
  pose proof (DayFromYear_bound y Hy) as [H1 H2].
  rewrite DayFromYear_next in H2. pose proof (DaysInYear_bounds y).
  pose proof (month_start_bounds m (if DaysInYear y =? 366 then 1 else 0) Hm
                ltac:(destruct (_ =? _); lia)).
  unfold msPerDay. lia.
Qed.

Lemma Date_UTC_first y m :
  year_ok y -> 0 <= m <= 11 -> Date_UTC y m 1 0 0 0 = month_day y m 0.
Proof.
  intros Hy Hm. unfold Date_UTC, month_day, MakeFullYear, MakeDate, MakeTime, TimeClip.
  replace ((0 <=? y) && (y <=? 99)) with false
    by (symmetry; apply andb_false_iff; right; apply Z.leb_gt; unfold year_ok in Hy; lia).
  pose proof (MakeDay_range y m 0 Hy Hm ltac:(lia)) as Hr.
  replace (MakeDay y m 1 * msPerDay + (0 * msPerHour + 0 * msPerMinute + 0 * msPerSecond + 0))
    with ((MakeDay y m 1 + 0) * msPerDay) by lia.
  apply Z.leb_le in Hr. rewrite Hr. reflexivity.
Qed.

Lemma month_day_facts y m j :
  0 <= m <= 11 -> 0 <= j < DaysInMonth y m ->
  getUTCMonth (month_day y m j) = Some m /\
  getUTCDate (month_day y m j) = Some (1 + j) /\
  getUTCDay (month_day y m j) = Some ((MakeDay y m 1 + j + 4) mod 7).
Proof.
  intros Hm Hj. unfold month_day, getUTCMonth, getUTCDate, getUTCDay. cbn [fmap option_fmap option_map].
  destruct (day_in_month y m j Hm Hj 0 ltac:(unfold msPerDay; lia)) as (_ & H2 & H3 & H4).
  rewrite Z.add_0_r in H2, H3, H4. unfold WeekDay. rewrite H2, H3, H4. auto.
Qed.

Lemma month_day_step y m j k :
  year_ok y -> 0 <= m <= 11 -> 0 <= j < DaysInMonth y m -> -1 <= k <= 1 ->
  setUTCDate (month_day y m j) (plus_num (getUTCDate (month_day y m j)) k)
    = month_day y m (j + k).
Proof.
  intros Hy Hm Hj Hk. unfold month_day, getUTCDate, plus_num, setUTCDate.
  cbn [fmap option_fmap option_map].
  rewrite MakeDay_back.
  destruct (day_in_month y m j Hm Hj 0 ltac:(unfold msPerDay; lia)) as (_ & _ & _ & H4).
  rewrite Z.add_0_r in H4. rewrite H4.
  unfold MakeDate, TimeWithinDay.
  replace (((MakeDay y m 1 + j) * msPerDay) mod msPerDay) with 0
    by (unfold msPerDay; Z.div_mod_to_equations; lia).
  rewrite Z.add_0_r. unfold TimeClip.
  pose proof (DaysInMonth_bounds y m).
  pose proof (MakeDay_range y m (j + k) Hy Hm ltac:(lia)) as Hr.
  replace (MakeDay y m 1 + j + k) with (MakeDay y m 1 + (j + k)) by lia.
  apply Z.leb_le in Hr. rewrite Hr. reflexivity.
Qed.

Lemma nth_weekend_loop_run y m n :
  year_ok y -> 0 <= m <= 11 -> 1 <= n <= 4 ->
  forall fuel j,
    0 <= j <= first_saturday y m + 7 * (n - 1) ->
    first_saturday y m + 7 * (n - 1) - j < Z.of_nat fuel ->
    nth_weekend_loop fuel m n (month_day y m j) ((j + 6 - first_saturday y m) / 7)
      = Some (month_day y m (first_saturday y m + 7 * (n - 1))).
Proof.
  intros Hy Hm Hn.
  assert (Hk : 0 <= first_saturday y m <= 6)
    by (unfold first_saturday; Z.div_mod_to_equations; lia).
  pose proof (DaysInMonth_bounds y m) as Hlen.
  induction fuel as [|fuel IH]; intros j Hj Hfuel; [lia|].
  cbn [nth_weekend_loop].
  destruct (month_day_facts y m j Hm ltac:(lia)) as (-> & Hd & ->).
  cbn [is_num]. rewrite Z.eqb_refl.
  rewrite (month_day_step y m j 1 Hy Hm ltac:(lia) ltac:(lia)).
  assert (Hsat : (MakeDay y m 1 + j + 4) mod 7 = 6 <-> (j - first_saturday y m) mod 7 = 0).
  { unfold first_saturday, WeekDay, Day.
    replace (MakeDay y m 1 * msPerDay / msPerDay) with (MakeDay y m 1)
      by (unfold msPerDay; Z.div_mod_to_equations; lia).
    Z.div_mod_to_equations. lia. }
  destruct (Z.eqb_spec ((MakeDay y m 1 + j + 4) mod 7) 6) as [E|E].
  - apply Hsat in E. cbv zeta.
    destruct (Z.eqb_spec ((j + 6 - first_saturday y m) / 7 + 1) n) as [En|En].
    + f_equal. f_equal. Z.div_mod_to_equations. lia.
    + replace ((j + 6 - first_saturday y m) / 7 + 1)
        with ((j + 1 + 6 - first_saturday y m) / 7) by (Z.div_mod_to_equations; lia).
      apply IH; Z.div_mod_to_equations; lia.
  - assert (E' : (j - first_saturday y m) mod 7 <> 0) by (intros H; apply E, Hsat, H).
    replace ((j + 6 - first_saturday y m) / 7)
      with ((j + 1 + 6 - first_saturday y m) / 7) by (Z.div_mod_to_equations; lia).
    apply IH; Z.div_mod_to_equations; lia.
Qed.

(** X19. For a year from 100 to 275000, a month from 0 to 11 and [n]
    from 1 to 4, [getNthWeekendOfMonth] returns (its loop ends within 32
    rounds) the midnight, UTC, that starts the [n]-th Saturday of the
    month: a Saturday of that year and month whose date is above
    [7 * (n - 1)] and at most [7 * n]. *)
Theorem nth_weekend_is_nth_saturday (year month n : Z) :
  year_ok year -> 0 <= month <= 11 -> 1 <= n <= 4 ->
  exists t,
    getNthWeekendOfMonth year month n = Some (Some t) /\
    WeekDay t = 6 /\ TimeWithinDay t = 0 /\
    YearFromTime t = year /\ MonthFromTime t = month /\
    7 * (n - 1) < DateFromTime t <= 7 * n.
Proof.
  intros Hy Hm Hn.
  assert (Hk : 0 <= first_saturday year month <= 6)
    by (unfold first_saturday; Z.div_mod_to_equations; lia).
  pose proof (DaysInMonth_bounds year month) as Hlen.
  exists ((MakeDay year month 1 + (first_saturday year month + 7 * (n - 1))) * msPerDay).
  split.
  - unfold getNthWeekendOfMonth. rewrite Date_UTC_first by assumption.
    pose proof (nth_weekend_loop_run year month n Hy Hm Hn 32 0 ltac:(lia) ltac:(lia)) as H.
    replace ((0 + 6 - first_saturday year month) / 7) with 0 in H
      by (Z.div_mod_to_equations; lia).
    exact H.
  - destruct (day_in_month year month (first_saturday year month + 7 * (n - 1)) Hm
                ltac:(lia) 0 ltac:(unfold msPerDay; lia)) as (H1 & H2 & H3 & H4).
    rewrite Z.add_0_r in H1, H2, H3, H4.
    split; [|split; [|split; [exact H1 | split; [exact H2 | rewrite H3; lia]]]].
    + unfold WeekDay. rewrite H4. unfold first_saturday, WeekDay, Day.
      replace (MakeDay year month 1 * msPerDay / msPerDay) with (MakeDay year month 1)
        by (unfold msPerDay; Z.div_mod_to_equations; lia).
      Z.div_mod_to_equations. lia.
    + unfold TimeWithinDay, msPerDay. Z.div_mod_to_equations. lia.
Qed.

Lemma MakeDay_last y m :
  0 <= m <= 11 -> MakeDay y (m + 1) 0 = MakeDay y m 1 + DaysInMonth y m - 1.
Proof.
  intros Hm. rewrite MakeDay_first by exact Hm. unfold MakeDay, DaysInMonth. cbv zeta.
  pose proof (DaysInYear_bounds y) as Hd.
  destruct (Z.eq_dec m 11) as [-> | Hne].
  - change ((11 + 1) / 12) with 1. change ((11 + 1) mod 12) with 0.
    rewrite DayFromYear_next. cbn [month_start].
    destruct (Z.eqb_spec (DaysInYear y) 366), (Z.eqb_spec (DaysInYear (y + 1)) 366); lia.
  - rewrite (Z.div_small (m + 1) 12), (Z.mod_small (m + 1) 12), !Z.add_0_r by lia.
    assert (m = 0 \/ m = 1 \/ m = 2 \/ m = 3 \/ m = 4 \/ m = 5 \/ m = 6 \/ m = 7 \/
            m = 8 \/ m = 9 \/ m = 10) as Hc by lia.
    repeat destruct Hc as [-> | Hc]; try subst m;
      match goal with |- context [month_start (?a + 1) _] =>
        let v := eval vm_compute in (a + 1) in change (a + 1) with v end;
      cbn [month_start];
      destruct (Z.eqb_spec (DaysInYear y) 366); lia.
Qed.

Lemma Date_UTC_last y m :
  year_ok y -> 0 <= m <= 11 ->
  Date_UTC y (m + 1) 0 0 0 0 = month_day y m (DaysInMonth y m - 1).
Proof.
  intros Hy Hm. unfold Date_UTC, month_day, MakeFullYear, MakeDate, MakeTime, TimeClip.
  replace ((0 <=? y) && (y <=? 99)) with false
    by (symmetry; apply andb_false_iff; right; apply Z.leb_gt; unfold year_ok in Hy; lia).
  rewrite MakeDay_last by exact Hm.
  pose proof (DaysInMonth_bounds y m).
  pose proof (MakeDay_range y m (DaysInMonth y m - 1) Hy Hm ltac:(lia)) as Hr.
  replace ((MakeDay y m 1 + DaysInMonth y m - 1) * msPerDay +
           (0 * msPerHour + 0 * msPerMinute + 0 * msPerSecond + 0))
    with ((MakeDay y m 1 + (DaysInMonth y m - 1)) * msPerDay) by lia.
  apply Z.leb_le in Hr. rewrite Hr. reflexivity.
Qed.

Lemma last_weekend_loop_run y m :
  year_ok y -> 0 <= m <= 11 ->
  forall fuel j,
    0 <= j <= back_to_saturday y m ->
    back_to_saturday y m - j < Z.of_nat fuel ->
    last_weekend_loop fuel (month_day y m (DaysInMonth y m - 1 - j))
      = Some (month_day y m (DaysInMonth y m - 1 - back_to_saturday y m)).
Proof.
  intros Hy Hm.
  assert (Hb : 0 <= back_to_saturday y m <= 6)
    by (unfold back_to_saturday; Z.div_mod_to_equations; lia).
  pose proof (DaysInMonth_bounds y m) as Hlen.
  induction fuel as [|fuel IH]; intros j Hj Hfuel; [lia|].
  cbn [last_weekend_loop].
  destruct (month_day_facts y m (DaysInMonth y m - 1 - j) Hm ltac:(lia)) as (_ & _ & ->).
  cbn [is_num].
  rewrite (month_day_step y m (DaysInMonth y m - 1 - j) (-1) Hy Hm ltac:(lia) ltac:(lia)).
  assert (Hsat : (MakeDay y m 1 + (DaysInMonth y m - 1 - j) + 4) mod 7 = 6 <->
                 j = back_to_saturday y m).
  { unfold back_to_saturday, WeekDay, Day in *.
    replace ((MakeDay y m 1 + DaysInMonth y m - 1) * msPerDay / msPerDay)
      with (MakeDay y m 1 + DaysInMonth y m - 1) in *
      by (unfold msPerDay; Z.div_mod_to_equations; lia).
    Z.div_mod_to_equations. lia. }
  destruct (Z.eqb_spec ((MakeDay y m 1 + (DaysInMonth y m - 1 - j) + 4) mod 7) 6) as [E|E].
  - apply Hsat in E. subst j. reflexivity.
  - cbn [negb].
    replace (DaysInMonth y m - 1 - j + -1) with (DaysInMonth y m - 1 - (j + 1)) by lia.
    apply IH; [|lia].
    assert (j <> back_to_saturday y m) by (intros H; apply E, Hsat, H). lia.
Qed.

(** X20. For a year from 100 to 275000 and a month from 0 to 11,
    [getLastWeekendOfMonth] returns (its loop ends within 7 rounds) the
    midnight, UTC, that starts the last Saturday of the month: a Saturday
    of that year and month, among the last seven days of the month. *)
Theorem last_weekend_is_last_saturday (year month : Z) :
  year_ok year -> 0 <= month <= 11 ->
  exists t,
    getLastWeekendOfMonth year month = Some (Some t) /\
    WeekDay t = 6 /\ TimeWithinDay t = 0 /\
    YearFromTime t = year /\ MonthFromTime t = month /\
    DaysInMonth year month - 7 < DateFromTime t <= DaysInMonth year month.
Proof.
  intros Hy Hm.
  assert (Hb : 0 <= back_to_saturday year month <= 6)
    by (unfold back_to_saturday; Z.div_mod_to_equations; lia).
  pose proof (DaysInMonth_bounds year month) as Hlen.
  exists ((MakeDay year month 1 +
           (DaysInMonth year month - 1 - back_to_saturday year month)) * msPerDay).
  split.
  - unfold getLastWeekendOfMonth. rewrite Date_UTC_last by assumption.
    pose proof (last_weekend_loop_run year month Hy Hm 7 0 ltac:(lia) ltac:(lia)) as H.
    rewrite Z.sub_0_r in H. exact H.
  - destruct (day_in_month year month
                (DaysInMonth year month - 1 - back_to_saturday year month) Hm
                ltac:(lia) 0 ltac:(unfold msPerDay; lia)) as (H1 & H2 & H3 & H4).
    rewrite Z.add_0_r in H1, H2, H3, H4.
    split; [|split; [|split; [exact H1 | split; [exact H2 | rewrite H3; lia]]]].
    + unfold WeekDay. rewrite H4. unfold back_to_saturday, WeekDay, Day.
      replace ((MakeDay year month 1 + DaysInMonth year month - 1) * msPerDay / msPerDay)
        with (MakeDay year month 1 + DaysInMonth year month - 1)
        by (unfold msPerDay; Z.div_mod_to_equations; lia).
      Z.div_mod_to_equations. lia.
    + unfold TimeWithinDay, msPerDay. Z.div_mod_to_equations. lia.
Qed.

Lemma weekly_occurrence_run (now : Z) (c : Weekly.t) :
  now_ok now -> weekly_ok c ->
  exists t e,
    weekly_occurrence now c =
      Ok (Contest.Make (Weekly.name c) t e (Weekly.mode c)
                       (if now =? t then "active" else "upcoming")) /\
    now <= t < now + 7 * msPerDay /\
    WeekDay t = Weekly.dayOfWeek c /\
    TimeWithinDay t = Weekly.hour c * msPerHour + num_or_zero (Weekly.minute c) * msPerMinute /\
    t <= e.
Proof.
  intros Hnow (Hd & Hh & Hm & Hhalves & Hden).
  unfold weekly_occurrence. cbv zeta.
  set (tod := MakeTime (Weekly.hour c) (num_or_zero (Weekly.minute c)) 0 0).
  assert (Htod : 0 <= tod < msPerDay).
  { unfold tod, MakeTime, msPerHour, msPerMinute, msPerSecond, msPerDay. lia. }
  assert (Hwd : 0 <= WeekDay now <= 6) by (unfold WeekDay; Z.div_mod_to_equations; lia).
  (* the number of days to wait *)
  set (du0 := if Weekly.dayOfWeek c - WeekDay now <? 0
              then Weekly.dayOfWeek c - WeekDay now + 7
              else Weekly.dayOfWeek c - WeekDay now).
  assert (Hdu0 : 0 <= du0 <= 6 /\ (WeekDay now + du0) mod 7 = Weekly.dayOfWeek c).
  { unfold du0. destruct (Z.ltb_spec (Weekly.dayOfWeek c - WeekDay now) 0);
      Z.div_mod_to_equations; lia. }
  assert (Htoday : setUTCHours (Some now) (Weekly.hour c)
                     (num_or_zero (Weekly.minute c)) 0 0
                   = Some (Day now * msPerDay + tod)).
  { unfold setUTCHours, MakeDate, TimeClip. fold tod.
    replace (Z.abs (Day now * msPerDay + tod) <=? 8640000000000000) with true; [reflexivity|].
    symmetry. apply Z.leb_le. unfold now_ok, Day, msPerDay in *.
    Z.div_mod_to_equations. lia. }
  rewrite Htoday. cbn [Date_gt].
  set (du := if du0 =? 0
             then if Day now * msPerDay + tod <? now then 7 else du0
             else du0).
  assert (Hdu : 0 <= du <= 7 /\ (WeekDay now + du) mod 7 = Weekly.dayOfWeek c /\
                now <= (Day now + du) * msPerDay + tod < now + 7 * msPerDay).
  { unfold du. destruct Hdu0 as [Hr Hw].
    assert (Day now * msPerDay <= now < Day now * msPerDay + msPerDay)
      by (unfold Day, msPerDay; Z.div_mod_to_equations; lia).
    destruct (Z.eqb_spec du0 0) as [E|E].
    - destruct (Z.ltb_spec (Day now * msPerDay + tod) now).
      + split; [lia|]. split; [rewrite E in Hw; Z.div_mod_to_equations; lia|].
        unfold msPerDay in *. lia.
      + split; [lia|]. split; [exact Hw|]. unfold msPerDay in *. lia.
    - split; [lia|]. split; [exact Hw|]. unfold msPerDay in *. lia. }
  clearbody du. clear du0 Hdu0. destruct Hdu as (Hdur' & Hwk & Hrange).
  (* the date of the occurrence *)
  assert (Hset : setUTCDate (Some now) (Some (DateFromTime now + du))
                 = Some ((Day now + du) * msPerDay + TimeWithinDay now)).
  { unfold setUTCDate. rewrite MakeDay_back. unfold MakeDate, TimeClip.
    replace (Z.abs _ <=? 8640000000000000) with true; [reflexivity|].
    symmetry. apply Z.leb_le. unfold now_ok, Day, TimeWithinDay, msPerDay in *.
    Z.div_mod_to_equations. lia. }
  rewrite Hset.
  assert (Hnext : setUTCHours (Some ((Day now + du) * msPerDay + TimeWithinDay now))
                    (Weekly.hour c) (num_or_zero (Weekly.minute c)) 0 0
                  = Some ((Day now + du) * msPerDay + tod)).
  { unfold setUTCHours, MakeDate, TimeClip. fold tod.
    replace (Day ((Day now + du) * msPerDay + TimeWithinDay now)) with (Day now + du)
      by (unfold Day, TimeWithinDay, msPerDay; Z.div_mod_to_equations; lia).
    replace (Z.abs _ <=? 8640000000000000) with true; [reflexivity|].
    symmetry. apply Z.leb_le. unfold now_ok, Day, msPerDay in *.
    Z.div_mod_to_equations. lia. }
  rewrite Hnext. set (t := (Day now + du) * msPerDay + tod) in *.
  unfold plus_hours. cbn [fmap option_fmap option_map].
  destruct (Weekly.duration c) as [halves den]. cbn [Qnum Qden] in Hhalves, Hden.
  assert (Hend : exists e, Date_of_number (inject_Z t + (halves # den) * 3600000) = Some e /\
                           t <= e <= t + 96 * msPerHour).
  { exists (t + halves * (3600000 / Z.pos den)).
    unfold Date_of_number. cbn [Qnum Qden Qplus Qmult inject_Z].
    replace (Z.quot _ _) with (t + halves * (3600000 / Z.pos den)).
    - unfold TimeClip.
      assert (Hq : 0 <= halves * (3600000 / Z.pos den) <= 96 * msPerHour).
      { destruct Hden as [-> | ->].
        - change (3600000 / 1) with 3600000. unfold msPerHour. lia.
        - change (3600000 / 2) with 1800000. unfold msPerHour. lia. }
      split; [|lia].
      replace (Z.abs _ <=? 8640000000000000) with true; [reflexivity|].
      symmetry. apply Z.leb_le. unfold now_ok, msPerDay, msPerHour in *. lia.
    - destruct Hden as [-> | ->].
      + change (3600000 / 1) with 3600000. change (Z.pos (1 * (1 * 1))) with 1.
        change (Z.pos (1 * 1)) with 1. apply Z.quot_unique_exact; lia.
      + change (3600000 / 2) with 1800000. change (Z.pos (1 * (2 * 1))) with 2.
        change (Z.pos (2 * 1)) with 2. apply Z.quot_unique_exact; lia. }
  destruct Hend as (e & Hend & He).
  rewrite Hend. cbn [toISOString Date_ge Date_le].
  exists t, e. split.
  - f_equal. f_equal.
    destruct (Z.leb_spec t now), (Z.leb_spec now e),
             (Z.eqb_spec now t); cbn [andb]; try reflexivity; lia.
  - split; [exact Hrange|]. split.
    + unfold WeekDay in *. replace (Day t) with (Day now + du)
        by (unfold t, Day, msPerDay in *; Z.div_mod_to_equations; lia).
      Z.div_mod_to_equations. lia.
    + split; [|lia]. unfold TimeWithinDay, t. fold tod.
      unfold tod, MakeTime, msPerSecond in *. unfold msPerDay in *.
      Z.div_mod_to_equations. lia.
Qed.

Lemma weeklyContests_ok : Forall weekly_ok weeklyContests.
Proof.
  unfold weeklyContests, weekly_ok.
  repeat (constructor; [cbn; repeat apply conj; try lia; auto|]).
  constructor.
Qed.

(** X21. The next occurrence that [calculateUpcomingContests] lists for
    a weekly contest of its table, at any time [now] that is a time value
    with twelve days to spare: [toISOString] does not throw; the start is
    on the weekday and at the hour and minute of the entry, not before
    [now] and less than seven days after it; and the status is [active]
    only if the contest starts at this very millisecond. A weekly contest
    that started earlier today is listed with its start a week from
    today, as [upcoming], also while it is in progress. *)
Theorem weekly_contest_never_in_progress (now : Z) (contest : Weekly.t) :
  now_ok now ->
  In contest weeklyContests ->
  exists start end_,
    weekly_occurrence now contest =
      Ok (Contest.Make (Weekly.name contest) start end_ (Weekly.mode contest)
            (if now =? start then "active" else "upcoming")) /\
    now <= start < now + 7 * msPerDay /\
    WeekDay start = Weekly.dayOfWeek contest /\
    TimeWithinDay start =
      Weekly.hour contest * msPerHour + num_or_zero (Weekly.minute contest) * msPerMinute /\
    start <= end_.
Proof.
  intros Hnow Hin. apply weekly_occurrence_run; [exact Hnow|].
  pose proof weeklyContests_ok as Hok. rewrite List.Forall_forall in Hok.
  apply Hok, Hin.
Qed.

Lemma nth_weekend_is_nth_saturday_witness :
  getNthWeekendOfMonth 2026 1 3 = Some (Some 1771632000000) /\
  DateFromTime 1771632000000 = 21.
Proof.
  destruct (nth_weekend_is_nth_saturday 2026 1 3) as (t & Hrun & _ & _ & _ & _ & Hd);
    [unfold year_ok; lia | lia | lia |].
  vm_compute in Hrun. injection Hrun as <-.
  split; [reflexivity|]. vm_compute. reflexivity.
Defined.

Lemma last_weekend_is_last_saturday_witness :
  getLastWeekendOfMonth 2025 10 = Some (Some 1764374400000) /\
  WeekDay 1764374400000 = 6.
Proof.
  destruct (last_weekend_is_last_saturday 2025 10) as (t & Hrun & Hw & _);
    [unfold year_ok; lia | lia |].
  vm_compute in Hrun. injection Hrun as <-.
  split; [reflexivity | exact Hw].
Defined.

Lemma weekly_contest_never_in_progress_witness :
  let cwt := Weekly.Make "CWT 1300z" 3 13 None 1 "CW" in
  weekly_occurrence 1793799000000 cwt =
    Ok (Contest.Make "CWT 1300z" 1794402000000 1794405600000 "CW" "upcoming").
Proof.
  cbv zeta.
  destruct (weekly_contest_never_in_progress 1793799000000
              (Weekly.Make "CWT 1300z" 3 13 None 1 "CW"))
    as (start & end_ & Hrun & _);
    [unfold now_ok; vm_compute; discriminate | left; reflexivity |].
  rewrite Hrun. vm_compute in Hrun. injection Hrun as <- <- _. reflexivity.
Defined.

(* ===================================================================== *)
(** * The plain proxies *)
(* ===================================================================== *)

Lemma proxy_json_run {S} (json : Type) (json_parse : string -> outcome json)
    (url failure : string) (r : http_reply) (w : world S) :
  proxy_json json json_parse url failure r w =
    (Ok (match reply_json json json_parse r with
         | Some data => Reply 200 (Relayed data)
         | None => Reply 500 (ProxyError failure)
         end),
     World (clock w + latency r) (trace w ++ [Fetch url]) (store w)).
Proof.
  unfold proxy_json, response_json, reply_json. run_js.
  destruct (result r) as [e | ok [page | e]]; simpl; try reflexivity.
  destruct (json_parse page); reflexivity.
Qed.

(** X22. The plain proxies ([/api/noaa/flux], [/api/noaa/kindex],
    [/api/noaa/sunspots], [/api/noaa/xray], [/api/pota/spots],
    [/api/sota/spots]) never throw and make one request. They do not look
    at the status of the response of the upstream: whenever its body is
    JSON, also when the response is not [ok], the data is relayed with
    status 200. The answer is 500, with the error object of the route,
    exactly when the request is rejected or the body cannot be read or
    parsed. [/api/hamqsl/conditions] relays every body that can be read. *)
Theorem proxies_relay_whatever_the_status {S} (json : Type)
    (json_parse : string -> outcome json) (url failure : string)
    (r : http_reply) (w : world S) :
  (exists answer,
     proxy_json json json_parse url failure r w =
       (Ok answer, World (clock w + latency r) (trace w ++ [Fetch url]) (store w)) /\
     (forall ok text data,
        result r = Resolved ok (Ok text) -> json_parse text = Ok data ->
        answer = Reply 200 (Relayed data)) /\
     (status answer = 500 <-> reply_json json json_parse r = None) /\
     (status answer = 500 -> answer = Reply 500 (ProxyError failure))) /\
  (forall ok text,
     result r = Resolved ok (Ok text) ->
     fst (hamqsl_conditions r w) = Ok (Reply 200 (Relayed text))).
Proof.
  split.
  - rewrite proxy_json_run. eexists. split; [reflexivity|].
    split; [|split].
    + intros ok page data Hr Hp. unfold reply_json. rewrite Hr, Hp. reflexivity.
    + destruct (reply_json json json_parse r); cbn [status];
        split; try discriminate; reflexivity.
    + destruct (reply_json json json_parse r); cbn [status];
        [discriminate | reflexivity].
  - intros ok page Hr. unfold hamqsl_conditions. run_js. rewrite Hr. reflexivity.
Qed.

Lemma proxies_relay_whatever_the_status_witness :
  let r := HttpReply 300 (Resolved false (Ok "{ error: 503 }")) in
  noaa_flux string (fun text => Ok text) r (World 0 [] tt) =
    (Ok (Reply 200 (Relayed "{ error: 503 }")),
     World 300 [Fetch "https://services.swpc.noaa.gov/json/f107_cm_flux.json"] tt).
Proof.
  cbv zeta. unfold noaa_flux.
  match goal with |- proxy_json ?j ?p ?u ?f ?r ?w = _ =>
    destruct (proxies_relay_whatever_the_status j p u f r w)
      as [(answer & Hrun & Hok & _) _] end.
  rewrite Hrun. rewrite (Hok false "{ error: 503 }" "{ error: 503 }" eq_refl eq_refl).
  reflexivity.
Defined.

(* ===================================================================== *)
(** * The satellites of the TLE route *)
(* ===================================================================== *)

Lemma store_lines_from (noradId : option Z) (line1 line2 : string)
    (table : list (string * Satellite)) :
  starts_with "1 " line1 = true ->
  starts_with "2 " line2 = true ->
  noradId = parseInt (js_substring 2 7 line1) ->
  (forall x, In x table -> In x HAM_SATELLITES) ->
  forall tleData,
    tle_data_ok tleData ->
    tle_data_ok
      (fold_left
         (fun data (entry : string * Satellite) =>
            if is_num noradId (norad (snd entry))
            then <[fst entry := {| satellite := snd entry; tle1 := line1;
                                   tle2 := line2 |}]> data
            else data)
         table tleData).
Proof.
  intros H1 H2 Hn. induction table as [|[key sat] table IH]; intros Hsub tleData Hok.
  - exact Hok.
  - cbn [fold_left fst snd]. apply IH; [intros x Hx; apply Hsub; right; exact Hx|].
    destruct (is_num noradId (norad sat)) eqn:E; [|exact Hok].
    intros k e Hk. apply lookup_insert_Some in Hk as [[<- <-] | [_ Hk]]; [|apply Hok, Hk].
    split; [apply Hsub; left; reflexivity|]. left.
    unfold checked_lines. cbn [tle1 tle2 satellite]. split; [exact H1|]. split; [exact H2|].
    rewrite <- Hn. unfold is_num in E. destruct noradId as [v|]; [|discriminate].
    apply Z.eqb_eq in E. now subst.
Qed.

Lemma parse_triples_ok (n : nat) : forall lines tleData,
  (List.length lines <= n)%nat ->
  tle_data_ok tleData -> tle_data_ok (parse_triples lines tleData).
Proof.
  induction n as [|n IH]; intros lines tleData Hlen Hok.
  - destruct lines; [exact Hok | simpl in Hlen; lia].
  - destruct lines as [|name [|l1 [|l2 rest]]]; try exact Hok.
    cbn [parse_triples]. cbv zeta.
    apply IH; [simpl in Hlen; lia|].
    destruct (nonempty (trim l1) && nonempty (trim l2) &&
              starts_with "1 " (trim l1) && starts_with "2 " (trim l2)) eqn:E; [|exact Hok].
    apply andb_prop in E as [E E2]. apply andb_prop in E as [_ E1].
    unfold store_lines. apply store_lines_from; auto.
Qed.

Lemma parse_amateur_ok (text : string) (tleData : gmap string TleEntry) :
  tle_data_ok tleData -> tle_data_ok (parse_amateur text tleData).
Proof. intros Hok. unfold parse_amateur. eapply parse_triples_ok; [reflexivity | exact Hok]. Qed.

Lemma parse_iss_text_ok (issText : string) (tleData : gmap string TleEntry) :
  tle_data_ok tleData -> tle_data_ok (parse_iss_text issText tleData).
Proof.
  intros Hok. unfold parse_iss_text. cbv zeta.
  destruct (3 <=? _)%nat; [|exact Hok].
  intros k e Hk. apply lookup_insert_Some in Hk as [[<- <-] | [_ Hk]]; [|apply Hok, Hk].
  split; [left; reflexivity | right; reflexivity].
Qed.

Lemma tle_data_ok_empty : tle_data_ok ∅.
Proof. intros k e Hk. rewrite lookup_empty in Hk. discriminate. Qed.

Lemma tle_with_iss_ok (iss : http_reply) (tleData : gmap string TleEntry) :
  tle_data_ok tleData ->
  tle_data_ok (tle_with_iss (gmap string TleEntry) has_iss_entry parse_iss_text
                 iss tleData).
Proof.
  intros Hd. unfold tle_with_iss. destruct (has_iss_entry tleData); [exact Hd|].
  destruct (result iss) as [e | [|] [t | e]]; try exact Hd.
  apply parse_iss_text_ok, Hd.
Qed.

Lemma tle_group_ok (amateur : http_reply) (tleData : gmap string TleEntry) :
  tle_group (gmap string TleEntry) ∅ parse_amateur amateur = Some tleData ->
  tle_data_ok tleData.
Proof.
  unfold tle_group.
  destruct (result amateur) as [e | [|] [page | e]]; intros [= <-];
    [apply parse_amateur_ok|..]; apply tle_data_ok_empty.
Qed.

(** X23. What [/api/satellites/tle] answers with and caches. Every key
    of the object is a key of [HAM_SATELLITES] and comes with the
    properties of that satellite. Its two lines have passed the checks of
    the loop (they start with [1 ] and [2 ], and the five characters after
    [1 ] read as the NORAD number of the satellite), with one exception:
    the ISS entry, which the second request fills with the second and the
    third line of whatever text it gets. This holds of the answer and of
    the cache after every request, if it held of the cache before, as it
    does when the server starts. *)
Theorem tle_entries_are_known_satellites (amateur iss : http_reply)
    (w : world (TleCache.t (gmap string TleEntry))) :
  tle_data_ok (default ∅ (TleCache.data (store w))) ->
  exists data w',
    satellites_tle_route amateur iss w = (Ok (Reply 200 data), w') /\
    tle_data_ok data /\
    tle_data_ok (default ∅ (TleCache.data (store w'))).
Proof.
  intros Hok. unfold satellites_tle_route. rewrite satellites_tle_run.
  destruct (tle_fresh _ _ _) as [data|] eqn:Ef.
  - eexists _, _. split; [reflexivity|]. split; [|exact Hok].
    unfold tle_fresh in Ef. destruct (TleCache.data (store w)) as [cached|]; [|discriminate].
    destruct (_ <? _); [|discriminate]. injection Ef as <-. exact Hok.
  - destruct (tle_group _ _ _ _) as [tleData|] eqn:Eg.
    + cbv zeta. eexists _, _. split; [reflexivity|].
      cbn [store TleCache.data default].
      split; apply tle_with_iss_ok; eapply tle_group_ok; exact Eg.
    + eexists _, _. split; [reflexivity|]. cbn [store]. split; exact Hok.
Qed.

(** The route at work: the amateur group brings AO-91, and the second
    request, answered with a text that is no TLE set, fills the ISS entry
    with its second and third line. *)
Lemma iss_entry_is_not_checked :
  let line1 := "1 43017U 17073E   24001.50000000  .00001000  00000-0  10000-3 0  9991" in
  let line2 := "2 43017  97.6000 100.0000 0250000 200.0000 160.0000 14.80000000300000" in
  let amateur := HttpReply 400 (Resolved true (Ok (unlines ["FOX-1B"; line1; line2]))) in
  let iss := HttpReply 200 (Resolved true (Ok (unlines ["404"; "Not"; "Found"]))) in
  fst (satellites_tle_route amateur iss (World 0 [] TleCache.init)) =
    Ok (Reply 200
          (<["ISS" := {| satellite := iss_satellite; tle1 := "Not"; tle2 := "Found" |}]>
             (<["AO-91" := {| satellite :=
                                {| norad := 43017; satellite_name := "AO-91 (Fox-1B)";
                                   color := "#ff6600"; priority := 2 |};
                              tle1 := line1; tle2 := line2 |}]> ∅))).
Proof. vm_compute. reflexivity. Qed.

Lemma tle_entries_are_known_satellites_witness :
  let line1 := "1 43017U 17073E   24001.50000000  .00001000  00000-0  10000-3 0  9991" in
  let line2 := "2 43017  97.6000 100.0000 0250000 200.0000 160.0000 14.80000000300000" in
  let amateur := HttpReply 400 (Resolved true (Ok (unlines ["FOX-1B"; line1; line2]))) in
  let iss := HttpReply 200 (Resolved true (Ok (unlines ["404"; "Not"; "Found"]))) in
  let w := World 0 [] TleCache.init in
  tle_data_ok (default ∅ (TleCache.data (store (snd (satellites_tle_route amateur iss w))))).
Proof.
  cbv zeta.
  match goal with |- tle_data_ok (default ∅ (TleCache.data (store (snd
                       (satellites_tle_route ?a ?i ?w))))) =>
    destruct (tle_entries_are_known_satellites a i w tle_data_ok_empty)
      as (data & w' & Hrun & _ & Hok) end.
  rewrite Hrun. exact Hok.
Defined.

Lemma dxpeditions_fails_only_before_first_result_witness :
  let parse : Z -> string -> outcome string := fun _ page => Ok page in
  let down := HttpReply 300 (Resolved false (Ok "Service Unavailable")) in
  let empty := World 0 [] (DxpeditionCache.Make None 0 (30 * 60 * 1000)) in
  let stale := World 1800000 [] (DxpeditionCache.Make (Some "TG") 0 (30 * 60 * 1000)) in
  fst (dxpeditions string parse down empty)
    = Ok (Reply 500 (Failed "Failed to fetch DXpedition data")) /\
  fst (dxpeditions string parse down stale) = Ok (Reply 200 (Stale "TG")) /\
  DxpeditionCache.data (store (snd (dxpeditions string parse down stale))) <> None.
Proof.
  cbv zeta. split; [|split].
  - match goal with |- fst (dxpeditions _ ?p ?r ?w) = _ =>
      destruct (dxpeditions_fails_only_before_first_result string p r w)
        as (answer & w' & Hrun & H500 & _) end.
    assert (Hs : status answer = 500)
      by (apply H500; split; vm_compute; reflexivity).
    rewrite Hrun. cbn [fst]. rewrite dxpeditions_run in Hrun. vm_compute in Hrun.
    injection Hrun as <- _. reflexivity.
  - vm_compute. reflexivity.
  - match goal with |- DxpeditionCache.data (store (snd (dxpeditions _ ?p ?r ?w))) <> None =>
      destruct (dxpeditions_fails_only_before_first_result string p r w)
        as (answer & w' & Hrun & _ & _ & _ & _ & Hkeep) end.
    rewrite Hrun. cbn [snd]. apply Hkeep. discriminate.
Defined.

(* ===================================================================== *)
(** * The login and the prompt *)
(* ===================================================================== *)

Lemma starts_with_app (needle a b : string) :
  starts_with needle a = true -> starts_with needle (a +:+ b) = true.
Proof.
  revert a. induction needle as [|c needle IH]; intros a H; [reflexivity|].
  destruct a as [|x a]; [discriminate|].
  rewrite string_app_cons. cbn [starts_with] in *.
  apply andb_prop in H as [-> H]. cbn [andb]. apply IH, H.
Qed.

Lemma includes_app (needle a b : string) :
  includes needle a = true -> includes needle (a +:+ b) = true.
Proof.
  induction a as [|x a IH]; intros H.
  - cbn [includes] in H. rewrite orb_false_r in H.
    apply (starts_with_app needle "" b) in H. rewrite string_app_nil in *.
    destruct b; cbn [includes]; rewrite H; reflexivity.
  - rewrite string_app_cons. cbn [includes] in *.
    apply orb_prop in H as [H | H].
    + apply (starts_with_app needle (String x a) b) in H.
      rewrite string_app_cons in H. rewrite H. reflexivity.
    + rewrite (IH H). apply orb_true_r.
Qed.

Lemma has_prompt_app (a b : string) :
  has_prompt a = true -> has_prompt (a +:+ b) = true.
Proof.
  unfold has_prompt. intros H.
  apply orb_prop in H as [H | H]; [apply orb_prop in H as [H | H]|];
    rewrite (includes_app _ a b H); rewrite ?orb_true_r; reflexivity.
Qed.

Lemma on_data_login st data :
  Session.loginSent st = has_prompt (Session.buffer st) ->
  Session.loginSent (on_data st data) = has_prompt (Session.buffer (on_data st data)).
Proof.
  intros Hinv. rewrite on_data_buffer. unfold on_data.
  fold (has_prompt (Session.buffer st +:+ data)).
  destruct (Session.loginSent st) eqn:El; cbn [negb andb].
  - symmetry in Hinv. rewrite (has_prompt_app _ data Hinv).
    destruct (_ && _); reflexivity.
  - destruct (has_prompt (Session.buffer st +:+ data)); [reflexivity|].
    reflexivity.
Qed.

(** X24. The login follows the prompt, however the node cuts its text
    into [data] events: after any sequence of events, [GUEST] has been
    sent exactly when the text received so far holds one of the three
    login prompts. A prompt that arrives in two pieces is recognised when
    the second piece arrives. *)
Theorem login_follows_the_prompt (chunks : list string) :
  Session.loginSent (run_session chunks) = has_prompt (received chunks) /\
  (has_prompt (received chunks) = true ->
   In login_line (Session.written (run_session chunks))).
Proof.
  assert (Hinv : forall cs st,
            Session.loginSent st = has_prompt (Session.buffer st) ->
            Session.loginSent (fold_left on_data cs st)
              = has_prompt (Session.buffer (fold_left on_data cs st))).
  { induction cs as [|c cs IH]; intros st H; [exact H|].
    simpl. apply IH, on_data_login, H. }
  assert (Hl : Session.loginSent (run_session chunks) = has_prompt (received chunks)).
  { unfold run_session. rewrite (Hinv chunks Session.init eq_refl).
    rewrite session_buffer. reflexivity. }
  split; [exact Hl|]. intros Hp. rewrite <- Hl in Hp.
  destruct (session_dialogue chunks Session.init dialogue_init) as [_ Hh].
  fold (run_session chunks) in Hh. rewrite Hp in Hh.
  assert (Hin : In login_line (handshake (run_session chunks) ++
                               Session.scheduled (run_session chunks)))
    by (rewrite Hh; left; reflexivity).
  apply in_app_or in Hin. destruct Hin as [Hin | Hin].
  - unfold handshake in Hin. apply filter_In in Hin. apply Hin.
  - apply session_schedules_command in Hin. discriminate Hin.
Qed.

Lemma login_follows_the_prompt_witness :
  has_prompt (received ["Welcome"; " to the node. log"; "in: "]) = true /\
  In login_line (Session.written (run_session ["Welcome"; " to the node. log"; "in: "])).
Proof.
  split; [reflexivity|].
  apply (proj2 (login_follows_the_prompt ["Welcome"; " to the node. log"; "in: "])).
  reflexivity.
Defined.

(* ===================================================================== *)
(** * The calendar of the major contests *)
(* ===================================================================== *)

Lemma getNthWeekendOfMonth_run y m n :
  year_ok y -> 0 <= m <= 11 -> 1 <= n <= 4 ->
  getNthWeekendOfMonth y m n = Some (month_day y m (first_saturday y m + 7 * (n - 1))).
Proof.
  intros Hy Hm Hn.
  assert (Hk : 0 <= first_saturday y m <= 6)
    by (unfold first_saturday; Z.div_mod_to_equations; lia).
  unfold getNthWeekendOfMonth. rewrite Date_UTC_first by assumption.
  pose proof (nth_weekend_loop_run y m n Hy Hm Hn 32 0 ltac:(lia) ltac:(lia)) as H.
  replace ((0 + 6 - first_saturday y m) / 7) with 0 in H
    by (Z.div_mod_to_equations; lia).
  exact H.
Qed.

Lemma getLastWeekendOfMonth_run y m :
  year_ok y -> 0 <= m <= 11 ->
  getLastWeekendOfMonth y m
    = Some (month_day y m (DaysInMonth y m - 1 - back_to_saturday y m)).
Proof.
  intros Hy Hm.
  assert (Hb : 0 <= back_to_saturday y m <= 6)
    by (unfold back_to_saturday; Z.div_mod_to_equations; lia).
  unfold getLastWeekendOfMonth. rewrite Date_UTC_last by assumption.
  pose proof (last_weekend_loop_run y m Hy Hm 7 0 ltac:(lia) ltac:(lia)) as H.
  rewrite Z.sub_0_r in H. exact H.
Qed.

Lemma weekend_day_range c y :
  major_ok c -> 0 <= weekend_day c y < DaysInMonth y (Major.month c).
Proof.
  intros (Hm & Hw & _). unfold weekend_day.
  pose proof (DaysInMonth_bounds y (Major.month c)).
  assert (0 <= back_to_saturday y (Major.month c) <= 6)
    by (unfold back_to_saturday; Z.div_mod_to_equations; lia).
  assert (0 <= first_saturday y (Major.month c) <= 6)
    by (unfold first_saturday; Z.div_mod_to_equations; lia).
  destruct (Z.eqb_spec (Major.weekend c) (-1)); lia.
Qed.

Lemma weekend_day_start c y :
  major_ok c ->
  weekend_start c y ((MakeDay y (Major.month c) 1 + weekend_day c y) * msPerDay).
Proof.
  intros Hc. pose proof (weekend_day_range c y Hc) as Hr.
  destruct Hc as (Hm & Hw & _).
  destruct (day_in_month y (Major.month c) (weekend_day c y) Hm Hr 0
              ltac:(unfold msPerDay; lia)) as (H1 & H2 & H3 & H4).
  rewrite Z.add_0_r in H1, H2, H3, H4.
  unfold weekend_start. rewrite H1, H2, H3.
  assert (Hb : 0 <= back_to_saturday y (Major.month c) <= 6)
    by (unfold back_to_saturday; Z.div_mod_to_equations; lia).
  assert (Hk : 0 <= first_saturday y (Major.month c) <= 6)
    by (unfold first_saturday; Z.div_mod_to_equations; lia).
  split; [|split; [|split; [reflexivity | split; [reflexivity|]]]].
  - unfold WeekDay. rewrite H4. unfold weekend_day.
    destruct (Z.eqb_spec (Major.weekend c) (-1)).
    + unfold back_to_saturday, WeekDay, Day.
      replace ((MakeDay y (Major.month c) 1 + DaysInMonth y (Major.month c) - 1)
               * msPerDay / msPerDay)
        with (MakeDay y (Major.month c) 1 + DaysInMonth y (Major.month c) - 1)
        by (unfold msPerDay; Z.div_mod_to_equations; lia).
      Z.div_mod_to_equations. lia.
    + unfold first_saturday, WeekDay, Day.
      replace (MakeDay y (Major.month c) 1 * msPerDay / msPerDay)
        with (MakeDay y (Major.month c) 1)
        by (unfold msPerDay; Z.div_mod_to_equations; lia).
      Z.div_mod_to_equations. lia.
  - unfold TimeWithinDay, msPerDay. Z.div_mod_to_equations. lia.
  - unfold weekend_day. destruct (Z.eqb_spec (Major.weekend c) (-1)); lia.
Qed.

Lemma major_occurrence_run now c y :
  year_ok y -> major_ok c ->
  let t := (MakeDay y (Major.month c) 1 + weekend_day c y) * msPerDay in
  major_occurrence now c y =
    Some (Ok (if now <? t + Qnum (Major.duration c) * msPerHour
              then Some (major_entry now c t) else None)).
Proof.
  intros Hy Hc t. pose proof (weekend_day_range c y Hc) as Hr.
  pose proof (DaysInMonth_bounds y (Major.month c)) as Hlen.
  destruct Hc as (Hm & Hw & Hden & Hnum).
  unfold major_occurrence, major_entry.
  assert (Hstart :
    (if Major.weekend c =? -1
     then getLastWeekendOfMonth y (Major.month c)
     else getNthWeekendOfMonth y (Major.month c) (Major.weekend c))
    = Some (month_day y (Major.month c) (weekend_day c y))).
  { unfold weekend_day. destruct (Z.eqb_spec (Major.weekend c) (-1)).
    - apply getLastWeekendOfMonth_run; assumption.
    - apply getNthWeekendOfMonth_run; [assumption | assumption | lia]. }
  rewrite Hstart. cbv zeta.
  assert (Hmid : setUTCHours (month_day y (Major.month c) (weekend_day c y)) 0 0 0 0 = Some t).
  { unfold month_day, setUTCHours, MakeDate, MakeTime, TimeClip. fold t.
    replace (Day t) with (MakeDay y (Major.month c) 1 + weekend_day c y)
      by (unfold t, Day, msPerDay; Z.div_mod_to_equations; lia).
    replace ((MakeDay y (Major.month c) 1 + weekend_day c y) * msPerDay +
             (0 * msPerHour + 0 * msPerMinute + 0 * msPerSecond + 0)) with t
      by (unfold t; lia).
    pose proof (MakeDay_range y (Major.month c) (weekend_day c y) Hy Hm ltac:(lia)) as Hr'.
    fold t in Hr'. apply Z.leb_le in Hr'. rewrite Hr'. reflexivity. }
  rewrite Hmid. unfold plus_hours. cbn [fmap option_fmap option_map].
  destruct (Major.duration c) as [hours den]. cbn [Qnum Qden] in *. subst den.
  assert (Hend : Date_of_number (inject_Z t + (hours # 1) * 3600000)
                 = Some (t + hours * msPerHour)).
  { unfold Date_of_number. cbn [Qnum Qden Qplus Qmult inject_Z].
    change (Z.pos (1 * (1 * 1))) with 1. change (Z.pos (1 * 1)) with 1.
    replace (Z.quot _ _) with (t + hours * msPerHour)
      by (apply Z.quot_unique_exact; unfold msPerHour; lia).
    unfold TimeClip.
    pose proof (MakeDay_range y (Major.month c) (weekend_day c y + 4) Hy Hm ltac:(lia)) as H4.
    pose proof (MakeDay_range y (Major.month c) (weekend_day c y) Hy Hm ltac:(lia)) as H0.
    fold t in H0.
    replace (Z.abs _ <=? 8640000000000000) with true; [reflexivity|].
    symmetry. apply Z.leb_le. unfold t, msPerDay, msPerHour in *. lia. }
  rewrite Hend. cbn [Date_gt Date_ge Date_le toISOString].
  destruct (Z.ltb_spec now (t + hours * msPerHour)) as [Hlt|Hge]; [|reflexivity].
  cbn [Qnum].
  do 4 f_equal.
  destruct (Z.leb_spec t now), (Z.leb_spec now (t + hours * msPerHour));
    cbn [andb]; try reflexivity; lia.
Qed.

(** X25. The callback of [majorContests.forEach] returns, for an entry
    whose fields are in range and a year [year] such that [year] and
    [year + 1] are years of time values, whatever the time [now]. The
    two occurrences it tries start at the midnight, UTC, of the Saturday
    that the entry names (the first to the fourth of the month, or the
    last), in [year] and in [year + 1]. It pushes the occurrence of
    [year] if that ends after [now]; else the occurrence of [year + 1]
    if that ends after [now]; else nothing. The element pushed ends
    [duration] hours after it starts, and it is [active] when it has
    started, [upcoming] else. *)
Theorem major_contest_is_its_next_weekend (now year : Z) (c : Major.t) :
  year_ok year -> year_ok (year + 1) -> major_ok c ->
  exists t0 t1,
    weekend_start c year t0 /\ weekend_start c (year + 1) t1 /\
    major_next now year c =
      Some (Ok (if now <? t0 + Qnum (Major.duration c) * msPerHour
                then Some (major_entry now c t0)
                else if now <? t1 + Qnum (Major.duration c) * msPerHour
                     then Some (major_entry now c t1)
                     else None)).
Proof.
  intros Hy Hy1 Hc.
  exists ((MakeDay year (Major.month c) 1 + weekend_day c year) * msPerDay),
         ((MakeDay (year + 1) (Major.month c) 1 + weekend_day c (year + 1)) * msPerDay).
  split; [apply weekend_day_start, Hc|]. split; [apply weekend_day_start, Hc|].
  unfold major_next.
  rewrite (major_occurrence_run now c year Hy Hc). cbv zeta.
  destruct (now <? _); [reflexivity|].
  apply (major_occurrence_run now c (year + 1) Hy1 Hc).
Qed.

Lemma major_contest_is_its_next_weekend_witness :
  let c := Major.Make "CQ WW DX SSB" 9 (-1) 48 "SSB" in
  major_next 1793620800000 2026 c =
    Some (Ok (Some (Contest.Make "CQ WW DX SSB" 1824854400000 1825027200000 "SSB" "upcoming"))) /\
  exists t0 t1, weekend_start c 2026 t0 /\ weekend_start c 2027 t1.
Proof.
  cbv zeta. split; [vm_compute; reflexivity|].
  destruct (major_contest_is_its_next_weekend 1793620800000 2026
              (Major.Make "CQ WW DX SSB" 9 (-1) 48 "SSB"))
    as (t0 & t1 & H0 & H1 & _).
  - unfold year_ok. lia.
  - unfold year_ok. lia.
  - unfold major_ok. cbn. repeat split; lia.
  - exists t0, t1. split; [exact H0 | exact H1].
Defined.

Lemma major_next_listed now year c :
  year_ok year -> year_ok (year + 1) -> major_ok c ->
  exists r, major_next now year c = Some (Ok r) /\
            forall x, r = Some x -> listed now x.
Proof.
  intros Hy Hy1 Hc. unfold major_next.
  rewrite (major_occurrence_run now c year Hy Hc). cbv zeta.
  assert (Hl : forall t, now < t + Qnum (Major.duration c) * msPerHour ->
                         listed now (major_entry now c t)).
  { intros t Ht. unfold listed, major_entry. cbn [Contest.end_ Contest.status Contest.start].
    split; [lia | reflexivity]. }
  destruct (Z.ltb_spec now
              ((MakeDay year (Major.month c) 1 + weekend_day c year) * msPerDay
               + Qnum (Major.duration c) * msPerHour)) as [H0|H0].
  - eexists. split; [reflexivity|]. intros x [= <-]. apply Hl, H0.
  - rewrite (major_occurrence_run now c (year + 1) Hy1 Hc). cbv zeta.
    destruct (Z.ltb_spec now
                ((MakeDay (year + 1) (Major.month c) 1 + weekend_day c (year + 1)) * msPerDay
                 + Qnum (Major.duration c) * msPerHour)) as [H1|H1].
    + eexists. split; [reflexivity|]. intros x [= <-]. apply Hl, H1.
    + eexists. split; [reflexivity|]. intros x [=].
Qed.

Lemma major_all_run now year l :
  year_ok year -> year_ok (year + 1) -> Forall major_ok l ->
  exists ms, major_all now year l = Some (Ok ms) /\ Forall (listed now) ms.
Proof.
  intros Hy Hy1. induction 1 as [|c l Hc Hl IH].
  - exists []. split; [reflexivity | constructor].
  - destruct (major_next_listed now year c Hy Hy1 Hc) as (r & Hr & Hx).
    destruct IH as (ms & Hms & Hall).
    exists (option_list r ++ ms)%list. split.
    + cbn [major_all]. rewrite Hr, Hms. reflexivity.
    + apply List.Forall_app. split; [|exact Hall].
      destruct r as [x|]; cbn [option_list]; constructor; [apply Hx; reflexivity | constructor].
Qed.

Lemma majorContests_ok : Forall major_ok majorContests.
Proof.
  unfold majorContests, major_ok.
  repeat (constructor; [cbn; repeat apply conj; try lia; auto|]).
  constructor.
Qed.

Lemma weekly_all_run now l :
  now_ok now -> Forall weekly_ok l ->
  exists ws, weekly_all now l = Ok ws /\ length ws = length l /\
             Forall (fun c => listed now c /\ ~ week_ahead now c) ws.
Proof.
  intros Hnow. induction 1 as [|c l Hc Hl IH].
  - exists []. repeat split. constructor.
  - destruct (weekly_occurrence_run now c Hnow Hc) as (t & e & Hrun & Ht & _ & _ & He).
    destruct IH as (ws & Hws & Hlen & Hall).
    eexists. cbn [weekly_all]. rewrite Hrun, Hws. split; [reflexivity|].
    split; [cbn [length]; now rewrite Hlen|].
    constructor; [|exact Hall].
    unfold listed, week_ahead. cbn [Contest.end_ Contest.status Contest.start].
    split; [split; [lia|] | lia].
    destruct (Z.eqb_spec now t), (Z.leb_spec t now); try reflexivity; lia.
Qed.

(** ** The sort *)

Section SortFacts.
Context {A : Type}.
Variable start : A -> Z.

Lemma insert_by_start_perm (c : A) l : insert_by_start start c l ≡ₚ c :: l.
Proof.
  induction l as [|x l IH]; cbn [insert_by_start]; [reflexivity|].
  destruct (start c <=? start x); [reflexivity|].
  rewrite IH. apply Permutation_swap.
Qed.

Lemma sort_by_start_perm l : sort_by_start start l ≡ₚ l.
Proof.
  induction l as [|x l IH]; cbn [sort_by_start foldr]; [reflexivity|].
  fold (sort_by_start start l). rewrite insert_by_start_perm. now rewrite IH.
Qed.

Lemma insert_by_start_sorted (c : A) l :
  StronglySorted Z.le (List.map start l) ->
  StronglySorted Z.le (List.map start (insert_by_start start c l)).
Proof.
  induction l as [|x l IH]; cbn [insert_by_start List.map]; intros Hs.
  - repeat constructor.
  - inversion Hs as [|? ? Hs' Hall]; subst.
    destruct (Z.leb_spec (start c) (start x)) as [Hle|Hgt]; cbn [List.map].
    + constructor; [exact Hs|]. constructor; [exact Hle|].
      eapply List.Forall_impl; [|exact Hall]. cbn. intros. lia.
    + constructor; [apply IH, Hs'|].
      apply List.Forall_forall. intros z Hz.
      apply List.in_map_iff in Hz. destruct Hz as (a & <- & Ha).
      apply (Permutation_in _ (insert_by_start_perm c l)) in Ha.
      destruct Ha as [<- | Ha]; [lia|].
      rewrite List.Forall_forall in Hall. apply Hall, List.in_map, Ha.
Qed.

Lemma sort_by_start_sorted l : StronglySorted Z.le (List.map start (sort_by_start start l)).
Proof.
  induction l as [|x l IH]; cbn [sort_by_start foldr]; [constructor|].
  apply insert_by_start_sorted, IH.
Qed.

(** In a sorted list, the elements below a bound come first. *)
Lemma sorted_split (b : Z) l :
  StronglySorted Z.le (List.map start l) ->
  exists early late, l = (early ++ late)%list /\
    Forall (fun x => start x < b) early /\ Forall (fun x => b <= start x) late.
Proof.
  induction l as [|x l IH]; cbn [List.map]; intros Hs.
  - exists [], []. repeat split; constructor.
  - inversion Hs as [|? ? Hs' Hall]; subst.
    destruct (Z.lt_ge_cases (start x) b) as [Hlt|Hge].
    + destruct (IH Hs') as (early & late & -> & He & Hl).
      exists (x :: early), late. repeat split; [constructor; assumption | assumption].
    + exists [], (x :: l). repeat split; [constructor|].
      constructor; [exact Hge|].
      apply List.Forall_forall. intros a Ha.
      rewrite List.Forall_forall in Hall. pose proof (Hall _ (List.in_map start _ _ Ha)). lia.
Qed.
End SortFacts.

Lemma early_first {A} (start : A -> Z) (b : Z) (ws ms l : list A) :
  l ≡ₚ (ws ++ ms)%list ->
  StronglySorted Z.le (List.map start l) ->
  Forall (fun x => start x < b) ws ->
  forall (i : nat) x, l !! i = Some x -> b <= start x -> (length ws <= i)%nat.
Proof.
  intros Hperm Hs Hws i x Hi Hx.
  destruct (sorted_split start b l Hs) as (early & late & -> & He & Hl).
  assert (Hlen : (length ws <= length early)%nat).
  { assert (Hf : filter (fun x => start x < b) (early ++ late)%list
                 ≡ₚ filter (fun x => start x < b) (ws ++ ms)%list) by now rewrite Hperm.
    apply Permutation_length in Hf.
    rewrite !filter_app, !length_app in Hf.
    assert (E1 : filter (fun x => start x < b) early = early).
    { clear -He. induction He as [|y l Hy _ IH]; [reflexivity|].
      rewrite filter_cons_True by exact Hy. now rewrite IH. }
    assert (E2 : filter (fun x => start x < b) late = []).
    { clear -Hl. induction Hl as [|y l Hy _ IH]; [reflexivity|].
      rewrite filter_cons_False by lia. exact IH. }
    assert (E3 : filter (fun x => start x < b) ws = ws).
    { clear -Hws. induction Hws as [|y l Hy _ IH]; [reflexivity|].
      rewrite filter_cons_True by exact Hy. now rewrite IH. }
    rewrite E1, E2, E3 in Hf. cbn [length] in Hf. lia. }
  destruct (Nat.lt_ge_cases i (length early)) as [Hlt|Hge]; [|lia].
  rewrite lookup_app_l in Hi by exact Hlt.
  rewrite Forall_lookup in He. pose proof (He i x Hi). lia.
Qed.

Lemma take_sorted {A} (start : A -> Z) (n : nat) (l : list A) :
  StronglySorted Z.le (List.map start l) ->
  StronglySorted Z.le (List.map start (take n l)).
Proof.
  revert n. induction l as [|x l IH]; intros n Hs; destruct n; cbn; try constructor.
  - inversion Hs; subst. apply IH. assumption.
  - inversion Hs as [|? ? _ Hall]; subst.
    apply List.Forall_forall. intros z Hz.
    apply List.in_map_iff in Hz. destruct Hz as (a & <- & Ha).
    rewrite List.Forall_forall in Hall. apply Hall, List.in_map.
    apply list_elem_of_In. apply list_elem_of_In in Ha.
    exact (subseteq_take n l a Ha).
Qed.

Lemma calendar_parts (offset now : Z) :
  now_ok now ->
  year_ok (getFullYear offset now) -> year_ok (getFullYear offset now + 1) ->
  exists ws ms,
    calculateUpcomingContests offset now =
      Some (Ok (slice0 15 (sort_by_start Contest.start (ws ++ ms)%list))) /\
    length ws = 13%nat /\
    Forall (fun c => listed now c /\ ~ week_ahead now c) ws /\
    Forall (listed now) ms.
Proof.
  intros Hnow Hy Hy1.
  destruct (weekly_all_run now weeklyContests Hnow weeklyContests_ok)
    as (ws & Hws & Hlen & Hall).
  destruct (major_all_run now (getFullYear offset now) majorContests Hy Hy1 majorContests_ok)
    as (ms & Hms & Hlisted).
  exists ws, ms. unfold calculateUpcomingContests. rewrite Hws. cbv zeta. rewrite Hms.
  auto.
Qed.

Lemma calendar_length (ws ms : list Contest.t) :
  length ws = 13%nat ->
  (13 <= length (slice0 15 (sort_by_start Contest.start (ws ++ ms)%list)) <= 15)%nat.
Proof.
  intros Hlen. unfold slice0.
  rewrite length_take, (Permutation_length (sort_by_start_perm Contest.start _)), length_app.
  lia.
Qed.

(** X26. [calculateUpcomingContests] returns, at a time [now] that is
    twelve days within the range of time values, in a local year such
    that it and the next are years of time values. The list has thirteen
    to fifteen contests, in the order of their starts. None of them has
    ended before [now], and each is [active] when it has started,
    [upcoming] else. A contest that starts a week from [now], or later,
    is at the place 13 or 14 of the list, counted from 0: the thirteen
    weekly contests are before it, so that at most two such contests are
    listed. *)
Theorem calendar_is_sorted_and_current (offset now : Z) :
  now_ok now ->
  year_ok (getFullYear offset now) -> year_ok (getFullYear offset now + 1) ->
  exists l,
    calculateUpcomingContests offset now = Some (Ok l) /\
    (13 <= length l <= 15)%nat /\
    StronglySorted Z.le (List.map Contest.start l) /\
    Forall (listed now) l /\
    forall (i : nat) c, l !! i = Some c -> week_ahead now c -> (13 <= i)%nat.
Proof.
  intros Hnow Hy Hy1.
  destruct (calendar_parts offset now Hnow Hy Hy1) as (ws & ms & Hrun & Hlen & Hall & Hlisted).
  eexists. split; [exact Hrun|]. split; [apply calendar_length, Hlen|].
  set (sorted := sort_by_start Contest.start (ws ++ ms)%list).
  pose proof (sort_by_start_perm Contest.start (ws ++ ms)%list) as Hperm. fold sorted in Hperm.
  pose proof (sort_by_start_sorted Contest.start (ws ++ ms)%list) as Hsorted.
  fold sorted in Hsorted. unfold slice0.
  split; [|split].
  - apply take_sorted, Hsorted.
  - apply Forall_take. rewrite Hperm. apply Forall_app. split; [|exact Hlisted].
    eapply List.Forall_impl; [|exact Hall]. cbn. tauto.
  - intros i c Hi Hc.
    rewrite <- Hlen.
    apply (early_first Contest.start (now + 7 * msPerDay) ws ms sorted Hperm Hsorted) with c.
    + eapply List.Forall_impl; [|exact Hall]. unfold week_ahead. cbn. intros a [_ Ha]. lia.
    + apply lookup_take_Some in Hi. tauto.
    + exact Hc.
Qed.

Lemma calendar_is_sorted_and_current_witness :
  now_ok 1793620800000 /\
  exists l, calculateUpcomingContests 0 1793620800000 = Some (Ok l) /\
            StronglySorted Z.le (List.map Contest.start l) /\ Forall (listed 1793620800000) l.
Proof.
  assert (Hnow : now_ok 1793620800000) by (unfold now_ok, msPerDay; lia).
  split; [exact Hnow|].
  destruct (calendar_is_sorted_and_current 0 1793620800000 Hnow)
    as (l & Hl & _ & Hs & Hall & _).
  - assert (getFullYear 0 1793620800000 = 2026) as -> by (vm_compute; reflexivity).
    unfold year_ok. lia.
  - assert (getFullYear 0 1793620800000 = 2026) as -> by (vm_compute; reflexivity).
    unfold year_ok. lia.
  - exists l. auto.
Defined.

(* ===================================================================== *)
(** * The feed of contests and its route *)
(* ===================================================================== *)

Lemma lit_then_reads {R} (l : string) (k : string -> option R) : forall s r,
  lit_then l k s = Some r -> exists s', s = l +:+ s' /\ k s' = Some r.
Proof.
  induction l as [|c l IH]; intros s r; cbn [lit_then].
  - intros H. exists s. split; [reflexivity | exact H].
  - unfold one. destruct s as [|c' s]; [discriminate|].
    unfold chr at 1. destruct (Ascii.eqb_spec c' c) as [->|]; [|discriminate].
    intros H. apply IH in H. destruct H as (s' & -> & Hk).
    exists s'. split; [reflexivity | exact Hk].
Qed.

Lemma item_at_reads s g rest :
  item_at s = Some (g, rest) ->
  s = "<item>" +:+ g +:+ "</item>" +:+ rest.
Proof.
  unfold item_at. intros H.
  apply lit_then_reads in H. destruct H as (body & -> & H).
  apply star_lazy_reads in H. destruct H as (s1 & close & -> & _ & _ & H).
  apply lit_then_reads in H. destruct H as (rest' & -> & H).
  injection H as <- <-.
  rewrite substring_read. reflexivity.
Qed.

Lemma item_exec_shorter s : forall g rest,
  item_exec s = Some (g, rest) -> (String.length rest < String.length s)%nat.
Proof.
  induction s as [|c s IH]; intros g rest; cbn [item_exec].
  - destruct (item_at "") as [[g' rest']|] eqn:E; [|discriminate].
    apply item_at_reads in E. discriminate.
  - destruct (item_at (String c s)) as [[g' rest']|] eqn:E.
    + intros [= -> ->]. apply item_at_reads in E. rewrite E.
      rewrite !string_app_length. cbn [String.length]. lia.
    + intros H. apply IH in H. cbn [String.length]. lia.
Qed.

Lemma items_loop_total : forall fuel s,
  (String.length s < fuel)%nat -> exists l, items_loop fuel s = Some l.
Proof.
  induction fuel as [|fuel IH]; intros s Hs; [lia|].
  cbn [items_loop]. destruct (item_exec s) as [[g rest]|] eqn:E.
  - apply item_exec_shorter in E.
    destruct (IH rest ltac:(lia)) as (l & ->). eexists. reflexivity.
  - eexists. reflexivity.
Qed.

Lemma items_total xml : exists l, items xml = Some l.
Proof. apply items_loop_total. lia. Qed.

Lemma parseContestRSS_total offset now xml :
  exists r, parseContestRSS offset now xml = Some r.
Proof.
  unfold parseContestRSS. cbv zeta. destruct (items_total xml) as (l & ->).
  destruct (feed_contests _ _ l); eexists; reflexivity.
Qed.

Lemma months_range name mo : months name = Some mo -> 0 <= mo <= 11.
Proof.
  unfold months.
  repeat match goal with |- context [if ?c then _ else _] => destruct c end;
    intros [= <-]; lia.
Qed.

(** A day of a month at a time of the day, as [Date.UTC] makes it. *)
Lemma Date_UTC_at year mo d h mi :
  year_ok year -> 0 <= mo <= 11 -> 1 <= d <= DaysInMonth year mo ->
  0 <= h < 24 -> 0 <= mi < 60 ->
  let t := (MakeDay year mo 1 + (d - 1)) * msPerDay + (h * msPerHour + mi * msPerMinute) in
  Date_UTC year mo d h mi 0 = Some t /\ at_utc t year mo d h mi /\
  Day t = MakeDay year mo 1 + (d - 1).
Proof.
  intros Hy Hmo Hd Hh Hmi t.
  assert (Htod : 0 <= h * msPerHour + mi * msPerMinute < msPerDay)
    by (unfold msPerHour, msPerMinute, msPerDay; lia).
  pose proof (DaysInMonth_bounds year mo) as Hlen.
  destruct (day_in_month year mo (d - 1) Hmo ltac:(lia) _ Htod) as (H1 & H2 & H3 & H4).
  fold t in H1, H2, H3, H4.
  split; [|split; [|exact H4]].
  - unfold Date_UTC, MakeFullYear, MakeDate, MakeTime, TimeClip.
    replace ((0 <=? year) && (year <=? 99)) with false
      by (symmetry; apply andb_false_iff; right; apply Z.leb_gt; unfold year_ok in Hy; lia).
    replace (MakeDay year mo d) with (MakeDay year mo 1 + (d - 1)) by (unfold MakeDay; lia).
    replace (h * msPerHour + mi * msPerMinute + 0 * msPerSecond + 0)
      with (h * msPerHour + mi * msPerMinute) by lia.
    fold t.
    pose proof (MakeDay_range year mo (d - 1) Hy Hmo ltac:(lia)) as Hr0.
    pose proof (MakeDay_range year mo (d - 1 + 1) Hy Hmo ltac:(lia)) as Hr1.
    replace (Z.abs t <=? 8640000000000000) with true; [reflexivity|].
    symmetry. apply Z.leb_le. unfold t, msPerDay in *. lia.
  - unfold at_utc. rewrite H1, H2, H3. repeat split; try lia.
    unfold TimeWithinDay, t. unfold msPerDay in *. Z.div_mod_to_equations. lia.
Qed.

(** X30. The range form, as [1300Z, Jan 31 to 1300Z, Feb 1]. When the
    groups of four digits are times of the day and the words name days
    of months, [parseContestDateTime] gives the start at the day and
    time written, UTC, in the year [year] that it is called with,
    whatever the month; and the end at the day and time written, in
    [year + 1] for a range from December to January or February, in
    [year] else. *)
Theorem range_is_dated_in_the_current_year
    (desc : string) (year : Z) (m : gmap nat string)
    (mo1 d1 h1 mi1 mo2 d2 h2 mi2 : Z) :
  year_ok year -> year_ok (year + 1) ->
  re_match range_re desc = Some m ->
  clock_time (group m 1) h1 mi1 -> day_of (group m 2) (group m 3) year mo1 d1 ->
  clock_time (group m 4) h2 mi2 ->
  day_of (group m 5) (group m 6) (end_year year mo1 mo2) mo2 d2 ->
  exists s e,
    parseContestDateTime desc year = Some {| parsed_start := Some s; parsed_end := Some e |} /\
    at_utc s year mo1 d1 h1 mi1 /\ at_utc e (end_year year mo1 mo2) mo2 d2 h2 mi2.
Proof.
  set (endYear := end_year year mo1 mo2).
  intros Hy Hy1 Hm (Hh1 & Hmi1 & Hh1r & Hmi1r) (Hmo1 & Hd1 & Hd1r)
         (Hh2 & Hmi2 & Hh2r & Hmi2r) (Hmo2 & Hd2 & Hd2r).
  pose proof (months_range _ _ Hmo1) as Hr1. pose proof (months_range _ _ Hmo2) as Hr2.
  assert (Hye : year_ok endYear) by (unfold endYear, end_year; destruct (_ && _); assumption).
  destruct (Date_UTC_at year mo1 d1 h1 mi1 Hy Hr1 Hd1r Hh1r Hmi1r) as (Hs & Hsat & _).
  destruct (Date_UTC_at endYear mo2 d2 h2 mi2 Hye Hr2 Hd2r Hh2r Hmi2r) as (He & Heat & _).
  eexists _, _. split; [|split; [exact Hsat | exact Heat]].
  unfold parseContestDateTime. rewrite Hm. unfold parse_range. cbv zeta.
  rewrite Hmo1, Hmo2, Hd1, Hd2, Hh1, Hmi1, Hh2, Hmi2.
  cbn [Date_UTC_of gt_num lt_num].
  replace (10 <? mo1) with (mo1 =? 11)
    by (destruct (Z.eqb_spec mo1 11), (Z.ltb_spec 10 mo1); try reflexivity; lia).
  fold (end_year year mo1 mo2). fold endYear. rewrite Hs, He. reflexivity.
Qed.

Lemma range_is_dated_in_the_current_year_witness :
  parseContestDateTime "1500Z, Dec 31 to 1500Z, Jan 1" 2026 =
    Some {| parsed_start := Some 1798729200000; parsed_end := Some 1798815600000 |} /\
  exists s e,
    parseContestDateTime "1500Z, Dec 31 to 1500Z, Jan 1" 2026 =
      Some {| parsed_start := Some s; parsed_end := Some e |} /\
    YearFromTime s = 2026 /\ YearFromTime e = 2027.
Proof.
  split; [vm_compute; reflexivity|].
  destruct (range_is_dated_in_the_current_year "1500Z, Dec 31 to 1500Z, Jan 1" 2026
              (default ∅ (re_match range_re "1500Z, Dec 31 to 1500Z, Jan 1"))
              11 31 15 0 0 1 15 0)
    as (s & e & Hp & (Hs & _) & (He & _)).
  - unfold year_ok. lia.
  - unfold year_ok. lia.
  - vm_compute. reflexivity.
  - split; [vm_compute; reflexivity|]. split; [vm_compute; reflexivity | lia].
  - split; [vm_compute; reflexivity|]. split; [vm_compute; reflexivity|].
    assert (DaysInMonth 2026 11 = 31) as -> by (vm_compute; reflexivity). lia.
  - split; [vm_compute; reflexivity|]. split; [vm_compute; reflexivity | lia].
  - split; [vm_compute; reflexivity|]. split; [vm_compute; reflexivity|].
    assert (DaysInMonth (end_year 2026 11 0) 0 = 31) as -> by (vm_compute; reflexivity). lia.
  - exists s, e. split; [exact Hp|]. split; [exact Hs | exact He].
Defined.

(** X29. The same-day form, as [0000Z-2359Z, Jan 31]. When the
    description is not in the range form, the two groups of four digits
    are times of the day and the words name a day of a month of the
    year, [parseContestDateTime] gives a start at that day and time,
    UTC, and an end after the start and a day after it at most: the
    first time after the start at which the clock shows the second time.
    An end that is not after the start on the same day is taken on the
    next day. *)
Theorem same_day_ends_after_it_starts
    (desc : string) (year : Z) (m : gmap nat string) (mo d h1 mi1 h2 mi2 : Z) :
  year_ok year ->
  re_match range_re desc = None ->
  re_match same_day_re desc = Some m ->
  clock_time (group m 1) h1 mi1 -> clock_time (group m 2) h2 mi2 ->
  day_of (group m 3) (group m 4) year mo d ->
  exists s e,
    parseContestDateTime desc year = Some {| parsed_start := Some s; parsed_end := Some e |} /\
    at_utc s year mo d h1 mi1 /\
    s < e <= s + msPerDay /\
    TimeWithinDay e = h2 * msPerHour + mi2 * msPerMinute.
Proof.
  intros Hy Hno Hm (Hh1 & Hmi1 & Hh1r & Hmi1r) (Hh2 & Hmi2 & Hh2r & Hmi2r) (Hmo & Hd & Hdr).
  pose proof (months_range _ _ Hmo) as Hr.
  destruct (Date_UTC_at year mo d h1 mi1 Hy Hr Hdr Hh1r Hmi1r) as (Hs & Hsat & _).
  destruct (Date_UTC_at year mo d h2 mi2 Hy Hr Hdr Hh2r Hmi2r) as (He & Heat & Heday).
  set (day := MakeDay year mo 1 + (d - 1)) in *.
  set (s := day * msPerDay + (h1 * msPerHour + mi1 * msPerMinute)) in *.
  set (e0 := day * msPerDay + (h2 * msPerHour + mi2 * msPerMinute)) in *.
  assert (Htod1 : 0 <= h1 * msPerHour + mi1 * msPerMinute < msPerDay)
    by (unfold msPerHour, msPerMinute, msPerDay; lia).
  assert (Htod2 : 0 <= h2 * msPerHour + mi2 * msPerMinute < msPerDay)
    by (unfold msPerHour, msPerMinute, msPerDay; lia).
  assert (Hparse : parseContestDateTime desc year =
                   Some {| parsed_start := Some s;
                           parsed_end := if e0 <=? s
                                         then setUTCDate (Some e0) (Some (DateFromTime e0 + 1))
                                         else Some e0 |}).
  { unfold parseContestDateTime. rewrite Hno, Hm. unfold parse_same_day. cbv zeta.
    rewrite Hmo, Hd, Hh1, Hmi1, Hh2, Hmi2. cbn [Date_UTC_of].
    rewrite Hs, He. cbn [Date_le getUTCDate plus_num fmap option_fmap option_map].
    reflexivity. }
  rewrite Hparse.
  destruct (Z.leb_spec e0 s) as [Hle|Hgt].
  - exists s, (e0 + msPerDay). split; [|split; [exact Hsat|]].
    + do 2 f_equal. unfold setUTCDate. rewrite MakeDay_back. unfold MakeDate, TimeClip.
      destruct Heat as (_ & _ & _ & Htw). rewrite Htw, Heday.
      replace ((day + 1) * msPerDay + (h2 * msPerHour + mi2 * msPerMinute))
        with (e0 + msPerDay) by (unfold e0; lia).
      pose proof (DaysInMonth_bounds year mo) as Hlen.
      pose proof (MakeDay_range year mo (d - 1) Hy Hr ltac:(lia)) as Hr0.
      pose proof (MakeDay_range year mo (d - 1 + 2) Hy Hr ltac:(lia)) as Hr2.
      replace (Z.abs _ <=? 8640000000000000) with true; [reflexivity|].
      symmetry. apply Z.leb_le. unfold e0, day, msPerDay in *. lia.
    + split; [unfold s, e0 in *; lia|].
      destruct Heat as (_ & _ & _ & Htw). unfold TimeWithinDay in *.
      rewrite <- Htw. unfold msPerDay. Z.div_mod_to_equations. lia.
  - exists s, e0. split; [reflexivity|]. split; [exact Hsat|].
    split; [unfold s, e0 in *; lia|]. apply Heat.
Qed.

Lemma same_day_ends_after_it_starts_witness :
  parseContestDateTime "2300Z-0100Z, Dec 5" 2026 =
    Some {| parsed_start := Some 1796511600000; parsed_end := Some 1796518800000 |} /\
  exists s e,
    parseContestDateTime "2300Z-0100Z, Dec 5" 2026 =
      Some {| parsed_start := Some s; parsed_end := Some e |} /\ s < e.
Proof.
  split; [vm_compute; reflexivity|].
  destruct (same_day_ends_after_it_starts "2300Z-0100Z, Dec 5" 2026
              (default ∅ (re_match same_day_re "2300Z-0100Z, Dec 5")) 11 5 23 0 1 0)
    as (s & e & Hp & _ & Hlt & _).
  - unfold year_ok. lia.
  - vm_compute. reflexivity.
  - vm_compute. reflexivity.
  - split; [vm_compute; reflexivity|]. split; [vm_compute; reflexivity | lia].
  - split; [vm_compute; reflexivity|]. split; [vm_compute; reflexivity | lia].
  - split; [vm_compute; reflexivity|]. split; [vm_compute; reflexivity|].
    assert (DaysInMonth 2026 11 = 31) as -> by (vm_compute; reflexivity). lia.
  - exists s, e. split; [exact Hp | lia].
Defined.

Lemma contests_of_feed_run {S} (offset : Z -> Z) (r : http_reply) (w : world S) :
  contests_of_feed offset r w =
    (Ok (Some (feed_of offset (clock w + latency r) r)),
     World (clock w + latency r) (trace w ++ [Fetch contests_url])%list (store w)).
Proof.
  unfold contests_of_feed, feed_of.
  destruct (result r) as [e | [|] [text|e]] eqn:Hr.
  - run_js. rewrite Hr. reflexivity.
  - destruct (parseContestRSS_total (offset (clock w + latency r)) (clock w + latency r) text)
      as (p & Hp).
    run_js. rewrite Hr. simpl. rewrite Hp.
    destruct p as [[|c cs]|e]; reflexivity.
  - run_js. rewrite Hr. reflexivity.
  - run_js. rewrite Hr. reflexivity.
  - run_js. rewrite Hr. reflexivity.
Qed.

Lemma contests_route_run {S} (offset : Z -> Z) (r : http_reply) (w : world S) :
  let now := clock w + latency r in
  now_ok now ->
  year_ok (getFullYear (offset now) now) -> year_ok (getFullYear (offset now) now + 1) ->
  exists calculated,
    calculateUpcomingContests (offset now) now = Some (Ok calculated) /\
    (13 <= length calculated)%nat /\
    contests_route offset r w =
      (Ok (Some (res_json (match feed_of offset now r with
                           | Some contests => List.map FromFeed contests
                           | None => List.map Calculated calculated
                           end))),
       World now (trace w ++ [Fetch contests_url])%list (store w)).
Proof.
  intros now Hnow Hy Hy1.
  destruct (calendar_parts (offset now) now Hnow Hy Hy1) as (ws & ms & Hl & Hlen & _).
  eexists. split; [exact Hl|]. split; [apply calendar_length, Hlen|].
  unfold contests_route, bind. rewrite contests_of_feed_run. fold now.
  destruct (feed_of offset now r) as [contests|]; [reflexivity|].
  unfold contests_calculated, try_catch, bind, date_now. cbn [clock]. fold now.
  rewrite Hl. reflexivity.
Qed.

Lemma feed_contests_throws now year item e : forall l,
  In item l -> feed_contest now year item = Throw e ->
  exists e', feed_contests now year l = Throw e'.
Proof.
  induction l as [|x l IH]; intros Hin He; [destruct Hin|].
  cbn [feed_contests]. destruct Hin as [-> | Hin].
  - rewrite He. eexists. reflexivity.
  - destruct (feed_contest now year x); [|eexists; reflexivity].
    destruct (IH Hin He) as (e' & ->). eexists. reflexivity.
Qed.

Lemma unknown_month_throws now year item title description m :
  tag_text "title" item = Some title ->
  tag_text "description" item = Some description ->
  re_match range_re (trim description) = Some m ->
  months (toLowerCase (group m 2)) = None \/ months (toLowerCase (group m 5)) = None ->
  exists e, feed_contest now year item = Throw e.
Proof.
  intros Ht Hd Hm Hmon. unfold feed_contest. cbv zeta. rewrite Ht, Hd.
  unfold parseContestDateTime. rewrite Hm. unfold parse_range. cbv zeta.
  cbn [parsed_start parsed_end].
  destruct Hmon as [-> | Hmon].
  - cbn [Date_UTC_of toISOString]. eexists. reflexivity.
  - destruct (toISOString (Date_UTC_of year (months (toLowerCase (group m 2))) _ _ _));
      [|eexists; reflexivity].
    rewrite Hmon.
    replace (if gt_num (months (toLowerCase (group m 2))) 10 && lt_num None 2
             then year + 1 else year) with year
      by (cbn [lt_num]; rewrite andb_false_r; reflexivity).
    cbn [Date_UTC_of toISOString]. eexists. reflexivity.
Qed.

(** X27. [GET /api/contests] always answers, under the conditions of
    X26 on the time [now] when the reply of the feed has come: with the
    status 200 and a list that is never empty, after one request, to the
    feed. The list is what the feed gives when it gives a contest, and
    the calculated contests in every other case: the last
    [res.json([])] of the handler is not reached. *)
Theorem contests_route_always_lists {S} (offset : Z -> Z) (r : http_reply) (w : world S) :
  let now := clock w + latency r in
  now_ok now ->
  year_ok (getFullYear (offset now) now) -> year_ok (getFullYear (offset now) now + 1) ->
  exists calculated body,
    calculateUpcomingContests (offset now) now = Some (Ok calculated) /\
    contests_route offset r w =
      (Ok (Some (Reply 200 body)),
       World now (trace w ++ [Fetch contests_url])%list (store w)) /\
    body = match feed_of offset now r with
           | Some contests => List.map FromFeed contests
           | None => List.map Calculated calculated
           end /\
    body <> [].
Proof.
  intros now Hnow Hy Hy1.
  destruct (contests_route_run offset r w Hnow Hy Hy1) as (calculated & Hcalc & Hlen & Hrun).
  fold now in Hcalc, Hrun.
  exists calculated. eexists. split; [exact Hcalc|]. split; [exact Hrun|].
  split; [reflexivity|].
  destruct (feed_of offset now r) as [contests|] eqn:Hfeed.
  - unfold feed_of in Hfeed.
    destruct (result r) as [e | [|] [text|e]]; try discriminate.
    destruct (parseContestRSS _ _ _) as [[[|c cs]|e]|]; try discriminate.
    injection Hfeed as <-. discriminate.
  - destruct calculated; [cbn in Hlen; lia | discriminate].
Qed.

Lemma contests_route_always_lists_witness :
  let r := HttpReply 250 (Rejected aborted) in
  let w := World 1793620800000 [] tt in
  exists body w',
    contests_route (fun _ => 3600000) r w = (Ok (Some (Reply 200 body)), w') /\ body <> [].
Proof.
  cbv zeta.
  destruct (contests_route_always_lists (fun _ => 3600000) (HttpReply 250 (Rejected aborted))
              (World 1793620800000 [] tt))
    as (calculated & body & _ & Hrun & _ & Hne).
  - unfold now_ok, msPerDay. cbn. lia.
  - assert (getFullYear 3600000 (1793620800000 + 250) = 2026) as E by (vm_compute; reflexivity).
    cbn [clock latency]. rewrite E. unfold year_ok. lia.
  - assert (getFullYear 3600000 (1793620800000 + 250) = 2026) as E by (vm_compute; reflexivity).
    cbn [clock latency]. rewrite E. unfold year_ok. lia.
  - exists body. eexists. split; [exact Hrun | exact Hne].
Defined.

(** X28. One item is enough for the route to drop the whole feed. When
    an item of the feed has a title and a description in the range form,
    and one of the two words for the months is not among the twelve
    abbreviations [jan] to [dec], in any case of the letters, then the
    date is invalid, [toISOString] throws in [parseContestRSS], and the
    route answers with the calculated contests, whatever the other items
    of the feed are. *)
Theorem unknown_month_drops_the_feed {S} (offset : Z -> Z) (r : http_reply) (w : world S)
    (text item title description : string) (l : list string) (m : gmap nat string) :
  let now := clock w + latency r in
  now_ok now ->
  year_ok (getFullYear (offset now) now) -> year_ok (getFullYear (offset now) now + 1) ->
  result r = Resolved true (Ok text) ->
  items text = Some l -> In item l ->
  tag_text "title" item = Some title ->
  tag_text "description" item = Some description ->
  re_match range_re (trim description) = Some m ->
  months (toLowerCase (group m 2)) = None \/ months (toLowerCase (group m 5)) = None ->
  exists calculated,
    calculateUpcomingContests (offset now) now = Some (Ok calculated) /\
    contests_route offset r w =
      (Ok (Some (Reply 200 (List.map Calculated calculated))),
       World now (trace w ++ [Fetch contests_url])%list (store w)).
Proof.
  intros now Hnow Hy Hy1 Hr Hitems Hin Ht Hd Hm Hmon.
  destruct (contests_route_run offset r w Hnow Hy Hy1) as (calculated & Hcalc & _ & Hrun).
  fold now in Hcalc, Hrun.
  exists calculated. split; [exact Hcalc|]. rewrite Hrun.
  replace (feed_of offset now r) with (@None (list FeedContest.t)); [reflexivity|].
  unfold feed_of. rewrite Hr. unfold parseContestRSS. cbv zeta. rewrite Hitems.
  destruct (unknown_month_throws now (getFullYear (offset now) now) item title description m
              Ht Hd Hm Hmon) as (e & He).
  destruct (feed_contests_throws _ _ _ _ l Hin He) as (e' & ->). reflexivity.
Qed.

Lemma unknown_month_drops_the_feed_witness :
  let good := "<title>CWops Mini-CWT Test</title><description>1300Z-1400Z, Sep 2</description>" in
  let bad := "<title>Fall Sprint</title><description>1300Z, Sept 3 to 1300Z, Sept 4</description>" in
  let text := "<rss><item>" +:+ good +:+ "</item><item>" +:+ bad +:+ "</item></rss>" in
  let r := HttpReply 250 (Resolved true (Ok text)) in
  let w := World 1788000000000 [] tt in
  items text = Some [good; bad] /\
  exists calculated w',
    contests_route (fun _ => 0) r w = (Ok (Some (Reply 200 (List.map Calculated calculated))), w').
Proof.
  cbv zeta. split; [vm_compute; reflexivity|].
  destruct (unknown_month_drops_the_feed (fun _ => 0)
              (HttpReply 250 (Resolved true (Ok
                 ("<rss><item>" +:+
                  "<title>CWops Mini-CWT Test</title><description>1300Z-1400Z, Sep 2</description>"
                  +:+ "</item><item>" +:+
                  "<title>Fall Sprint</title><description>1300Z, Sept 3 to 1300Z, Sept 4</description>"
                  +:+ "</item></rss>"))))
              (World 1788000000000 [] tt)
              ("<rss><item>" +:+
               "<title>CWops Mini-CWT Test</title><description>1300Z-1400Z, Sep 2</description>"
               +:+ "</item><item>" +:+
               "<title>Fall Sprint</title><description>1300Z, Sept 3 to 1300Z, Sept 4</description>"
               +:+ "</item></rss>")
              "<title>Fall Sprint</title><description>1300Z, Sept 3 to 1300Z, Sept 4</description>"
              "Fall Sprint" "1300Z, Sept 3 to 1300Z, Sept 4"
              ["<title>CWops Mini-CWT Test</title><description>1300Z-1400Z, Sep 2</description>";
               "<title>Fall Sprint</title><description>1300Z, Sept 3 to 1300Z, Sept 4</description>"]
              (default ∅ (re_match range_re "1300Z, Sept 3 to 1300Z, Sept 4")))
    as (calculated & _ & Hrun).
  - unfold now_ok, msPerDay. cbn. lia.
  - assert (getFullYear 0 (1788000000000 + 250) = 2026) as E by (vm_compute; reflexivity).
    cbn [clock latency]. rewrite E. unfold year_ok. lia.
  - assert (getFullYear 0 (1788000000000 + 250) = 2026) as E by (vm_compute; reflexivity).
    cbn [clock latency]. rewrite E. unfold year_ok. lia.
  - reflexivity.
  - vm_compute. reflexivity.
  - right. left. reflexivity.
  - vm_compute. reflexivity.
  - vm_compute. reflexivity.
  - vm_compute. reflexivity.
  - left. vm_compute. reflexivity.
  - exists calculated. eexists. exact Hrun.
Defined.
